(* ===== verification/_CoqProject ===== *)
-Q . S2P
Prelude.v
CString.v
Posix.v
Session.v
Converse.v
FdPass.v
Echo.v
Handoff.v
Failover.v
Rpc.v
Heap.v
Crc.v
Hamming.v
Nfs.v
Packet.v
Studio.v
Tickets.v
Fifo.v
MidServices.v
Transfers.v
Service.v
ChatServers.v
SumServer.v
FifoChat.v
Stdio.v
AllInOne.v
Exchanges.v
Terminals.v
RawMessages.v
LogServers.v
Trains.v
Station.v
Registry.v
