(* ===== verification/Prelude.v ===== *)
(** * A verification library for a collection of network programs in C

    The repository holds more than a hundred small programs: error-correcting codes, a
    heap sort, remote procedure calls, raw packets, and servers that talk over
    sockets, named pipes, shared memory and signals.  The programs of a
    directory form a system: they call each other through the kernel, pass
    descriptors, and share counters.  This library models the systems whose
    processes keep state or compute something, each from its source, and
    proves what they do, the errors of the code included.

    ** How the programs are modelled

    - Arrays (this file).  A C array is a list with its length; [aget]/[aset]
      give [None] outside of it, [iget]/[iset] also for an indeterminate cell.
      [int] overflow is [None] ([int_of], [int_add], [int_mul]); unsigned
      types wrap ([u8], [u16], [u32]); [htons] swaps the bytes.  [for_up] is a
      counted loop, [loop] a loop with [break] and fuel, in any monad.
    - Strings ([CString]).  A character array is a list of cells that may be
      indeterminate; [strcpy], [sprintf], [atoi], ... return [None] where the C
      functions are undefined.
    - Processes ([Posix]).  A process is a tree of calls; what follows a call is
      a function of the kernel's reply.  [Undef] is undefined behaviour, [Halt]
      is [exit].  [run] executes a process against a list of replies.  A server
      that loops for ever is observed for [n] rounds ([forever]); every theorem
      holds for all [n].  [wp] is a program logic for properties of all
      executions, whatever the kernel replies ([wp_sound]).
    - Conversations ([Session]).  [plays w Q p ls]: when the watched calls are
      answered as the labels [ls] say, [p] makes exactly those calls and ends
      as [Q] says; [plays_sound] ties this to [run], [delivers_reads] ties what
      one process sends to what another one receives.  Output to the terminal,
      [sleep] and [unlink] are not watched in most sessions.
    - Two processes at the ends of a connection ([Converse]).  A party is a
      process with what its kernel may answer; bytes travel in two buffers.  A
      [send] queues all its bytes and a [recv] of [n] bytes takes [n] once they
      are queued.  [parts_converse]: when both play dual parts of a
      script, every interleaving follows it, is free of deadlock, and goes on.
      [loose_step] adds the short transfers a stream socket may make, which the
      programs do not handle ([breakable]).
    - Threads and processes that share memory are transition systems whose
      steps are single accesses ([Service.step], [LogServers.Log.shm_step]);
      invariants hold in every reachable state, under every interleaving.

    ** The files, the code they model, and what their theorems show

    - [Heap]: [mid/heap.c].  [Insert] and [DeleteMin] on the array, with the
      loops as steps with fuel.  They implement a priority queue on
      well-formed heaps (refinement), the program sorts and terminates, and
      the loop of [Insert] runs forever on [INT_MIN].
    - [Crc]: [errcorrection/crc1.c], [crc.c].  The shift register equals the
      division over GF(2); the receiver accepts exactly the frames without a
      detectable burst; improper generators are refused.  [crc.c] runs into
      undefined behaviour on all data.
    - [Hamming]: [errcorrection/hamming.cpp], [first.cpp], [first.c].  The
      program builds a codeword and finds the inverted bit, for up to 11 data
      bits; from 12 on it overruns an array.  Parity of [first.cpp].
    - [Nfs]: [rpc/nfs/nfs_server.c], [nfs_client.c].  Every server procedure on
      every branch, the client's command dispatch, round trip of modes, error
      paths.  [Rpc]: the addition, array sum, square and list services.
    - [Packet]: [tcp_injection/TCP-Packet-Injection.c] (headers, checksums, one
      frame), [rawsockets/basic/server.c] and [client.c] (the displaced
      headers), [newclient.c] (the packet logger: its trace is determined by the
      packets, each followed by its report, and it stays in its buffer).
    - [FdPass]: the copies of [send_file_descriptor], [recv_file_descriptor] and
      [error_func] every descriptor-passing program has.
    - [Echo]: the clients and servers of [mid/socketbasic], [mid/multithreaded],
      [mid/prethreaded], [end/unixsock], [unixsockets/basic] and
      [unixsockets/tss], as conversations.
    - [Handoff]: the loops that accept clients for threads ([mid/multithreaded],
      [unixsockets/tss]), who serves whom when the threads read a shared
      variable, and the polls of [end/conserver] and [end/sockets].
    - [Failover]: [unixsockets/bs].  The server's table; the two signal handlers
      hand all connections over to the backup (termination and result under
      every interleaving); the conversation of a client survives it.
    - [MidServices]: [mid/tss], the services and the client of [mid/mss],
      [mid/ss], and the super servers [mid/inetd] and [mid/superserver].
    - [Transfers]: the datagrams of [mid/udp] and [end/udp], and the file
      transfers of [ftp], with [fscanf] and its end-of-file indicator.
    - [Studio]: [c137261@nitwstudios], seven processes.  The director serves
      requests until a sixth set or actor is granted, which overflows its
      arrays; what [script.c] sends it reads with roles swapped; the producer
      pays what it is given; the schedule of the permissions; the lookup
      services.
    - [Tickets]: [unixsockets/csemulti].  The three counters with their
      capacities and the overflow chain, the dispatcher.
    - [Trains]: [rawsockets/trainmain].  The station master's platforms.
    - [Station]: [exam/4], an earlier station over fifos: announcements, the
      platform every train is told, trains and platforms.
    - [Fifo]: what the servers of [select_servers] share.  [Service]:
      [serviceserver], two threads under every interleaving (invariant, a
      request is answered within a bounded number of turns, which server is
      chosen, what a release frees), the start, the client.  [ChatServers]: the
      servers of [select_servers/chatserver] and [chatserver].  [LogServers]:
      [multiserver] (a budget that holds in all executions) and [logserver]
      (concurrent claims of a fifo; which fifos are read).
    - [SumServer]: [multiserver], a server that takes requests apart and starts
      a program that adds, from the request that is typed to the sum that is
      printed; [selectservers/multiserver], its variant on [select].
    - [FifoChat]: [logserver] and [chatserver/client.c]; the chat server of
      [selectservers] does exactly what the one on [poll] does (equivalence).
    - [Stdio]: [mid/superserver], [end/dupserver], [end/selectserver]: programs
      that are executed with a connection as standard output, which waits in a
      buffer ([stdio], [stdio_plays]).
    - [AllInOne]: [allinone], [exam/3], [selectservers/allinone],
      [select_servers/allinoneserver]: servers of several sources.
    - [Exchanges]: [sockets], [programs/sockets] with [concurrentserver] and
      [iss/client.c], the programs of [mid/inetd], [unixsockets/printserver].
    - [Terminals]: the clients in [select_servers], and what they talk to.
    - [RawMessages]: [rawsockets/raw1], [raw2], [train], [basic]: texts behind
      IP headers (round trip of [raw2]), and where headers are mistaken.
    - [Registry]: [mid/mss/server.c].  Services that register and clients that
      ask, over any sequence of rounds.

    ** Bounds and fuel

    Fuel occurs in loops that are not structural.  [Heap]: the theorems give
    the fuel that suffices, and show for [INT_MIN] that none does.  [Crc],
    [Hamming], [Packet]: the loops run over arrays, and the theorems show that
    a result is reached.  [Trains.Sm.find_platform] needs 4 rounds for 3
    platforms.  [Transfers.serve_file] gives its loop one round more than the
    file has characters, which is enough since every round reads one.
    [SumServer.arguments] runs eleven rounds: the eleventh would store outside
    of the array of ten.  [Stdio.spill] has as many rounds as there are
    characters; [DupServer.scan] bounds how often the input is read, and the
    theorem holds from one on, for input that comes in one piece.
    [Service.service_answers] bounds the turns of the writing
    thread by [count + 6].  Sizes of arrays are those of the declarations.

    ** What is assumed

    Nothing about the kernel beyond what a theorem states: the theorems on
    sessions say which replies they are about, [kernel_reads] and
    [kernel_polls] ([Posix]) are named where they are used.  A call that sends
    30 bytes of a shorter literal is modelled as the call with the object the
    literal is; what the receiver gets beyond the object is arbitrary.  A
    thread of a server that only echoes is started by a [PthreadCreate] call
    and has its body as a process of its own.  Memory is sequentially
    consistent.

    ** What is not modelled

    The stubs rpcgen generated; files that are copies of others
    ([programs/mid], [sockets1], [multiserver/server.c], [exam/5/allinone] and
    two servers of [selectservers]); programs that do not compile
    ([exam/5/server.c], [rawsockets/trainmain/advert.c], [iss/mainserver.c]) or
    end after [listen] ([mid/permserver]); snippets of a few lines that try out
    a call or print one text.  Of a program with several threads the sessions
    are those of each thread, except where [Service], [Handoff] and
    [LogServers] interleave them; that a flag is written by one thread and
    polled by another without synchronisation ([select_servers/multiserver])
    is not modelled.  The kernel's scheduling of several processes on one
    terminal is left open. *)

From stdpp Require Export base tactics option list strings numbers decidable.
From Stdlib Require Export ZArith Lia.

#[global] Open Scope Z_scope.


(** ** C arrays

    A C array of known length is a list.  Reading or writing outside of it is
    undefined behaviour, here [None]. *)

Definition aget {A} (l : list A) (i : Z) : option A :=
  if decide (0 ≤ i) then l !! Z.to_nat i else None.

Definition aset {A} (l : list A) (i : Z) (x : A) : option (list A) :=
  if decide (0 ≤ i < Z.of_nat (length l)) then Some (<[Z.to_nat i := x]> l) else None.


(** [int] arrays with automatic storage: [None] is an indeterminate cell. *)
Definition iget (l : list (option Z)) (i : Z) : option Z := aget l i ≫= id.
Definition iset (l : list (option Z)) (i x : Z) : option (list (option Z)) := aset l i (Some x).

Create HintDb carr.

Section arrays.
Context {A : Type}.
Implicit Types (l : list A) (i j : Z) (x : A).

Lemma aget_nat l (n : nat) : aget l (Z.of_nat n) = l !! n.
Proof. unfold aget. case_decide; [by rewrite Nat2Z.id | lia]. Qed.

Lemma aget_Some_range l i x : aget l i = Some x → 0 ≤ i < Z.of_nat (length l).
Proof.
  unfold aget. case_decide; [|done]. intros Hx%lookup_lt_Some. lia.
Qed.

Lemma aget_lookup l i x : aget l i = Some x → l !! Z.to_nat i = Some x.
Proof. unfold aget. by case_decide. Qed.

Lemma aget_is_Some l i : 0 ≤ i < Z.of_nat (length l) → ∃ x, aget l i = Some x.
Proof.
  intros [??]. unfold aget. case_decide; [|lia].
  apply lookup_lt_is_Some_2. lia.
Qed.

Lemma aget_None l i : i < 0 ∨ Z.of_nat (length l) ≤ i → aget l i = None.
Proof.
  intros H. unfold aget. case_decide; [|done].
  apply lookup_ge_None_2. lia.
Qed.

Lemma aset_Some l i x :
  0 ≤ i < Z.of_nat (length l) → aset l i x = Some (<[Z.to_nat i := x]> l).
Proof. intros H. unfold aset. by rewrite decide_True by done. Qed.

Lemma aset_None l i x : i < 0 ∨ Z.of_nat (length l) ≤ i → aset l i x = None.
Proof. intros H. unfold aset. rewrite decide_False by lia. done. Qed.

Lemma aset_inv l l' i x :
  aset l i x = Some l' →
  0 ≤ i < Z.of_nat (length l) ∧ l' = <[Z.to_nat i := x]> l.
Proof. unfold aset. case_decide; intros; simplify_eq; done. Qed.

Lemma aset_length l l' i x : aset l i x = Some l' → length l' = length l.
Proof. intros [_ ->]%aset_inv. apply length_insert. Qed.

Lemma aget_aset_eq l l' i x : aset l i x = Some l' → aget l' i = Some x.
Proof.
  intros [? ->]%aset_inv. unfold aget. rewrite decide_True by lia.
  apply list_lookup_insert_eq. lia.
Qed.

Lemma aget_aset_ne l l' i j x : i ≠ j → aset l i x = Some l' → aget l' j = aget l j.
Proof.
  intros ? [? ->]%aset_inv. unfold aget. case_decide; [|done].
  apply list_lookup_insert_ne. lia.
Qed.

Lemma aget_aset l l' i j x :
  aset l i x = Some l' → aget l' j = if decide (i = j) then Some x else aget l j.
Proof.
  intros Hs. case_decide; subst; [by eapply aget_aset_eq|by eapply aget_aset_ne].
Qed.
End arrays.

#[export] Hint Resolve aget_Some_range aset_length aget_aset_eq : carr.

Lemma iget_iset b b' i j x :
  iset b i x = Some b' → iget b' j = if decide (i = j) then Some x else iget b j.
Proof.
  unfold iget, iset. intros E. rewrite (aget_aset _ _ _ j _ E). by case_decide.
Qed.

Lemma iset_Some b i x : 0 ≤ i < Z.of_nat (length b) → ∃ b', iset b i x = Some b' ∧ length b' = length b.
Proof.
  intros H. eexists. unfold iset. rewrite aset_Some by done. split; [done|]. apply length_insert.
Qed.

(** ** Counted loops

    [for_up lo hi body] is [for (i = lo; i < hi; i++) body] for a body that
    does not assign [i], in any monad. *)
Section loops.
Context {M : Type → Type} `{MRet M, MBind M} {S : Type}.

Fixpoint for_n (n : nat) (i : Z) (body : Z → S → M S) (s : S) : M S :=
  match n with
  | O => mret s
  | Datatypes.S n' => body i s ≫= for_n n' (i + 1) body
  end.

Definition for_up (lo hi : Z) (body : Z → S → M S) (s : S) : M S :=
  for_n (Z.to_nat (hi - lo)) lo body s.

Lemma for_up_first (lo hi : Z) (body : Z → S → M S) (s : S) :
  lo < hi → for_up lo hi body s = body lo s ≫= for_up (lo + 1) hi body.
Proof.
  intros Hlt. unfold for_up. replace (Z.to_nat (hi - lo)) with (Datatypes.S (Z.to_nat (hi - (lo + 1)))) by lia. done.
Qed.

(** A loop with [break]: [inl] is the state of a loop still running after [n]
    rounds, [inr] the value it was left with. *)
Fixpoint loop {A} (n : nat) (body : S → M (S + A)%type) (s : S) : M (S + A)%type :=
  match n with
  | O => mret (inl s)
  | Datatypes.S n' =>
      body s ≫= λ x, match x with inl s' => loop n' body s' | inr a => mret (inr a) end
  end.
End loops.

(** The invariant rule of counted loops in the option monad: a body that
    always succeeds and maintains [I] gives a loop that succeeds. *)
Lemma for_n_Some {S} (I : Z → S → Prop) (n : nat) (lo : Z) body (s : S) :
  (∀ i s, lo ≤ i < lo + Z.of_nat n → I i s → ∃ s', body i s = Some s' ∧ I (i + 1) s') →
  I lo s → ∃ s', for_n (M := option) n lo body s = Some s' ∧ I (lo + Z.of_nat n) s'.
Proof.
  revert lo s. induction n as [|n IH]; intros lo s Hb HI.
  - exists s. split; [done|]. by rewrite Z.add_0_r.
  - destruct (Hb lo s) as (s1 & Hs1 & HI1); [lia|done|].
    destruct (IH (lo + 1) s1) as (s' & Hs' & HI').
    + intros i s2 Hi. apply Hb. lia.
    + done.
    + exists s'. split; [simpl; by rewrite Hs1|].
      by rewrite Nat2Z.inj_succ, <- Z.add_succ_comm.
Qed.

Lemma for_up_Some {S} (I : Z → S → Prop) (lo hi : Z) body (s : S) :
  lo ≤ hi →
  (∀ i s, lo ≤ i < hi → I i s → ∃ s', body i s = Some s' ∧ I (i + 1) s') →
  I lo s → ∃ s', for_up (M := option) lo hi body s = Some s' ∧ I hi s'.
Proof.
  intros Hle Hb HI. unfold for_up.
  destruct (for_n_Some I (Z.to_nat (hi - lo)) lo body s) as (s' & ? & HI'); [|done|].
  - intros i s1 Hi. apply Hb. lia.
  - exists s'. split; [done|]. rewrite Z2Nat.id in HI' by lia.
    by rewrite Zplus_minus in HI'.
Qed.

(** The partial version: what holds of the result of a loop that did not fail. *)
Lemma for_up_inv {S} (I : Z → S → Prop) (lo hi : Z) body (s s' : S) :
  (∀ i s s', lo ≤ i < hi → I i s → body i s = Some s' → I (i + 1) s') →
  I lo s → for_up (M := option) lo hi body s = Some s' → I (lo `max` hi) s'.
Proof.
  intros Hb HI. unfold for_up. set (n := Z.to_nat (hi - lo)).
  assert (lo `max` hi = lo + Z.of_nat n) as -> by lia.
  assert (∀ i s s', lo ≤ i < lo + Z.of_nat n → I i s → body i s = Some s' → I (i + 1) s') as Hb'
    by (intros i t t' ?; apply Hb; lia). clear Hb. clearbody n. revert lo s HI Hb'.
  induction n as [|n IH]; intros lo s HI Hb; simpl.
  - intros [= ->]. by rewrite Z.add_0_r.
  - destruct (body lo s) as [s1|] eqn:E; [|done]. simpl. intros Hr.
    replace (lo + Z.of_nat (Datatypes.S n)) with (lo + 1 + Z.of_nat n) by lia.
    apply (IH (lo + 1) s1); [eapply Hb; [lia|done|done]| |done].
    intros i t t' ?. apply Hb. lia.
Qed.

(** A loop in the option monad whose body maintains [I] and decreases [v]. *)
Lemma loop_dec {S A} (I : S → Prop) (Q : A → Prop) (v : S → Z) (n : nat) (body : S → option (S + A)) s :
  (∀ s, I s → (∃ s', body s = Some (inl s') ∧ I s' ∧ 0 ≤ v s' < v s) ∨ (∃ a, body s = Some (inr a) ∧ Q a)) →
  I s → v s < Z.of_nat n → (∀ s, I s → 0 ≤ v s) → ∃ a, loop n body s = Some (inr a) ∧ Q a.
Proof.
  intros Hb HI Hv Hpos. revert s HI Hv. induction n as [|n IH]; intros s HI Hv.
  - specialize (Hpos s HI). lia.
  - destruct (Hb s HI) as [(s' & Hs & HI' & Hlt)|(a & Hs & HQ)]; simpl; rewrite Hs; simpl; [|eauto].
    apply IH; [done|lia].
Qed.

Lemma loop_inv {S A} (I : S → Prop) (Q : A → Prop) (n : nat) (body : S → option (S + A)) s a :
  (∀ s s', I s → body s = Some (inl s') → I s') → (∀ s a, I s → body s = Some (inr a) → Q a) →
  I s → loop n body s = Some (inr a) → Q a.
Proof.
  intros Hs Ha. revert s. induction n as [|n IH]; intros s HI; simpl; [done|].
  destruct (body s) as [[s'|b]|] eqn:E; simpl; [|intros [= <-]; by eapply Ha|done].
  apply IH. by eapply Hs.
Qed.

(** ** Machine integers *)

Definition INT_MAX : Z := 2147483647.
Definition INT_MIN : Z := -2147483648.

Definition fits_int (z : Z) : bool := (INT_MIN <=? z) && (z <=? INT_MAX).

(** Signed [int] arithmetic: overflow is undefined. *)
Definition int_of (z : Z) : option Z := if fits_int z then Some z else None.
Definition int_add (a b : Z) : option Z := int_of (a + b).
Definition int_mul (a b : Z) : option Z := int_of (a * b).

Lemma int_of_Some z : fits_int z = true → int_of z = Some z.
Proof. unfold int_of. by intros ->. Qed.

Lemma int_of_inv z v : int_of z = Some v → v = z ∧ fits_int z = true.
Proof. unfold int_of. destruct (fits_int z); by intros; simplify_eq. Qed.

(** Conversions to the unsigned types of the sources. *)
Definition u8 (z : Z) : Z := z mod 256.
Definition u16 (z : Z) : Z := z mod 65536.
Definition u32 (z : Z) : Z := z mod 4294967296.

(** [htons]/[ntohs] on a little-endian host swap the two bytes. *)
Definition htons (z : Z) : Z := (u16 z mod 256) * 256 + u16 z / 256.
Definition ntohs (z : Z) : Z := htons z.

Lemma u16_range z : 0 ≤ u16 z < 65536.
Proof. unfold u16. apply Z.mod_pos_bound. lia. Qed.

Lemma htons_range z : 0 ≤ htons z < 65536.
Proof.
  unfold htons. pose proof (u16_range z).
  pose proof (Z.mod_pos_bound (u16 z) 256).
  pose proof (Z.div_pos (u16 z) 256). pose proof (Z.div_lt_upper_bound (u16 z) 256 256).
  lia.
Qed.

Lemma u16_small z : 0 ≤ z < 65536 → u16 z = z.
Proof. apply Z.mod_small. Qed.

Lemma ntohs_htons z : 0 ≤ z < 65536 → ntohs (htons z) = z.
Proof.
  intros Hz. unfold ntohs. unfold htons at 1. rewrite (u16_small (htons z)) by apply htons_range.
  unfold htons. rewrite (u16_small z) by done.
  Z.to_euclidean_division_equations. lia.
Qed.

(** ** Tactics *)

(** Split a conjunction of decidable facts written as booleans. *)
Ltac bool_hyps :=
  repeat match goal with
  | H : (_ && _)%bool = true |- _ => apply andb_true_iff in H as [? ?]
  | H : (_ <=? _) = true |- _ => apply Z.leb_le in H
  | H : (_ <=? _) = false |- _ => apply Z.leb_gt in H
  | H : (_ <? _) = true |- _ => apply Z.ltb_lt in H
  | H : (_ <? _) = false |- _ => apply Z.ltb_ge in H
  | H : (_ =? _) = true |- _ => apply Z.eqb_eq in H
  | H : (_ =? _) = false |- _ => apply Z.eqb_neq in H
  end.

(** Case analysis on the boolean test at the head of the goal. *)
Ltac bool_case :=
  match goal with
  | |- context [if ?b then _ else _] =>
      lazymatch type of b with bool => destruct b eqn:?; bool_hyps end
  end.
