(* ===== verification/CString.v ===== *)
(** * C strings and character arrays

    The standard-library string routines the sources use ([strcpy], [strcat],
    [strcmp], [sprintf "%d"], [atoi], [memset], ...), on character arrays whose
    cells may be indeterminate.  An access outside of the array, or a read of
    an indeterminate cell, gives [None]: undefined behaviour. *)

From S2P Require Import Prelude.
From Stdlib Require Export Ascii String.
From stdpp Require Export strings.

#[global] Open Scope Z_scope.

(** A cell of a character array: [None] when nothing was stored in it yet. *)
Abbreviation cell := (option ascii).
Abbreviation buf := (list (option ascii)).

Definition NUL : ascii := Ascii.zero.
Definition NL : ascii := "010"%char.
Definition nl : string := String NL EmptyString.

(** ** Arrays and strings *)

(** [char b[n];], an automatic array. *)
Definition fresh (n : nat) : buf := replicate n None.
(** [memset(b, 0, n)] of a whole array of [n] cells. *)
Definition zeroed (n : nat) : buf := replicate n (Some NUL).

(** The object a string literal denotes. *)
Definition lit (s : string) : buf := (Some <$> list_ascii_of_string s) ++ [Some NUL].

(** The string a pointer to the start of the array designates. *)
Fixpoint cstr (b : buf) : option string :=
  match b with
  | Some c :: b' => if decide (c = NUL) then Some EmptyString else String c <$> cstr b'
  | _ => None
  end.

(** Store [d] in the array from index [off] on. *)
Definition store (b : buf) (off : nat) (d : list cell) : option buf :=
  if decide (off + length d ≤ length b)%nat
  then Some (take off b ++ d ++ drop (off + length d) b) else None.

Definition strlen (b : buf) : option Z := (λ s, Z.of_nat (String.length s)) <$> cstr b.

(** [strcpy(dst + off, s)] and [strcat(dst, s)] for the string [s]. *)
Definition strcpy_at (dst : buf) (off : nat) (s : string) : option buf := store dst off (lit s).
Definition strcpy (dst : buf) (s : string) : option buf := strcpy_at dst 0 s.
Definition strcat (dst : buf) (s : string) : option buf :=
  d ← cstr dst; strcpy_at dst (String.length d) s.

(** [sprintf] and [snprintf] with the formatted text as argument. *)
Definition sprintf (dst : buf) (text : string) : option buf := strcpy dst text.
Definition snprintf (dst : buf) (n : nat) (text : string) : option buf :=
  strcpy dst (substring 0 (n - 1) text).

(** Only the sign-free outcome of [strcmp] is used by the sources. *)
Definition strcmp_eq (s t : string) : bool := String.eqb s t.

Definition to_lower (c : ascii) : ascii :=
  let n := N_of_ascii c in
  if ((65 <=? n) && (n <=? 90))%N then ascii_of_N (n + 32) else c.
Definition toupper (c : ascii) : ascii :=
  let n := N_of_ascii c in
  if ((97 <=? n) && (n <=? 122))%N then ascii_of_N (n - 32) else c.

Fixpoint smap (f : ascii → ascii) (s : string) : string :=
  match s with EmptyString => EmptyString | String c s' => String (f c) (smap f s') end.

Definition strcasecmp_eq (s t : string) : bool := String.eqb (smap to_lower s) (smap to_lower t).

(** ** Decimal numbers *)

Definition char_val (c : ascii) : Z := Z.of_N (N_of_ascii c).

Definition is_digit (c : ascii) : bool := (48 <=? char_val c) && (char_val c <=? 57).

Definition digit (d : Z) : ascii := ascii_of_N (Z.to_N (48 + d)).

Fixpoint digits (fuel : nat) (n : Z) (acc : string) : string :=
  match fuel with
  | O => acc
  | S fuel' =>
      let acc' := String (digit (n mod 10)) acc in
      if n / 10 =? 0 then acc' else digits fuel' (n / 10) acc'
  end.

(** ["%d"] of an [int]; ten digits are enough for its range. *)
Definition dec (n : Z) : string :=
  if n <? 0 then String "-" (digits 10 (- n) EmptyString) else digits 10 n EmptyString.

Fixpoint atoi_digits (s : string) (acc : Z) : Z :=
  match s with
  | String c s' => if is_digit c then atoi_digits s' (acc * 10 + (char_val c - 48)) else acc
  | EmptyString => acc
  end.

Definition is_space (c : ascii) : bool :=
  (char_val c =? 32) || ((9 <=? char_val c) && (char_val c <=? 13)).

Fixpoint skip_space (s : string) : string :=
  match s with
  | String c s' => if is_space c then skip_space s' else s
  | EmptyString => EmptyString
  end.

Definition strtol (s : string) : Z :=
  match skip_space s with
  | String c s' =>
      if Ascii.eqb c "-" then - atoi_digits s' 0
      else if Ascii.eqb c "+" then atoi_digits s' 0
      else atoi_digits (String c s') 0
  | EmptyString => 0
  end.

(** The value of [atoi] is undefined when it is not representable. *)
Definition atoi (s : string) : option Z :=
  if fits_int (strtol s) then Some (strtol s) else None.

(** ** Lemmas *)

Fixpoint nonul (s : string) : bool :=
  match s with
  | EmptyString => true
  | String c s' => negb (Ascii.eqb c NUL) && nonul s'
  end.

Create HintDb cstring.

Lemma lit_cons c s : lit (String c s) = Some c :: lit s.
Proof. done. Qed.

Lemma cstr_lit s junk : nonul s = true → cstr (lit s ++ junk) = Some s.
Proof.
  induction s as [|c s IH]; [done|]. rewrite lit_cons. simpl.
  intros [Hc Hs]%andb_true_iff. apply negb_true_iff, Ascii.eqb_neq in Hc.
  rewrite decide_False by done. by rewrite IH.
Qed.

Lemma length_lit s : length (lit s) = S (String.length s).
Proof.
  unfold lit. rewrite length_app, length_fmap. simpl.
  assert (length (list_ascii_of_string s) = String.length s) as ->
    by (induction s; simpl; congruence). lia.
Qed.

Lemma store_Some b off d :
  (off + length d ≤ length b)%nat →
  store b off d = Some (take off b ++ d ++ drop (off + length d) b).
Proof. intros. unfold store. by rewrite decide_True. Qed.

Lemma store_length b off d b' : store b off d = Some b' → length b' = length b.
Proof.
  unfold store. case_decide; intros; simplify_eq.
  rewrite !length_app, length_take, length_drop. lia.
Qed.

Lemma strcpy_Some b s :
  (String.length s < length b)%nat →
  strcpy b s = Some (lit s ++ drop (S (String.length s)) b).
Proof.
  intros. unfold strcpy, strcpy_at. rewrite store_Some; rewrite length_lit; [done|lia].
Qed.

(** The string written by [strcpy] is the string read back. *)
Lemma cstr_strcpy b b' s : nonul s = true → strcpy b s = Some b' → cstr b' = Some s.
Proof.
  unfold strcpy, strcpy_at, store. case_decide; intros; simplify_eq. simpl. by apply cstr_lit.
Qed.

Lemma is_digit_digit d : 0 ≤ d < 10 → char_val (digit d) = 48 + d ∧ is_digit (digit d) = true.
Proof.
  intros. unfold is_digit, char_val, digit.
  rewrite N_ascii_embedding by lia. rewrite Z2N.id by lia. split; [done|].
  apply andb_true_iff. split; apply Z.leb_le; lia.
Qed.

Lemma atoi_digits_digits fuel n acc :
  0 ≤ n < 10 ^ Z.of_nat fuel → fuel ≠ O →
  atoi_digits (digits fuel n acc) 0 = atoi_digits acc n.
Proof.
  revert n acc. induction fuel as [|fuel IH]; intros n acc Hn ?; [done|]. cbn [digits].
  assert (0 ≤ n mod 10 < 10) by (apply Z.mod_pos_bound; lia).
  destruct (is_digit_digit (n mod 10)) as [Hv Hd]; [done|].
  assert (Hstep : ∀ a, atoi_digits (String (digit (n mod 10)) acc) a = atoi_digits acc (a * 10 + n mod 10)).
  { intros. cbn [atoi_digits]. rewrite Hd, Hv. f_equal. lia. }
  pose proof (Z.div_mod n 10).
  bool_case.
  - rewrite Hstep. f_equal. lia.
  - rewrite Nat2Z.inj_succ, Z.pow_succ_r in Hn by lia.
    assert (fuel ≠ O). { intros ->. simpl in Hn. Z.to_euclidean_division_equations. lia. }
    rewrite IH; [|split; [apply Z.div_pos; lia|apply Z.div_lt_upper_bound; lia]|done].
    rewrite Hstep. f_equal. lia.
Qed.

Lemma digits_head fuel n acc :
  0 ≤ n → (fuel ≠ O ∨ ∃ c s, acc = String c s ∧ is_digit c = true) →
  ∃ c s, digits fuel n acc = String c s ∧ is_digit c = true.
Proof.
  revert n acc. induction fuel as [|fuel IH]; intros n acc Hn Hor; simpl.
  - destruct Hor as [?|?]; done.
  - assert (is_digit (digit (n mod 10)) = true).
    { apply is_digit_digit. apply Z.mod_pos_bound. lia. }
    bool_case; [eauto|]. apply IH; [apply Z.div_pos; lia|]. right. eauto.
Qed.

Lemma digit_nonul d : 0 ≤ d < 10 → Ascii.eqb (digit d) NUL = false.
Proof.
  intros Hd. apply Ascii.eqb_neq. intros E. apply (f_equal char_val) in E.
  rewrite (proj1 (is_digit_digit d Hd)) in E. unfold NUL, char_val in E. simpl in E. lia.
Qed.

Lemma digits_nonul fuel n acc : nonul acc = true → nonul (digits fuel n acc) = true.
Proof.
  revert n acc. induction fuel as [|fuel IH]; intros n acc Ha; simpl; [done|].
  assert (nonul (String (digit (n mod 10)) acc) = true).
  { simpl. rewrite digit_nonul by (apply Z.mod_pos_bound; lia). done. }
  bool_case; [done|]. by apply IH.
Qed.

Lemma dec_nonul n : nonul (dec n) = true.
Proof. unfold dec. bool_case; cbn [nonul]; by rewrite digits_nonul. Qed.

Lemma digits_length fuel n acc :
  (String.length (digits fuel n acc) ≤ fuel + String.length acc)%nat.
Proof.
  revert n acc. induction fuel as [|fuel IH]; intros n acc; simpl; [lia|].
  bool_case; simpl; [lia|]. pose proof (IH (n / 10) (String (digit (n mod 10)) acc)) as Hl.
  simpl in Hl. lia.
Qed.

Lemma dec_length n : (String.length (dec n) ≤ 11)%nat.
Proof.
  unfold dec. pose proof (digits_length 10 n EmptyString). pose proof (digits_length 10 (- n) EmptyString).
  bool_case; cbn [String.length] in *; lia.
Qed.

Lemma digit_not_space c : is_digit c = true → is_space c = false.
Proof.
  unfold is_digit, is_space. intros. bool_hyps. apply orb_false_iff. split.
  - apply Z.eqb_neq. lia.
  - apply andb_false_iff. right. apply Z.leb_gt. lia.
Qed.

Lemma strtol_dec n : - 10 ^ 10 < n < 10 ^ 10 → strtol (dec n) = n.
Proof.
  intros Hr. assert (10 ^ Z.of_nat 10 = 10 ^ 10) as Hp by done.
  unfold strtol, dec. bool_case.
  - change (- atoi_digits (digits 10 (- n) EmptyString) 0 = n).
    rewrite atoi_digits_digits by lia. simpl atoi_digits. lia.
  - destruct (digits_head 10 n EmptyString) as (c & s & E & Hc); [lia|by left|].
    pose proof (atoi_digits_digits 10 n EmptyString ltac:(lia) ltac:(done)) as Hv.
    rewrite E in *. cbn [skip_space]. rewrite digit_not_space by done.
    destruct (Ascii.eqb_spec c "-") as [->|]; [done|].
    destruct (Ascii.eqb_spec c "+") as [->|]; [done|]. done.
Qed.

(** [atoi] reads back what ["%d"] printed, for every [int]. *)
Lemma atoi_dec n : fits_int n = true → atoi (dec n) = Some n.
Proof.
  intros Hn. pose proof Hn as Hr. unfold fits_int, INT_MIN, INT_MAX in Hr. bool_hyps.
  unfold atoi. rewrite strtol_dec by lia. by rewrite Hn.
Qed.

#[export] Hint Resolve dec_nonul atoi_dec cstr_lit cstr_strcpy : cstring.

(** Printing a number into a buffer of at least 12 bytes never overflows, and
    a reader of the buffer that applies [atoi] gets the number back. *)
Lemma sprintf_dec_roundtrip b n :
  (12 ≤ length b)%nat → fits_int n = true →
  ∃ b', sprintf b (dec n) = Some b' ∧ length b' = length b ∧ cstr b' = Some (dec n)
        ∧ (cstr b' ≫= atoi) = Some n.
Proof.
  intros Hl Hn. pose proof (dec_length n).
  unfold sprintf. rewrite strcpy_Some by lia. eexists. split; [done|].
  assert (cstr (lit (dec n) ++ drop (S (String.length (dec n))) b) = Some (dec n)) as Hc
    by auto with cstring.
  rewrite Hc. split_and!; [|done|by apply atoi_dec].
  rewrite length_app, length_lit, length_drop. lia.
Qed.

(** ** Appending *)

Lemma cstr_inv b s : cstr b = Some s → nonul s = true ∧ ∃ rest, b = lit s ++ rest.
Proof.
  revert s. induction b as [|[c|] b IH]; intros s; simpl; try done. case_decide as Hc.
  - intros [= <-]. split; [done|]. exists b. by subst.
  - destruct (cstr b) as [t|]; simpl; [|done]. intros [= <-].
    destruct (IH t eq_refl) as (Ht & rest & ->). split; [|by exists rest].
    simpl. rewrite Ht. apply andb_true_iff. split; [|done]. by apply negb_true_iff, Ascii.eqb_neq.
Qed.

Lemma cstr_length b s : cstr b = Some s → (String.length s < length b)%nat.
Proof. intros (_ & rest & ->)%cstr_inv. rewrite length_app, length_lit. lia. Qed.

Lemma lit_app s t : lit (s +:+ t) = (Some <$> list_ascii_of_string s) ++ lit t.
Proof. induction s as [|c s IH]; [done|].
  change (String c s +:+ t) with (String c (s +:+ t)). by rewrite lit_cons, IH.
Qed.

Lemma chars_app s t : list_ascii_of_string (s +:+ t) = list_ascii_of_string s ++ list_ascii_of_string t.
Proof. induction s as [|c s IH]; [done|]. exact (f_equal (cons c) IH). Qed.

Lemma length_chars s : length (list_ascii_of_string s) = String.length s.
Proof. induction s; simpl; congruence. Qed.

Lemma nonul_app s t : nonul (s +:+ t) = nonul s && nonul t.
Proof. induction s as [|c s IH]; simpl; [done|]. rewrite IH. apply andb_assoc. Qed.

(** [strcat] appends when there is room, and is undefined otherwise. *)
Lemma strcat_spec b s t :
  cstr b = Some s → nonul t = true →
  if decide (String.length s + String.length t < length b)%nat
  then ∃ b', strcat b t = Some b' ∧ cstr b' = Some (s +:+ t) ∧ length b' = length b
  else strcat b t = None.
Proof.
  intros Hs Ht. pose proof (cstr_inv _ _ Hs) as (Hns & rest & Hb).
  unfold strcat. rewrite Hs. cbn [option_bind mbind]. unfold strcpy_at. case_decide as Hd.
  - destruct (store b (String.length s) (lit t)) as [b'|] eqn:E.
    + exists b'. split_and!; [done| |by eapply store_length].
      unfold store in E. rewrite length_lit in E. case_decide; [|done]. simplify_eq.
      unfold lit at 1. rewrite <- (app_assoc _ [_]).
      rewrite take_app_length' by (by rewrite length_fmap, length_chars).
      rewrite app_assoc, <- lit_app. apply cstr_lit. by rewrite nonul_app, Hns, Ht.
    + unfold store in E. rewrite length_lit in E. case_decide; [done|lia].
  - unfold store. rewrite length_lit. rewrite decide_False; [done|lia].
Qed.

Lemma strcpy_spec b t :
  nonul t = true →
  if decide (String.length t < length b)%nat
  then ∃ b', strcpy b t = Some b' ∧ cstr b' = Some t ∧ length b' = length b
  else strcpy b t = None.
Proof.
  intros Ht. case_decide.
  - eexists. rewrite strcpy_Some by done. split; [done|]. split; [by apply cstr_lit|].
    rewrite length_app, length_lit, length_drop. lia.
  - unfold strcpy, strcpy_at, store. rewrite length_lit. rewrite decide_False; [done|lia].
Qed.

Lemma string_length_app s t : String.length (s +:+ t) = (String.length s + String.length t)%nat.
Proof. induction s as [|c s IH]; [done|]. simpl. f_equal. exact IH. Qed.

Lemma string_app_assoc s t u : (s +:+ t) +:+ u = s +:+ (t +:+ u).
Proof. induction s as [|c s IH]; [done|]. exact (f_equal (String c) IH). Qed.

Lemma string_app_nil s : s +:+ EmptyString = s.
Proof. induction s as [|c s IH]; [done|]. exact (f_equal (String c) IH). Qed.

Lemma strcat_fits b s t :
  cstr b = Some s → nonul t = true → (String.length s + String.length t < length b)%nat →
  ∃ b', strcat b t = Some b' ∧ cstr b' = Some (s +:+ t) ∧ length b' = length b.
Proof. intros Hs Ht Hl. pose proof (strcat_spec b s t Hs Ht) as H. by rewrite decide_True in H. Qed.

Lemma sprintf_fits b t :
  nonul t = true → (String.length t < length b)%nat →
  ∃ b', sprintf b t = Some b' ∧ cstr b' = Some t ∧ length b' = length b.
Proof. intros Ht Hl. pose proof (strcpy_spec b t Ht) as H. by rewrite decide_True in H. Qed.

(** Lengths and NUL-freeness of concatenations. *)
Ltac str_len :=
  repeat rewrite string_length_app in *; cbn [String.length nl] in *; lia.

Ltac str_nonul :=
  repeat rewrite nonul_app; repeat (apply andb_true_iff; split); auto with cstring.
