(* ===== verification/Posix.v ===== *)
(** * Programs as sequences of system calls

    The sources are small processes that talk to the kernel.  A process is a
    tree of calls ([prog]): each node is one call with its arguments, and the
    rest of the process is a function of what the kernel replies.  [run]
    executes a process against a list of replies and records the trace of
    calls; nothing is assumed about the replies, except where a theorem says
    so.  [wp] is a program logic for properties of traces: the trace is folded
    by a monitor and an invariant of the monitor is shown at every call. *)

From S2P Require Import Prelude CString.

(** ** Calls and replies *)

Inductive family := AF_INET | AF_UNIX | PF_PACKET.
Inductive socktype := SOCK_STREAM | SOCK_DGRAM | SOCK_RAW.

(** [sin_port] is the 16-bit field as stored, in network byte order when the
    program applied [htons]; [s_addr] likewise. *)
Inductive sockaddr :=
| SaIn (sin_port : Z) (s_addr : Z)
| SaUn (sun_path : string)
| SaRaw (ifindex : Z) (protocol : Z).

Definition INADDR_ANY : Z := 0.

Record pollfd := PollFd { pfd : Z; pevents : Z }.
Definition POLLIN : Z := 1.
Definition POLLRDNORM : Z := 64.

Definition SIGINT : Z := 2.
Definition SIGUSR1 : Z := 10.

(** A control message of [recvmsg]: level, type, and the [int] in its data. *)
Record cmsg := Cmsg { cmsg_level : Z; cmsg_type : Z; cmsg_fd : Z }.
Definition SOL_SOCKET : Z := 1.
Definition SCM_RIGHTS : Z := 1.

Inductive call :=
| Socket (f : family) (t : socktype) (protocol : Z)
| Setsockopt (fd : Z) (option : string)
| Bind (fd : Z) (a : sockaddr)
| Listen (fd : Z) (backlog : Z)
| Accept (fd : Z)
| Connect (fd : Z) (a : sockaddr)
| Send (fd : Z) (b : buf) (n : Z)
| Recv (fd : Z) (n : Z)
| Write (fd : Z) (b : buf) (n : Z)
| Read (fd : Z) (n : Z)
| Sendto (fd : Z) (b : buf) (n : Z) (a : sockaddr)
| Recvfrom (fd : Z) (n : Z)
| Sendmsg (fd : Z) (iov : buf) (rights : list cmsg)
| Recvmsg (fd : Z) (n : Z)
| Close (fd : Z)
| Dup2 (oldfd newfd : Z)
| Open (path : string) (flags : string)
| Mkfifo (path : string) (mode : Z)
| Unlink (path : string)
| Pipe
| Popen (command : string) (mode : string)
| Fileno (stream : Z)
| Select (nfds : Z) (readfds : list Z) (blocking : bool)
| Poll (fds : list pollfd) (timeout : Z)
| Fork
| Exec (path : string) (argv : list string)
| Wait
| Getpid
| Signal (signo : Z) (handler : string)
| Kill (pid signo : Z)
| Shmget (key size : Z) (create : bool)
| Shmat (id : Z)
| ShmLoad (index : Z)
| ShmStore (index v : Z)
| PthreadCreate (routine : string) (arg : string)
| PthreadJoin
| Sleep (seconds : Z)
| Puts (text : string)
| Perror (text : string)
| ScanInt
| ScanString
| Fgets (n : Z)
| Rpc (procedure : string) (ints : list (option Z)) (bufs : list buf)
| LibCall (name : string) (args : list Z) (sargs : list string).

(** What the kernel answers: the value of the call, the bytes it stored, the
    integers it stored (the ready descriptors of [select], the [revents] of
    [poll], the two ends of [pipe], the scanned number), and the control
    messages of [recvmsg]. *)
Record reply := Reply {
  rv : Z;
  rdata : string;
  rints : list Z;
  rcmsg : list cmsg
}.

Definition ret_ (v : Z) : reply := Reply v EmptyString [] [].
Definition bytes_ (s : string) : reply := Reply (Z.of_nat (String.length s)) s [] [].
Definition ints_ (l : list Z) : reply := Reply (Z.of_nat (length l)) EmptyString l [].

Definition event : Type := call * reply.
Definition trace : Type := list event.

(** ** Processes *)

Inductive prog (A : Type) : Type :=
| Ret (a : A)
| Halt (code : Z)
| Undef
| Call (c : call) (k : reply → prog A).
Arguments Ret {A} a.
Arguments Halt {A} code.
Arguments Undef {A}.
Arguments Call {A} c k.

Fixpoint prog_bind {A B} (f : A → prog B) (p : prog A) : prog B :=
  match p with
  | Ret a => f a
  | Halt z => Halt z
  | Undef => Undef
  | Call c k => Call c (λ r, prog_bind f (k r))
  end.

#[export] Instance prog_mret : MRet prog := @Ret.
#[export] Instance prog_mbind : MBind prog := @prog_bind.

Definition sys (c : call) : prog reply := Call c Ret.
Definition sysv (c : call) : prog Z := Call c (λ r, Ret (rv r)).
Definition do_ (c : call) : prog unit := Call c (λ _, Ret tt).

(** A step whose result is undefined behaviour when it is [None]. *)
Definition need {A} (o : option A) : prog A :=
  match o with Some a => Ret a | None => Undef end.

(** [printf] of a complete text, and of ["...%s..."] with a buffer. *)
Definition puts (text : string) : prog unit := do_ (Puts text).
Definition str (b : buf) : prog string := need (cstr b).

Definition cells (s : string) : list cell := Some <$> list_ascii_of_string s.

(** The effect of a [read]/[recv] reply on the buffer that was passed. *)
Definition received (b : buf) (r : reply) : prog buf := need (store b 0 (cells (rdata r))).

Definition recv (fd : Z) (b : buf) (n : Z) : prog (Z * buf) :=
  r ← sys (Recv fd n); b' ← received b r; mret (rv r, b').
Definition read (fd : Z) (b : buf) (n : Z) : prog (Z * buf) :=
  r ← sys (Read fd n); b' ← received b r; mret (rv r, b').
Definition recvfrom (fd : Z) (b : buf) (n : Z) : prog (Z * buf) :=
  r ← sys (Recvfrom fd n); b' ← received b r; mret (rv r, b').

(** [scanf("%d", &x)]: [None] when no number was read. *)
Definition scan_int : prog (option Z) :=
  r ← sys ScanInt; mret (head (rints r)).

(** [while (1) body], observed for [n] rounds. *)
Fixpoint forever {S} (n : nat) (body : S → prog S) (s : S) : prog S :=
  match n with
  | O => Ret s
  | Datatypes.S n' => body s ≫= forever n' body
  end.

(** ** Execution *)

Inductive outcome (A : Type) :=
| Done (a : A)
| Exited (code : Z)
| UB
| Blocked.
Arguments Done {A} a.
Arguments Exited {A} code.
Arguments UB {A}.
Arguments Blocked {A}.

Fixpoint run {A} (p : prog A) (rs : list reply) : trace * outcome A :=
  match p with
  | Ret a => ([], Done a)
  | Halt z => ([], Exited z)
  | Undef => ([], UB)
  | Call c k =>
      match rs with
      | [] => ([], Blocked)
      | r :: rs' => let '(t, o) := run (k r) rs' in ((c, r) :: t, o)
      end
  end.

Definition trace_of {A} (p : prog A) (rs : list reply) : trace := (run p rs).1.
Definition outcome_of {A} (p : prog A) (rs : list reply) : outcome A := (run p rs).2.

Lemma run_bind {A B} (f : A → prog B) (p : prog A) rs :
  run (p ≫= f) rs =
  match run p rs with
  | (t, Done a) => let '(t', o) := run (f a) (drop (length t) rs) in (t ++ t', o)
  | (t, Exited z) => (t, Exited z)
  | (t, UB) => (t, UB)
  | (t, Blocked) => (t, Blocked)
  end.
Proof.
  revert rs. induction p as [a|z| |c k IH]; intros rs; simpl.
  - unfold mbind, prog_mbind. cbn. rewrite ?drop_0. by destruct (run (f a) rs).
  - done.
  - done.
  - unfold mbind, prog_mbind in *. destruct rs as [|r rs]; simpl; [done|].
    rewrite IH. destruct (run (k r) rs) as [t [a|z| |]]; simpl; try done.
    by destruct (run (f a) (drop (length t) rs)).
Qed.

(** Equations to run a process step by step. *)
Lemma run_sys c r rs : run (sys c) (r :: rs) = ([(c, r)], Done r).
Proof. done. Qed.

Lemma ret_bind {A B} (a : A) (f : A → prog B) : (mret a ≫= f) = f a.
Proof. done. Qed.

Lemma need_Some_bind {A B} (o : option A) a (f : A → prog B) : o = Some a → (need o ≫= f) = f a.
Proof. by intros ->. Qed.

Lemma run_bind_Done {A B} (f : A → prog B) (p : prog A) rs t a :
  run p rs = (t, Done a) →
  run (p ≫= f) rs = let '(t', o) := run (f a) (drop (length t) rs) in (t ++ t', o).
Proof. intros E. by rewrite run_bind, E. Qed.

Lemma run_length {A} (p : prog A) rs : (length (trace_of p rs) ≤ length rs)%nat.
Proof.
  unfold trace_of. revert rs. induction p as [a|z| |c k IH]; intros rs; simpl; try lia.
  destruct rs as [|r rs]; simpl; [lia|]. specialize (IH r rs).
  destruct (run (k r) rs); simpl in *. lia.
Qed.

(** A loop whose every round makes a call cannot use up more rounds than
    there are replies, so with enough rounds [run] follows the process until
    it blocks, exits or goes wrong. *)
Definition calls_first {A} (p : prog A) : Prop :=
  match p with Ret _ => False | _ => True end.

Lemma forever_no_fuel {S} n (body : S → prog S) s rs :
  (∀ s, calls_first (body s)) → (length rs < n)%nat →
  ∀ s', outcome_of (forever n body s) rs ≠ Done s'.
Proof.
  intros Hc. revert s rs. induction n as [|n IH]; intros s rs Hl s'; [lia|].
  unfold outcome_of. simpl. rewrite run_bind.
  destruct (run (body s) rs) as [t o] eqn:E. destruct o as [s1|z| |]; simpl; try done.
  destruct (run (forever n body s1) (drop (length t) rs)) as [t' o'] eqn:E'. simpl.
  assert (t ≠ []).
  { specialize (Hc s). destruct (body s) as [|z'| |c k]; simpl in *; try done.
    destruct rs as [|r rs]; simpl in E; simplify_eq. destruct (run (k r) rs). by simplify_eq. }
  pose proof (run_length (body s) rs) as Ht. unfold trace_of in Ht. rewrite E in Ht. simpl in Ht.
  specialize (IH s1 (drop (length t) rs)). unfold outcome_of in IH. rewrite E' in IH.
  apply IH. rewrite length_drop. destruct t; simpl in *; [done|lia].
Qed.

(** ** Terminal programs

    A process that only reads numbers from its standard input and prints: its
    output as a function of the numbers typed.  At the end of the input a
    [scanf] reads nothing. *)
Fixpoint terminal {A} (p : prog A) (stdin : list Z) : list string * outcome A * list Z :=
  match p with
  | Ret a => ([], Done a, stdin)
  | Halt z => ([], Exited z, stdin)
  | Undef => ([], UB, stdin)
  | Call ScanInt k =>
      match stdin with
      | [] => terminal (k (ret_ (-1))) []
      | x :: stdin' => terminal (k (ints_ [x])) stdin'
      end
  | Call (Puts text) k =>
      let '(out, o, rest) := terminal (k (ret_ 0)) stdin in (text :: out, o, rest)
  | Call _ _ => ([], Blocked, stdin)
  end.

Lemma terminal_bind {A B} (f : A → prog B) (p : prog A) stdin :
  terminal (p ≫= f) stdin =
  match terminal p stdin with
  | (out, Done a, rest) => let '(out', o, rest') := terminal (f a) rest in (out ++ out', o, rest')
  | (out, Exited z, rest) => (out, Exited z, rest)
  | (out, UB, rest) => (out, UB, rest)
  | (out, Blocked, rest) => (out, Blocked, rest)
  end.
Proof.
  unfold mbind, prog_mbind. revert stdin.
  induction p as [a|z| |c k IH]; intros stdin; cbn [prog_bind terminal]; try done.
  - by destruct (terminal (f a) stdin) as [[??]?].
  - destruct c; cbn [prog_bind terminal]; try done; [|by destruct stdin; apply IH].
    rewrite IH. destruct (terminal (k (ret_ 0)) stdin) as [[out [a|z| |]] rest]; try done.
    by destruct (terminal (f a) rest) as [[??]?].
Qed.

Lemma terminal_bind_Done {A B} (f : A → prog B) (p : prog A) stdin out a rest :
  terminal p stdin = (out, Done a, rest) →
  terminal (p ≫= f) stdin = let '(out', o, rest') := terminal (f a) rest in (out ++ out', o, rest').
Proof. intros E. by rewrite terminal_bind, E. Qed.

Lemma terminal_need {A} (o : option A) a stdin :
  o = Some a → terminal (need o) stdin = ([], Done a, stdin).
Proof. by intros ->. Qed.

Lemma terminal_scan_int x stdin : terminal scan_int (x :: stdin) = ([], Done (Some x), stdin).
Proof. done. Qed.

Lemma terminal_puts text stdin : terminal (puts text) stdin = ([text], Done tt, stdin).
Proof. done. Qed.

Lemma terminal_seq {A B} (f : A → prog B) (p : prog A) stdin out a rest out' o rest' :
  terminal p stdin = (out, Done a, rest) → terminal (f a) rest = (out', o, rest') →
  ∀ all, all = out ++ out' → terminal (p ≫= f) stdin = (all, o, rest').
Proof. intros E E' all ->. by rewrite (terminal_bind_Done _ _ _ _ _ _ E), E'. Qed.

(** A terminal program that ends with the outcome [o] and whose output ends
    in [suf]. *)
Definition ends {A} (p : prog A) (stdin : list Z) (suf : list string) (o : outcome A) (rest : list Z) : Prop :=
  ∃ out, terminal p stdin = (out ++ suf, o, rest).

Lemma ends_exact {A} (p : prog A) stdin suf o rest :
  terminal p stdin = (suf, o, rest) → ends p stdin suf o rest.
Proof. by exists []. Qed.

Lemma ends_bind {A B} (f : A → prog B) (p : prog A) stdin out a rest suf o rest' :
  terminal p stdin = (out, Done a, rest) → ends (f a) rest suf o rest' → ends (p ≫= f) stdin suf o rest'.
Proof.
  intros E [out' E']. exists (out ++ out'). rewrite (terminal_bind_Done _ _ _ _ _ _ E), E'.
  by rewrite app_assoc.
Qed.

Lemma ends_exit {A B} (f : A → prog B) (p : prog A) stdin suf z rest :
  ends p stdin suf (Exited z) rest → ends (p ≫= f) stdin suf (Exited z) rest.
Proof. intros [out E]. exists out. by rewrite terminal_bind, E. Qed.

(** Loops whose rounds print something and read nothing. *)
Lemma terminal_for_up {S} (I : Z → S → Prop) lo hi (body : Z → S → prog S) s stdin :
  lo ≤ hi →
  (∀ i s, lo ≤ i < hi → I i s → ∃ out s', terminal (body i s) stdin = (out, Done s', stdin) ∧ I (i + 1) s') →
  I lo s → ∃ out s', terminal (for_up lo hi body s) stdin = (out, Done s', stdin) ∧ I hi s'.
Proof.
  intros Hle Hb HI. unfold for_up. set (n := Z.to_nat (hi - lo)).
  assert (hi = lo + Z.of_nat n) as Ehi by lia. rewrite Ehi in Hb |- *.
  clearbody n. clear Ehi Hle. revert lo s Hb HI. induction n as [|n IH]; intros lo s Hb HI.
  - exists [], s. split; [done|]. by rewrite Z.add_0_r.
  - destruct (Hb lo s) as (o1 & s1 & E1 & H1); [lia|done|].
    destruct (IH (lo + 1) s1) as (o2 & s2 & E2 & H2); [intros; apply Hb; [lia|done]|done|].
    exists (o1 ++ o2), s2. split; [by eapply terminal_seq|].
    by replace (lo + Z.of_nat (Datatypes.S n)) with (lo + 1 + Z.of_nat n) by lia.
Qed.

(** A terminal program that runs into undefined behaviour. *)
Definition goes_wrong {A} (p : prog A) (stdin : list Z) : Prop :=
  ∃ out rest, terminal p stdin = (out, UB, rest).

Lemma wrong_here {A B} (f : A → prog B) (p : prog A) stdin : goes_wrong p stdin → goes_wrong (p ≫= f) stdin.
Proof. intros (out & rest & E). exists out, rest. by rewrite terminal_bind, E. Qed.

Lemma wrong_later {A B} (f : A → prog B) (p : prog A) stdin out a rest :
  terminal p stdin = (out, Done a, rest) → goes_wrong (f a) rest → goes_wrong (p ≫= f) stdin.
Proof.
  intros E (out' & rest' & E'). exists (out ++ out'), rest'. by rewrite (terminal_bind_Done _ _ _ _ _ _ E), E'.
Qed.

Lemma wrong_need {A B} (f : A → prog B) (o : option A) stdin :
  (∀ a, o = Some a → goes_wrong (f a) stdin) → goes_wrong (need o ≫= f) stdin.
Proof. destruct o as [a|]; intros H; [by apply H|]. by exists [], stdin. Qed.

Ltac wrong_step :=
  lazymatch goal with
  | |- goes_wrong (puts ?x ≫= ?f) ?i => apply (wrong_later f (puts x) i [x] tt i); [done|]
  | |- goes_wrong (scan_int ≫= ?f) (?x :: ?i) => apply (wrong_later f scan_int (x :: i) [] (Some x) i); [done|]
  | |- goes_wrong (need (Some ?x) ≫= ?f) ?i => apply (wrong_later f (need (Some x)) i [] x i); [done|]
  | |- goes_wrong (mret ?x ≫= ?f) ?i => apply (wrong_later f (mret x) i [] x i); [done|]
  end; cbv beta iota.

Ltac ends_step :=
  lazymatch goal with
  | |- ends (puts ?x ≫= ?f) ?i _ _ _ => apply (ends_bind f (puts x) i [x] tt i); [done|]
  | |- ends (scan_int ≫= ?f) (?x :: ?i) _ _ _ => apply (ends_bind f scan_int (x :: i) [] (Some x) i); [done|]
  | |- ends (need (Some ?x) ≫= ?f) ?i _ _ _ => apply (ends_bind f (need (Some x)) i [] x i); [done|]
  | |- ends (mret ?x ≫= ?f) ?i _ _ _ => apply (ends_bind f (mret x) i [] x i); [done|]
  end; cbv beta iota.

(** ** Trace logic *)

Definition fold_trace {Σ} (step : Σ → call → reply → Σ) (t : trace) (σ : Σ) : Σ :=
  fold_left (λ σ e, step σ e.1 e.2) t σ.

Definition env_ok (env : call → reply → Prop) (t : trace) : Prop :=
  Forall (λ e, env e.1 e.2) t.

Definition any_reply : call → reply → Prop := λ _ _, True.

Lemma env_ok_any t : env_ok any_reply t.
Proof. by apply Forall_true. Qed.

Section logic.
Context {Σ : Type}.
Context (step : Σ → call → reply → Σ).   (** the monitor *)
Context (ok : Σ → Prop).                  (** its invariant *)
Context (env : call → reply → Prop).      (** what the kernel may reply *)
Context (ub : Prop).                      (** is undefined behaviour allowed? *)
Context (hq : Z → Σ → Prop).              (** what holds at an [exit] *)

Fixpoint wp {A} (p : prog A) (Q : A → Σ → Prop) (σ : Σ) : Prop :=
  match p with
  | Ret a => Q a σ
  | Halt z => hq z σ
  | Undef => ub
  | Call c k => ∀ r, env c r → ok (step σ c r) ∧ wp (k r) Q (step σ c r)
  end.

Lemma wp_bind {A B} (f : A → prog B) p Q σ :
  wp p (λ a, wp (f a) Q) σ → wp (p ≫= f) Q σ.
Proof.
  revert σ. induction p as [a|z| |c k IH]; intros σ; simpl; try done.
  intros H r Hr. destruct (H r Hr). split; [done|]. by apply IH.
Qed.

Lemma wp_mono {A} (p : prog A) (Q Q' : A → Σ → Prop) σ :
  (∀ a σ, Q a σ → Q' a σ) → wp p Q σ → wp p Q' σ.
Proof.
  intros HQ. revert σ. induction p as [a|z| |c k IH]; intros σ; simpl; auto.
  intros H r Hr. destruct (H r Hr). auto.
Qed.

Lemma wp_need {A} (o : option A) Q σ :
  (o = None → ub) → (∀ a, o = Some a → Q a σ) → wp (need o) Q σ.
Proof. destruct o; simpl; auto. Qed.

(** Any number of rounds of a loop whose body maintains [I]. *)
Lemma wp_forever {S} (I : S → Σ → Prop) n (body : S → prog S) s σ :
  (∀ s σ, I s σ → wp (body s) I σ) → I s σ → wp (forever n body s) I σ.
Proof.
  intros Hb. revert s σ. induction n as [|n IH]; intros s σ HI; simpl; [done|].
  apply wp_bind. eapply wp_mono; [|by apply Hb]. auto.
Qed.

(** A loop with [break]: [I] is its invariant, [Q] what holds when it is left. *)
Lemma wp_loop {S A} (I : S → Σ → Prop) (Q : A → Σ → Prop) n (body : S → prog (S + A)) s σ :
  (∀ s σ, I s σ → wp (body s) (λ x σ, match x with inl s' => I s' σ | inr a => Q a σ end) σ) →
  I s σ → wp (loop n body s) (λ x σ, match x with inl s' => I s' σ | inr a => Q a σ end) σ.
Proof.
  intros Hb. revert s σ. induction n as [|n IH]; intros s σ HI; [done|].
  apply wp_bind. eapply wp_mono; [|by apply Hb]. intros [s'|a] σ' H; [by apply IH|done].
Qed.

Lemma wp_for_n {S} (I : Z → S → Σ → Prop) n lo (body : Z → S → prog S) s σ :
  (∀ i s σ, lo ≤ i < lo + Z.of_nat n → I i s σ → wp (body i s) (I (i + 1)) σ) →
  I lo s σ → wp (for_n n lo body s) (I (lo + Z.of_nat n)) σ.
Proof.
  revert lo s σ. induction n as [|n IH]; intros lo s σ Hb HI.
  - simpl. by rewrite Z.add_0_r.
  - apply wp_bind. eapply wp_mono; [|apply Hb; [lia|done]].
    intros s' σ' HI'. rewrite Nat2Z.inj_succ, <- Z.add_succ_comm.
    apply IH; [|done]. intros. apply Hb; [lia|done].
Qed.

Lemma wp_for_up {S} (I : Z → S → Σ → Prop) lo hi (body : Z → S → prog S) s σ Q :
  (∀ i s σ, lo ≤ i < hi → I i s σ → wp (body i s) (I (i + 1)) σ) →
  I lo s σ → (∀ s σ, I (lo `max` hi) s σ → Q s σ) → wp (for_up lo hi body s) Q σ.
Proof.
  intros Hb HI HQ. unfold for_up. eapply wp_mono; [|apply wp_for_n with (I := I)].
  - intros s' σ' HI'. apply HQ.
    by replace (lo `max` hi) with (lo + Z.of_nat (Z.to_nat (hi - lo))) by lia.
  - intros. apply Hb; [lia|done].
  - done.
Qed.

(** What a proof in the logic says about executions. *)
Theorem wp_sound {A} (p : prog A) Q σ rs :
  wp p Q σ → ok σ → env_ok env (trace_of p rs) →
  ok (fold_trace step (trace_of p rs) σ) ∧
  match outcome_of p rs with
  | Done a => Q a (fold_trace step (trace_of p rs) σ)
  | Exited z => hq z (fold_trace step (trace_of p rs) σ)
  | UB => ub
  | Blocked => True
  end.
Proof.
  unfold trace_of, outcome_of. revert σ rs.
  induction p as [a|z| |c k IH]; intros σ rs Hwp Hok Henv; simpl; try done.
  destruct rs as [|r rs]; simpl; [done|].
  specialize (IH r (step σ c r) rs).
  simpl in Henv. destruct (run (k r) rs) as [t o] eqn:E. simpl in *.
  apply Forall_cons in Henv as [Hr Ht]. destruct (Hwp r Hr) as [Hok' Hk]. by apply IH.
Qed.
End logic.

(** ** Monitors *)

(** Counting the events that satisfy a test. *)
Definition count_ev (f : call → reply → bool) (t : trace) : Z :=
  Z.of_nat (length (filter (λ e, f e.1 e.2 = true) t)).

Definition select_ev {B} (f : call → reply → option B) (t : trace) : list B :=
  omap (λ e, f e.1 e.2) t.

Lemma select_ev_app {B} (f : call → reply → option B) t1 t2 :
  select_ev f (t1 ++ t2) = select_ev f t1 ++ select_ev f t2.
Proof. apply omap_app. Qed.

(** The monitor that accumulates the selected events. *)
Definition log_step {B} (f : call → reply → option B) (σ : list B) (c : call) (r : reply) : list B :=
  match f c r with Some b => σ ++ [b] | None => σ end.

Lemma log_none {B} (f : call → reply → option B) σ c r : f c r = None → log_step f σ c r = σ.
Proof. unfold log_step. by intros ->. Qed.

Lemma log_some {B} (f : call → reply → option B) σ c r b : f c r = Some b → log_step f σ c r = σ ++ [b].
Proof. unfold log_step. by intros ->. Qed.

Lemma fold_log {B} (f : call → reply → option B) t σ :
  fold_trace (log_step f) t σ = σ ++ select_ev f t.
Proof.
  unfold fold_trace, select_ev. revert σ. induction t as [|[c r] t IH]; intros σ; simpl.
  - by rewrite app_nil_r.
  - rewrite IH. unfold log_step. simpl. destruct (f c r); simpl; [by rewrite <- app_assoc|done].
Qed.

(** ** Documented behaviour of the kernel, where a theorem relies on it *)

(** A read stores as many bytes as it reports, at most as many as asked. *)
Definition kernel_reads (c : call) (r : reply) : Prop :=
  match c with
  | Recv _ n | Read _ n | Recvfrom _ n =>
      Z.of_nat (String.length (rdata r)) ≤ n ∧
      (rv r = Z.of_nat (String.length (rdata r)) ∨ (rv r = -1 ∧ rdata r = EmptyString))
  | _ => True
  end.

(** [poll] fills every [revents]; [select] leaves a subset of the set it got. *)
Definition kernel_polls (c : call) (r : reply) : Prop :=
  match c with
  | Poll fds _ => length (rints r) = length fds
  | Select _ s _ => ∀ x, x ∈ rints r → x ∈ s
  | _ => True
  end.

(** ** Proof automation *)

Ltac wp_step :=
  match goal with
  | |- wp _ _ _ _ _ (_ ≫= _) _ _ => apply wp_bind
  | |- wp _ _ _ _ _ (Call _ _) _ _ => intros ? ?; split; [|cbv beta]
  | |- wp _ _ _ _ _ (Ret _) _ _ => cbn [wp]
  | |- wp _ _ _ _ _ (mret _) _ _ => unfold mret, prog_mret; cbn [wp]
  | |- wp _ _ _ _ _ (need _) _ _ => apply wp_need; [try done|intros ? ?]
  | |- wp _ _ _ _ _ (sys _) _ _ => unfold sys
  | |- wp _ _ _ _ _ (sysv _) _ _ => unfold sysv
  | |- wp _ _ _ _ _ (do_ _) _ _ => unfold do_
  | |- wp _ _ _ _ _ (puts _) _ _ => unfold puts
  | |- wp _ _ _ _ _ (str _) _ _ => unfold str
  | |- wp _ _ _ _ _ (received _ _) _ _ => unfold received
  | |- wp _ _ _ _ _ (recv _ _ _) _ _ => unfold recv
  | |- wp _ _ _ _ _ (read _ _ _) _ _ => unfold read
  | |- wp _ _ _ _ _ (recvfrom _ _ _) _ _ => unfold recvfrom
  | |- wp _ _ _ _ _ scan_int _ _ => unfold scan_int
  | |- wp _ _ _ _ _ (Halt _) _ _ => cbn [wp]; try done
  | |- wp _ _ _ _ _ Undef _ _ => cbn [wp]; try done
  | |- wp _ _ _ _ _ (let '(_, _) := ?x in _) _ _ => destruct x
  | |- wp _ _ _ _ _ (if ?b then _ else _) _ _ => destruct b eqn:?
  end.
