(* ===== verification/Session.v ===== *)
(** * Sessions: what a process does when it is told what it is told

    A session is a list of labels: what is sent and received on which
    descriptor, as texts, and the other calls with their results.
    [plays w Q p ls]: when the kernel answers the watched calls of the process
    [p] as the labels say, [p] makes exactly the calls of the labels, in this
    order, and ends with an outcome that satisfies [Q]; the replies to calls that are not
    watched (output to the terminal and the like, [w] is false on them), and
    whatever the labels leave open, are arbitrary.  The rules follow the
    structure of the programs; [plays_sound] relates a session to the
    executions of [run], and [delivers_reads] what one process sends to what
    the other receives. *)

From S2P Require Import Prelude CString Posix.

(** ** Text messages *)

(** What the receiver gets when the sender passes the object [b]: bytes that
    agree with every byte of the object, and anything where the object ends
    or holds nothing determinate. *)
Definition delivers (b : buf) (n : Z) (data : string) : Prop :=
  Z.of_nat (String.length data) = n ∧
  ∀ i c, b !! i = Some (Some c) → Z.of_nat i < n → list_ascii_of_string data !! i = Some c.

(** The message [data] of [n] bytes holds the text [s]. *)
Definition reads (n : Z) (data s : string) : Prop :=
  Z.of_nat (String.length data) = n ∧ cstr (cells data) = Some s ∧ nonul s = true.

Lemma cells_length data : length (cells data) = String.length data.
Proof. unfold cells. rewrite length_fmap. apply length_chars. Qed.

Lemma cells_app s t : cells (s +:+ t) = cells s ++ cells t.
Proof. unfold cells. by rewrite chars_app, fmap_app. Qed.

Lemma cstr_app l rest s : cstr l = Some s → cstr (l ++ rest) = Some s.
Proof.
  revert s. induction l as [|[c|] l IH]; intros s; simpl; try done.
  destruct (decide (c = NUL)); [done|]. destruct (cstr l) as [t|] eqn:E; [|done]. intros [= <-]. by rewrite (IH t).
Qed.

(** A message stored in a buffer that is large enough is read back. *)
Lemma received_reads n data s b :
  reads n data s → n ≤ Z.of_nat (length b) →
  ∃ b', store b 0 (cells data) = Some b' ∧ cstr b' = Some s ∧ length b' = length b.
Proof.
  intros (Hl & Hs & _) Hb. eexists. rewrite store_Some by (rewrite cells_length; lia). split; [done|].
  split; [|rewrite !length_app, length_take, length_drop, cells_length; lia].
  change (take 0 b) with (@nil cell). by apply (cstr_app (cells data)).
Qed.

(** A text that fits is read as it was sent. *)
Lemma delivers_lit s junk n data :
  nonul s = true → Z.of_nat (String.length s) < n → delivers (lit s ++ junk) n data → reads n data s.
Proof.
  intros Hs Hl [Hlen Hd]. split; [done|]. split; [|done]. unfold cells.
  assert (∃ rest, list_ascii_of_string data = list_ascii_of_string s ++ NUL :: rest) as [rest ->].
  { exists (drop (S (String.length s)) (list_ascii_of_string data)).
    rewrite <- (take_drop (S (String.length s)) (list_ascii_of_string data)) at 1.
    rewrite (cons_middle NUL), app_assoc. f_equal.
    apply list_eq. intros i. destruct (decide (i < S (String.length s))%nat) as [Hi|Hi].
    - rewrite lookup_take_lt by done.
      assert (∃ c, (list_ascii_of_string s ++ [NUL]) !! i = Some c) as [c Hc].
      { apply lookup_lt_is_Some_2. rewrite length_app, length_chars. simpl. lia. }
      rewrite Hc. apply Hd; [|lia]. unfold lit. change [Some NUL] with (Some <$> [NUL]). rewrite <- fmap_app.
      rewrite lookup_app_l, list_lookup_fmap, Hc; [done|]. rewrite length_fmap. by apply lookup_lt_Some in Hc.
    - rewrite !lookup_ge_None_2; [done| |]; rewrite ?length_take, ?length_app, ?length_chars; cbn [length]; lia. }
  rewrite fmap_app. change (Some <$> (NUL :: rest)) with ([Some NUL] ++ (Some <$> rest)).
  rewrite app_assoc. fold (lit s). by apply cstr_lit.
Qed.

(** What is read is the C string the sender's object holds, however the
    object continues. *)
Theorem delivers_reads b s n data :
  cstr b = Some s → Z.of_nat (String.length s) < n → delivers b n data → reads n data s.
Proof.
  intros Hb Hl Hd. apply cstr_inv in Hb as (Hs & junk & ->). by eapply delivers_lit.
Qed.

(** ** Labels *)

Inductive label :=
| Sent (fd n : Z) (s : string)       (** [send]/[write] of an object that holds the text [s] *)
| Got (fd n : Z) (s : string)        (** [recv]/[read] of a message of [n] bytes that holds [s] *)
| Did (c : call) (v : Z)             (** another call and its value *)
| Told (c : call) (r : reply).       (** another call and all that it stores *)

Definition call_ok (l : label) (c : call) : Prop :=
  match l with
  | Sent fd n s => ∃ b, (c = Send fd b n ∨ c = Write fd b n) ∧ cstr b = Some s
  | Got fd n s => c = Recv fd n ∨ c = Read fd n
  | Did c' _ => c = c'
  | Told c' _ => c = c'
  end.

Definition reply_ok (l : label) (r : reply) : Prop :=
  match l with
  | Sent _ _ _ => True
  | Got _ n s => reads n (rdata r) s ∧ rv r = n
  | Did _ v => rv r = v
  | Told _ r' => r = r'
  end.

(** The calls most sessions watch: all but output and waiting. *)
Definition net (c : call) : bool :=
  match c with Puts _ | Perror _ | Sleep _ | Unlink _ => false | _ => true end.

(** Those of a session in which the output counts. *)
Definition loud (c : call) : bool := match c with Perror _ | Sleep _ | Unlink _ => false | _ => true end.
Definition prints (s : string) : label := Did (Puts (s +:+ nl)) 0.

Section plays.
Context (w : call → bool).   (** the calls that are watched *)

Inductive plays {A} (Q : outcome A → Prop) : prog A → list label → Prop :=
| plays_Ret a : Q (Done a) → plays Q (Ret a) []
| plays_Halt z : Q (Exited z) → plays Q (Halt z) []
| plays_Undef : Q UB → plays Q Undef []
| plays_watched l c k ls :
    w c = true → call_ok l c → (∀ r, reply_ok l r → plays Q (k r) ls) → plays Q (Call c k) (l :: ls)
| plays_silent c k ls : w c = false → (∀ r, plays Q (k r) ls) → plays Q (Call c k) ls.

(** The two kinds of calls, read backwards. *)
Lemma plays_Call_inv {A} (Q : outcome A → Prop) c k ls :
  plays Q (Call c k) ls →
  (∃ l ls', w c = true ∧ ls = l :: ls' ∧ call_ok l c ∧ ∀ r, reply_ok l r → plays Q (k r) ls') ∨
  (w c = false ∧ ∀ r, plays Q (k r) ls).
Proof. inversion 1; subst; [left|right]; eauto 8. Qed.

(** The watched part of a trace. *)
Definition watched (t : list event) : list event := filter (λ e, w e.1 = true) t.

Lemma watched_cons c r t : watched ((c, r) :: t) = if w c then (c, r) :: watched t else watched t.
Proof.
  unfold watched. rewrite filter_cons. cbn [fst]. destruct (decide (w c = true)) as [->|H]; [done|].
  by apply not_true_is_false in H as ->.
Qed.

(** Replies as the labels say, calls as the labels say, as far as both go. *)
Definition answered (ls : list label) (es : list event) : Prop :=
  ∀ i l e, ls !! i = Some l → es !! i = Some e → reply_ok l e.2.
Definition follows (ls : list label) (es : list event) : Prop :=
  ∀ i e, es !! i = Some e → ∃ l, ls !! i = Some l ∧ call_ok l e.1.

(** An execution that is answered as the session says does what the session
    says, as far as it gets. *)
Theorem plays_sound {A} Q (p : prog A) ls rs :
  plays Q p ls → answered ls (watched (trace_of p rs)) →
  follows ls (watched (trace_of p rs)) ∧
  (outcome_of p rs ≠ Blocked → length (watched (trace_of p rs)) = length ls ∧ Q (outcome_of p rs)).
Proof.
  intros H. revert rs. unfold trace_of, outcome_of.
  induction H as [a Ha|z Hz|HU|l c k ls Hw Hc _ IH|c k ls Hw _ IH]; intros rs; cbn [run fst snd].
  - by split.
  - by split.
  - by split.
  - destruct rs as [|r rs]; [by split|].
    destruct (run (k r) rs) as [t o'] eqn:E. cbn [fst snd]. rewrite watched_cons, Hw. intros Ha.
    specialize (IH r (Ha 0%nat l (c, r) eq_refl eq_refl) rs). rewrite E in IH. cbn [fst snd] in IH.
    destruct IH as [H1 H2]; [by intros i; apply (Ha (S i))|]. split.
    + intros [|i] e; cbn [lookup list_lookup]; [intros [= <-]; by exists l|apply H1].
    + intros Hb. destruct (H2 Hb) as [Hl HQ]. split; [|done]. cbn [length]. by rewrite Hl.
  - destruct rs as [|r rs]; [by split|].
    specialize (IH r rs). destruct (run (k r) rs) as [t o'] eqn:E. cbn [fst snd]. by rewrite watched_cons, Hw.
Qed.

(** *** Composition *)

(** The process returns a value with [P]. *)
Definition returns {A} (P : A → Prop) (o : outcome A) : Prop := ∃ a, o = Done a ∧ P a.

Lemma plays_return {A} (P : A → Prop) a : P a → plays (returns P) (mret a) [].
Proof. intros. apply plays_Ret. by exists a. Qed.

Lemma plays_mono {A} (Q Q' : outcome A → Prop) p ls : (∀ o, Q o → Q' o) → plays Q p ls → plays Q' p ls.
Proof.
  intros HQ. induction 1; [apply plays_Ret|apply plays_Halt|apply plays_Undef|eapply plays_watched|apply plays_silent]; eauto.
Qed.

Lemma plays_weaken {A} (P P' : A → Prop) p ls :
  plays (returns P) p ls → (∀ a, P a → P' a) → plays (returns P') p ls.
Proof. intros Hp H. eapply plays_mono; [|exact Hp]. intros o (a & -> & Ha). exists a. auto. Qed.

Lemma plays_bind {A B} P (p : prog A) (f : A → prog B) ls1 ls2 Q :
  plays (returns P) p ls1 → (∀ a, P a → plays Q (f a) ls2) → plays Q (p ≫= f) (ls1 ++ ls2).
Proof.
  unfold mbind, prog_mbind. intros H Hf.
  induction H as [a (a' & [= <-] & Ha)|z (a' & [=] & _)|(a' & [=] & _)|l c k ls Hw Hc _ IH|c k ls Hw _ IH]; cbn [prog_bind app].
  - auto.
  - apply plays_watched; auto.
  - apply plays_silent; auto.
Qed.

(** The last part of a process. *)
Lemma plays_last {A B} P (p : prog A) (f : A → prog B) ls Q :
  plays (returns P) p ls → (∀ a, P a → plays Q (f a) []) → plays Q (p ≫= f) ls.
Proof. intros Hp Hf. rewrite <- (app_nil_r ls). by eapply plays_bind. Qed.

(** A part that makes no watched call. *)
Lemma plays_skip {A B} P (p : prog A) (f : A → prog B) ls Q :
  plays (returns P) p [] → (∀ a, P a → plays Q (f a) ls) → plays Q (p ≫= f) ls.
Proof. apply (plays_bind P p f []). Qed.

(** A process that stops is not continued. *)
Lemma plays_bind_UB {A B} (p : prog A) (f : A → prog B) ls : plays (eq UB) p ls → plays (eq UB) (p ≫= f) ls.
Proof.
  unfold mbind, prog_mbind.
  induction 1 as [a [=]|z [=]|_|l c k ls Hw Hc _ IH|c k ls Hw _ IH]; cbn [prog_bind];
    [by apply plays_Undef|by apply plays_watched|by apply plays_silent].
Qed.

Lemma plays_bind_exit {A B} z (p : prog A) (f : A → prog B) ls :
  plays (eq (Exited z)) p ls → plays (eq (Exited z)) (p ≫= f) ls.
Proof.
  unfold mbind, prog_mbind.
  induction 1 as [a [=]|z' [= <-]|[=]|l c k ls Hw Hc _ IH|c k ls Hw _ IH]; cbn [prog_bind];
    [by apply plays_Halt|by apply plays_watched|by apply plays_silent].
Qed.

Lemma plays_need {A B} (x : option A) a (f : A → prog B) ls Q :
  x = Some a → plays Q (f a) ls → plays Q (need x ≫= f) ls.
Proof. by intros ->. Qed.

Lemma plays_undef {A B} (x : option A) (f : A → prog B) : x = None → plays (eq UB) (need x ≫= f) [].
Proof. intros ->. by apply plays_Undef. Qed.

Lemma plays_told {B} c r (f : reply → prog B) ls Q :
  w c = true → plays Q (f r) ls → plays Q (sys c ≫= f) (Told c r :: ls).
Proof. intros. apply plays_watched; [done|done|]. by intros r' ->. Qed.

Lemma plays_callv {B} c v (f : Z → prog B) ls Q :
  w c = true → plays Q (f v) ls → plays Q (sysv c ≫= f) (Did c v :: ls).
Proof. intros. apply plays_watched; [done|done|]. cbn. by intros r ->. Qed.

Lemma plays_callv_quiet {B} c (f : Z → prog B) ls Q :
  w c = false → (∀ v, plays Q (f v) ls) → plays Q (sysv c ≫= f) ls.
Proof. intros Hw Hf. apply plays_silent; [done|]. intros r. apply Hf. Qed.

Lemma plays_do {B} c v (f : unit → prog B) ls Q :
  w c = true → plays Q (f tt) ls → plays Q (do_ c ≫= f) (Did c v :: ls).
Proof. intros. by apply plays_watched. Qed.

Lemma plays_quiet {B} c (f : unit → prog B) ls Q :
  w c = false → plays Q (f tt) ls → plays Q (do_ c ≫= f) ls.
Proof. intros. by apply plays_silent. Qed.

Lemma plays_puts {B} text (f : unit → prog B) ls Q :
  w (Puts text) = false → plays Q (f tt) ls → plays Q (puts text ≫= f) ls.
Proof. apply plays_quiet. Qed.

Lemma plays_say text P : w (Puts text) = false → P tt → plays (returns P) (puts text) [].
Proof. intros. apply plays_silent; [done|]. intros r. by apply plays_return. Qed.

Lemma plays_send {B} fd b n s (f : unit → prog B) ls Q :
  w (Send fd b n) = true → cstr b = Some s → plays Q (f tt) ls → plays Q (do_ (Send fd b n) ≫= f) (Sent fd n s :: ls).
Proof. intros. apply plays_watched; [done|exists b; by split; [left|]|done]. Qed.

Lemma plays_write {B} fd b n s (f : unit → prog B) ls Q :
  w (Write fd b n) = true → cstr b = Some s → plays Q (f tt) ls → plays Q (do_ (Write fd b n) ≫= f) (Sent fd n s :: ls).
Proof. intros. apply plays_watched; [done|exists b; by split; [right|]|done]. Qed.

(** The buffer after a message was received holds its text. *)
Lemma plays_recv {B} fd n b s (f : Z * buf → prog B) ls Q :
  w (Recv fd n) = true → n ≤ Z.of_nat (length b) →
  (∀ b', cstr b' = Some s → length b' = length b → plays Q (f (n, b')) ls) →
  plays Q (recv fd b n ≫= f) (Got fd n s :: ls).
Proof.
  intros Hw Hb Hf. unfold recv. apply plays_watched; [done|by left|]. intros r [Hr Hv].
  destruct (received_reads _ _ _ b Hr Hb) as (b' & Hs & Hc & Hl). unfold received. cbn. rewrite Hs, Hv. cbn. by apply Hf.
Qed.

Lemma plays_read {B} fd n b s (f : Z * buf → prog B) ls Q :
  w (Read fd n) = true → n ≤ Z.of_nat (length b) →
  (∀ b', cstr b' = Some s → length b' = length b → plays Q (f (n, b')) ls) →
  plays Q (read fd b n ≫= f) (Got fd n s :: ls).
Proof.
  intros Hw Hb Hf. unfold read. apply plays_watched; [done|by right|]. intros r [Hr Hv].
  destruct (received_reads _ _ _ b Hr Hb) as (b' & Hs & Hc & Hl). unfold received. cbn. rewrite Hs, Hv. cbn. by apply Hf.
Qed.

(** The same for an arbitrary reply. *)
Lemma plays_recv_told {B} fd n b b' r (f : Z * buf → prog B) ls Q :
  w (Recv fd n) = true → store b 0 (cells (rdata r)) = Some b' → plays Q (f (rv r, b')) ls →
  plays Q (recv fd b n ≫= f) (Told (Recv fd n) r :: ls).
Proof.
  intros Hw Hs Hf. unfold recv. apply plays_watched; [done|done|]. intros r' Hr. cbn in Hr. subst r'.
  unfold received. cbn. by rewrite Hs.
Qed.

Lemma plays_read_told {B} fd n b b' r (f : Z * buf → prog B) ls Q :
  w (Read fd n) = true → store b 0 (cells (rdata r)) = Some b' → plays Q (f (rv r, b')) ls →
  plays Q (read fd b n ≫= f) (Told (Read fd n) r :: ls).
Proof.
  intros Hw Hs Hf. unfold read. apply plays_watched; [done|done|]. intros r' Hr. cbn in Hr. subst r'.
  unfold received. cbn. by rewrite Hs.
Qed.

Lemma plays_recvfrom_told {B} fd n b b' r (f : Z * buf → prog B) ls Q :
  w (Recvfrom fd n) = true → store b 0 (cells (rdata r)) = Some b' → plays Q (f (rv r, b')) ls →
  plays Q (recvfrom fd b n ≫= f) (Told (Recvfrom fd n) r :: ls).
Proof.
  intros Hw Hs Hf. unfold recvfrom. apply plays_watched; [done|done|]. intros r' Hr. cbn in Hr. subst r'.
  unfold received. cbn. by rewrite Hs.
Qed.

Lemma plays_scan {B} x (f : option Z → prog B) ls Q :
  w ScanInt = true → plays Q (f (Some x)) ls → plays Q (scan_int ≫= f) (Told ScanInt (ints_ [x]) :: ls).
Proof. intros. apply plays_watched; [done|done|]. by intros r ->. Qed.

(** *** Loops *)

(** A counted loop with one round per element of [items], and what it goes on
    with. *)
Lemma plays_for_then {X S} (I : list X → S → Prop) (lg : X → list label) lo (items : list X) m
    (body : Z → S → prog S) s ls Q :
  (∀ done_ x rest s, items = done_ ++ x :: rest → I done_ s →
     plays (returns (I (done_ ++ [x]))) (body (lo + Z.of_nat (length done_)) s) (lg x)) →
  I [] s → (∀ s, I items s → plays Q (for_n m (lo + Z.of_nat (length items)) body s) ls) →
  plays Q (for_n (length items + m) lo body s) (concat (lg <$> items) ++ ls).
Proof.
  intros Hb HI Hm.
  assert (∀ rest done_ s, items = done_ ++ rest → I done_ s →
    plays Q (for_n (length rest + m) (lo + Z.of_nat (length done_)) body s) (concat (lg <$> rest) ++ ls)) as H.
  { induction rest as [|x rest IH]; intros done_ t E Ht.
    - rewrite app_nil_r in E. subst. by apply Hm.
    - cbn [concat fmap list_fmap length Nat.add for_n]. rewrite <- app_assoc.
      eapply plays_bind; [exact (Hb done_ x rest t E Ht)|]. intros t' Ht'.
      specialize (IH (done_ ++ [x]) t'). rewrite length_app, Nat2Z.inj_add, Z.add_assoc in IH.
      apply IH; [by rewrite E, <- app_assoc|done]. }
  specialize (H items [] s eq_refl HI). by rewrite Z.add_0_r in H.
Qed.

Lemma plays_for_list {X S} (I : list X → S → Prop) (lg : X → list label) lo (items : list X) (body : Z → S → prog S) s :
  (∀ done_ x rest s, items = done_ ++ x :: rest → I done_ s →
     plays (returns (I (done_ ++ [x]))) (body (lo + Z.of_nat (length done_)) s) (lg x)) →
  I [] s →
  plays (returns (I items)) (for_up lo (lo + Z.of_nat (length items)) body s) (concat (lg <$> items)).
Proof.
  intros Hb HI. unfold for_up. rewrite Z.add_simpl_l, Nat2Z.id, <- (app_nil_r (concat _)), <- (Nat.add_0_r (length items)).
  eapply plays_for_then; [exact Hb|done|]. intros s' Hs'. by apply plays_return.
Qed.

(** The endless loop of a server, one round per element of [items], and what
    it goes on with. *)
Lemma plays_forever_then {X S} (I : list X → S → Prop) (lg : nat → X → list label) (items : list X) m
    (body : S → prog S) s ls Q :
  (∀ done_ x rest s, items = done_ ++ x :: rest → I done_ s →
     plays (returns (I (done_ ++ [x]))) (body s) (lg (length done_) x)) →
  I [] s → (∀ s, I items s → plays Q (forever m body s) ls) →
  plays Q (forever (length items + m) body s) (concat (imap lg items) ++ ls).
Proof.
  intros Hb HI Hm.
  assert (∀ rest done_ s, items = done_ ++ rest → I done_ s →
    plays Q (forever (length rest + m) body s) (concat (imap (λ i, lg (length done_ + i)%nat) rest) ++ ls)) as H.
  { induction rest as [|x rest IH]; intros done_ t E Ht.
    - rewrite app_nil_r in E. subst. by apply Hm.
    - rewrite imap_cons. cbn [concat length Nat.add forever]. rewrite <- app_assoc, Nat.add_0_r.
      eapply plays_bind; [exact (Hb done_ x rest t E Ht)|]. intros t' Ht'.
      specialize (IH (done_ ++ [x]) t'). rewrite length_app, Nat.add_1_r in IH.
      rewrite (imap_ext _ (λ i, lg (Datatypes.S (length done_) + i)%nat)); [apply IH; [by rewrite E, <- app_assoc|done]|].
      intros i y _. unfold compose. by rewrite Nat.add_succ_r. }
  by apply (H items []).
Qed.

Lemma plays_forever_imap {X S} (I : list X → S → Prop) (lg : nat → X → list label) (items : list X)
    (body : S → prog S) s :
  (∀ done_ x rest s, items = done_ ++ x :: rest → I done_ s →
     plays (returns (I (done_ ++ [x]))) (body s) (lg (length done_) x)) →
  I [] s → plays (returns (I items)) (forever (length items) body s) (concat (imap lg items)).
Proof.
  intros Hb HI. rewrite <- (app_nil_r (concat _)), <- (Nat.add_0_r (length items)).
  eapply plays_forever_then; [exact Hb|done|]. intros s' Hs'. by apply plays_return.
Qed.

Lemma plays_forever_list {X S} (I : list X → S → Prop) (lg : X → list label) (items : list X) (body : S → prog S) s :
  (∀ done_ x rest s, items = done_ ++ x :: rest → I done_ s → plays (returns (I (done_ ++ [x]))) (body s) (lg x)) →
  I [] s → plays (returns (I items)) (forever (length items) body s) (concat (lg <$> items)).
Proof.
  intros Hb HI. replace (lg <$> items) with (imap (λ _, lg) items); [by apply plays_forever_imap|].
  clear. induction items as [|x l IH]; [done|]. rewrite imap_cons. cbn. by f_equal.
Qed.
End plays.

Lemma length_fresh n : length (fresh n) = n.
Proof. apply length_replicate. Qed.

(** A buffer, its text and its length. *)
Ltac new_buffer := let H := fresh "Hlen" in intros ? ? H; rewrite ?length_fresh in H.
Ltac fits := rewrite ?length_fresh; first [lia | idtac].

(** One step of a session at the head of the program; the premises that are
    not computed are left to [assumption] or to the user. *)
Ltac play :=
  lazymatch goal with
  | |- plays _ _ (mret ?x ≫= _) _ => change (mret x) with (Ret x); cbn [mbind prog_mbind prog_bind]
  | |- plays _ _ (sys _ ≫= _) (Told _ _ :: _) => apply plays_told; [reflexivity|]
  | |- plays _ _ (sysv _ ≫= _) (Did _ _ :: _) => apply plays_callv; [reflexivity|]
  | |- plays _ _ (puts _ ≫= _) _ => apply plays_puts; [reflexivity|]
  | |- plays _ _ (puts _) [] => apply plays_say; [reflexivity|]
  | |- plays _ _ (do_ (Send _ _ _) ≫= _) (Sent _ _ _ :: _) => eapply plays_send; [reflexivity|first [eassumption|reflexivity|idtac]|]
  | |- plays _ _ (do_ (Write _ _ _) ≫= _) (Sent _ _ _ :: _) => eapply plays_write; [reflexivity|first [eassumption|reflexivity|idtac]|]
  | |- plays _ _ (do_ _ ≫= _) _ => first [apply plays_quiet; [reflexivity|] | apply plays_do; [reflexivity|]]
  | |- plays _ _ (recv _ _ _ ≫= _) (Got _ _ _ :: _) => apply plays_recv; [reflexivity|fits|new_buffer]
  | |- plays _ _ (read _ _ _ ≫= _) (Got _ _ _ :: _) => apply plays_read; [reflexivity|fits|new_buffer]
  | |- plays _ _ (scan_int ≫= _) (Told ScanInt _ :: _) => apply plays_scan; [reflexivity|]
  | |- plays _ _ (need (Some ?x) ≫= _) _ => apply (plays_need _ (Some x) x _ _ _ eq_refl)
  | |- plays _ _ (need (aget _ _) ≫= _) _ => eapply plays_need; [first [eassumption|reflexivity]|]
  | |- plays _ _ (need _ ≫= _) _ => eapply plays_need; [eassumption|]
  | |- plays _ _ (str _ ≫= _) _ => unfold str; eapply plays_need; [first [eassumption|reflexivity]|]
  | |- plays _ (returns _) (mret _) _ => apply plays_return
  | |- plays _ (returns _) (Ret _) _ => apply plays_return
  | |- plays _ _ (Halt _) _ => apply plays_Halt
  end; cbv beta iota; cbn [rv fst snd].

(** The first call of a part of a process. *)
Ltac inner := change ((?p ≫= ?f) ≫= ?g) with (p ≫= λ x, f x ≫= g); cbv beta.

(** ** Numbers in messages *)

(** [sprintf(b, "%d", n)] and what can be said of the buffer. *)
Lemma sprintf_dec b n :
  (12 ≤ length b)%nat → ∃ b', sprintf b (dec n) = Some b' ∧ cstr b' = Some (dec n) ∧ length b' = length b.
Proof.
  intros Hb. pose proof (dec_length n).
  assert (sprintf b (dec n) = Some (lit (dec n) ++ drop (S (String.length (dec n))) b)) as E.
  { unfold sprintf. apply strcpy_Some. lia. }
  eexists. split; [exact E|]. split; [apply cstr_lit, dec_nonul|].
  rewrite length_app, length_lit, length_drop. lia.
Qed.

Lemma plays_sprintf {w B} b n (f : buf → prog B) ls Q :
  (12 ≤ length b)%nat → (∀ b', cstr b' = Some (dec n) → length b' = length b → plays w Q (f b') ls) →
  plays w Q (need (sprintf b (dec n)) ≫= f) ls.
Proof.
  intros Hb Hf. destruct (sprintf_dec b n Hb) as (b' & E & Hc & Hl). eapply plays_need; [exact E|]. by apply Hf.
Qed.

(** A number sent in a message of 30 bytes arrives. *)
Lemma number_arrives b n data :
  cstr b = Some (dec n) → fits_int n = true → delivers b 30 data → reads 30 data (dec n) ∧ atoi (dec n) = Some n.
Proof.
  intros Hb Hn Hd. pose proof (dec_length n). split; [|by apply atoi_dec]. eapply delivers_reads; [done|lia|done].
Qed.

(** One label per item. *)
Lemma concat_single {A B} (f : A → B) (l : list A) : concat ((λ x, [f x]) <$> l) = f <$> l.
Proof. induction l as [|x l IH]; [done|]. cbn. by rewrite <- IH. Qed.

Lemma concat_quiet {A} (l : list A) : concat ((λ _ : A, @nil label) <$> l) = [].
Proof. by induction l. Qed.

(** ** [int] arrays that are filled from the front *)

Definition filled (l : list Z) (a : list (option Z)) : Prop := take (length l) a = Some <$> l.

Lemma filled_nil a : filled [] a.
Proof. done. Qed.

Lemma filled_length l a : filled l a → (length l ≤ length a)%nat.
Proof.
  intros H. assert (length (take (length l) a) = length l) as E by (rewrite H; apply length_fmap).
  rewrite length_take in E. lia.
Qed.

Lemma filled_get l a i x : filled l a → l !! i = Some x → iget a (Z.of_nat i) = Some x.
Proof.
  intros H Hx. unfold iget. rewrite aget_nat. pose proof (lookup_lt_Some _ _ _ Hx).
  rewrite <- (lookup_take_lt a (length l)), H, list_lookup_fmap, Hx by done. done.
Qed.

Lemma filled_snoc l a x :
  filled l a → (length l < length a)%nat →
  ∃ a', iset a (Z.of_nat (length l)) x = Some a' ∧ filled (l ++ [x]) a' ∧ length a' = length a.
Proof.
  intros H Hl. eexists. unfold iset. rewrite aset_Some by lia. rewrite Nat2Z.id. split; [done|].
  split; [|apply length_insert]. unfold filled in *. rewrite length_app, Nat.add_1_r, (take_S_r _ _ (Some x)).
  - rewrite take_insert_ge, H, fmap_app by done. done.
  - by apply list_lookup_insert_eq.
Qed.

Lemma filled_replace l a x :
  (length l < length a)%nat → filled l a →
  ∀ a', iset a (Z.of_nat (length l)) x = Some a' → filled (l ++ [x]) a' ∧ length a' = length a.
Proof. intros Hl H a' E. destruct (filled_snoc l a x H Hl) as (a'' & E' & ? & ?). rewrite E in E'. by simplify_eq. Qed.
