(* ===== verification/Converse.v ===== *)
(** * Two processes that talk over one connection

    What [Session] says of one process is put together for two: the bytes one
    of them sends are queued for the other, a [recv] takes what is queued, up
    to the size it asks for, and everything else a process does is answered by
    its own environment.  A conversation is a stream of items ([Out], [In]),
    given from the left party's side; the right party's is the [dual].  When
    each party plays its stream ([Typed]), every interleaving keeps to it:
    the parties say and hear the items in order, neither is ever in undefined
    behaviour or ended by [exit], one of them can always go on, and no run
    goes on forever without the conversation going on ([conversation_sound]).

    This is about deliveries in whole pieces: a [send] queues all the bytes it
    is given, and a [recv] that asks for [n] gets [n] when that many are queued.
    A stream socket may also transfer less; [loose_step] adds these transfers,
    and is what the theorems about them are stated with. *)

From stdpp Require Import relations.
From S2P Require Import Prelude CString Posix Session.

#[local] Open Scope nat_scope.

(** ** Parties and their moves *)

(** One end of a connection: what the kernel may answer to the calls that do
    not concern it, the descriptors it is read and written through, and the body of the
    endless loop of the process ([None]: it ends after its first part). *)
Record party (A : Type) := Party {
  env : call → reply → Prop;
  rd : Z → bool;
  wr : Z → bool;
  next : option (A → prog A)
}.
Arguments Party {A}. Arguments env {A}. Arguments rd {A}. Arguments wr {A}. Arguments next {A}.

(** What is left of the current round, the bytes that have arrived, and the
    transfers made so far. *)
Record side (A : Type) := Side { code : prog A; inbox : list ascii; log : list event }.
Arguments Side {A}. Arguments code {A}. Arguments inbox {A}. Arguments log {A}.

Definition push {A} (bytes : list ascii) (x : side A) : side A := Side (code x) (inbox x ++ bytes) (log x).

Lemma push_nil {A} (x : side A) : push [] x = x.
Proof. destruct x. unfold push. cbn. by rewrite app_nil_r. Qed.

Section party.
Context {A : Type} (p : party A).

(** The object and the size a call sends over the connection, and the size it
    receives. *)
Definition outgoing (c : call) : option (buf * Z) :=
  match c with
  | Send fd b n | Write fd b n => if wr p fd then Some (b, n) else None
  | _ => None
  end.
Definition incoming (c : call) : option Z :=
  match c with
  | Recv fd n | Read fd n => if rd p fd then Some n else None
  | _ => None
  end.

(** A move of the party and the bytes it sends. *)
Inductive move : side A → side A → list ascii → Prop :=
| move_send c k q l b n data :
    outgoing c = Some (b, n) → delivers b n data →
    move (Side (Call c k) q l) (Side (k (ret_ n)) q (l ++ [(c, ret_ n)])) (list_ascii_of_string data)
| move_recv c k q l n data rest :
    incoming c = Some n → q = list_ascii_of_string data ++ rest →
    String.length data = Z.to_nat n `min` length q → 0 < String.length data →
    move (Side (Call c k) q l) (Side (k (bytes_ data)) rest (l ++ [(c, bytes_ data)])) []
| move_local c k q l r :
    outgoing c = None → incoming c = None → env p c r → move (Side (Call c k) q l) (Side (k r) q l) []
| move_next f s q l : next p = Some f → move (Side (Ret s) q l) (Side (f s) q l) [].

(** The moves over a connection that may also queue or hand out less than it is
    asked for. *)
Inductive loose_move : side A → side A → list ascii → Prop :=
| loose_whole x x' out : move x x' out → loose_move x x' out
| loose_send c k q l b n m data :
    outgoing c = Some (b, n) → (0 < m < n)%Z → delivers b m data →
    loose_move (Side (Call c k) q l) (Side (k (ret_ m)) q (l ++ [(c, ret_ m)])) (list_ascii_of_string data)
| loose_recv c k q l n data rest :
    incoming c = Some n → q = list_ascii_of_string data ++ rest →
    0 < String.length data < Z.to_nat n `min` length q →
    loose_move (Side (Call c k) q l) (Side (k (bytes_ data)) rest (l ++ [(c, bytes_ data)])) [].

(** The moves that neither send nor receive. *)
Inductive local_move : prog A → prog A → Prop :=
| local_call c k r : outgoing c = None → incoming c = None → env p c r → local_move (Call c k) (k r)
| local_next f s : next p = Some f → local_move (Ret s) (f s).

Definition ended (x : side A) : Prop := next p = None ∧ ∃ s, code x = Ret s.
End party.

(** ** Conversations *)

(** A message of [n] bytes that holds a text, sent or received. *)
Inductive item := Out (n : Z) (s : string) | In (n : Z) (s : string).

Definition flip (x : item) : item := match x with Out n s => In n s | In n s => Out n s end.
Definition dual (T : nat → option item) (i : nat) : option item := flip <$> T i.

Lemma dual_dual T i : dual (dual T) i = T i.
Proof. unfold dual. by destruct (T i) as [[]|]. Qed.

(** The messages fit. *)
Definition proper (T : nat → option item) : Prop :=
  ∀ i x, T i = Some x → match x with Out n s | In n s => (Z.of_nat (String.length s) < n)%Z end.

Lemma proper_dual T : proper T → proper (dual T).
Proof. intros H i x. unfold dual. destruct (T i) as [[]|] eqn:E; intros [= <-]; by apply H in E. Qed.

(** The item a label is, seen from the party. *)
Section items.
Context {A : Type} (p : party A).

Definition item_of (l : label) : option item :=
  match l with
  | Sent fd n s => if wr p fd then Some (Out n s) else None
  | Got fd n s => if rd p fd then Some (In n s) else None
  | _ => None
  end.
Definition items (ls : list label) : list item := omap item_of ls.

(** The label is a transfer over the connection, or what the environment
    answers anyway. *)
Definition told (l : label) : Prop :=
  match l with
  | Sent fd _ _ => wr p fd = true
  | Got fd _ _ => rd p fd = true
  | Did c v => outgoing p c = None ∧ incoming p c = None ∧ ∀ r, env p c r → rv r = v
  | Told c r' => outgoing p c = None ∧ incoming p c = None ∧ ∀ r, env p c r → r = r'
  end.

(** The transfer is the item. *)
Definition performs (x : item) (e : event) : Prop :=
  match x with
  | Out n s => ∃ b, outgoing p e.1 = Some (b, n) ∧ cstr b = Some s
  | In n s => incoming p e.1 = Some n ∧ reads n (rdata e.2) s
  end.

Lemma net_calls c : net c = false → outgoing p c = None ∧ incoming p c = None.
Proof. by destruct c. Qed.

(** What a call of a session is to the connection: nothing, the next item
    sent, or the next item received. *)
Lemma labels_call (Q : outcome A → Prop) c k ls :
  plays net Q (Call c k) ls → Forall told ls →
  (outgoing p c = None ∧ incoming p c = None ∧
     ∀ r, env p c r → ∃ ls', items ls' = items ls ∧ Forall told ls' ∧ plays net Q (k r) ls') ∨
  (∃ n s b ls', outgoing p c = Some (b, n) ∧ cstr b = Some s ∧ items ls = Out n s :: items ls' ∧ Forall told ls' ∧
     ∀ r, plays net Q (k r) ls') ∨
  (∃ n s ls', incoming p c = Some n ∧ outgoing p c = None ∧ items ls = In n s :: items ls' ∧ Forall told ls' ∧
     ∀ r, reads n (rdata r) s → rv r = n → plays net Q (k r) ls').
Proof.
  intros Hp Ht. inversion Hp as [| | |l c' k' ls' Hw Hc Hk E1 E2|c' k' ls' Hw Hk E1 E2]; subst.
  2: { left. destruct (net_calls c Hw) as [Ho Hi]. split_and!; [done..|]. intros r _. by exists ls. }
  apply Forall_cons in Ht as [Hl Ht]. destruct l as [fd n s|fd n s|c' v|c' r'].
  - right. left. cbn in Hl, Hc. destruct Hc as (b & Hc & Hb). exists n, s, b, ls'.
    split; [by destruct Hc as [-> | ->]; cbn; rewrite Hl|]. split_and!; [done|by unfold items; cbn; rewrite Hl|done|].
    intros r. by apply Hk.
  - right. right. cbn in Hl, Hc. exists n, s, ls'. split; [by destruct Hc as [-> | ->]; cbn; rewrite Hl|].
    split; [by destruct Hc as [-> | ->]|]. split_and!; [by unfold items; cbn; rewrite Hl|done|]. intros r Hr Hv. by apply Hk.
  - left. cbn in Hl, Hc. subst c'. destruct Hl as (Ho & Hi & He). split_and!; [done..|]. intros r Hr.
    exists ls'. split_and!; [done..|]. exact (Hk r (He r Hr)).
  - left. cbn in Hl, Hc. subst c'. destruct Hl as (Ho & Hi & He). split_and!; [done..|]. intros r Hr.
    exists ls'. split_and!; [done..|]. exact (Hk r (He r Hr)).
Qed.

(** From position [i] of the conversation on, the code keeps to it, until it
    returns a value of which [P] holds at the position reached. *)
Definition keeps (T : nat → option item) (P : nat → A → Prop) (c : prog A) (i : nat) (ls : list label) : Prop :=
  Forall told ls ∧ plays net (returns (P (i + length (items ls)))) c ls ∧
  ∀ k x, items ls !! k = Some x → T (i + k) = Some x.

(** The party plays its part: every round of its loop moves the conversation
    on; a party without a loop returns at the end of the conversation. *)
Class Typed (T : nat → option item) (P : nat → A → Prop) : Prop := {
  typed_round f i s : next p = Some f → P i s → ∃ ls, keeps T P (f s) i ls ∧ items ls ≠ [];
  typed_end i s : next p = None → P i s → T i = None;
  typed_env c : ∃ r, env p c r
}.

(** *** One step of a party *)
Section typed.
Context {T : nat → option item} {P : nat → A → Prop}.

(** The next item of the party is that of the conversation. *)
Lemma keeps_tail c i ls ls' x :
  items ls = x :: items ls' → Forall told ls' → plays net (returns (P (i + length (items ls)))) c ls' →
  (∀ k y, items ls !! k = Some y → T (i + k) = Some y) → keeps T P c (S i) ls'.
Proof.
  intros E Ht Hp HT. rewrite E in *. split_and!; [done| |].
  - cbn [length] in Hp. by rewrite <- Nat.add_succ_comm in Hp.
  - intros j y Hy. rewrite Nat.add_succ_comm. by apply HT.
Qed.

Lemma keeps_call c k i ls :
  keeps T P (Call c k) i ls →
  (outgoing p c = None ∧ incoming p c = None ∧ ∀ r, env p c r → ∃ ls', keeps T P (k r) i ls' ∧ items ls' = items ls) ∨
  (∃ n s b ls', outgoing p c = Some (b, n) ∧ cstr b = Some s ∧ T i = Some (Out n s) ∧ ∀ r, keeps T P (k r) (S i) ls') ∨
  (∃ n s ls', incoming p c = Some n ∧ outgoing p c = None ∧ T i = Some (In n s) ∧
     ∀ r, reads n (rdata r) s → rv r = n → keeps T P (k r) (S i) ls').
Proof.
  intros (Ht & Hp & HT). destruct (labels_call _ _ _ _ Hp Ht) as [(Ho & Hi & H)|[(n & s & b & ls' & Ho & Hb & E & Ht' & H)|
    (n & s & ls' & Hi & Ho & E & Ht' & H)]].
  - left. split_and!; [done..|]. intros r Hr. destruct (H r Hr) as (ls' & E & Ht' & Hp'). exists ls'. unfold keeps. rewrite E. by split.
  - right. left. exists n, s, b, ls'. split_and!; [done..| |].
    + rewrite <- (Nat.add_0_r i). apply HT. by rewrite E.
    + intros r. by eapply keeps_tail.
  - right. right. exists n, s, ls'. split_and!; [done..| |].
    + rewrite <- (Nat.add_0_r i). apply HT. by rewrite E.
    + intros r Hr Hv. eapply keeps_tail; [done|done|by apply H|done].
Qed.

Lemma keeps_ret s i ls : keeps T P (Ret s) i ls → P i s.
Proof.
  intros (_ & Hp & _). inversion Hp as [a Ha| | | |]; subst. destruct Ha as (a' & [= <-] & H). by rewrite Nat.add_0_r in H.
Qed.

Lemma keeps_alive c i ls : keeps T P c i ls → c ≠ Undef ∧ ∀ z, c ≠ Halt z.
Proof.
  intros (_ & Hp & _). inversion Hp as [a Ha|z Ha|Ha| |]; subst; [done| | |done|done].
  - by destruct Ha as (a' & ? & _).
  - by destruct Ha as (a' & ? & _).
Qed.

Context `{Ty : !Typed T P}.

(** A party cannot go on forever without a transfer. *)
Lemma keeps_acc_round c i ls : keeps T P c i ls → items ls ≠ [] → Acc (λ c' c, local_move p c c') c.
Proof.
  revert ls. induction c as [s|z| |c k IH]; intros ls Hk Hne.
  - destruct Hk as (_ & Hp & _). inversion Hp; by subst.
  - constructor. intros c' Hc. inversion Hc.
  - constructor. intros c' Hc. inversion Hc.
  - constructor. intros c' Hc. inversion Hc as [c1 k1 r Ho Hi Hr E|]; subst.
    destruct (keeps_call _ _ _ _ Hk) as [(_ & _ & H)|[(n & s & b & ls' & Ho' & _)|(n & s & ls' & Hi' & _)]]; [|congruence..].
    destruct (H r Hr) as (ls' & Hk' & E'). eapply IH; [exact Hk'|by rewrite E'].
Qed.

Lemma keeps_acc c i ls : keeps T P c i ls → Acc (λ c' c, local_move p c c') c.
Proof.
  revert ls. induction c as [s|z| |c k IH]; intros ls Hk; constructor; intros c' Hc;
    inversion Hc as [c1 k1 r Ho Hi Hr E|f s' Hf E]; subst.
  - destruct (typed_round f i s Hf (keeps_ret _ _ _ Hk)) as (ls' & Hk' & Hne). by eapply keeps_acc_round.
  - destruct (keeps_call _ _ _ _ Hk) as [(_ & _ & H)|[(n & s & b & ls' & Ho' & _)|(n & s & ls' & Hi' & _)]]; [|congruence..].
    destruct (H r Hr) as (ls' & Hk' & E'). by eapply IH.
Qed.
End typed.
End items.

(** ** Bytes on their way *)

(** The bytes of the messages [i], ..., [j - 1], which the receiver has not yet
    taken. *)
Inductive flight (T : nat → option item) : nat → nat → list ascii → Prop :=
| flight_none i : flight T i i []
| flight_more i j n s d q :
    T i = Some (In n s) → reads n d s → flight T (S i) j q → flight T i j (list_ascii_of_string d ++ q).

Lemma flight_snoc T i j q n s d :
  flight T i j q → T j = Some (In n s) → reads n d s → flight T i (S j) (q ++ list_ascii_of_string d).
Proof.
  induction 1 as [i|i j n' s' d' q' Hi Hr _ IH]; intros HT Hd; cbn.
  - rewrite <- (app_nil_r (list_ascii_of_string d)). by eapply flight_more; [| |apply flight_none].
  - rewrite <- app_assoc. eapply flight_more; [done..|by apply IH].
Qed.

Lemma flight_inv T i j q n s :
  flight T i j q → T i = Some (In n s) → q ≠ [] → ∃ d q', q = list_ascii_of_string d ++ q' ∧ reads n d s ∧ flight T (S i) j q'.
Proof. inversion 1; [done|]. intros. simplify_eq. eauto. Qed.

Lemma flight_out T i j q n s : flight T i j q → T i = Some (Out n s) → i = j ∧ q = [].
Proof. inversion 1; [done|]. intros. by simplify_eq. Qed.

Lemma reads_nonempty n d s : reads n d s → 0 < String.length d.
Proof. intros (_ & H & _). destruct d; [done|]. cbn. lia. Qed.

Lemma flight_still T i j q : flight T i j q → T i = None ∨ q = [] → i = j.
Proof.
  inversion 1 as [|? ? n s d q' Hi Hr]; [done|]. intros [E|E]; [congruence|].
  apply reads_nonempty in Hr. apply app_eq_nil in E as [E _]. apply (f_equal length) in E.
  rewrite length_chars in E. cbn in E. lia.
Qed.

(** Any object can be delivered. *)
Lemma delivers_some (b : buf) (n : Z) : (0 ≤ n)%Z → ∃ data, delivers b n data.
Proof.
  intros Hn. set (at_ := λ i : nat, match b !! i with Some (Some c) => c | _ => NUL end).
  exists (string_of_list_ascii (at_ <$> seq 0 (Z.to_nat n))). split.
  - rewrite <- length_chars, list_ascii_of_string_of_list_ascii, length_fmap, length_seq. lia.
  - intros i c Hb Hi. rewrite list_ascii_of_string_of_list_ascii, list_lookup_fmap, lookup_seq_lt by lia.
    cbn. unfold at_. by rewrite Hb.
Qed.

(** ** One move of a party that plays its part *)

(** The transfers made are those of the conversation. *)
Definition transcript {A} (p : party A) (T : nat → option item) (l : list event) : Prop :=
  ∀ k e, l !! k = Some e → ∃ x, T k = Some x ∧ performs p x e.

Lemma transcript_snoc {A} (p : party A) T l x e :
  transcript p T l → T (length l) = Some x → performs p x e → transcript p T (l ++ [e]).
Proof.
  intros Hl HT He k e' Hk. apply lookup_app_Some in Hk as [Hk|[Hlen Hk]]; [by apply Hl|].
  apply list_lookup_singleton_Some in Hk as [Hk <-]. exists x. by replace k with (length l) by lia.
Qed.

(** A side in the middle of its part. *)
Definition at_position {A} (p : party A) T (P : nat → A → Prop) (x : side A) : Prop :=
  transcript p T (log x) ∧ ∃ ls, keeps p T P (code x) (length (log x)) ls.

Section sides.
Context {A B : Type} (p1 : party A) (p2 : party B).
Context (T1 T2 : nat → option item) (P1 : nat → A → Prop) (P2 : nat → B → Prop).
Context `{Ty1 : !Typed p1 T1 P1} `{Ty2 : !Typed p2 T2 P2}.

Definition duals : Prop := ∀ i, T2 i = flip <$> T1 i.

(** Both are in the middle of their parts, and what one has said and the other
    has not yet heard is on its way. *)
Definition in_step (x : side A) (y : side B) : Prop :=
  at_position p1 T1 P1 x ∧ at_position p2 T2 P2 y ∧
  ((flight T1 (length (log x)) (length (log y)) (inbox x) ∧ inbox y = []) ∨
   (flight T2 (length (log y)) (length (log x)) (inbox y) ∧ inbox x = [])).

(** A move is local or makes a transfer. *)
Lemma move_kind x x' out :
  move p1 x x' out →
  (local_move p1 (code x) (code x') ∧ inbox x' = inbox x ∧ log x' = log x ∧ out = []) ∨
  (∃ e, log x' = log x ++ [e]).
Proof.
  destruct 1 as [c k q l b n data|c k q l n data rest|c k q l r Ho Hi Hr|f s q l Hf]; cbn; [right; eauto..| |].
  - left. split_and!; [by apply local_call|done..].
  - left. split_and!; [by apply local_next|done..].
Qed.

Lemma local_at_position x x' :
  at_position p1 T1 P1 x → local_move p1 (code x) (code x') → log x' = log x → at_position p1 T1 P1 x'.
Proof.
  intros [Ht (ls & Hk)] Hm El. unfold at_position. rewrite El. split; [done|].
  inversion Hm as [c k r Ho Hi Hr E1 E2|f s Hf E1 E2]; rewrite <- E1 in Hk.
  - destruct (keeps_call _ _ _ _ _ Hk) as [(_ & _ & H)|[(n & s & b & ls' & Ho' & _)|(n & s & ls' & Hi' & _)]]; [|congruence..].
    destruct (H r Hr) as (ls' & Hk' & _). by exists ls'.
  - destruct (typed_round p1 f _ s Hf (keeps_ret _ _ _ _ Hk)) as (ls' & Hk' & _). by exists ls'.
Qed.

Lemma at_position_next x' l x e ls :
  transcript p1 T1 l → T1 (length l) = Some x → performs p1 x e → log x' = l ++ [e] →
  keeps p1 T1 P1 (code x') (S (length l)) ls → at_position p1 T1 P1 x'.
Proof.
  intros Hl HT He El Hk. unfold at_position. rewrite El. split; [by eapply transcript_snoc|].
  exists ls. by rewrite length_app, Nat.add_1_r.
Qed.

Hypothesis Hdual : duals.
Hypothesis Hproper : proper T1.

Lemma in_step_local x y x' :
  in_step x y → local_move p1 (code x) (code x') → inbox x' = inbox x → log x' = log x → in_step x' y.
Proof.
  intros (Hx & Hy & Hf) Hm Ei El. split; [by eapply local_at_position|]. split; [exact Hy|]. by rewrite Ei, El.
Qed.

Lemma in_step_move x y x' out : in_step x y → move p1 x x' out → in_step x' (push out y).
Proof.
  intros Hs Hm.
  destruct Hm as [c k q l b n data Ho Hd|c k q l n data rest Hi Eq Hlen Hpos|c k q l r Ho Hi Hr|f s q l Hf'].
  3, 4: rewrite push_nil; eapply in_step_local; [exact Hs| |done|done]; cbn [code]; by constructor.
  all: destruct Hs as (Hx & Hy & Hf); cbn in Hf |- *; destruct Hx as [Ht (ls & Hk)]; cbn [code log inbox] in *.
  - destruct (keeps_call _ _ _ _ _ Hk) as [(Ho' & _)|[(n' & s & b' & ls' & Ho' & Hb & HT & Hk')|(n' & s & ls' & _ & Ho' & _)]];
      [congruence| |congruence]. rewrite Ho in Ho'. injection Ho' as <- <-.
    assert (reads n data s) as Hr by exact (delivers_reads _ _ _ _ Hb (Hproper _ _ HT) Hd).
    split; [eapply at_position_next; [exact Ht|exact HT| |done|exact (Hk' (ret_ n))]; by exists b|]. split; [exact Hy|].
    right. cbn. rewrite length_app, Nat.add_1_r.
    assert (T2 (length l) = Some (In n s)) as HT2 by (by rewrite Hdual, HT).
    destruct Hf as [[Hf Ey]|[Hf Eq]].
    + destruct (flight_out _ _ _ _ _ _ Hf HT) as [E ->]. rewrite Ey, <- E in *.
      split; [|done]. by eapply (flight_snoc T2 _ _ []); [apply flight_none|..].
    + split; [by eapply flight_snoc|done].
  - destruct (keeps_call _ _ _ _ _ Hk) as [(_ & Hi' & _)|[(n' & s & b' & ls' & Ho' & _)|(n' & s & ls' & Hi' & _ & HT & Hk')]];
      [congruence|by destruct c; try discriminate Hi; try discriminate Ho'|]. rewrite Hi in Hi'. injection Hi' as <-.
    assert (q ≠ []) as Hq by (intros ->; apply (f_equal length) in Eq; rewrite length_app, length_chars in Eq; cbn in Eq; lia).
    destruct Hf as [[Hf Ey]|[_ ->]]; [|done].
    destruct (flight_inv _ _ _ _ _ _ Hf HT Hq) as (d & q' & Eq' & Hr & Hf').
    assert (String.length d = Z.to_nat n) as Ed by (destruct Hr; lia).
    assert (data = d ∧ rest = q') as [-> ->].
    { rewrite Eq' in Eq. apply app_inj_1 in Eq as [E ->].
      { split; [|done]. by rewrite <- (string_of_list_ascii_of_string d), E, string_of_list_ascii_of_string. }
      rewrite !length_chars, Hlen, Ed, Eq', length_app, length_chars. lia. }
    split; [eapply at_position_next; [exact Ht|exact HT| |done|exact (Hk' (bytes_ d) Hr (proj1 Hr))]; by split|].
    split; [by destruct Hy|]. left. cbn. rewrite app_nil_r, length_app, Nat.add_1_r. done.
Qed.

(** A party can move, has ended, or waits for a message. *)
Lemma move_or_still x :
  at_position p1 T1 P1 x →
  (∃ x' out, move p1 x x' out) ∨
  T1 (length (log x)) = None ∧ ended p1 x ∨
  (∃ n s, T1 (length (log x)) = Some (In n s)) ∧ inbox x = [].
Proof.
  destruct x as [c q l]. intros [Ht (ls & Hk)]. cbn in *. destruct c as [s|z| |c k].
  - destruct (next p1) as [f|] eqn:Hf; [left; eexists _, _; by apply (move_next _ f)|]. right. left.
    split; [|split; [done|by exists s]]. exact (typed_end p1 _ s Hf (keeps_ret _ _ _ _ Hk)).
  - by destruct (proj2 (keeps_alive _ _ _ _ Hk) z).
  - by destruct (proj1 (keeps_alive _ _ _ _ Hk)).
  - destruct (keeps_call _ _ _ _ _ Hk) as [(Ho & Hi & _)|[(n & s & b & ls' & Ho & _ & HT & _)|(n & s & ls' & Hi & _ & HT & _)]].
    + left. destruct (typed_env p1 c) as [r Hr]. eexists _, _. by apply move_local.
    + left. pose proof (Hproper _ _ HT) as Hn. cbn in Hn. destruct (delivers_some b n) as [data Hd]; [lia|].
      eexists _, _. by eapply move_send.
    + destruct q as [|a q]; [right; right; eauto|]. left. pose proof (Hproper _ _ HT) as Hn. cbn in Hn.
      eexists _, []. eapply (move_recv _ _ _ _ _ n (string_of_list_ascii (take (Z.to_nat n) (a :: q))) (drop (Z.to_nat n) (a :: q)));
        [done|..]; rewrite <- ?length_chars, ?list_ascii_of_string_of_list_ascii.
      * by rewrite take_drop.
      * by rewrite length_take.
      * rewrite length_take. cbn. lia.
Qed.

Lemma still_at T (P : Prop) i j q : flight T i j q → T i = None ∧ P ∨ (∃ n s, T i = Some (In n s)) ∧ q = [] → i = j.
Proof. intros Hf [[E _]|[_ E]]; (eapply flight_still; [exact Hf|]); auto. Qed.
End sides.

Section pair.
Context {A B : Type} (p1 : party A) (p2 : party B).

(** Any of the two may move. *)
Inductive step : side A * side B → side A * side B → Prop :=
| step_left x x' y out : move p1 x x' out → step (x, y) (x', push out y)
| step_right x y y' out : move p2 y y' out → step (x, y) (push out x, y').

Definition start (c1 : prog A) (c2 : prog B) : side A * side B := (Side c1 [] [], Side c2 [] []).

(** The same with short transfers. *)
Inductive loose_step : side A * side B → side A * side B → Prop :=
| loose_left x x' y out : loose_move p1 x x' out → loose_step (x, y) (x', push out y)
| loose_right x y y' out : loose_move p2 y y' out → loose_step (x, y) (push out x, y').

(** Short transfers can take one of the two into undefined behaviour. *)
Definition broken (c : side A * side B) : Prop := code c.1 = Undef ∨ code c.2 = Undef.
Definition breakable (c : side A * side B) : Prop := ∃ c', rtc loose_step c c' ∧ broken c'.

Lemma breakable_run c c' : rtc loose_step c c' → breakable c' → breakable c.
Proof. intros H (d & Hd & Hb). exists d. split; [by etrans|done]. Qed.

Lemma loose_local_left c c' q l y : rtc (local_move p1) c c' → rtc loose_step (Side c q l, y) (Side c' q l, y).
Proof.
  induction 1 as [c|c c' c'' Hm _ IH]; [done|]. refine (rtc_l _ _ _ _ _ IH). rewrite <- (push_nil y) at 2. apply loose_left, loose_whole.
  destruct Hm; [by apply move_local|by apply move_next].
Qed.

Lemma loose_local_right c c' q l x : rtc (local_move p2) c c' → rtc loose_step (x, Side c q l) (x, Side c' q l).
Proof.
  induction 1 as [c|c c' c'' Hm _ IH]; [done|]. refine (rtc_l _ _ _ _ _ IH). rewrite <- (push_nil x) at 2. apply loose_right, loose_whole.
  destruct Hm; [by apply move_local|by apply move_next].
Qed.

(** A message of which only the first byte is handed out. *)
Lemma first_byte a b n data rest :
  delivers b n data → b !! 0 = Some (Some a) → (1 < n)%Z →
  ∃ q, list_ascii_of_string data ++ rest = list_ascii_of_string (String a "") ++ q ∧
    0 < String.length (String a "") < Z.to_nat n `min` length (list_ascii_of_string data ++ rest).
Proof.
  intros [Hl Hd] Hb Hn. specialize (Hd 0 a Hb ltac:(lia)). destruct data as [|a' data]; [done|]. cbn in Hd, Hl. injection Hd as ->.
  exists (list_ascii_of_string data ++ rest). split; [done|]. cbn. rewrite length_app, length_chars. lia.
Qed.

Lemma short_message_right c1 c2 q1 l1 l2 d1 k1 d2 k2 a b n :
  rtc (local_move p1) c1 (Call d1 k1) → rtc (local_move p2) c2 (Call d2 k2) →
  outgoing p1 d1 = Some (b, n) → incoming p2 d2 = Some n → b !! 0 = Some (Some a) → (1 < n)%Z →
  k2 (bytes_ (String a "")) = Undef → breakable (Side c1 q1 l1, Side c2 [] l2).
Proof.
  intros H1 H2 Ho Hi Hb Hn Hu. destruct (delivers_some b n ltac:(lia)) as [data Hd].
  destruct (first_byte _ _ _ _ [] Hd Hb Hn) as (q & Eq & Hl). rewrite app_nil_r in Eq, Hl. eexists. split.
  - etrans; [by apply loose_local_left|]. etrans; [by apply loose_local_right|].
    eapply rtc_l; [eapply loose_left, loose_whole, move_send; [exact Ho|exact Hd]|]. unfold push at 1. cbn [code inbox log app].
    eapply rtc_once, loose_right, loose_recv; [exact Hi|exact Eq|exact Hl].
  - by right.
Qed.

Lemma short_message_left c1 c2 l1 q2 l2 d1 k1 d2 k2 a b n :
  rtc (local_move p1) c1 (Call d1 k1) → rtc (local_move p2) c2 (Call d2 k2) →
  outgoing p2 d2 = Some (b, n) → incoming p1 d1 = Some n → b !! 0 = Some (Some a) → (1 < n)%Z →
  k1 (bytes_ (String a "")) = Undef → breakable (Side c1 [] l1, Side c2 q2 l2).
Proof.
  intros H1 H2 Ho Hi Hb Hn Hu. destruct (delivers_some b n ltac:(lia)) as [data Hd].
  destruct (first_byte _ _ _ _ [] Hd Hb Hn) as (q & Eq & Hl). rewrite app_nil_r in Eq, Hl. eexists. split.
  - etrans; [by apply loose_local_left|]. etrans; [by apply loose_local_right|].
    eapply rtc_l; [eapply loose_right, loose_whole, move_send; [exact Ho|exact Hd]|]. unfold push at 1. cbn [code inbox log app].
    eapply rtc_once, loose_left, loose_recv; [exact Hi|exact Eq|exact Hl].
  - by left.
Qed.

(** The number of transfers made. *)
Definition said (c : side A * side B) : nat := length (log c.1) + length (log c.2).

(** A run without end. *)
Definition endless (c : side A * side B) (f : nat → side A * side B) : Prop :=
  f 0 = c ∧ ∀ t, step (f t) (f (S t)).

Definition in_order {C} (x : side C) : Prop := code x ≠ Undef ∧ ∀ z, code x ≠ Halt z.

(** The two hold the conversation [T]. *)
Definition converse (c1 : prog A) (c2 : prog B) (T : nat → option item) : Prop :=
  (∀ c, rtc step (start c1 c2) c →
     (transcript p1 T (log c.1) ∧ transcript p2 (dual T) (log c.2)) ∧
     (in_order c.1 ∧ in_order c.2) ∧
     ((∃ c', step c c') ∨
      (ended p1 c.1 ∧ ended p2 c.2 ∧ T (length (log c.1)) = None ∧ length (log c.1) = length (log c.2)))) ∧
  (∀ f, endless (start c1 c2) f → ∀ N, ∃ t, N ≤ said (f t)).

(** They hold it while messages are delivered whole, and can break without. *)
Definition holds_whole (c1 : prog A) (c2 : prog B) (T : nat → option item) : Prop :=
  converse c1 c2 T ∧ breakable (start c1 c2).

Context {T : nat → option item} {P1 : nat → A → Prop} {P2 : nat → B → Prop}.
Context `{Ty1 : !Typed p1 T P1} `{Ty2 : !Typed p2 (dual T) P2}.
Hypothesis Hproper : proper T.

Let together := in_step p1 p2 T (dual T) P1 P2.

Lemma in_step_sym {C D} (q1 : party C) (q2 : party D) T1 T2 Q1 Q2 x y :
  in_step q1 q2 T1 T2 Q1 Q2 x y → in_step q2 q1 T2 T1 Q2 Q1 y x.
Proof. intros (? & ? & H). split_and!; [done..|]. destruct H; auto. Qed.

Lemma step_together c c' : together c.1 c.2 → step c c' → together c'.1 c'.2.
Proof.
  intros H Hs. revert H. destruct Hs as [x x' y out Hm|x y y' out Hm]; unfold together; cbn [fst snd]; intros H.
  - exact (in_step_move p1 p2 T (dual T) P1 P2 (λ _, eq_refl) Hproper _ _ _ _ H Hm).
  - apply in_step_sym.
    refine (in_step_move p2 p1 (dual T) T P2 P1 _ (proper_dual _ Hproper) _ _ _ _ (in_step_sym _ _ _ _ _ _ _ _ H) Hm).
    intros i. symmetry. apply dual_dual.
Qed.

Lemma rtc_together c c' : together c.1 c.2 → rtc step c c' → together c'.1 c'.2.
Proof. intros H Hs. induction Hs as [|c c' c'' Hs _ IH]; [done|]. apply IH. by eapply step_together. Qed.

(** No deadlock. *)
Lemma together_progress x y :
  together x y →
  (∃ c', step (x, y) c') ∨
  (ended p1 x ∧ ended p2 y ∧ T (length (log x)) = None ∧ length (log x) = length (log y)).
Proof.
  intros (Hx & Hy & Hf).
  destruct (move_or_still p1 T P1 Hproper x Hx) as [(x' & out & Hm)|Sx]; [left; eexists; by apply step_left|].
  destruct (move_or_still p2 (dual T) P2 (proper_dual _ Hproper) y Hy) as [(y' & out & Hm)|Sy]; [left; eexists; by apply step_right|].
  assert (length (log x) = length (log y)) as E.
  { destruct Hf as [[Hf _]|[Hf _]]; [|symmetry]; by eapply still_at. }
  right. rewrite <- E in Sy. unfold dual in Sy. destruct Sx as [[Ex Hx']|[(n & s & Ex) _]]; rewrite Ex in Sy.
  - destruct Sy as [[_ Hy']|[(n & s & Ey) _]]; [done|discriminate].
  - destruct Sy as [[Ey _]|[(n' & s' & Ey) _]]; discriminate.
Qed.

(** Between two transfers the moves are bounded. *)
Let onward (N : nat) (c' c : side A * side B) : Prop := step c c' ∧ said c' ≤ N.

Lemma acc_local N k :
  (∀ c, together c.1 c.2 → k < said c → said c ≤ N → Acc (onward N) c) →
  ∀ cx, Acc (λ c' c, local_move p1 c c') cx → ∀ cy, Acc (λ c' c, local_move p2 c c') cy →
  ∀ x y, code x = cx → code y = cy → said (x, y) = k → together x y → Acc (onward N) (x, y).
Proof.
  intros IHm cx Ax. induction Ax as [cx _ IHx]. intros cy Ay. induction Ay as [cy Hcy IHy].
  intros x y Ex Ey Ek Ht. constructor. intros c' [Hs HN]. pose proof (step_together (x, y) _ Ht Hs) as Ht'.
  inversion Hs as [x1 x' y1 out Hm|x1 y1 y' out Hm]; subst; cbn in Ht'.
  - destruct (move_kind _ _ _ _ Hm) as [(Hl & _ & El & ->)|[e El]].
    + eapply IHx; [exact Hl|constructor; exact Hcy|done|done|unfold said; cbn; by rewrite El|done].
    + apply IHm; [done|unfold said; cbn; rewrite El, length_app; cbn; lia|done].
  - destruct (move_kind _ _ _ _ Hm) as [(Hl & _ & El & ->)|[e El]].
    + eapply IHy; [exact Hl|done|done|unfold said; cbn; by rewrite El|done].
    + apply IHm; [done|unfold said; cbn; rewrite El, length_app; cbn; lia|done].
Qed.

Lemma together_acc N c : together c.1 c.2 → Acc (onward N) c.
Proof.
  intros H. remember (N - said c) as m eqn:Em. revert c Em H.
  induction m as [m IHm] using lt_wf_ind. intros [x y] Em H.
  pose proof H as ((_ & lx & Kx) & (_ & ly & Ky) & _).
  eapply acc_local; [|exact (keeps_acc _ _ _ _ Kx)|exact (keeps_acc _ _ _ _ Ky)|done..|exact H].
  intros c Hc Hk HN. eapply IHm; [|done|done]. cbn in Hk. lia.
Qed.

Lemma endless_says f N c : Acc (onward N) c → ∀ t, f t = c → (∀ t, step (f t) (f (S t))) → ∃ t, N < said (f t).
Proof.
  induction 1 as [c _ IH]. intros t Et Hf. destruct (decide (said (f (S t)) ≤ N)) as [Hle|Hgt].
  - apply (IH (f (S t))) with (S t); [|done|done]. subst c. by split.
  - exists (S t). lia.
Qed.

(** Two parties that play dual parts hold the conversation. *)
Theorem conversation_sound c1 c2 ls1 ls2 :
  keeps p1 T P1 c1 0 ls1 → keeps p2 (dual T) P2 c2 0 ls2 → converse c1 c2 T.
Proof.
  intros K1 K2. assert (together (start c1 c2).1 (start c1 c2).2) as H0.
  { split; [split; [by intros k e|by exists ls1]|]. split; [split; [by intros k e|by exists ls2]|]. left. split; [apply flight_none|done]. }
  split.
  - intros [x y] Hc. pose proof (rtc_together _ _ H0 Hc) as H. pose proof H as ((Tx & lx & Kx) & (Ty & ly & Ky) & _).
    split; [by split|]. split; [split; by eapply keeps_alive|]. by apply together_progress.
  - intros f [E Hf] N. destruct (endless_says f N _ (together_acc N _ H0) 0 E Hf) as [t Ht]. exists t. lia.
Qed.
End pair.

(** ** Conversations with an opening and a refrain *)

(** The items of [pre], then those of [cyc] over and over. *)
Definition stream (pre cyc : list item) (i : nat) : option item :=
  if decide (i < length pre) then pre !! i else cyc !! ((i - length pre) mod length cyc).

Lemma stream_pre pre cyc i x : pre !! i = Some x → stream pre cyc i = Some x.
Proof. intros H. unfold stream. rewrite decide_True; [done|]. by apply lookup_lt_Some in H. Qed.

Lemma stream_round pre cyc k j x :
  cyc !! j = Some x → stream pre cyc (length pre + k * length cyc + j) = Some x.
Proof.
  intros H. pose proof (lookup_lt_Some _ _ _ H). unfold stream. rewrite decide_False by lia.
  replace (length pre + k * length cyc + j - length pre) with (j + k * length cyc) by lia.
  by rewrite Nat.Div0.mod_add, Nat.mod_small.
Qed.

Lemma stream_end pre : stream pre [] (length pre) = None.
Proof. unfold stream. by rewrite decide_False by lia. Qed.

Lemma stream_dual pre cyc i : dual (stream pre cyc) i = stream (flip <$> pre) (flip <$> cyc) i.
Proof. unfold dual, stream. rewrite !length_fmap. case_decide; by rewrite list_lookup_fmap. Qed.

Lemma proper_stream pre cyc :
  Forall (λ x, match x with Out n s | In n s => (Z.of_nat (String.length s) < n)%Z end) (pre ++ cyc) →
  proper (stream pre cyc).
Proof.
  intros [Hp Hc]%Forall_app i x. unfold stream. rewrite Forall_lookup in Hp, Hc. case_decide; [apply Hp|apply Hc].
Qed.

(** What a process has to do to play such a part: its beginning makes the
    transfers [pre] and leaves it in a state that is [ok]; every round of its
    loop makes the transfers [cyc]. *)
Record part {A} (p : party A) (ok : A → Prop) (c : prog A) (pre cyc : list item) : Prop := {
  part_total call : ∃ r, env p call r;
  part_starts : ∃ ls, Forall (told p) ls ∧ plays net (returns ok) c ls ∧ items p ls = pre;
  part_rounds :
    match next p with
    | None => cyc = []
    | Some f => cyc ≠ [] ∧ ∀ s, ok s → ∃ ls, Forall (told p) ls ∧ plays net (returns ok) (f s) ls ∧ items p ls = cyc
    end
}.

Section parts.
Context {A : Type} (p : party A) (ok : A → Prop) (c : prog A) (pre cyc : list item) (T : nat → option item).
Hypothesis Hpart : part p ok c pre cyc.
Hypothesis HT : ∀ i, T i = stream pre cyc i.

(** The heads of the rounds. *)
Definition head_of_round (i : nat) (s : A) : Prop := ok s ∧ ∃ k, i = length pre + k * length cyc.

Lemma part_typed : Typed p T head_of_round.
Proof.
  destruct Hpart as [Htot _ Hr]. split; [| |exact Htot].
  - intros f i s Hf [Hs [k ->]]. rewrite Hf in Hr. destruct Hr as [Hne Hr]. destruct (Hr s Hs) as (ls & Ht & Hp & Ei).
    exists ls. rewrite Ei. split; [|done]. split; [done|]. split.
    + eapply plays_weaken; [exact Hp|]. intros s' Hs'. split; [done|]. exists (S k). rewrite Ei. lia.
    + intros j x. rewrite Ei, HT. apply stream_round.
  - intros i s Hn [_ [k ->]]. rewrite Hn in Hr. rewrite HT, Hr, Nat.mul_0_r, Nat.add_0_r. apply stream_end.
Qed.

Lemma part_keeps : ∃ ls, keeps p T head_of_round c 0 ls.
Proof.
  destruct Hpart as [_ (ls & Ht & Hp & Ei) _]. exists ls. split; [done|]. split.
  - eapply plays_weaken; [exact Hp|]. intros s Hs. split; [done|]. exists 0. rewrite Ei. lia.
  - intros j x. rewrite Ei, HT. apply stream_pre.
Qed.
End parts.

(** Dual parts make a conversation. *)
Theorem parts_converse {A B} (p1 : party A) (p2 : party B) ok1 ok2 c1 c2 pre cyc :
  part p1 ok1 c1 pre cyc → part p2 ok2 c2 (flip <$> pre) (flip <$> cyc) → proper (stream pre cyc) →
  converse p1 p2 c1 c2 (stream pre cyc).
Proof.
  intros H1 H2 Hp.
  pose proof (part_typed p1 ok1 c1 pre cyc (stream pre cyc) H1 (λ _, eq_refl)) as Ty1.
  pose proof (part_typed p2 ok2 c2 _ _ (dual (stream pre cyc)) H2 (stream_dual pre cyc)) as Ty2.
  destruct (part_keeps p1 ok1 c1 pre cyc (stream pre cyc) H1 (λ _, eq_refl)) as (ls1 & K1).
  destruct (part_keeps p2 ok2 c2 _ _ (dual (stream pre cyc)) H2 (stream_dual pre cyc)) as (ls2 & K2).
  exact (conversation_sound p1 p2 Hp c1 c2 ls1 ls2 K1 K2).
Qed.

(** An environment that gives fixed answers to some calls. *)
Definition fixed (f : call → option Z) (c : call) (r : reply) : Prop := ∀ v, f c = Some v → rv r = v.

Lemma fixed_total f c : ∃ r, fixed f c r.
Proof. exists (ret_ (default 0%Z (f c))). by intros v ->. Qed.

Lemma told_fixed {A} (f : call → option Z) rd wr next c v :
  f c = Some v → outgoing (Party (A := A) (fixed f) rd wr next) c = None →
  incoming (Party (A := A) (fixed f) rd wr next) c = None → told (Party (fixed f) rd wr next) (Did c v).
Proof. intros E Ho Hi. split_and!; [done..|]. intros r H. by apply H. Qed.

(** Closes the side conditions of a list of labels. *)
Ltac all_told :=
  repeat (apply List.Forall_cons; [first [by apply told_fixed | by cbn; rewrite ?Z.eqb_refl, ?orb_true_r]|]); apply List.Forall_nil.

(** ** What is left of a round *)

(** The code makes the transfers [its] and returns a state that is [ok]. *)
Definition playing {A} (p : party A) (ok : A → Prop) (c : prog A) (its : list item) : Prop :=
  ∃ ls, Forall (told p) ls ∧ items p ls = its ∧ plays net (returns ok) c ls.

Section playing.
Context {A : Type} (p : party A) (ok : A → Prop).

Lemma playing_ret s its : playing p ok (Ret s) its → its = [] ∧ ok s.
Proof.
  intros (ls & _ & <- & Hp). inversion Hp as [? H| | | |]; subst. split; [done|]. by destruct H as (? & [= <-] & ?).
Qed.

Lemma playing_alive c its : playing p ok c its → c ≠ Undef ∧ ∀ z, c ≠ Halt z.
Proof.
  intros (ls & _ & _ & Hp). inversion Hp as [? H|? H|H| |]; subst; try done; by destruct H as (? & ? & _).
Qed.

Lemma playing_local c k r its :
  playing p ok (Call c k) its → outgoing p c = None → incoming p c = None → env p c r → playing p ok (k r) its.
Proof.
  intros (ls & Ht & Ei & Hp) Ho Hi Hr.
  destruct (labels_call p _ _ _ _ Hp Ht) as [(_ & _ & H)|[(n & s & b & ls' & Ho' & _)|(n & s & ls' & Hi' & _)]]; [|congruence..].
  destruct (H r Hr) as (ls' & E & Ht' & Hp'). exists ls'. by rewrite E.
Qed.

Lemma playing_send c k b n its :
  playing p ok (Call c k) its → outgoing p c = Some (b, n) →
  ∃ s its', its = Out n s :: its' ∧ cstr b = Some s ∧ ∀ r, playing p ok (k r) its'.
Proof.
  intros (ls & Ht & Ei & Hp) Ho.
  destruct (labels_call p _ _ _ _ Hp Ht) as [(Ho' & _)|[(n' & s & b' & ls' & Ho' & Hb & E & Ht' & H)|(n' & s & ls' & _ & Ho' & _)]];
    [congruence| |congruence]. rewrite Ho in Ho'. injection Ho' as <- <-. rewrite <- Ei. exists s, (items p ls').
  split_and!; [done..|]. intros r. exists ls'. by split_and!.
Qed.

Lemma playing_recv c k n its :
  playing p ok (Call c k) its → incoming p c = Some n →
  ∃ s its', its = In n s :: its' ∧ ∀ r, reads n (rdata r) s → rv r = n → playing p ok (k r) its'.
Proof.
  intros (ls & Ht & Ei & Hp) Hi.
  destruct (labels_call p _ _ _ _ Hp Ht) as [(_ & Hi' & _)|[(n' & s & b' & ls' & Ho' & _)|(n' & s & ls' & Hi' & _ & E & Ht' & H)]];
    [congruence|by destruct c; try discriminate Hi; try discriminate Ho'|]. rewrite Hi in Hi'. injection Hi' as <-.
  rewrite <- Ei. exists s, (items p ls'). split_and!; [done|]. intros r Hr Hv. exists ls'. split_and!; [done..|]. by apply H.
Qed.

(** A message that is whole is taken whole. *)
Lemma recv_whole n s d q' data rest :
  reads n d s → list_ascii_of_string d ++ q' = list_ascii_of_string data ++ rest →
  String.length data = Z.to_nat n `min` length (list_ascii_of_string d ++ q') → data = d ∧ rest = q'.
Proof.
  intros [Hd _] Eq Hlen. symmetry in Eq. apply app_inj_1 in Eq as [E ->].
  - split; [|done]. by rewrite <- (string_of_list_ascii_of_string d), <- E, string_of_list_ascii_of_string.
  - rewrite !length_chars, Hlen, length_app, length_chars. lia.
Qed.

(** A party in its loop can move unless it waits for a message. *)
Lemma playing_moves x its f :
  playing p ok (code x) its → next p = Some f → (∀ c, ∃ r, env p c r) →
  Forall (λ i, match i with Out n s | In n s => (Z.of_nat (String.length s) < n)%Z end) its →
  (∃ x' out, move p x x' out) ∨ (∃ n s its', its = In n s :: its' ∧ inbox x = []).
Proof.
  destruct x as [[s|z| |c k] q l]; cbn; intros Hp Hf Henv Hi.
  - left. eexists _, _. by apply (move_next _ f).
  - by destruct (proj2 (playing_alive _ _ Hp) z).
  - by destruct (proj1 (playing_alive _ _ Hp)).
  - destruct (outgoing p c) as [[b n]|] eqn:Ho.
    { left. destruct (playing_send _ _ _ _ _ Hp Ho) as (s & its' & -> & _). apply Forall_cons in Hi as [Hn _].
      destruct (delivers_some b n) as [data Hd]; [lia|]. eexists _, _. by eapply move_send. }
    destruct (incoming p c) as [n|] eqn:Hc.
    + destruct (playing_recv _ _ _ _ Hp Hc) as (s & its' & -> & _). apply Forall_cons in Hi as [Hn _].
      destruct q as [|a q]; [right; eauto 6|]. left. eexists _, [].
      eapply (move_recv _ _ _ _ _ n (string_of_list_ascii (take (Z.to_nat n) (a :: q))) (drop (Z.to_nat n) (a :: q)));
        [done|..]; rewrite <- ?length_chars, ?list_ascii_of_string_of_list_ascii.
      * by rewrite take_drop.
      * by rewrite length_take.
      * rewrite length_take. cbn. lia.
    + left. destruct (Henv c) as [r Hr]. eexists _, _. by apply move_local.
Qed.
End playing.
