(* ===== verification/FdPass.v ===== *)
(** * Passing descriptors between processes

    [send_file_descriptor] and [recv_file_descriptor], of which the fd-passing
    programs ([c137261@nitwstudios], [unixsockets/bs], [tss], [csemulti],
    [rawsockets/trainmain], [exam/4]) each hold a copy, and [error_func], the
    error check every program has. *)

From S2P Require Import Prelude CString Posix Session.

(** [error_func] of the programs that exit, and of those that only report. *)
Definition error_func (val : Z) (message : string) : prog unit :=
  if val <? 0 then do_ (Perror message);; Halt 1 else mret tt.
Definition error_puts (val : Z) (message : string) : prog unit :=
  if val <? 0 then puts (message +:+ nl);; Halt 1 else mret tt.
Definition error_warn (val : Z) (message : string) : prog unit :=
  if val <? 0 then do_ (Perror message) else mret tt.

(** [error_func] with its [exit] commented out. *)
Definition error_note (val : Z) (message : string) : prog unit :=
  if val <? 0 then puts (message +:+ nl) else mret tt.

(** [error_func] of [mid/socketbasic] and [mid/mss/client.c], without the line
    end. *)
Definition error_print (val : Z) (message : string) : prog unit :=
  if val <? 0 then puts message else mret tt.

(** One byte of data, so that [recvmsg] does not return 0, and one control
    message with the descriptor. *)
Definition send_file_descriptor (socket fd_to_send : Z) : prog Z :=
  sysv (Sendmsg socket [Some " "%char] [Cmsg SOL_SOCKET SCM_RIGHTS fd_to_send]).

(** The loop over the control messages. *)
Fixpoint find_rights (control_message : list cmsg) : Z :=
  match control_message with
  | [] => -1
  | m :: rest =>
      if (cmsg_level m =? SOL_SOCKET) && (cmsg_type m =? SCM_RIGHTS) then cmsg_fd m else find_rights rest
  end.

Definition recv_file_descriptor (socket : Z) : prog Z :=
  r ← sys (Recvmsg socket 1);
  if rv r <=? 0 then mret (rv r) else mret (find_rights (rcmsg r)).

(** The call of a session in which the descriptor [fd] is passed on, and the
    one in which the kernel installs [fd] in the receiver. *)
Definition passes (socket fd : Z) : label :=
  Did (Sendmsg socket [Some " "%char] [Cmsg SOL_SOCKET SCM_RIGHTS fd]) 1.
Definition installs (socket fd : Z) : label :=
  Told (Recvmsg socket 1) (Reply 1 " " [] [Cmsg SOL_SOCKET SCM_RIGHTS fd]).

Lemma plays_send_fd {B} w socket fd (f : Z → prog B) ls Q :
  w (Sendmsg socket [Some " "%char] [Cmsg SOL_SOCKET SCM_RIGHTS fd]) = true →
  plays w Q (f 1) ls → plays w Q (send_file_descriptor socket fd ≫= f) (passes socket fd :: ls).
Proof. intros. by apply plays_callv. Qed.

Lemma plays_recv_fd {B} w socket fd (f : Z → prog B) ls Q :
  w (Recvmsg socket 1) = true → plays w Q (f fd) ls →
  plays w Q (recv_file_descriptor socket ≫= f) (installs socket fd :: ls).
Proof.
  intros Hw Hf. unfold recv_file_descriptor. apply plays_watched; [done|done|]. intros r Hr. cbn in Hr. subst r. exact Hf.
Qed.

Section errors.
Context {B : Type} (w : call → bool) (v : Z) (m : string) (f : unit → prog B) (ls : list label) (Q : outcome B → Prop).

Lemma plays_error : 0 ≤ v → plays w Q (f tt) ls → plays w Q (error_func v m ≫= f) ls.
Proof. intros. unfold error_func. by rewrite (proj2 (Z.ltb_ge _ _)). Qed.

Lemma plays_error_puts : 0 ≤ v → plays w Q (f tt) ls → plays w Q (error_puts v m ≫= f) ls.
Proof. intros. unfold error_puts. by rewrite (proj2 (Z.ltb_ge _ _)). Qed.

Lemma plays_warn : 0 ≤ v → plays w Q (f tt) ls → plays w Q (error_warn v m ≫= f) ls.
Proof. intros. unfold error_warn. by rewrite (proj2 (Z.ltb_ge _ _)). Qed.
End errors.

Lemma plays_note {B} w v m (f : unit → prog B) ls Q :
  0 ≤ v → plays w Q (f tt) ls → plays w Q (error_note v m ≫= f) ls.
Proof. intros. unfold error_note. by rewrite (proj2 (Z.ltb_ge _ _)). Qed.

Lemma plays_print {B} w v m (f : unit → prog B) ls Q :
  0 ≤ v → plays w Q (f tt) ls → plays w Q (error_print v m ≫= f) ls.
Proof. intros. unfold error_print. by rewrite (proj2 (Z.ltb_ge _ _)). Qed.

(** A call that failed ends the program. *)
Lemma plays_failed {B} w v m (f : unit → prog B) :
  w (Puts (m +:+ nl)) = false → v < 0 → plays w (eq (Exited 1)) (error_puts v m ≫= f) [].
Proof.
  intros Hw Hv. unfold error_puts. rewrite (proj2 (Z.ltb_lt _ _)) by done. cbn.
  apply plays_silent; [done|]. intros r. by apply plays_Halt.
Qed.

Lemma plays_failed_inner {B C} w v m (f : unit → prog B) (g : B → prog C) :
  w (Puts (m +:+ nl)) = false → v < 0 → plays w (eq (Exited 1)) ((error_puts v m ≫= f) ≫= g) [].
Proof.
  intros Hw Hv. pose proof (plays_failed w v m (λ x, f x ≫= g) Hw Hv) as H. unfold error_puts in *.
  by rewrite (proj2 (Z.ltb_lt _ _)) in * by done.
Qed.

(** Receiving a number: [recv(fd, b, 30, 0); ... atoi(b)]. *)
Lemma plays_atoi {B} w n (f : Z → prog B) ls Q :
  fits_int n = true → plays w Q (f n) ls → plays w Q (need (atoi (dec n)) ≫= f) ls.
Proof. intros Hn Hf. eapply plays_need; [by apply atoi_dec|done]. Qed.

(** One step of a session, with the error checks that succeed. *)
Ltac step :=
  lazymatch goal with
  | |- plays _ _ (error_func _ _ ≫= _) _ => apply plays_error; [first [assumption|lia]|]
  | |- plays _ _ (error_puts _ _ ≫= _) _ => apply plays_error_puts; [first [assumption|lia]|]
  | |- plays _ _ (error_note _ _ ≫= _) _ => apply plays_note; [first [assumption|lia]|]
  | |- plays _ _ (error_print _ _ ≫= _) _ => apply plays_print; [first [assumption|lia]|]
  | |- plays _ _ (error_warn _ _ ≫= _) _ => apply plays_warn; [first [assumption|lia]|]
  | |- plays _ _ (send_file_descriptor _ _ ≫= _) (passes _ _ :: _) => apply plays_send_fd; [reflexivity|]
  | |- plays _ _ (recv_file_descriptor _ ≫= _) (installs _ _ :: _) => apply plays_recv_fd; [reflexivity|]
  | |- plays _ _ (need (atoi (dec _)) ≫= _) _ => apply plays_atoi; [try done|]
  | |- plays _ _ (need (sprintf _ (dec _)) ≫= _) _ => apply plays_sprintf; [fits|new_buffer]
  | |- _ => play
  end; cbv beta iota.
