(* ===== verification/Echo.v ===== *)
(** * Clients and servers that answer each other

    The echo programs of [mid], [end] and [unixsockets]: a client and a server
    that exchange fixed texts, once or forever.  Each is written as its
    beginning and the body of its loop.  The two ends of a connection play dual
    parts ([Converse]), also where the connection is passed on to another
    process in between ([unixsockets/tss]), so their conversations follow one
    script under every interleaving and never block, as long as messages are
    delivered whole; a short delivery can take each pair into undefined
    behaviour. *)

From stdpp Require Import relations.
From S2P Require Import Prelude CString Posix Session Converse FdPass.

Definition any_addr (port : Z) : sockaddr := SaIn (htons port) INADDR_ANY.

(** ** The programs *)

(** [mid/socketbasic]: one message each. *)
Module Basic.

Definition server : prog unit :=
  sfd ← sysv (Socket AF_INET SOCK_STREAM 0);
  error_print sfd "error in socket call";;
  b ← sysv (Bind sfd (any_addr 8000));
  error_print b "error in bind";;
  l ← sysv (Listen sfd 3);
  error_print l "error in listening";;
  nsfd ← sysv (Accept sfd);
  error_print nsfd "error in accept";;
  '(_, buffer) ← recv nsfd (fresh 30) 30;
  s ← str buffer;
  puts (s +:+ nl);;
  do_ (Sleep 10);;
  do_ (Send nsfd (lit "that was awesome from server") 30);;
  mret tt.

Definition client : prog unit :=
  sfd ← sysv (Socket AF_INET SOCK_STREAM 0);
  do_ (Connect sfd (any_addr 8000));;
  do_ (Send sfd (lit "that was aweosome") 30);;
  '(_, buffer) ← recv sfd (fresh 30) 30;
  s ← str buffer;
  puts (s +:+ nl);;
  mret tt.

End Basic.

(** [mid/multithreaded]: a thread per client. *)
Module Multi.

Definition thread_start (nfd : Z) : prog unit := puts ("The nfd: " +:+ dec nfd +:+ nl).

Definition thread_round (nfd : Z) (_ : unit) : prog unit :=
  '(_, buffer) ← recv nfd (fresh 30) 30;
  s ← str buffer;
  puts ("server :" +:+ s +:+ nl);;
  do_ (Sleep 4);;
  do_ (Send nfd (lit "from server:") 30);;
  mret tt.

Definition thread_func (n : nat) (nfd : Z) : prog unit := thread_start nfd;; forever n (thread_round nfd) tt.

Definition client_start : prog Z :=
  nfd ← sysv (Socket AF_INET SOCK_STREAM 0);
  error_note nfd "sock erorr";;
  c ← sysv (Connect nfd (any_addr 8000));
  error_note c "accept error";;
  mret nfd.

Definition client_round (nfd : Z) : prog Z :=
  do_ (Send nfd (lit "from client:") 30);;
  '(_, buf) ← recv nfd (fresh 30) 30;
  s ← str buf;
  puts ("client:" +:+ s +:+ nl);;
  mret nfd.

Definition client (n : nat) : prog Z := nfd ← client_start; forever n client_round nfd.

End Multi.

(** [mid/prethreaded]: the threads accept for themselves. *)
Module Pre.

Definition MAX_CLIENTS : nat := 5.

Definition thread_start (sfd : Z) : prog Z :=
  puts (dec sfd +:+ nl);;
  nfd ← sysv (Accept sfd);
  error_note nfd "accept error";;
  mret nfd.

Definition thread_round (nfd : Z) : prog Z :=
  '(_, buf) ← recv nfd (fresh 30) 30;
  do_ (Sleep 3);;
  do_ (Send nfd (lit "from server:") 30);;
  mret nfd.

Definition thread_func (n : nat) (sfd : Z) : prog Z := nfd ← thread_start sfd; forever n thread_round nfd.

(** The client is the same as that of [mid/multithreaded]. *)
Definition client : nat → prog Z := Multi.client.

(** The address of [sfd], which does not change any more, goes to the threads. *)
Definition main : prog unit :=
  sfd ← sysv (Socket AF_INET SOCK_STREAM 0);
  error_note sfd "sock error";;
  set ← sysv (Setsockopt sfd "SO_REUSEADDR");
  error_note set "opt error";;
  b ← sysv (Bind sfd (any_addr 8000));
  error_note b "bind error";;
  l ← sysv (Listen sfd 5);
  error_note l "listen error";;
  for_up 0 (Z.of_nat MAX_CLIENTS) (λ i _,
    need (aset (replicate MAX_CLIENTS tt) i tt);; do_ (PthreadCreate "thread_func" "&sfd");; mret tt) tt;;
  do_ (LibCall "sched_yield" [] []);;
  for_up 0 (Z.of_nat MAX_CLIENTS) (λ i _,
    need (aget (replicate MAX_CLIENTS tt) i);; do_ PthreadJoin;; mret tt) tt.

End Pre.

(** [end/unixsock]: one message each. *)
Module Unix.

Definition server : prog unit :=
  usfd ← sysv (Socket AF_UNIX SOCK_STREAM 0);
  error_warn usfd "socket";;
  do_ (Unlink "echo_socket");;
  b ← sysv (Bind usfd (SaUn "echo_socket"));
  error_warn b "bind";;
  l ← sysv (Listen usfd 4);
  error_warn l "listen";;
  nfd ← sysv (Accept usfd);
  error_warn nfd "accept";;
  '(_, buffer) ← recv nfd (fresh 30) 30;
  s ← str buffer;
  puts (s +:+ nl);;
  do_ (Send nfd (lit "hai from server") 30);;
  mret tt.

Definition client : prog unit :=
  nfd ← sysv (Socket AF_UNIX SOCK_STREAM 0);
  c ← sysv (Connect nfd (SaUn "echo_socket"));
  error_warn c "coonect";;
  do_ (Send nfd (lit "hai from client") 30);;
  '(_, buffer) ← recv nfd (fresh 30) 30;
  s ← str buffer;
  puts (s +:+ nl);;
  mret tt.

End Unix.

(** [unixsockets/basic]: one message each; [producer.c] and [p2.c] are copies of
    the two programs. *)
Module UnixBasic.

Definition server : prog unit :=
  sfd ← sysv (Socket AF_UNIX SOCK_STREAM 0);
  error_puts sfd "socket error";;
  do_ (Unlink "echo_socket");;
  b ← sysv (Bind sfd (SaUn "echo_socket"));
  error_puts b "bind error";;
  l ← sysv (Listen sfd 5);
  error_puts l "listen error";;
  nfd ← sysv (Accept sfd);
  error_puts nfd "accept error";;
  '(_, buffer) ← recv nfd (fresh 30) 30;
  s ← str buffer;
  puts (s +:+ nl);;
  do_ (Send nfd (lit "hello from server") 30);;
  do_ (Close nfd);;
  do_ (Close sfd);;
  mret tt.

Definition client : prog unit :=
  sfd ← sysv (Socket AF_UNIX SOCK_STREAM 0);
  error_puts sfd "socket error";;
  c ← sysv (Connect sfd (SaUn "echo_socket"));
  error_puts c "connect error";;
  do_ (Send sfd (lit "From client to server") 30);;
  '(_, buffer) ← recv sfd (fresh 30) 30;
  s ← str buffer;
  puts (s +:+ nl);;
  do_ (Close sfd);;
  mret tt.

End UnixBasic.

(** [unixsockets/tss]: [mainserver.c] greets a client and passes it to
    [server.c], whose thread converses with it. *)
Module Tss.

Definition max_clients : nat := 3.

Definition mainserver_start : prog (Z * Z) :=
  sfds ← sysv (Socket AF_UNIX SOCK_STREAM 0);
  error_puts sfds "socket error";;
  c ← sysv (Connect sfds (SaUn "echo_socket"));
  error_puts c "connect error";;
  do_ (Send sfds (lit "From mainserver to server") 30);;
  sfd ← sysv (Socket AF_UNIX SOCK_STREAM 0);
  error_puts sfd "socket error";;
  do_ (Unlink "main_echo_socket");;
  b ← sysv (Bind sfd (SaUn "main_echo_socket"));
  error_puts b "bind error";;
  l ← sysv (Listen sfd 5);
  error_puts l "listen error";;
  mret (sfds, sfd).

(** Lines 75-81: what is done with an accepted client. *)
Definition pass_on (sfds nfd : Z) : prog unit :=
  '(_, buffer) ← recv nfd (fresh 30) 30;
  s ← str buffer;
  puts (s +:+ nl);;
  send_file_descriptor sfds nfd;;
  mret tt.

Definition mainserver_round (s : Z * Z) : prog (Z * Z) :=
  nfd ← sysv (Accept s.2);
  error_puts nfd "accept error";;
  pass_on s.1 nfd;;
  mret s.

Definition mainserver (n : nat) : prog (Z * Z) := s ← mainserver_start; forever n mainserver_round s.

(** [server.c]: the thread. *)
Definition func_start : prog buf := puts ("thread started" +:+ nl);; mret (fresh 30).

Definition func_round (text : string) (nfd : Z) (namebuffer : buf) : prog buf :=
  do_ (Send nfd (lit text) 30);;
  '(_, namebuffer) ← recv nfd namebuffer 30;
  s ← str namebuffer;
  puts ("from client :" +:+ s +:+ nl);;
  do_ (Sleep 2);;
  mret namebuffer.

Definition func (text : string) (nfd : Z) (n : nat) : prog buf :=
  namebuffer ← func_start; forever n (func_round text nfd) namebuffer.

(** The client of [tss]; that of [bs] does not greet. *)
Definition client_start (path : string) (greeting : option string) : prog (Z * buf) :=
  sfd ← sysv (Socket AF_UNIX SOCK_STREAM 0);
  error_puts sfd "socket error";;
  c ← sysv (Connect sfd (SaUn path));
  error_puts c "connect error";;
  match greeting with Some text => do_ (Send sfd (lit text) 30) | None => mret tt end;;
  mret (sfd, fresh 30).

Definition client_round (s : Z * buf) : prog (Z * buf) :=
  '(_, buffer) ← recv s.1 s.2 30;
  t ← str buffer;
  puts ("client :" +:+ t +:+ nl);;
  do_ (Send s.1 (lit "from client to server") 30);;
  mret (s.1, buffer).

Definition client (n : nat) : prog (Z * buf) :=
  s ← client_start "main_echo_socket" (Some "From client to mainserver"); forever n client_round s.

End Tss.

(** ** The parts *)

(** Answers of the kernel: to a client whose socket is [fd]; to a server that
    listens on [sfd] and gets the connection [nfd]; to a process that is given
    its connection. *)
Definition connects (fd : Z) (c : call) : option Z :=
  match c with Socket _ _ _ => Some fd | Connect _ _ => Some 0 | Close _ => Some 0 | _ => None end.
Definition accepts (sfd nfd : Z) (c : call) : option Z :=
  match c with Socket _ _ _ => Some sfd | Bind _ _ => Some 0 | Listen _ _ => Some 0 | Accept _ => Some nfd
  | Close _ => Some 0 | _ => None end.
Definition passed_on (c : call) : option Z := match c with Sendmsg _ _ _ => Some 1 | _ => None end.

Definition caller {A} (fd : Z) (next : option (A → prog A)) : party A :=
  Party (fixed (connects fd)) (Z.eqb fd) (Z.eqb fd) next.
Definition callee {A} (sfd nfd : Z) (next : option (A → prog A)) : party A :=
  Party (fixed (accepts sfd nfd)) (Z.eqb nfd) (Z.eqb nfd) next.
Definition worker {A} (nfd : Z) (next : A → prog A) : party A :=
  Party (fixed (λ _, None)) (Z.eqb nfd) (Z.eqb nfd) (Some next).
(** A process that has the connection as [nfd] passes it to one that has it as
    [fd] and goes on. *)
Definition relay {A} (nfd fd : Z) (next : A → prog A) : party A :=
  Party (fixed passed_on) (λ x, (nfd =? x) || (fd =? x)) (λ x, (nfd =? x) || (fd =? x)) (Some next).

Ltac eval_items := unfold items, item_of; cbn; rewrite ?Z.eqb_refl, ?orb_true_r; cbn.

Section sessions.
Variables (fd sfd nfd : Z).
Hypothesis (Hfd : 0 ≤ fd) (Hsfd : 0 ≤ sfd) (Hnfd : 0 ≤ nfd).

Definition asks (q a : string) : list item := [Out 30 q; In 30 a].

Lemma basic_client :
  part (caller fd None) (λ _, True) Basic.client (asks "that was aweosome" "that was awesome from server") [].
Proof.
  split; [apply fixed_total| |done].
  exists [Did (Socket AF_INET SOCK_STREAM 0) fd; Did (Connect fd (any_addr 8000)) 0;
          Sent fd 30 "that was aweosome"; Got fd 30 "that was awesome from server"].
  split; [all_told|]. split; [|by eval_items].
  unfold Basic.client. repeat step. done.
Qed.

Lemma basic_server :
  part (callee sfd nfd None) (λ _, True) Basic.server (flip <$> asks "that was aweosome" "that was awesome from server") [].
Proof.
  split; [apply fixed_total| |done].
  exists [Did (Socket AF_INET SOCK_STREAM 0) sfd; Did (Bind sfd (any_addr 8000)) 0; Did (Listen sfd 3) 0; Did (Accept sfd) nfd;
          Got nfd 30 "that was aweosome"; Sent nfd 30 "that was awesome from server"].
  split; [all_told|]. split; [|by eval_items].
  unfold Basic.server. repeat step. done.
Qed.

Lemma unix_client :
  part (caller fd None) (λ _, True) Unix.client (asks "hai from client" "hai from server") [].
Proof.
  split; [apply fixed_total| |done].
  exists [Did (Socket AF_UNIX SOCK_STREAM 0) fd; Did (Connect fd (SaUn "echo_socket")) 0;
          Sent fd 30 "hai from client"; Got fd 30 "hai from server"].
  split; [all_told|]. split; [|by eval_items].
  unfold Unix.client. repeat step. done.
Qed.

Lemma unix_server :
  part (callee sfd nfd None) (λ _, True) Unix.server (flip <$> asks "hai from client" "hai from server") [].
Proof.
  split; [apply fixed_total| |done].
  exists [Did (Socket AF_UNIX SOCK_STREAM 0) sfd; Did (Bind sfd (SaUn "echo_socket")) 0; Did (Listen sfd 4) 0; Did (Accept sfd) nfd;
          Got nfd 30 "hai from client"; Sent nfd 30 "hai from server"].
  split; [all_told|]. split; [|by eval_items].
  unfold Unix.server. repeat step. done.
Qed.

Lemma unix_basic_client :
  part (caller fd None) (λ _, True) UnixBasic.client (asks "From client to server" "hello from server") [].
Proof.
  split; [apply fixed_total| |done].
  exists [Did (Socket AF_UNIX SOCK_STREAM 0) fd; Did (Connect fd (SaUn "echo_socket")) 0;
          Sent fd 30 "From client to server"; Got fd 30 "hello from server"; Did (Close fd) 0].
  split; [all_told|]. split; [|by eval_items].
  unfold UnixBasic.client. repeat step. done.
Qed.

Lemma unix_basic_server :
  part (callee sfd nfd None) (λ _, True) UnixBasic.server (flip <$> asks "From client to server" "hello from server") [].
Proof.
  split; [apply fixed_total| |done].
  exists [Did (Socket AF_UNIX SOCK_STREAM 0) sfd; Did (Bind sfd (SaUn "echo_socket")) 0; Did (Listen sfd 5) 0; Did (Accept sfd) nfd;
          Got nfd 30 "From client to server"; Sent nfd 30 "hello from server"; Did (Close nfd) 0; Did (Close sfd) 0].
  split; [all_told|]. split; [|by eval_items].
  unfold UnixBasic.server. repeat step. done.
Qed.

Lemma multi_client :
  part (caller fd (Some Multi.client_round)) (eq fd) Multi.client_start [] (asks "from client:" "from server:").
Proof.
  split; [apply fixed_total| |].
  - exists [Did (Socket AF_INET SOCK_STREAM 0) fd; Did (Connect fd (any_addr 8000)) 0].
    split; [all_told|]. split; [|by eval_items]. unfold Multi.client_start. repeat step. done.
  - split; [done|]. intros s <-. exists [Sent fd 30 "from client:"; Got fd 30 "from server:"].
    split; [all_told|]. split; [|by eval_items]. unfold Multi.client_round. repeat step. done.
Qed.

Lemma multi_thread :
  part (worker nfd (Multi.thread_round nfd)) (λ _, True) (Multi.thread_start nfd) [] (flip <$> asks "from client:" "from server:").
Proof.
  split; [apply fixed_total| |].
  - exists []. split; [all_told|]. split; [|done]. unfold Multi.thread_start. by step.
  - split; [done|]. intros s _. exists [Got nfd 30 "from client:"; Sent nfd 30 "from server:"].
    split; [all_told|]. split; [|by eval_items]. unfold Multi.thread_round. repeat step. done.
Qed.

Lemma pre_thread :
  part (callee sfd nfd (Some Pre.thread_round)) (eq nfd) (Pre.thread_start sfd) [] (flip <$> asks "from client:" "from server:").
Proof.
  split; [apply fixed_total| |].
  - exists [Did (Accept sfd) nfd]. split; [all_told|]. split; [|by eval_items]. unfold Pre.thread_start. repeat step. done.
  - split; [done|]. intros s <-. exists [Got nfd 30 "from client:"; Sent nfd 30 "from server:"].
    split; [all_told|]. split; [|by eval_items]. unfold Pre.thread_round. repeat step. done.
Qed.

(** A client of the descriptor-passing servers: its buffer has 30 bytes. *)
Definition at_buffer (n : nat) (b : buf) : Prop := length b = n.
Definition with_buffer (s : Z * buf) : Prop := s.1 = fd ∧ at_buffer 30 s.2.

Definition answers_ (q a : string) : list item := [In 30 q; Out 30 a].

Lemma tss_client path greeting text :
  match greeting with Some g => nonul g = true | None => True end →
  part (caller fd (Some Tss.client_round)) with_buffer (Tss.client_start path greeting)
    (match greeting with Some g => [Out 30 g] | None => [] end) (answers_ text "from client to server").
Proof.
  intros Hg. split; [apply fixed_total| |].
  - exists (Did (Socket AF_UNIX SOCK_STREAM 0) fd :: Did (Connect fd (SaUn path)) 0 ::
            match greeting with Some g => [Sent fd 30 g] | None => [] end).
    destruct greeting as [g|]; (split; [all_told|]; split; [|by eval_items]); unfold Tss.client_start; do 4 step.
    + eapply (plays_last _ (eq tt)); [|intros _ _; step; by split; [|apply length_fresh]].
      apply plays_watched; [done|exists (lit g); split; [by left|by rewrite <- (app_nil_r (lit g)); apply cstr_lit]|]. intros r _. by step.
    + step. step. by split; [|apply length_fresh].
  - split; [done|]. intros [? b] [Ef Hb]. cbn in Ef, Hb. subst. exists [Got fd 30 text; Sent fd 30 "from client to server"].
    split; [all_told|]. split; [|by eval_items]. unfold Tss.client_round. unfold at_buffer in Hb. cbn [fst snd]. repeat step.
    split; [done|]. by rewrite <- Hb.
Qed.

Lemma func_rounds b text (d : Z) :
  nonul text = true → at_buffer 30 b →
  plays net (returns (at_buffer 30)) (Tss.func_round text d b) [Sent d 30 text; Got d 30 "from client to server"].
Proof.
  unfold at_buffer, Tss.func_round. intros Ht Hb. eapply plays_send; [done|by rewrite <- (app_nil_r (lit text)); apply cstr_lit|].
  repeat step. by rewrite <- Hb.
Qed.

Lemma func_part text :
  nonul text = true →
  part (worker nfd (Tss.func_round text nfd)) (at_buffer 30) Tss.func_start [] (flip <$> answers_ text "from client to server").
Proof.
  intros Ht. split; [apply fixed_total| |].
  - exists []. split; [all_told|]. split; [|done]. unfold Tss.func_start. step. step. apply length_fresh.
  - split; [done|]. intros b Hb. exists [Sent nfd 30 text; Got nfd 30 "from client to server"].
    split; [all_told|]. split; [by apply func_rounds|by eval_items].
Qed.

(** The main server and, after the connection was passed on, the thread. *)
Lemma relay_part chan text :
  nonul text = true →
  part (relay nfd fd (Tss.func_round text fd)) (at_buffer 30) (Tss.pass_on chan nfd;; Tss.func_start)
    (flip <$> [Out 30 "From client to mainserver"]) (flip <$> answers_ text "from client to server").
Proof.
  intros Ht. split; [apply fixed_total| |].
  - exists [Got nfd 30 "From client to mainserver"; passes chan nfd]. unfold passes. split; [all_told|]. split; [|by eval_items].
    apply (plays_last _ (eq tt)); [unfold Tss.pass_on; repeat step; fold (passes chan nfd); by repeat step|].
    intros ? _. unfold Tss.func_start. step. step. apply length_fresh.
  - split; [done|]. intros b Hb. exists [Sent fd 30 text; Got fd 30 "from client to server"].
    split; [all_told|]. split; [by apply func_rounds|by eval_items].
Qed.
End sessions.

(** *** Short transfers

    Each pair is taken to a call that sends and one that receives; when only
    the first byte arrives, the text in the receiver's buffer has no end. *)

Lemma rtc_fixed {A} (f : call → option Z) r w nx c v (k : reply → prog A) k' :
  let p := Party (A := A) (fixed f) r w nx in
  default v (f c) = v → outgoing p c = None → incoming p c = None →
  rtc (local_move p) (k (ret_ v)) k' → rtc (local_move p) (Call c k) k'.
Proof.
  intros p Hv Ho Hi H. eapply rtc_l; [|exact H]. apply local_call; [done..|]. intros v' E. rewrite E in Hv. by symmetry.
Qed.

Ltac locally v := eapply (rtc_fixed _ _ _ _ _ v); [reflexivity|reflexivity|reflexivity|].
Ltac unchecked := unfold error_print, error_warn, error_puts, error_note; rewrite ?(proj2 (Z.ltb_ge _ 0)) by assumption; cbn.

Section breaks.
Variables (fd sfd nfd : Z).
Hypothesis (Hfd : 0 ≤ fd) (Hsfd : 0 ≤ sfd) (Hnfd : 0 ≤ nfd).
Ltac locals v := unchecked; first [locally v | locally 0]; unchecked.
Ltac at_head := lazymatch goal with |- rtc _ ?c _ => let c' := eval hnf in c in change c with c' end.
Ltac again := eapply rtc_l; [eapply local_next; reflexivity|]; at_head.
Ltac on_wire :=
  unfold outgoing, incoming, caller, callee, worker, relay, wr, rd; rewrite ?Z.eqb_refl, ?orb_true_r; first [reflexivity|done].

Lemma basic_breaks : breakable (caller fd None) (callee sfd nfd None) (start Basic.client Basic.server).
Proof.
  eapply short_message_right; [unfold Basic.client|unfold Basic.server|..].
  { do 2 locals fd. done. }
  { do 3 locals sfd. locals nfd. done. }
  all: on_wire.
Qed.

Lemma unix_breaks : breakable (caller fd None) (callee sfd nfd None) (start Unix.client Unix.server).
Proof.
  eapply short_message_right; [unfold Unix.client|unfold Unix.server|..].
  { do 2 locals fd. done. }
  { do 4 locals sfd. locals nfd. done. }
  all: on_wire.
Qed.

Lemma unix_basic_breaks : breakable (caller fd None) (callee sfd nfd None) (start UnixBasic.client UnixBasic.server).
Proof.
  eapply short_message_right; [unfold UnixBasic.client|unfold UnixBasic.server|..].
  { do 2 locals fd. done. }
  { do 4 locals sfd. locals nfd. done. }
  all: on_wire.
Qed.

Lemma multi_client_sends :
  ∃ k, rtc (local_move (caller fd (Some Multi.client_round))) Multi.client_start (Call (Send fd (lit "from client:") 30) k).
Proof. eexists. unfold Multi.client_start. do 2 locals fd. again. done. Qed.

Lemma multi_breaks :
  breakable (caller fd (Some Multi.client_round)) (worker nfd (Multi.thread_round nfd)) (start Multi.client_start (Multi.thread_start nfd)).
Proof.
  destruct multi_client_sends as [k Hk]. eapply short_message_right; [exact Hk|unfold Multi.thread_start|..].
  1: locals 0; again; done.
  all: on_wire.
Qed.

Lemma first_delivered a s : delivers (lit (String a s)) 1 (String a "").
Proof. split; [done|]. intros i c Hb Hi. assert (i = 0%nat) as -> by lia. by injection Hb as ->. Qed.

Lemma pre_breaks :
  breakable (caller fd (Some Multi.client_round)) (callee sfd nfd (Some Pre.thread_round)) (start Multi.client_start (Pre.thread_start sfd)).
Proof.
  eapply breakable_run.
  { etrans; [apply loose_local_left; unfold Multi.client_start; do 2 locals fd; again; done|].
    etrans; [apply loose_local_right; unfold Pre.thread_start; locals 0; locals nfd; again; done|].
    eapply rtc_l; [eapply loose_left, loose_send with (m := 1) (data := "f"); [on_wire|lia|apply first_delivered]|].
    eapply rtc_once, loose_right, loose_whole, (move_recv _ _ _ _ _ 30 "f" []); [on_wire|done|done|cbn; lia]. }
  eapply short_message_left; unfold push.
  { cbn. at_head. apply rtc_refl. }
  { locals 0. done. }
  all: on_wire.
Qed.

Lemma tss_breaks fd' chan text :
  breakable (caller fd (Some Tss.client_round)) (relay nfd fd' (Tss.func_round text fd'))
    (start (Tss.client_start "main_echo_socket" (Some "From client to mainserver")) (Tss.pass_on chan nfd;; Tss.func_start)).
Proof.
  eapply short_message_right; [unfold Tss.client_start|unfold Tss.pass_on|..].
  { do 2 locals fd. done. }
  { cbn. at_head. apply rtc_refl. }
  all: on_wire.
Qed.

Lemma bs_breaks text :
  nonul text = true → (0 < String.length text)%nat →
  breakable (caller fd (Some Tss.client_round)) (worker nfd (Tss.func_round text nfd))
    (start (Tss.client_start "echo_socket" None) Tss.func_start).
Proof.
  intros Hn Ht. destruct text as [|a text]; [cbn in Ht; lia|].
  eapply short_message_left with (a := a); [unfold Tss.client_start|unfold Tss.func_start|..].
  { do 2 locals fd. again. done. }
  { locals 0. again. done. }
  5: { cbn in Hn. apply andb_true_iff in Hn as [Ha _]. apply negb_true_iff, Ascii.eqb_neq in Ha. clear Ht. destruct a as [[] [] [] [] [] [] [] []]; first [reflexivity|done]. }
  all: on_wire.
Qed.
End breaks.

(** ** The conversations *)

Ltac proper_texts := apply proper_stream; repeat (apply List.Forall_cons; [cbn; lia|]); apply List.Forall_nil.

(** C9: The clients and servers of [mid/socketbasic], [end/unixsock],
    [unixsockets/basic], [mid/multithreaded], [mid/prethreaded], [unixsockets/tss] and
    [unixsockets/bs] play dual sessions when the connection delivers whole
    messages (a [send] queues its 30 bytes, a [recv] of 30 takes 30 once they
    are queued): in every interleaving of a client with
    the process or thread that serves it, the texts arrive in the
    order of the script, no process is ever undefined or exits, one of the two
    can always go on until both have returned, and no run goes on without
    further messages.  In [tss] this holds although the connection is passed to
    another process after the first message.  None of the seven pairs tests how
    many bytes it got: when the connection may also transfer less, each of them
    has a run in which a process prints a buffer without an end, which is
    undefined. *)
Theorem echo_sessions fd sfd nfd chan fd' text :
  0 ≤ fd → 0 ≤ sfd → 0 ≤ nfd → nonul text = true → (0 < String.length text < 30)%nat →
  holds_whole (caller fd None) (callee sfd nfd None) Basic.client Basic.server
    (stream [Out 30 "that was aweosome"; In 30 "that was awesome from server"] []) ∧
  holds_whole (caller fd None) (callee sfd nfd None) Unix.client Unix.server
    (stream [Out 30 "hai from client"; In 30 "hai from server"] []) ∧
  holds_whole (caller fd None) (callee sfd nfd None) UnixBasic.client UnixBasic.server
    (stream [Out 30 "From client to server"; In 30 "hello from server"] []) ∧
  holds_whole (caller fd (Some Multi.client_round)) (worker nfd (Multi.thread_round nfd)) Multi.client_start (Multi.thread_start nfd)
    (stream [] [Out 30 "from client:"; In 30 "from server:"]) ∧
  holds_whole (caller fd (Some Multi.client_round)) (callee sfd nfd (Some Pre.thread_round)) Multi.client_start (Pre.thread_start sfd)
    (stream [] [Out 30 "from client:"; In 30 "from server:"]) ∧
  holds_whole (caller fd (Some Tss.client_round)) (relay nfd fd' (Tss.func_round text fd'))
    (Tss.client_start "main_echo_socket" (Some "From client to mainserver")) (Tss.pass_on chan nfd;; Tss.func_start)
    (stream [Out 30 "From client to mainserver"] [In 30 text; Out 30 "from client to server"]) ∧
  holds_whole (caller fd (Some Tss.client_round)) (worker nfd (Tss.func_round text nfd))
    (Tss.client_start "echo_socket" None) Tss.func_start
    (stream [] [In 30 text; Out 30 "from client to server"]).
Proof.
  intros Hfd Hsfd Hnfd Ht [Hl0 Hl]. split_and!.
  - split; [|by apply basic_breaks]. eapply parts_converse; [by apply basic_client|by apply basic_server|proper_texts].
  - split; [|by apply unix_breaks]. eapply parts_converse; [by apply unix_client|by apply unix_server|proper_texts].
  - split; [|by apply unix_basic_breaks]. eapply parts_converse; [by apply unix_basic_client|by apply unix_basic_server|proper_texts].
  - split; [|by apply multi_breaks]. eapply parts_converse; [by apply multi_client|by apply multi_thread|proper_texts].
  - split; [|by apply pre_breaks]. eapply parts_converse; [by apply multi_client|by apply pre_thread|proper_texts].
  - split; [|by apply tss_breaks]. eapply parts_converse; [by apply (tss_client fd Hfd _ (Some _))|by apply relay_part|proper_texts].
  - split; [|by apply bs_breaks]. eapply parts_converse; [by apply (tss_client fd Hfd _ None)|by apply func_part|proper_texts].
Qed.

Lemma echo_sessions_witness :
  holds_whole (caller 3 None) (callee 3 4 None) Basic.client Basic.server
    (stream [Out 30 "that was aweosome"; In 30 "that was awesome from server"] []).
Proof.
  refine (proj1 (echo_sessions 3 3 4 5 6 "sending from server1" _ _ _ _ _)); first [reflexivity|cbn; lia].
Defined.
