(* ===== verification/Handoff.v ===== *)
(** * Accepting clients: threads that share a variable, and misused polls

    [mid/multithreaded/server.c], [unixsockets/tss/server.c] and the servers of
    [mid/mss] start a thread per client and give every thread the address of
    the same variable.  What a thread finds there depends on when it looks:
    [Shared] is the transition system of the accesses, for any size of the
    array of threads.  [end/conserver/server.c] and [end/sockets/server.c] test
    [fd & revents] where they mean [events & revents] ([Conserver], [Sockets]). *)

From S2P Require Import Prelude CString Posix Session FdPass Echo.

(** ** The main programs *)

(** [mid/multithreaded/server.c]: [&threads[clients_count++]]. *)
Module MultiServer.

Definition MAX_CLIENTS : nat := 5.

Definition start : prog Z :=
  sfd ← sysv (Socket AF_INET SOCK_STREAM 0);
  error_note sfd "sock error";;
  set ← sysv (Setsockopt sfd "SO_REUSEADDR");
  error_note set "opt error";;
  b ← sysv (Bind sfd (any_addr 8000));
  error_note b "bind error";;
  l ← sysv (Listen sfd 5);
  error_note l "listen error";;
  mret sfd.

Definition round (sfd clients_count : Z) : prog Z :=
  nfd ← sysv (Accept sfd);
  error_note nfd "accept error";;
  need (aset (replicate MAX_CLIENTS tt) clients_count tt);;
  do_ (PthreadCreate "thread_func" "&nfd");;
  mret (clients_count + 1).

Definition main (n : nat) : prog Z := sfd ← start; forever n (round sfd) 0.

End MultiServer.

(** [unixsockets/tss/server.c]: the connections come from the main server. *)
Module TssServer.

Definition start : prog Z :=
  sfd ← sysv (Socket AF_UNIX SOCK_STREAM 0);
  error_puts sfd "socket error";;
  do_ (Unlink "echo_socket");;
  b ← sysv (Bind sfd (SaUn "echo_socket"));
  error_puts b "bind error";;
  l ← sysv (Listen sfd 5);
  error_puts l "listen error";;
  nfd ← sysv (Accept sfd);
  error_puts nfd "accept error";;
  '(_, buffer) ← recv nfd (fresh 30) 30;
  s ← str buffer;
  puts (s +:+ nl);;
  mret nfd.

Definition round (nfd clients_no : Z) : prog Z :=
  fd ← recv_file_descriptor nfd;
  puts ("the descriptor is " +:+ dec fd +:+ nl);;
  puts ("client accepted" +:+ nl);;
  need (aset (replicate Tss.max_clients tt) clients_no tt);;
  do_ (PthreadCreate "func" "&fd");;
  mret (clients_no + 1).

Definition main (n : nat) : prog Z := nfd ← start; forever n (round nfd) 0.

End TssServer.

(** ** Who serves whom *)
Module Shared.

(** Between [accept] and [pthread_create], or back at the head of the loop. *)
Inductive main_pc := Accepting | Creating.

(** The variable, the descriptors it was assigned so far, and the threads:
    [None] has not read its argument yet, [Some fd] serves [fd]. *)
Record state := State {
  pc : main_pc;
  variable : Z;
  accepted : list Z;
  threads : list (option Z)
}.

Inductive access :=
| Accepts (fd : Z)     (** [int nfd = accept(...)] *)
| Creates              (** [pthread_create(&threads[clients_no++], NULL, func, &nfd)] *)
| Starts (i : nat).    (** thread [i]: [int nfd = *((int * )arg)] *)

Inductive result := Now (s : state) | Overrun | Never.

Definition step (max : nat) (s : state) (a : access) : result :=
  match a, pc s with
  | Accepts fd, Accepting => Now (State Creating fd (accepted s ++ [fd]) (threads s))
  | Creates, Creating =>
      if decide (length (threads s) < max)%nat then
        Now (State Accepting (variable s) (accepted s) (threads s ++ [None]))
      else Overrun
  | Starts i, _ =>
      match threads s !! i with
      | Some None => Now (State (pc s) (variable s) (accepted s) (<[i := Some (variable s)]> (threads s)))
      | _ => Never
      end
  | _, _ => Never
  end.

Fixpoint steps (max : nat) (s : state) (l : list access) : result :=
  match l with
  | [] => Now s
  | a :: l' => match step max s a with Now s' => steps max s' l' | r => r end
  end.

Definition init : state := State Accepting (-1) [] [].

(** Every thread reads its argument before the next client is accepted. *)
Definition prompt (fds : list Z) : list access := concat (imap (λ i fd, [Accepts fd; Creates; Starts i]) fds).

(** Thread [i] serves connection [i] or a later one; the variable holds the
    last one. *)
Definition sane (s : state) : Prop :=
  (∀ i fd, threads s !! i = Some (Some fd) → ∃ j, (i ≤ j)%nat ∧ accepted s !! j = Some fd) ∧
  (accepted s ≠ [] → last (accepted s) = Some (variable s)) ∧
  length (accepted s) = (length (threads s) + match pc s with Creating => 1 | Accepting => 0 end)%nat.

Lemma step_sane max s a s' : sane s → step max s a = Now s' → sane s'.
Proof.
  intros (Hs & Hv & Hl). unfold step. destruct a as [fd| |i].
  - destruct (pc s) eqn:E; [|done]. intros [= <-]. split_and!; cbn.
    + intros i x Hx. destruct (Hs i x Hx) as (j & Hj & Hc). exists j. split; [done|]. by apply lookup_app_l_Some.
    + intros _. apply last_snoc.
    + rewrite length_app, Hl. cbn. lia.
  - destruct (pc s) eqn:E; [done|]. case_decide; [|done]. intros [= <-]. split_and!; cbn.
    + intros i x [Hx|[_ Hx]]%lookup_app_Some; [by apply Hs|]. apply list_lookup_singleton_Some in Hx as [_ [=]].
    + done.
    + rewrite length_app, Hl. cbn. lia.
  - destruct (threads s !! i) as [[x|]|] eqn:E; [done| |done]. intros [= <-]. split_and!; cbn; [|done|by rewrite length_insert].
    intros k x Hx. destruct (decide (i = k)) as [<-|Hne]; [|rewrite list_lookup_insert_ne in Hx by done; by apply Hs].
    pose proof (lookup_lt_Some _ _ _ E) as Hi. rewrite list_lookup_insert_eq in Hx by done. injection Hx as <-.
    assert (accepted s ≠ []) as Hne by (intros E0; rewrite E0 in Hl; cbn in Hl; lia).
    specialize (Hv Hne). rewrite last_lookup in Hv. eexists. split; [|exact Hv]. lia.
Qed.

Lemma steps_sane max s l s' : sane s → steps max s l = Now s' → sane s'.
Proof.
  revert s. induction l as [|a l IH]; intros s Hs; cbn; [by intros [= <-]|].
  destruct (step max s a) as [s1| |] eqn:E; [|done..]. apply IH. by eapply step_sane.
Qed.

Lemma steps_app max s l l' s' : steps max s l = Now s' → steps max s (l ++ l') = steps max s' l'.
Proof.
  revert s. induction l as [|a l IH]; intros s; cbn; [by intros [= ->]|]. destruct (step max s a); [apply IH|done..].
Qed.

Lemma prompt_snoc fds fd : prompt (fds ++ [fd]) = prompt fds ++ [Accepts fd; Creates; Starts (length fds)].
Proof. unfold prompt. rewrite imap_app, concat_app. cbn. by rewrite Nat.add_0_r. Qed.

Lemma steps_prompt max fds :
  (length fds ≤ max)%nat → ∃ v, steps max init (prompt fds) = Now (State Accepting v fds (Some <$> fds)).
Proof.
  induction fds as [|fd fds IH] using rev_ind; intros Hl; [by exists (-1)|].
  rewrite length_app in Hl. cbn in Hl. destruct IH as [v E]; [lia|]. exists fd. rewrite prompt_snoc, (steps_app _ _ _ _ _ E).
  cbn. rewrite length_fmap, decide_True by lia. cbn.
  rewrite lookup_app_r by (by rewrite length_fmap). rewrite length_fmap, Nat.sub_diag. cbn.
  rewrite insert_app_r_alt by (by rewrite length_fmap). by rewrite length_fmap, Nat.sub_diag, fmap_app.
Qed.

End Shared.

(** ** The loops of the main programs *)

Section loops.
Variables (sfd chan : Z).
Hypothesis (Hsfd : 0 ≤ sfd) (Hchan : 0 ≤ chan).

Definition multi_opening : list label :=
  [Did (Socket AF_INET SOCK_STREAM 0) sfd; Did (Setsockopt sfd "SO_REUSEADDR") 0; Did (Bind sfd (any_addr 8000)) 0;
   Did (Listen sfd 5) 0].
Definition multi_client (fd : Z) : list label := [Did (Accept sfd) fd; Did (PthreadCreate "thread_func" "&nfd") 0].

Definition tss_opening : list label :=
  [Did (Socket AF_UNIX SOCK_STREAM 0) sfd; Did (Bind sfd (SaUn "echo_socket")) 0; Did (Listen sfd 5) 0;
   Did (Accept sfd) chan; Got chan 30 "From mainserver to server"].
Definition tss_client (fd : Z) : list label := [installs chan fd; Did (PthreadCreate "func" "&fd") 0].

Lemma multi_starts : plays net (returns (eq sfd)) MultiServer.start multi_opening.
Proof. unfold MultiServer.start, multi_opening. repeat step. done. Qed.

Lemma tss_starts : plays net (returns (eq chan)) TssServer.start tss_opening.
Proof. unfold TssServer.start, tss_opening. repeat step. done. Qed.

Lemma replicate_room {A} (x : A) n k : (k < n)%nat → aset (replicate n x) (Z.of_nat k) x ≠ None.
Proof. intros H. rewrite aset_Some; [done|]. rewrite length_replicate. lia. Qed.

(** A round starts a thread while there is room in the array; when there is
    none, the element behind it is written. *)
Lemma multi_round k fd :
  0 ≤ fd → (k < MultiServer.MAX_CLIENTS)%nat →
  plays net (returns (eq (Z.of_nat (S k)))) (MultiServer.round sfd (Z.of_nat k)) (multi_client fd).
Proof.
  intros Hfd Hk. unfold MultiServer.round, multi_client. do 2 step.
  eapply plays_need; [apply aset_Some; rewrite length_replicate; lia|]. step. step. lia.
Qed.

Lemma multi_overrun fd :
  0 ≤ fd → plays net (eq UB) (MultiServer.round sfd (Z.of_nat MultiServer.MAX_CLIENTS)) [Did (Accept sfd) fd].
Proof. intros Hfd. unfold MultiServer.round. do 2 step. by apply plays_undef. Qed.

Lemma tss_round k fd :
  0 ≤ fd → (k < Tss.max_clients)%nat →
  plays net (returns (eq (Z.of_nat (S k)))) (TssServer.round chan (Z.of_nat k)) (tss_client fd).
Proof.
  intros Hfd Hk. unfold TssServer.round, tss_client. do 3 step.
  eapply plays_need; [apply aset_Some; rewrite length_replicate; lia|]. step. step. lia.
Qed.

Lemma tss_overrun fd :
  0 ≤ fd → plays net (eq UB) (TssServer.round chan (Z.of_nat Tss.max_clients)) [installs chan fd].
Proof. intros Hfd. unfold TssServer.round. do 3 step. by apply plays_undef. Qed.
End loops.

(** A server that has room for [max] clients: its first [max] clients, and the
    one after them. *)
Lemma rounds_then_UB {S} (start : prog S) (P : S → Prop) (round : S → Z → prog Z) (max : nat) opening
    (client : Z → list label) (last : Z → list label) fds fd :
  plays net (returns P) start opening →
  (∀ s k fd, P s → 0 ≤ fd → (k < max)%nat → plays net (returns (eq (Z.of_nat (Datatypes.S k)))) (round s (Z.of_nat k)) (client fd)) →
  (∀ s fd, P s → 0 ≤ fd → plays net (eq UB) (round s (Z.of_nat max)) (last fd)) →
  Forall (Z.le 0) fds → 0 ≤ fd →
  ((length fds ≤ max)%nat →
   plays net (returns (eq (Z.of_nat (length fds)))) (s ← start; forever (length fds) (round s) 0) (opening ++ concat (client <$> fds))) ∧
  (length fds = max → ∀ n,
   plays net (eq UB) (s ← start; forever (length fds + Datatypes.S n) (round s) 0) (opening ++ concat (client <$> fds) ++ last fd)).
Proof.
  intros Hs Hr Hu Hfds Hfd. rewrite Forall_forall in Hfds.
  assert (∀ s, P s → (length fds ≤ max)%nat → ∀ done_ x rest k, fds = done_ ++ x :: rest → Z.of_nat (length done_) = k →
    plays net (returns (λ k', Z.of_nat (length (done_ ++ [x])) = k')) (round s k) (client x)) as Hb.
  { intros s HP Hl done_ x rest k E <-. rewrite length_app, Nat.add_1_r. apply Hr; [done| |].
    - apply Hfds. rewrite E. apply elem_of_app. right. by left.
    - rewrite E, length_app in Hl. cbn in Hl. lia. }
  split.
  - intros Hl. eapply plays_bind; [exact Hs|]. intros s HP.
    apply (plays_forever_list net (λ l k, Z.of_nat (length l) = k) client fds (round s) 0); [|done].
    intros. eapply Hb; eauto.
  - intros Hl n. eapply plays_bind; [exact Hs|]. intros s HP.
    replace (client <$> fds) with (imap (λ _, client) fds) by (clear; induction fds as [|x l IH]; [done|]; rewrite imap_cons; cbn; by f_equal).
    apply (plays_forever_then net (λ l k, Z.of_nat (length l) = k)); [intros; eapply Hb; eauto; lia|done|].
    intros k <-. cbn [forever]. apply plays_bind_UB. rewrite Hl. by apply Hu.
Qed.

(** C19: The servers that start a thread per client.  Every client up to the
    size of [threads] gets a thread, and the next one makes the server write
    behind the array.  The threads read their argument from the variable the
    main program goes on using: in every interleaving thread [i] serves the
    [i]-th connection or a later one; if each thread looks before the next
    [accept], the [i]-th serves the [i]-th; but two threads may both serve the
    second client, and the first is never answered. *)
Theorem who_serves_whom sfd chan fds fd :
  0 ≤ sfd → 0 ≤ chan → Forall (Z.le 0) fds → 0 ≤ fd →
  (((length fds ≤ 5)%nat →
    plays net (returns (eq (Z.of_nat (length fds)))) (MultiServer.main (length fds))
      (multi_opening sfd ++ concat (multi_client sfd <$> fds))) ∧
   (length fds = 5%nat → ∀ n,
    plays net (eq UB) (MultiServer.main (length fds + S n))
      (multi_opening sfd ++ concat (multi_client sfd <$> fds) ++ [Did (Accept sfd) fd]))) ∧
  (((length fds ≤ 3)%nat →
    plays net (returns (eq (Z.of_nat (length fds)))) (TssServer.main (length fds))
      (tss_opening sfd chan ++ concat (tss_client chan <$> fds))) ∧
   (length fds = 3%nat → ∀ n,
    plays net (eq UB) (TssServer.main (length fds + S n))
      (tss_opening sfd chan ++ concat (tss_client chan <$> fds) ++ [installs chan fd]))) ∧
  ∀ max,
    (∀ l s, Shared.steps max Shared.init l = Shared.Now s →
       ∀ i x, Shared.threads s !! i = Some (Some x) → ∃ j, (i ≤ j)%nat ∧ Shared.accepted s !! j = Some x) ∧
    ((length fds ≤ max)%nat → ∃ v,
       Shared.steps max Shared.init (Shared.prompt fds) = Shared.Now (Shared.State Shared.Accepting v fds (Some <$> fds))) ∧
    ((2 ≤ max)%nat → ∀ a b,
       Shared.steps max Shared.init
         [Shared.Accepts a; Shared.Creates; Shared.Accepts b; Shared.Creates; Shared.Starts 0; Shared.Starts 1] =
       Shared.Now (Shared.State Shared.Accepting b [a; b] [Some b; Some b])).
Proof.
  intros Hsfd Hchan Hfds Hfd. split; [|split].
  - apply (rounds_then_UB MultiServer.start (eq sfd) MultiServer.round 5 _ (multi_client sfd) (λ fd, [Did (Accept sfd) fd]));
      [by apply multi_starts| | |done..]; intros ? ? ; [intros ? <-|intros <-]; [apply multi_round|apply multi_overrun].
  - apply (rounds_then_UB TssServer.start (eq chan) TssServer.round 3 _ (tss_client chan) (λ fd, [installs chan fd]));
      [by apply tss_starts| | |done..]; intros ? ? ; [intros ? <-|intros <-]; [apply tss_round|apply tss_overrun].
  - intros max. split_and!.
    + intros l s Hl. eapply (Shared.steps_sane max Shared.init); [|exact Hl]. by split_and!.
    + apply Shared.steps_prompt.
    + intros Hm a b. unfold Shared.steps, Shared.step, Shared.init. cbn [Shared.pc Shared.threads Shared.accepted Shared.variable length app].
      rewrite decide_True by lia. cbn [Shared.pc Shared.threads Shared.accepted Shared.variable length app].
      by rewrite decide_True by lia.
Qed.

Lemma who_serves_whom_witness :
  Forall (Z.le 0) [4; 5] ∧
  plays net (returns (eq 2)) (MultiServer.main 2) (multi_opening 3 ++ concat (multi_client 3 <$> [4; 5])).
Proof.
  assert (Forall (Z.le 0) [4; 5]) as H by (repeat constructor; lia). split; [exact H|].
  exact (proj1 (proj1 (who_serves_whom 3 3 [4; 5] 6 ltac:(lia) ltac:(lia) H ltac:(lia))) ltac:(cbn; lia)).
Defined.

(** ** Polls that test the descriptor *)

(** [fdp[i].fd & fdp[i].revents] *)
Definition fd_bits (fdp : list pollfd) (revents : list Z) (i : Z) : prog bool :=
  p ← need (aget fdp i);
  r ← need (aget revents i);
  mret (negb (Z.land (pfd p) r =? 0)).

(** [end/conserver/server.c].  The array [fdp] of six entries is not
    initialised: [fdp0] is what it happens to hold. *)
Module Conserver.

Definition max_clients : Z := 5.

Definition start (fdp0 : list pollfd) : prog (Z * list pollfd) :=
  sfd ← sysv (Socket AF_INET SOCK_STREAM 0);
  error_warn sfd "socket";;
  result ← sysv (Setsockopt sfd "SO_REUSEADDR");
  (if result <? 0 then puts ("sock" +:+ nl +:+ nl) else mret tt);;
  b ← sysv (Bind sfd (any_addr 8000));
  error_warn b "bind";;
  l ← sysv (Listen sfd 4);
  error_warn l "listen";;
  fdp ← need (aset fdp0 0 (PollFd sfd POLLIN));
  puts ("reached before poll" +:+ nl);;
  mret (sfd, fdp).

Definition serve (fdp : list pollfd) (revents : list Z) (i : Z) (_ : unit) : prog unit :=
  b ← fd_bits fdp revents i;
  if (b : bool) then
    puts ("me reached main" +:+ nl);;
    p ← need (aget fdp i);
    '(_, buffer) ← recv (pfd p) (fresh 30) 30;
    s ← str buffer;
    puts (s +:+ nl);;
    do_ (Send (pfd p) (lit "hai from server") 30);;
    mret tt
  else mret tt.

Definition round (sfd : Z) (s : list pollfd * Z) : prog (list pollfd * Z) :=
  let '(fdp, client_count) := s in
  r ← sys (Poll fdp 100);
  error_warn (rv r) "poll";;
  puts ("reached mid poll" +:+ nl);;
  do_ (Sleep 2);;
  b ← fd_bits fdp (rints r) 0;
  if (b : bool) then
    puts ("reached" +:+ nl);;
    nfd ← sysv (Accept sfd);
    fdp ← need (aset fdp client_count (PollFd nfd POLLIN));
    mret (fdp, client_count + 1)
  else
    puts ("me reached" +:+ nl);;
    for_up 1 client_count (serve fdp (rints r)) tt;;
    mret (fdp, client_count).

Definition main (fdp0 : list pollfd) (n : nat) : prog (list pollfd * Z) :=
  s ← start fdp0; forever n (round s.1) (s.2, 1).

(** [end/conserver/client.c]. *)
Definition client_start : prog Z :=
  nfd ← sysv (Socket AF_INET SOCK_STREAM 0);
  error_warn nfd "socket";;
  c ← sysv (Connect nfd (any_addr 8000));
  error_warn c "accept";;
  mret nfd.

Definition client_round (nfd : Z) : prog Z :=
  do_ (Send nfd (lit "hai from client") 30);;
  '(_, buffer) ← recv nfd (fresh 30) 30;
  s ← str buffer;
  puts (s +:+ nl);;
  mret nfd.

Definition client (n : nat) : prog Z := nfd ← client_start; forever n client_round nfd.

End Conserver.

(** [end/sockets/server.c]: it asks for [POLLRDNORM], and never reads. *)
Module Sockets.

Definition start (fdp0 : list pollfd) : prog (Z * list pollfd) :=
  sfd ← sysv (Socket AF_INET SOCK_STREAM 0);
  error_warn sfd "socket";;
  set ← sysv (Setsockopt sfd "SO_REUSEADDR");
  error_warn set "calling sockpot";;
  b ← sysv (Bind sfd (any_addr 8000));
  error_warn b "bind";;
  l ← sysv (Listen sfd 5);
  error_warn l "listen";;
  fdp ← need (aset fdp0 0 (PollFd sfd POLLRDNORM));
  mret (sfd, fdp).

Definition round (sfd : Z) (s : list pollfd * Z) : prog (list pollfd * Z) :=
  let '(fdp, client_count) := s in
  r ← sys (Poll fdp 0);
  error_warn (rv r) "poll";;
  b ← fd_bits fdp (rints r) 0;
  if (b : bool) then
    nfd ← sysv (Accept sfd);
    error_warn nfd "accept";;
    fdp ← need (aset fdp client_count (PollFd nfd POLLRDNORM));
    mret (fdp, client_count + 1)
  else mret (fdp, client_count).

Definition main (fdp0 : list pollfd) (n : nat) : prog (list pollfd * Z) :=
  s ← start fdp0; forever n (round s.1) (s.2, 1).

End Sockets.

(** The table of a poll: the listening socket, the clients, and the rest. *)
Definition table (ev sfd : Z) (fds : list Z) (fdp : list pollfd) : Prop :=
  ∃ rest, fdp = PollFd sfd ev :: ((λ fd, PollFd fd ev) <$> fds) ++ rest.

Lemma table_get ev sfd fds fdp i fd :
  table ev sfd fds fdp → fds !! i = Some fd → aget fdp (1 + Z.of_nat i) = Some (PollFd fd ev).
Proof.
  intros [rest ->] H. replace (1 + Z.of_nat i) with (Z.of_nat (S i)) by lia. rewrite aget_nat. cbn.
  apply lookup_app_l_Some. by rewrite list_lookup_fmap, H.
Qed.

Lemma table_snoc ev sfd fds fdp fd :
  table ev sfd fds fdp → (S (length fds) < length fdp)%nat →
  ∃ fdp', aset fdp (1 + Z.of_nat (length fds)) (PollFd fd ev) = Some fdp' ∧ table ev sfd (fds ++ [fd]) fdp' ∧ length fdp' = length fdp.
Proof.
  intros [rest ->] Hl. eexists. rewrite aset_Some by lia. split; [done|]. split; [|by rewrite length_insert].
  replace (Z.to_nat (1 + Z.of_nat (length fds))) with (S (length fds)) by lia. cbn [length] in Hl. rewrite length_app, length_fmap in Hl.
  destruct rest as [|x rest]; [cbn in Hl; lia|]. exists rest.
  rewrite app_comm_cons, insert_app_r_alt by (cbn; by rewrite length_fmap).
  cbn [length]. rewrite length_fmap, Nat.sub_diag, fmap_app. cbn. by rewrite <- app_assoc.
Qed.

(** The reply to a poll. *)
Definition polled (fdp : list pollfd) (timeout : Z) (revents : list Z) : label :=
  Told (Poll fdp timeout) (Reply (Z.of_nat (length revents)) "" revents []).

Lemma land_1 z : negb (Z.land z POLLIN =? 0) = Z.odd z.
Proof.
  change POLLIN with (Z.ones 1). rewrite Z.land_ones by lia. change (2 ^ 1) with 2. rewrite Zmod_odd. by destruct (Z.odd z).
Qed.

Lemma plays_fd_bits {B} w fdp revents i p r (f : bool → prog B) ls Q :
  aget fdp i = Some p → aget revents i = Some r →
  plays w Q (f (negb (Z.land (pfd p) r =? 0))) ls → plays w Q (fd_bits fdp revents i ≫= f) ls.
Proof. intros Hp Hr Hf. unfold fd_bits. by rewrite Hp, Hr. Qed.

(** Which descriptors a poll with [revents] is taken to be about. *)
Definition hit (fd revents : Z) : bool := negb (Z.land fd revents =? 0).

Lemma land_64 z : negb (Z.land z POLLRDNORM =? 0) = Z.testbit z 6.
Proof.
  assert (Z.land z POLLRDNORM = if Z.testbit z 6 then POLLRDNORM else 0) as ->; [|by destruct (Z.testbit z 6)].
  apply Z.bits_inj'. intros n Hn. rewrite Z.land_spec. change POLLRDNORM with (2 ^ 6).
  rewrite Z.pow2_bits_eqb by lia. destruct (Z.eqb_spec 6 n) as [<-|Hne].
  - destruct (Z.testbit z 6) eqn:E; [done|by rewrite Z.bits_0].
  - rewrite andb_false_r. destruct (Z.testbit z 6); [|by rewrite Z.bits_0]. symmetry. rewrite Z.pow2_bits_eqb by lia. by apply Z.eqb_neq.
Qed.

(** What it comes to for the events the servers ask for. *)
Lemma hit_events fd : hit fd POLLIN = Z.odd fd ∧ hit fd POLLRDNORM = Z.testbit fd 6 ∧ hit fd 0 = false.
Proof. unfold hit. split_and!; [apply land_1|apply land_64|by rewrite Z.land_0_r]. Qed.

Lemma small_not_hit sfd : 0 ≤ sfd < 64 → hit sfd POLLRDNORM = false.
Proof.
  intros Hs. destruct (hit_events sfd) as (_ & -> & _). rewrite <- (Z.mod_small sfd (2 ^ 6)) by lia. by rewrite Z.mod_pow2_bits_high by lia.
Qed.

Section conserver.
(** The clients, each with what the poll says of it and the text it sends. *)
Variables (sfd : Z) (fds : list Z) (fdp : list pollfd) (reqs : list (Z * Z * string)) (junk : list Z).
Hypothesis (Htable : table POLLIN sfd fds fdp) (Hreqs : (λ x, x.1.1) <$> reqs = fds).

(** What the server does about one of them. *)
Definition answer (x : Z * Z * string) : list label :=
  if hit x.1.1 x.1.2 then [Got x.1.1 30 x.2; Sent x.1.1 30 "hai from server"] else [].

Definition events : list Z := (λ x, x.1.2) <$> reqs.

Lemma conserver_head : aget fdp 0 = Some (PollFd sfd POLLIN).
Proof. by destruct Htable as [rest ->]. Qed.

Lemma events_get r i x : reqs !! i = Some x → aget (r :: events ++ junk) (1 + Z.of_nat i) = Some x.1.2.
Proof.
  intros Hi. replace (1 + Z.of_nat i) with (Z.of_nat (S i)) by lia. rewrite aget_nat. cbn.
  apply lookup_app_l_Some. unfold events. by rewrite list_lookup_fmap, Hi.
Qed.

Lemma client_get i x : reqs !! i = Some x → aget fdp (1 + Z.of_nat i) = Some (PollFd x.1.1 POLLIN).
Proof. intros Hi. eapply table_get; [exact Htable|]. by rewrite <- Hreqs, list_lookup_fmap, Hi. Qed.

Lemma conserver_serves r :
  hit sfd r = false →
  plays net (returns (eq (fdp, 1 + Z.of_nat (length fds)))) (Conserver.round sfd (fdp, 1 + Z.of_nat (length fds)))
    (polled fdp 100 (r :: events ++ junk) :: concat (answer <$> reqs)).
Proof.
  intros Hr. unfold Conserver.round, polled. step. step. step. step. eapply plays_fd_bits; [apply conserver_head|reflexivity|].
  cbn [pfd]. fold (hit sfd r). rewrite Hr. step.
  assert (length fds = length reqs) as -> by (rewrite <- Hreqs; apply length_fmap).
  eapply plays_last; [|intros u _; by step]. apply (plays_for_list net (λ _ _, True)); [|done].
  intros done_ [[fd e] s] rest [] E _. assert (reqs !! length done_ = Some (fd, e, s)) as Hi by (rewrite E; by apply list_lookup_middle).
  unfold Conserver.serve. eapply plays_fd_bits; [exact (client_get _ _ Hi)|exact (events_get _ _ _ Hi)|].
  cbn [pfd fst snd]. fold (hit fd e). unfold answer. cbn [fst snd]. destruct (hit fd e); [|by step].
  step. rewrite (client_get _ _ Hi). cbn [mbind prog_mbind prog_bind need pfd fst]. repeat step. done.
Qed.

(** A client that is taken to be ready, but of which nothing can be read (it
    was reset, or has hung up): the buffer that is printed was never written. *)
Lemma conserver_unread r i x v :
  reqs !! i = Some x → hit x.1.1 x.1.2 = true → v ≤ 0 →
  plays net (eq UB) (Conserver.serve fdp (r :: events ++ junk) (1 + Z.of_nat i) tt) [Told (Recv x.1.1 30) (ret_ v)].
Proof.
  intros Hi Hh Hv. unfold Conserver.serve. eapply plays_fd_bits; [exact (client_get _ _ Hi)|exact (events_get _ _ _ Hi)|].
  cbn [pfd]. fold (hit x.1.1 x.1.2). rewrite Hh. step. rewrite (client_get _ _ Hi). cbn [mbind prog_mbind prog_bind need pfd].
  apply plays_watched; [done|done|]. intros a E. cbn in E. subst a. change (received _ (ret_ v)) with (Ret (fresh 30)).
  cbn [prog_bind]. by apply plays_Undef.
Qed.

(** A new client is taken in when the poll hits the listening descriptor, as
    long as the array has room. *)
Lemma conserver_accepts fd r rest :
  hit sfd r = true → (S (length fds) < length fdp)%nat →
  plays net (returns (λ s, s.2 = 1 + Z.of_nat (length (fds ++ [fd])) ∧ table POLLIN sfd (fds ++ [fd]) s.1 ∧ length s.1 = length fdp))
    (Conserver.round sfd (fdp, 1 + Z.of_nat (length fds))) [polled fdp 100 (r :: rest); Did (Accept sfd) fd].
Proof.
  intros Hh Hl. unfold Conserver.round, polled. step. step. step. step.
  eapply plays_fd_bits; [apply conserver_head|reflexivity|]. cbn [pfd]. fold (hit sfd r). rewrite Hh. step. step.
  destruct (table_snoc _ _ _ _ fd Htable Hl) as (fdp' & E & Ht & El). eapply plays_need; [exact E|]. step.
  cbn [fst snd]. rewrite length_app. split_and!; [cbn; lia|done..].
Qed.

Lemma conserver_overrun fd r rest :
  hit sfd r = true → length fdp = S (length fds) →
  plays net (eq UB) (Conserver.round sfd (fdp, 1 + Z.of_nat (length fds))) [polled fdp 100 (r :: rest); Did (Accept sfd) fd].
Proof.
  intros Hh Hl. unfold Conserver.round, polled. step. step. step. step.
  eapply plays_fd_bits; [apply conserver_head|reflexivity|]. cbn [pfd]. fold (hit sfd r). rewrite Hh. step. step.
  apply plays_undef, aset_None. lia.
Qed.

(** The client asks and waits, over and over. *)
Lemma client_asks nfd answers_ :
  0 ≤ nfd →
  plays net (returns (eq nfd)) (Conserver.client (length answers_))
    ([Did (Socket AF_INET SOCK_STREAM 0) nfd; Did (Connect nfd (any_addr 8000)) 0] ++
     concat ((λ t, [Sent nfd 30 "hai from client"; Got nfd 30 t]) <$> answers_)).
Proof.
  intros Hn. apply (plays_bind net (eq nfd)); [unfold Conserver.client_start; by repeat step|]. intros ? <-.
  apply (plays_forever_list net (λ _, eq nfd)); [|done]. intros ? t ? ? _ <-. unfold Conserver.client_round. by repeat step.
Qed.
End conserver.

(** [end/sockets]: a poll that does not hit the listening descriptor changes
    nothing; one that hits it takes a client in. *)
Lemma sockets_round sfd fdp count r rest :
  hit sfd r = false → table POLLRDNORM sfd [] fdp →
  plays net (returns (eq (fdp, count))) (Sockets.round sfd (fdp, count)) [polled fdp 0 (r :: rest)].
Proof.
  intros Hh [t ->]. unfold Sockets.round, polled. step. step. eapply plays_fd_bits; [reflexivity..|]. cbn [pfd].
  fold (hit sfd r). rewrite Hh. by step.
Qed.

Lemma sockets_accepts sfd fds fdp fd r rest :
  hit sfd r = true → 0 ≤ fd → table POLLRDNORM sfd fds fdp → (S (length fds) < length fdp)%nat →
  plays net (returns (λ s, s.2 = 1 + Z.of_nat (length fds) + 1 ∧ table POLLRDNORM sfd (fds ++ [fd]) s.1))
    (Sockets.round sfd (fdp, 1 + Z.of_nat (length fds))) [polled fdp 0 (r :: rest); Did (Accept sfd) fd].
Proof.
  intros Hh Hf Ht Hl. unfold Sockets.round, polled. step. step.
  eapply plays_fd_bits; [by destruct Ht as [t ->]|reflexivity|]. cbn [pfd]. fold (hit sfd r). rewrite Hh. step. step.
  destruct (table_snoc _ _ _ _ fd Ht Hl) as (fdp' & E & Ht' & El). eapply plays_need; [exact E|]. by step.
Qed.

Lemma sockets_waits fdp0 sfd revents :
  0 ≤ sfd → length fdp0 = 5%nat → Forall (λ r, ∃ e rest, r = e :: rest ∧ hit sfd e = false) revents →
  let fdp := <[0%nat := PollFd sfd POLLRDNORM]> fdp0 in
  plays net (returns (eq (fdp, 1))) (Sockets.main fdp0 (length revents))
    ([Did (Socket AF_INET SOCK_STREAM 0) sfd; Did (Setsockopt sfd "SO_REUSEADDR") 0; Did (Bind sfd (any_addr 8000)) 0;
      Did (Listen sfd 5) 0] ++ (polled fdp 0 <$> revents)).
Proof.
  intros Hs Hl Hr fdp. unfold Sockets.main. eapply (plays_bind _ (eq (sfd, fdp))).
  { unfold Sockets.start. repeat step. eapply plays_need; [apply aset_Some; lia|]. by step. }
  intros ? <-. cbn [fst snd]. rewrite <- concat_single.
  apply (plays_forever_list net (λ _, eq (fdp, 1)) (λ r, [polled fdp 0 r])); [|done].
  intros done_ r rest s E <-. rewrite Forall_forall in Hr. destruct (Hr r) as (e & t & -> & Ht).
  { rewrite E. apply elem_of_app. right. by left. }
  apply sockets_round; [done|]. exists (tail fdp0). by destruct fdp0.
Qed.

(** C34: The polls of [end] test [fd & revents], so who is served depends on the
    bits the descriptor and the events have in common ([hit]).  For any events:
    a round of [conserver] that does not hit the listening descriptor answers
    exactly the clients that are hit, in the order of the table; a client that
    is hit but sends nothing (an error, a hang-up) is undefined behaviour, since
    the buffer is printed all the same; a round that hits the listening
    descriptor only takes one client in, and stores the sixth behind the array.
    [end/sockets] stays as it is over any number of polls that do not hit its
    descriptor and takes a client in when one does.  When nothing but the event
    asked for is reported, a descriptor is hit by [POLLIN] iff it is odd, and by
    [POLLRDNORM] iff its bit 6 is set, so never below 64; a client 8 in error
    ([POLLIN], [POLLERR] and [POLLHUP]) is hit. *)
Theorem poll_bits sfd fds fdp reqs junk fdp0 :
  table POLLIN sfd fds fdp → (λ x, x.1.1) <$> reqs = fds → length fdp = 6%nat → length fdp0 = 5%nat → 0 ≤ sfd →
  let count := 1 + Z.of_nat (length fds) in
  let polls := <[0%nat := PollFd sfd POLLRDNORM]> fdp0 in
  (∀ r, hit sfd r = false →
     plays net (returns (eq (fdp, count))) (Conserver.round sfd (fdp, count))
       (polled fdp 100 (r :: events reqs ++ junk) :: concat (answer <$> reqs))) ∧
  (∀ r i x v, reqs !! i = Some x → hit x.1.1 x.1.2 = true → v ≤ 0 →
     plays net (eq UB) (Conserver.serve fdp (r :: events reqs ++ junk) (1 + Z.of_nat i) tt) [Told (Recv x.1.1 30) (ret_ v)]) ∧
  (∀ r fd rest, hit sfd r = true → (length fds < 5)%nat →
     plays net (returns (λ s, s.2 = count + 1 ∧ table POLLIN sfd (fds ++ [fd]) s.1))
       (Conserver.round sfd (fdp, count)) [polled fdp 100 (r :: rest); Did (Accept sfd) fd]) ∧
  (∀ r fd rest, hit sfd r = true → length fds = 5%nat →
     plays net (eq UB) (Conserver.round sfd (fdp, count)) [polled fdp 100 (r :: rest); Did (Accept sfd) fd]) ∧
  (∀ revents, Forall (λ r, ∃ e rest, r = e :: rest ∧ hit sfd e = false) revents →
     plays net (returns (eq (polls, 1))) (Sockets.main fdp0 (length revents))
       ([Did (Socket AF_INET SOCK_STREAM 0) sfd; Did (Setsockopt sfd "SO_REUSEADDR") 0; Did (Bind sfd (any_addr 8000)) 0;
         Did (Listen sfd 5) 0] ++ (polled polls 0 <$> revents))) ∧
  (∀ r fd rest, hit sfd r = true → 0 ≤ fd →
     plays net (returns (λ s, s.2 = 2 ∧ table POLLRDNORM sfd [fd] s.1))
       (Sockets.round sfd (polls, 1)) [polled polls 0 (r :: rest); Did (Accept sfd) fd]) ∧
  (∀ fd, hit fd POLLIN = Z.odd fd ∧ hit fd POLLRDNORM = Z.testbit fd 6 ∧ hit fd 0 = false) ∧
  (0 ≤ sfd < 64 → hit sfd POLLRDNORM = false) ∧ hit 8 (1 + 8 + 16) = true.
Proof.
  intros Ht Hreqs Hl Hl0 Hs count polls. split_and!.
  - intros. by apply conserver_serves.
  - intros. by eapply conserver_unread.
  - intros r fd rest Hh Hf. eapply plays_weaken; [apply (conserver_accepts sfd fds fdp Ht fd r rest Hh); lia|].
    intros s (E & H & _). split; [|done]. rewrite E, length_app. unfold count. cbn. lia.
  - intros r fd rest Hh Hf. apply (conserver_overrun sfd fds fdp Ht); [done|lia].
  - intros. by apply sockets_waits.
  - intros r fd rest Hh Hf. apply (sockets_accepts sfd [] polls fd r rest); [done..| |].
    + exists (tail fdp0). unfold polls. by destruct fdp0.
    + unfold polls. rewrite length_insert. cbn. lia.
  - apply hit_events.
  - apply small_not_hit.
  - done.
Qed.

(** Clients 4 and 5 have both written; only 5 is answered. *)
Lemma poll_bits_witness :
  table POLLIN 3 [4; 5] (PollFd 3 1 :: PollFd 4 1 :: PollFd 5 1 :: replicate 3 (PollFd 0 0)) ∧
  plays net (returns (eq (PollFd 3 1 :: PollFd 4 1 :: PollFd 5 1 :: replicate 3 (PollFd 0 0), 3)))
    (Conserver.round 3 (PollFd 3 1 :: PollFd 4 1 :: PollFd 5 1 :: replicate 3 (PollFd 0 0), 3))
    [polled (PollFd 3 1 :: PollFd 4 1 :: PollFd 5 1 :: replicate 3 (PollFd 0 0)) 100 [0; 1; 1; 0; 0; 0];
     Got 5 30 "hai from client"; Sent 5 30 "hai from server"].
Proof.
  assert (table POLLIN 3 [4; 5] (PollFd 3 1 :: PollFd 4 1 :: PollFd 5 1 :: replicate 3 (PollFd 0 0))) as H by (by exists (replicate 3 (PollFd 0 0))).
  split; [exact H|].
  exact (proj1 (poll_bits 3 [4; 5] _ [(4, 1, "hai from client"%string); (5, 1, "hai from client"%string)] [0; 0; 0]
           (replicate 5 (PollFd 0 0)) H eq_refl eq_refl eq_refl ltac:(lia)) 0 eq_refl).
Defined.
