(* ===== verification/Failover.v ===== *)
(** * A server and its backup ([unixsockets/bs])

    [server.c] converses with each client in a thread and keeps the
    descriptors in [cfd].  On [SIGUSR1] it wakes [backserver.c] with the same
    signal, passes all the descriptors on and exits; the backup collects them
    and starts a thread for each.  [hand] is the transition system of the two
    signal handlers and the connection between them; [takeover] that of a
    client and the threads that serve it, one after the other. *)

From stdpp Require Import relations.
From S2P Require Import Prelude CString Posix Session Converse FdPass Echo.

Definition max_clients : nat := 5.

(** ** [server.c] *)
Module Server.

(** The globals [cfd] and [clients_no]. *)
Record memory := Memory { cfd : list Z; clients_no : Z }.

Definition func (nfd : Z) (n : nat) : prog buf := Tss.func "sending from server1" nfd n.

Definition start : prog (Z * Z * Z * memory) :=
  shmid ← sysv (Shmget 5678 4 false);
  do_ (Shmat shmid);;
  pid ← sysv (ShmLoad 0);
  cfd ← need (for_up (M := option) 0 (Z.of_nat max_clients) (λ i cfd, aset cfd i (-1)) (replicate max_clients 0));
  do_ (Signal SIGUSR1 "handler_func");;
  me ← sysv Getpid;
  puts ("Process id:" +:+ dec me +:+ nl);;
  bsfd ← sysv (Socket AF_UNIX SOCK_STREAM 0);
  error_puts bsfd "socket error";;
  c ← sysv (Connect bsfd (SaUn "back_echo_socket"));
  error_puts c "connect error";;
  do_ (Send bsfd (lit "From server to backupserver") 30);;
  sfd ← sysv (Socket AF_UNIX SOCK_STREAM 0);
  error_puts sfd "socket error";;
  do_ (Unlink "echo_socket");;
  b ← sysv (Bind sfd (SaUn "echo_socket"));
  error_puts b "bind error";;
  l ← sysv (Listen sfd 5);
  error_puts l "listen error";;
  mret (pid, bsfd, sfd, Memory cfd 0).

Definition round (sfd : Z) (m : memory) : prog memory :=
  puts ("came1" +:+ nl);;
  nfd ← sysv (Accept sfd);
  puts ("came2" +:+ nl);;
  error_puts nfd "accept error";;
  cfd' ← need (aset (cfd m) (clients_no m) nfd);
  let clients_no' := clients_no m + 1 in
  puts ("client accepted" +:+ nl);;
  need (aset (replicate max_clients tt) clients_no' tt);;
  do_ (PthreadCreate "func" "&nfd");;
  mret (Memory cfd' clients_no').

Definition main (n : nat) : prog memory :=
  '(_, _, sfd, m) ← start; forever n (round sfd) m.

Definition pass (bsfd : Z) (m : memory) (i : Z) : prog (Z + unit) :=
  if i <? Z.of_nat max_clients then
    fd ← need (aget (cfd m) i);
    if fd =? -1 then mret (inr tt)
    else
      puts ("fd " +:+ dec fd +:+ nl);;
      send_file_descriptor bsfd fd;;
      mret (inl (i + 1))
  else mret (inr tt).

Definition handler_func (pid bsfd : Z) (m : memory) : prog unit :=
  do_ (Kill pid SIGUSR1);;
  puts ("The server is about to shutdown" +:+ nl);;
  puts ("count of no_cients" +:+ dec (clients_no m) +:+ nl);;
  loop (S max_clients) (pass bsfd m) 0;;
  Halt 0.

End Server.

(** ** [backserver.c] *)
Module Backup.

(** The globals [csfd], which is zero at first, and [clients_no]. *)
Record memory := Memory { csfd : list Z; clients_no : Z }.

Definition init : memory := Memory (replicate max_clients 0) 0.

Definition func (nfd : Z) (n : nat) : prog buf := Tss.func "sending from backserver" nfd n.

Definition arg (i : Z) : string := "&csfd[" +:+ dec i +:+ "]".

Definition thread_caller (m : memory) : prog Z :=
  for_up 0 (clients_no m) (λ i count,
    fd ← need (aget (csfd m) i);
    if 0 <? fd then
      need (aset (replicate max_clients tt) count tt);;
      do_ (PthreadCreate "func" (arg i));;
      mret (count + 1)
    else mret count) 0.

Definition collect (nfd : Z) (s : Z * memory) : prog (Z * memory + memory) :=
  let '(i, m) := s in
  if i <? Z.of_nat max_clients then
    fd ← recv_file_descriptor nfd;
    puts ("fd got is" +:+ dec fd +:+ nl);;
    if fd =? -1 then mret (inr m)
    else
      csfd' ← need (aset (csfd m) (clients_no m) fd);
      mret (inl (i + 1, Memory csfd' (clients_no m + 1)))
  else mret (inr m).

Definition handler_func (nfd : Z) (m : memory) : prog memory :=
  puts ("The backup server is about to begin" +:+ nl);;
  x ← loop (S max_clients) (collect nfd) (0, m);
  let m := match x with inl (_, m) => m | inr m => m end in
  thread_caller m;;
  mret m.

(** Up to the endless loop without calls. *)
Definition start : prog Z :=
  do_ (Signal SIGUSR1 "handler_func");;
  pid ← sysv Getpid;
  shmid ← sysv (Shmget 5678 4 true);
  do_ (Shmat shmid);;
  do_ (ShmStore 0 pid);;
  sfd ← sysv (Socket AF_UNIX SOCK_STREAM 0);
  error_puts sfd "socket error";;
  do_ (Unlink "back_echo_socket");;
  b ← sysv (Bind sfd (SaUn "back_echo_socket"));
  error_puts b "bind error";;
  l ← sysv (Listen sfd 5);
  error_puts l "listen error";;
  nfd ← sysv (Accept sfd);
  error_puts nfd "accept error";;
  '(_, buffer) ← recv nfd (fresh 30) 30;
  s ← str buffer;
  puts (s +:+ nl);;
  mret nfd.

End Backup.

(** ** [client.c] *)
Module Client.

Definition main (n : nat) : prog (Z * buf) :=
  s ← Tss.client_start "echo_socket" None; forever n Tss.client_round s.

End Client.

(** ** The server's table *)

(** The clients [fds], from the front, and -1 behind them. *)
Definition well_formed (fds : list Z) (m : Server.memory) : Prop :=
  Server.clients_no m = Z.of_nat (length fds) ∧
  Server.cfd m = fds ++ replicate (max_clients - length fds) (-1) ∧ (length fds ≤ max_clients)%nat.

Lemma well_formed_snoc fds m fd :
  well_formed fds m → (length fds < max_clients)%nat →
  ∃ cfd', aset (Server.cfd m) (Server.clients_no m) fd = Some cfd' ∧
          well_formed (fds ++ [fd]) (Server.Memory cfd' (Server.clients_no m + 1)).
Proof.
  intros (En & Ec & _) Hl. rewrite En, Ec.
  assert (max_clients - length fds = S (max_clients - length (fds ++ [fd])))%nat as -> by (rewrite length_app; cbn [length]; lia).
  eexists. rewrite aset_Some by (rewrite length_app, length_replicate; lia). split; [done|]. split_and!; cbn [Server.cfd Server.clients_no].
  - rewrite length_app. cbn [length]. lia.
  - by rewrite Nat2Z.id, insert_app_r_alt, Nat.sub_diag, <- app_assoc by done.
  - rewrite length_app. cbn [length]. lia.
Qed.

Lemma well_formed_get fds m i : well_formed fds m → aget (Server.cfd m) (Z.of_nat i) = (fds ++ replicate (max_clients - length fds) (-1)) !! i.
Proof. intros (_ & -> & _). apply aget_nat. Qed.

Section server.
Variables (pid bsfd sfd : Z).
Hypothesis (Hbs : 0 ≤ bsfd) (Hs : 0 ≤ sfd).

Definition opening (shmid me : Z) : list label :=
  [Did (Shmget 5678 4 false) shmid; Did (Shmat shmid) 0; Did (ShmLoad 0) pid; Did (Signal SIGUSR1 "handler_func") 0; Did Getpid me;
   Did (Socket AF_UNIX SOCK_STREAM 0) bsfd; Did (Connect bsfd (SaUn "back_echo_socket")) 0; Sent bsfd 30 "From server to backupserver";
   Did (Socket AF_UNIX SOCK_STREAM 0) sfd; Did (Bind sfd (SaUn "echo_socket")) 0; Did (Listen sfd 5) 0].
Definition served (fd : Z) : list label := [Did (Accept sfd) fd; Did (PthreadCreate "func" "&nfd") 0].

Lemma old_start_plays shmid me :
  plays net (returns (λ x, x.1 = (pid, bsfd, sfd) ∧ well_formed [] x.2)) Server.start (opening shmid me).
Proof.
  unfold Server.start, opening. do 3 step. apply (plays_need _ _ (replicate max_clients (-1))); [reflexivity|].
  repeat step. split; [done|]. split; [done|]. split; [done|]. apply Nat.le_0_l.
Qed.

Lemma old_round_plays fds m fd :
  well_formed fds m → 0 ≤ fd → (length fds < 4)%nat →
  plays net (returns (well_formed (fds ++ [fd]))) (Server.round sfd m) (served fd).
Proof.
  intros Hm Hfd Hl. unfold Server.round, served. do 4 step.
  destruct (well_formed_snoc fds m fd Hm) as (cfd' & E & Hm'); [unfold max_clients; lia|]. eapply plays_need; [exact E|].
  destruct Hm as (En & _). rewrite En in Hm' |- *. step.
  eapply plays_need; [apply aset_Some; rewrite length_replicate; unfold max_clients; lia|]. by repeat step.
Qed.

(** The fifth client's thread would be stored in [threads[5]]. *)
Lemma round_overrun fds m fd :
  well_formed fds m → 0 ≤ fd → length fds = 4%nat → plays net (eq UB) (Server.round sfd m) [Did (Accept sfd) fd].
Proof.
  intros Hm Hfd Hl. unfold Server.round. do 4 step.
  destruct (well_formed_snoc fds m fd Hm) as (cfd' & E & Hm'); [unfold max_clients; lia|]. eapply plays_need; [exact E|].
  destruct Hm as (En & _). rewrite En in Hm' |- *. step. apply plays_undef, aset_None. rewrite length_replicate. unfold max_clients. lia.
Qed.
End server.

(** ** The two handlers *)

Section handlers.
Variables (pid bsfd nfd : Z).

Lemma pass_plays fds m n done_ rest :
  well_formed fds m → Forall (Z.le 0) fds → fds = done_ ++ rest → (length rest < n)%nat →
  plays net (returns (λ _, True)) (loop n (Server.pass bsfd m) (Z.of_nat (length done_))) (passes bsfd <$> rest).
Proof.
  intros Hm Hfds. pose proof Hm as (_ & _ & Hl). revert done_ rest. induction n as [|n IH]; intros done_ rest E Hn; [lia|].
  cbn [loop]. unfold Server.pass at 2.
  assert (length fds = length done_ + length rest)%nat as El by (rewrite E; apply length_app).
  destruct rest as [|fd rest]; cbn [fmap list_fmap].
  - rewrite app_nil_r in E. subst done_. destruct (Z.ltb_spec (Z.of_nat (length fds)) (Z.of_nat max_clients)) as [Hlt|_]; cbv beta iota; [|by repeat step].
    rewrite (well_formed_get _ _ _ Hm), (lookup_app_r fds) by done. rewrite Nat.sub_diag.
    destruct (max_clients - length fds)%nat eqn:E0; [lia|]. by cbn; step.
  - cbn [length] in El, Hn. rewrite (proj2 (Z.ltb_lt _ _)) by lia.
    assert (fds !! length done_ = Some fd) as Hi by (rewrite E; by apply list_lookup_middle).
    rewrite (well_formed_get _ _ _ Hm), (lookup_app_l_Some _ _ _ _ Hi). cbn [need mbind prog_mbind prog_bind].
    assert (0 ≤ fd) by (rewrite Forall_lookup in Hfds; by eapply Hfds). rewrite (proj2 (Z.eqb_neq _ _)) by lia.
    change (plays net (returns (λ _ : Z + (), True))
      ((puts ("fd " +:+ dec fd +:+ nl);; send_file_descriptor bsfd fd;; mret (inl (Z.of_nat (length done_) + 1)) : prog (Z + unit)) ≫=
       (λ x, match x with inl s' => loop n (Server.pass bsfd m) s' | inr a => mret (inr a) end)) (passes bsfd fd :: (passes bsfd <$> rest))).
    eapply (plays_bind net (eq (inl (Z.of_nat (length done_) + 1))) _ _ [passes bsfd fd]); [by repeat step|].
    intros ? <-. replace (Z.of_nat (length done_) + 1) with (Z.of_nat (length (done_ ++ [fd]))) by (rewrite length_app; cbn; lia).
    apply IH; [by rewrite <- app_assoc|lia].
Qed.

Lemma server_handler_plays fds m :
  well_formed fds m → Forall (Z.le 0) fds →
  plays net (eq (Exited 0)) (Server.handler_func pid bsfd m) (Did (Kill pid SIGUSR1) 0 :: (passes bsfd <$> fds)).
Proof.
  intros Hm Hfds. unfold Server.handler_func. do 3 step. pose proof Hm as (_ & _ & Hl). eapply plays_last.
  - apply (pass_plays fds m _ [] fds); [done..|lia].
  - intros ? _. by apply plays_Halt.
Qed.

(** The end of the stream: the server has exited. *)
Definition eof : label := Told (Recvmsg nfd 1) (Reply 0 "" [] []).
Definition arrives (x : Z) : label := if x =? 0 then eof else installs nfd x.

Lemma plays_arrives {B} x (f : Z → prog B) ls Q :
  plays net Q (f x) ls → plays net Q (recv_file_descriptor nfd ≫= f) (arrives x :: ls).
Proof.
  unfold arrives. destruct (Z.eqb_spec x 0) as [->|_]; intros H; [|by apply plays_recv_fd].
  unfold recv_file_descriptor. apply plays_watched; [done|done|]. intros r Hr. cbn in Hr. subst r. exact H.
Qed.

Lemma collect_plays n got rest z :
  Forall (Z.le 0) rest → length (got ++ rest) = max_clients → length z = length rest → (length rest < n)%nat →
  plays net (returns (eq (inr (Backup.Memory (got ++ rest) (Z.of_nat max_clients)))))
    (loop n (Backup.collect nfd) (Z.of_nat (length got), Backup.Memory (got ++ z) (Z.of_nat (length got)))) (arrives <$> rest).
Proof.
  revert got rest z. induction n as [|n IH]; intros got rest z Hr Hl Hz Hn; [lia|].
  cbn [loop]. unfold Backup.collect at 2. rewrite length_app in Hl.
  destruct rest as [|fd rest]; cbn [fmap list_fmap].
  - destruct z; [|done]. cbn in Hl. rewrite Z.ltb_irrefl || rewrite (proj2 (Z.ltb_ge _ _)) by lia. rewrite !app_nil_r.
    replace (length got) with max_clients by lia. by do 2 step.
  - destruct z as [|z0 z]; [done|]. cbn [length] in Hl, Hn, Hz. rewrite (proj2 (Z.ltb_lt _ _)) by lia.
    apply Forall_cons in Hr as [Hfd Hr].
    eapply (plays_bind net (eq (inl (Z.of_nat (length (got ++ [fd])), Backup.Memory ((got ++ [fd]) ++ z) (Z.of_nat (length (got ++ [fd])))))) _ _ [arrives fd]).
    + apply plays_arrives. step. rewrite (proj2 (Z.eqb_neq _ _)) by lia. cbn [Backup.csfd Backup.clients_no].
      eapply plays_need; [apply aset_Some; rewrite length_app; cbn [length]; lia|]. step.
      rewrite Nat2Z.id, insert_app_r_alt, Nat.sub_diag, length_app by done. cbn [insert list_insert length].
      rewrite <- app_assoc. do 2 f_equal; [lia|]. f_equal. lia.
    + intros ? <-. replace (got ++ fd :: rest) with ((got ++ [fd]) ++ rest) by (by rewrite <- app_assoc).
      apply IH; [done| |lia..]. rewrite !length_app. cbn [length]. lia.
Qed.

Definition starts (x : Z * Z) : list label :=
  if 0 <? x.2 then [Did (PthreadCreate "func" (Backup.arg x.1)) 0] else [].
Definition numbered (l : list Z) : list (Z * Z) := imap (λ i x, (Z.of_nat i, x)) l.

Lemma thread_caller_plays l :
  length l = max_clients →
  plays net (returns (λ _, True)) (Backup.thread_caller (Backup.Memory l (Z.of_nat max_clients))) (concat (starts <$> numbered l)).
Proof.
  intros Hl. unfold Backup.thread_caller. cbn [Backup.clients_no Backup.csfd].
  assert (length (numbered l) = max_clients) as En by (unfold numbered; by rewrite length_imap).
  rewrite <- En, <- (Z.add_0_l (Z.of_nat (length (numbered l)))).
  eapply plays_weaken; [|done]. apply (plays_for_list net (λ done_ count, 0 ≤ count ≤ Z.of_nat (length done_))); [|cbn; lia].
  intros done_ [i x] rest count E Hc. rewrite Z.add_0_l.
  assert (numbered l !! length done_ = Some (i, x)) as Hi by (rewrite E; by apply list_lookup_middle).
  assert (length done_ < max_clients)%nat as Hd by (rewrite <- En; by eapply lookup_lt_Some).
  unfold numbered in Hi. rewrite list_lookup_imap in Hi. apply fmap_Some in Hi as (x' & Hx & [= -> ->]).
  unfold starts. cbn [fst snd]. rewrite aget_nat, Hx. rewrite length_app. cbn [length need mbind prog_mbind prog_bind].
  destruct (0 <? x'); [|step; lia].
  eapply plays_need; [apply aset_Some; rewrite length_replicate; lia|]. step. step. lia.
Qed.

Lemma backup_handler_plays l :
  Forall (Z.le 0) l → length l = max_clients →
  plays net (returns (eq (Backup.Memory l (Z.of_nat max_clients)))) (Backup.handler_func nfd Backup.init)
    ((arrives <$> l) ++ concat (starts <$> numbered l)).
Proof.
  intros Hl Hlen. unfold Backup.handler_func. step. eapply plays_bind.
  - apply (collect_plays _ [] l (replicate max_clients 0)); [done|done|by rewrite length_replicate|lia].
  - intros ? <-. eapply plays_last; [by apply thread_caller_plays|]. intros ? _. by step.
Qed.

(** A second signal finds the array full. *)
Lemma backup_handler_again l x :
  0 ≤ x → length l = max_clients →
  plays net (eq UB) (Backup.handler_func nfd (Backup.Memory l (Z.of_nat max_clients))) [arrives x].
Proof.
  intros Hx Hl. unfold Backup.handler_func. step. apply plays_bind_UB. cbn [loop]. apply plays_bind_UB.
  unfold Backup.collect. change (0 <? Z.of_nat max_clients) with true. cbn [loop].
  apply plays_arrives. step. rewrite (proj2 (Z.eqb_neq _ _)) by lia. apply plays_undef, aset_None. cbn [Backup.csfd Backup.clients_no]. lia.
Qed.
End handlers.

(** ** The handover *)

(** The server's handler, the backup's (not yet called: [None]), the control
    messages on their way, and the threads the backup has started. *)
Record hand := Hand {
  srv : prog unit;
  bak : option (prog Backup.memory);
  wire : list (list cmsg);
  started : list string
}.

Section hand.
Variables (pid nfd : Z).
(** The number under which the kernel installs a descriptor in the backup. *)
Variable inst : Z → Z.

Definition installed (m : cmsg) : cmsg := Cmsg (cmsg_level m) (cmsg_type m) (inst (cmsg_fd m)).

(** The server runs its handler; the signal it sends starts that of the
    backup; what it passes on is queued.  The backup takes what is queued, and
    reads the end of the stream when nothing is and the server has exited. *)
Inductive hand_step : hand → hand → Prop :=
| hand_kill k w st :
    hand_step (Hand (Call (Kill pid SIGUSR1) k) None w st)
              (Hand (k (ret_ 0)) (Some (Backup.handler_func nfd Backup.init)) w st)
| hand_pass fd iov rights k b w st :
    hand_step (Hand (Call (Sendmsg fd iov rights) k) b w st) (Hand (k (ret_ 1)) b (w ++ [rights]) st)
| hand_server c k r b w st : net c = false → hand_step (Hand (Call c k) b w st) (Hand (k r) b w st)
| hand_take s n k rights w st :
    hand_step (Hand s (Some (Call (Recvmsg nfd n) k)) (rights :: w) st)
              (Hand s (Some (k (Reply 1 " " [] (installed <$> rights)))) w st)
| hand_eof z n k st :
    hand_step (Hand (Halt z) (Some (Call (Recvmsg nfd n) k)) [] st) (Hand (Halt z) (Some (k (Reply 0 "" [] []))) [] st)
| hand_thread s f a k w st :
    hand_step (Hand s (Some (Call (PthreadCreate f a) k)) w st) (Hand s (Some (k (ret_ 0))) w (st ++ [a]))
| hand_backup s c k r w st : net c = false → hand_step (Hand s (Some (Call c k)) w st) (Hand s (Some (k r)) w st).

(** Every step uses up a part of one of the handlers. *)
Lemma hand_acc_both (s : prog unit) : ∀ b w st, Acc (λ y x, hand_step x y) (Hand s (Some b) w st).
Proof.
  induction s as [a|z| |c k IHs]; intros b; induction b as [m|z'| |c' k' IHb]; intros w st; constructor; intros y Hy;
    inversion Hy; subst; auto.
Qed.

Lemma hand_acc (s : prog unit) : ∀ w st, Acc (λ y x, hand_step x y) (Hand s None w st).
Proof.
  induction s as [a|z| |c k IHs]; intros w st; constructor; intros y Hy; inversion Hy; subst; auto using hand_acc_both.
Qed.

Variables (bsfd : Z) (fds : list Z).
Hypothesis (Hfds : Forall (Z.le 0) fds) (Hlen : (length fds ≤ max_clients)%nat) (Hinst : ∀ fd, 0 ≤ fd → 0 < inst fd).

(** The array of the backup when it has collected everything. *)
Definition collected : list Z := (inst <$> fds) ++ replicate (max_clients - length fds) 0.
Definition args : list string := (λ i, Backup.arg (Z.of_nat i)) <$> seq 0 (length fds).
Definition taken_over : Backup.memory := Backup.Memory collected (Z.of_nat max_clients).

Definition right_of (fd : Z) : list cmsg := [Cmsg SOL_SOCKET SCM_RIGHTS fd].
Definition thread_label (a : string) : label := Did (PthreadCreate "func" a) 0.

Lemma collected_length : length collected = max_clients.
Proof. unfold collected. rewrite length_app, length_fmap, length_replicate. lia. Qed.

Lemma collected_positive : Forall (Z.le 0) collected.
Proof.
  apply Forall_app. split; [|by apply Forall_replicate]. apply Forall_fmap. eapply Forall_impl; [exact Hfds|].
  intros fd Hfd. specialize (Hinst fd Hfd). cbn. lia.
Qed.

Lemma starts_offset k l z :
  Forall (Z.lt 0) l →
  concat (starts <$> imap (λ i x, (Z.of_nat (k + i), x)) (l ++ replicate z 0)) =
  thread_label <$> ((λ i, Backup.arg (Z.of_nat i)) <$> seq k (length l)).
Proof.
  intros Hl. revert k. induction Hl as [|x l Hx _ IH]; intros k.
  - cbn. revert k. induction z as [|z IH]; intros k; [done|]. cbn [replicate]. rewrite imap_cons. cbn.
    rewrite <- (IH (S k)). do 2 f_equal. apply imap_ext. intros i y _. unfold compose. do 2 f_equal. lia.
  - cbn [app length seq fmap list_fmap]. rewrite imap_cons. cbn [fmap list_fmap concat]. unfold starts at 1. cbn [fst snd].
    rewrite (proj2 (Z.ltb_lt _ _)) by done. rewrite Nat.add_0_r. cbn [app]. f_equal. rewrite <- (IH (S k)).
    do 2 f_equal. apply imap_ext. intros i y _. unfold compose. do 2 f_equal. lia.
Qed.

Lemma handler_labels :
  (arrives nfd <$> collected) ++ concat (starts <$> numbered collected) =
  ((λ fd, installs nfd (inst fd)) <$> ([] ++ fds)) ++ replicate (max_clients - length fds) (eof nfd) ++ (thread_label <$> args).
Proof.
  unfold collected at 1. rewrite fmap_app, fmap_replicate, <- !app_assoc, <- list_fmap_compose. f_equal; [|f_equal].
  - apply list_fmap_ext. intros i fd Hi. unfold compose, arrives. rewrite (proj2 (Z.eqb_neq _ _)); [done|].
    rewrite Forall_lookup in Hfds. specialize (Hinst fd (Hfds _ _ Hi)). lia.
  - unfold args. rewrite <- (length_fmap inst fds). apply (starts_offset 0).
    apply Forall_fmap. eapply Forall_impl; [exact Hfds|]. intros fd Hfd. by apply Hinst.
Qed.

(** Where the two handlers can be: the server has passed on what is on the
    wire and still passes [todo]; the backup still takes all that, and the
    ends of the stream, and starts the threads. *)
Inductive stage : hand → Prop :=
| stage_kill s :
    plays net (eq (Exited 0)) s (Did (Kill pid SIGUSR1) 0 :: (passes bsfd <$> fds)) → stage (Hand s None [] [])
| stage_pass s b queued todo :
    Forall (Z.le 0) (queued ++ todo) →
    plays net (eq (Exited 0)) s (passes bsfd <$> todo) →
    plays net (returns (eq taken_over)) b
      (((λ fd, installs nfd (inst fd)) <$> (queued ++ todo)) ++ replicate (max_clients - length fds) (eof nfd) ++ (thread_label <$> args)) →
    stage (Hand s (Some b) (right_of <$> queued) [])
| stage_end s b j st todo :
    args = st ++ todo → plays net (eq (Exited 0)) s [] →
    plays net (returns (eq taken_over)) b (replicate j (eof nfd) ++ (thread_label <$> todo)) →
    stage (Hand s (Some b) [] st).

Definition handed_over (h : hand) : Prop := h = Hand (Halt 0) (Some (Ret taken_over)) [] args.


Lemma end_step s b j st todo h :
  args = st ++ todo → plays net (eq (Exited 0)) s [] →
  plays net (returns (eq taken_over)) b (replicate j (eof nfd) ++ (thread_label <$> todo)) →
  hand_step (Hand s (Some b) [] st) h → stage h.
Proof.
  intros Ea Hp Hb Hs.
  inversion Hs as [|fd iov rights k b' w st' E1 E2|c k r b' w st' Hc E1 E2|s' n k rights w st' E1 E2|z n k st' E1 E2|s' f a k w st' E1 E2|
    s' c k r w st' Hc E1 E2]; subst.
  - by apply plays_Call_inv in Hp as [(l & ls & _ & [=] & _)|[Hc _]].
  - apply plays_Call_inv in Hp as [(l & ls & Hc' & _)|[_ Hk]]; [congruence|]. by eapply stage_end.
  - apply plays_Call_inv in Hb as [(l & ls & _ & E & Hc & Hk)|[Hc _]]; [|done]. destruct j as [|j].
    + destruct todo as [|a todo]; [done|]. injection E as <- <-. discriminate Hc.
    + injection E as <- <-. eapply (stage_end _ _ j); [done..|]. by apply Hk.
  - apply plays_Call_inv in Hb as [(l & ls & _ & E & Hc & Hk)|[Hc _]]; [|done]. destruct j as [|j].
    + destruct todo as [|x todo]; [done|]. injection E as <- <-. injection Hc as -> ->.
      apply (stage_end _ _ 0 _ todo); [by rewrite <- app_assoc|done|]. by apply Hk.
    + injection E as <- <-. discriminate Hc.
  - apply plays_Call_inv in Hb as [(l & ls & Hc' & _)|[_ Hk]]; [congruence|]. by eapply stage_end.
Qed.

Lemma stage_step h h' : stage h → hand_step h h' → stage h'.
Proof.
  intros Hst Hs. destruct Hst as [s Hp|s b queued todo Hq Hp Hb|s b j st todo Ea Hp Hb]; [| |by eapply end_step].
  { inversion Hs as [k w st E1 E2|fd iov rights k b w st E1 E2|c k r b w st Hc E1 E2| | | |]; subst.
    - apply plays_Call_inv in Hp as [(l & ls & _ & [= <- <-] & _ & Hk)|[Hc _]]; [|done].
      apply (stage_pass _ _ [] fds); [done|by apply Hk|].
      rewrite <- handler_labels. apply backup_handler_plays; [apply collected_positive|apply collected_length].
    - apply plays_Call_inv in Hp as [(l & ls & _ & [= <- <-] & Hc & _)|[Hc _]]; [|done]. discriminate Hc.
    - apply plays_Call_inv in Hp as [(l & ls & Hc' & _)|[_ Hk]]; [congruence|]. by apply stage_kill. }
  destruct (decide (queued ++ todo = [])) as [[-> ->]%app_eq_nil|Hne]; [exact (end_step s b _ [] args _ eq_refl Hp Hb Hs)|].
  inversion Hs as [|fd iov rights k b' w st E1 E2|c k r b' w st Hc E1 E2|s' n k rights w st E1 E2|z n k st E1 E2|s' f a k w st E1 E2|
    s' c k r w st Hc E1 E2]; subst.
  - apply plays_Call_inv in Hp as [(l & ls & _ & E & Hc & Hk)|[Hc _]]; [|done].
    destruct todo as [|x todo]; [done|]. injection E as <- <-. cbn in Hc. injection Hc as -> -> ->.
    replace ((right_of <$> queued) ++ [[Cmsg SOL_SOCKET SCM_RIGHTS x]]) with (right_of <$> (queued ++ [x])) by (by rewrite fmap_app).
    apply (stage_pass _ _ (queued ++ [x]) todo); [by rewrite <- app_assoc|by apply Hk|by rewrite <- app_assoc].
  - apply plays_Call_inv in Hp as [(l & ls & Hc' & _)|[_ Hk]]; [congruence|]. by apply (stage_pass _ _ queued todo).
  - destruct queued as [|x queued]; [by cbn in *|].
    match goal with H : _ :: _ = right_of <$> _ |- _ => injection H as -> -> end.
    apply plays_Call_inv in Hb as [(l & ls & _ & E & Hc & Hk)|[Hc _]]; [|done]. injection E as <- <-.
    apply Forall_cons in Hq as [_ Hq]. apply (stage_pass _ _ queued todo); [done|done|]. by apply Hk.
  - destruct queued; [|by cbn in *]. destruct todo as [|x todo]; [done|]. cbn in Hp. inversion Hp.
  - apply plays_Call_inv in Hb as [(l & ls & _ & E & Hc & Hk)|[Hc _]]; [|done].
    destruct (queued ++ todo) as [|x l']; [done|]. injection E as <- <-. discriminate Hc.
  - apply plays_Call_inv in Hb as [(l & ls & Hc' & _)|[_ Hk]]; [congruence|]. by apply (stage_pass _ _ queued todo).
Qed.

(** The server can go on until it has exited. *)
Lemma server_goes_on s b w st ls :
  plays net (eq (Exited 0)) s (passes bsfd <$> ls) →
  (∃ h, hand_step (Hand s b w st) h) ∨ s = Halt 0 ∧ ls = [].
Proof.
  intros Hp. destruct s as [a|z| |c k].
  - inversion Hp as [? H| | | |]; subst. discriminate H.
  - right. inversion Hp as [|? H| | |]; subst. injection H as <-. by destruct ls.
  - inversion Hp as [| |H| |]; subst. discriminate H.
  - left. apply plays_Call_inv in Hp as [(l & ls' & _ & E & Hc & Hk)|[Hc _]]; [|eexists; by apply (hand_server _ _ (ret_ 0))].
    destruct ls as [|x ls]; [done|]. injection E as <- <-. cbn in Hc. subst c. eexists. apply hand_pass.
Qed.

(** The backup, once the server has exited. *)
Lemma backup_goes_on b j queued st todo :
  args = st ++ todo → (queued ≠ [] → st = []) →
  plays net (returns (eq taken_over)) b (((λ fd, installs nfd (inst fd)) <$> queued) ++ replicate j (eof nfd) ++ (thread_label <$> todo)) →
  (∃ h, hand_step (Hand (Halt 0) (Some b) (right_of <$> queued) st) h) ∨ handed_over (Hand (Halt 0) (Some b) (right_of <$> queued) st).
Proof.
  intros Ea Hq Hb. destruct b as [m|z| |c k].
  - right. inversion Hb as [? H El| | | |]; subst. destruct H as (m' & [= ->] & <-). destruct queued; [|done].
    destruct j; [|done]. destruct todo; [|done]. unfold handed_over. by rewrite Ea, app_nil_r.
  - inversion Hb as [|? H| | |]; subst. by destruct H as (? & ? & _).
  - inversion Hb as [| |H| |]; subst. by destruct H as (? & ? & _).
  - left. apply plays_Call_inv in Hb as [(l & ls & _ & E & Hc & _)|[Hc _]]; [|eexists; by apply (hand_backup _ _ _ (ret_ 0))].
    destruct queued as [|x queued]; [destruct j as [|j]; [destruct todo as [|a todo]; [done|]|]|]; injection E as <- <-; cbn in Hc; subst c.
    + eexists. apply hand_thread.
    + eexists. apply hand_eof.
    + eexists. apply hand_take.
Qed.

Lemma stage_progress h : stage h → (∃ h', hand_step h h') ∨ handed_over h.
Proof.
  intros [s Hp|s b queued todo Hq Hp Hb|s b j st todo Ea Hp Hb].
  - left. destruct s as [a|z| |c k]; [by inversion Hp..|].
    apply plays_Call_inv in Hp as [(l & ls & _ & [= <- <-] & Hc & Hk)|[Hc _]]; [|eexists; by apply (hand_server _ _ (ret_ 0))].
    cbn in Hc. subst c. eexists. apply hand_kill.
  - destruct (server_goes_on s (Some b) (right_of <$> queued) [] todo Hp) as [?|[-> ->]]; [by left|].
    rewrite app_nil_r in Hb. by eapply (backup_goes_on b _ queued [] args).
  - destruct (server_goes_on s (Some b) [] st [] Hp) as [?|[-> _]]; [by left|]. by eapply (backup_goes_on b j [] st todo).
Qed.
End hand.

(** ** The theorems on the handover *)

(** The table of the server is well formed: after any number of clients, up
    to four, [cfd] holds their descriptors in order and -1 behind them, and
    [clients_no] is their number.  The fifth client's thread is stored behind
    the array [threads], since [clients_no] is incremented before. *)
Theorem server_table pid bsfd sfd shmid me fds fd :
  0 ≤ bsfd → 0 ≤ sfd → Forall (Z.le 0) fds → 0 ≤ fd →
  ((length fds ≤ 4)%nat →
   plays net (returns (well_formed fds)) (Server.main (length fds)) (opening pid bsfd sfd shmid me ++ concat (served sfd <$> fds))) ∧
  (length fds = 4%nat → ∀ n,
   plays net (eq UB) (Server.main (length fds + S n))
     (opening pid bsfd sfd shmid me ++ concat (served sfd <$> fds) ++ [Did (Accept sfd) fd])).
Proof.
  intros Hb Hs Hfds Hfd. rewrite Forall_lookup in Hfds.
  assert (∀ m, well_formed [] m → (length fds ≤ 4)%nat → ∀ done_ x rest m, fds = done_ ++ x :: rest → well_formed done_ m →
    plays net (returns (well_formed (done_ ++ [x]))) (Server.round sfd m) (served sfd x)) as Hr.
  { intros _ _ Hl done_ x rest m E Hm. apply old_round_plays; [done| |].
    - apply (Hfds (length done_)). rewrite E. by apply list_lookup_middle.
    - rewrite E, length_app in Hl. cbn in Hl. lia. }
  split; [intros Hl|intros Hl n]; eapply plays_bind; try (by apply (old_start_plays pid bsfd sfd)); intros [[[? ?] ?] m] [E Hm];
    cbn in E, Hm; injection E as -> -> ->.
  - apply (plays_forever_list net well_formed (served sfd) fds); [|done]. intros. by eapply Hr.
  - replace (served sfd <$> fds) with (imap (λ _, served sfd) fds)
      by (clear; induction fds as [|x l IH]; [done|]; rewrite imap_cons; cbn; by f_equal).
    apply (plays_forever_then net well_formed); [intros; eapply Hr; eauto; lia|done|].
    intros m' Hm'. cbn [forever]. apply plays_bind_UB. by eapply round_overrun.
Qed.

Lemma server_table_witness :
  plays net (returns (well_formed [6; 7])) (Server.main 2) (opening 4242 3 4 0 4243 ++ concat (served 4 <$> [6; 7])).
Proof.
  refine (proj1 (server_table 4242 3 4 0 4243 [6; 7] 8 _ _ _ _) _); [lia|lia|by repeat constructor|lia|cbn; lia].
Defined.

(** C7: When the server is told to shut down, the handlers of the two processes
    hand all its clients over: no interleaving of their steps gets stuck or
    runs forever, and in the end the server has exited, nothing is left on the
    wire, and the backup holds the descriptors of exactly the server's clients,
    in order, under the numbers the kernel gave them, with one thread started
    for each of them and none for the zeros that the end of the stream left
    behind.  A second signal makes the backup write behind its array. *)
Theorem handover pid bsfd nfd inst fds m :
  well_formed fds m → Forall (Z.le 0) fds → (∀ fd, 0 ≤ fd → 0 < inst fd) →
  let h0 := Hand (Server.handler_func pid bsfd m) None [] [] in
  (∀ h, rtc (hand_step pid nfd inst) h0 h → (∃ h', hand_step pid nfd inst h h') ∨ handed_over inst fds h) ∧
  (∀ f, f O = h0 → ¬ ∀ t, hand_step pid nfd inst (f t) (f (S t))) ∧
  (∀ x, 0 ≤ x → plays net (eq UB) (Backup.handler_func nfd (taken_over inst fds)) [arrives nfd x]).
Proof.
  intros Hm Hfds Hinst h0. pose proof Hm as (_ & _ & Hlen). split_and!.
  - intros h Hh. apply (stage_progress pid nfd inst bsfd fds).
    assert (stage pid nfd inst bsfd fds h0) as H0 by (apply stage_kill, server_handler_plays; done).
    induction Hh as [h|h h1 h2 Hs _ IH]; [done|]. apply IH. by eapply stage_step.
  - intros f E Hf. pose proof (hand_acc pid nfd inst (Server.handler_func pid bsfd m) [] []) as Ha. fold h0 in Ha.
    revert E. generalize O. revert Ha. generalize h0. induction 1 as [h _ IH]. intros t E.
    eapply (IH (f (S t))); [|done]. subst h. apply Hf.
  - intros x Hx. apply backup_handler_again; [done|]. by apply collected_length.
Qed.

Lemma handover_witness :
  (∃ h', hand_step 4242 5 (λ fd, fd + 10) (Hand (Server.handler_func 4242 3 (Server.Memory [6; 7; -1; -1; -1] 2)) None [] []) h') ∨
  handed_over (λ fd, fd + 10) [6; 7] (Hand (Server.handler_func 4242 3 (Server.Memory [6; 7; -1; -1; -1] 2)) None [] []).
Proof.
  refine (proj1 (handover 4242 3 5 (λ fd, fd + 10) [6; 7] (Server.Memory [6; 7; -1; -1; -1] 2) _ _ _) _ (rtc_refl _ _)).
  - split_and!; [done|done|cbn; unfold max_clients; lia].
  - by repeat constructor.
  - intros. lia.
Defined.

(** ** A conversation that changes hands *)

Section takeover.
Variables (fd nfd nfd' : Z).
Hypothesis Hfd : 0 ≤ fd.

(** What the client says; what the server's thread and the backup's say. *)
Definition said_by_client : string := "from client to server".
Definition text (b : bool) : string := if b then "sending from backserver" else "sending from server1".

Definition client : party (Z * buf) := caller fd (Some Tss.client_round).
Definition thread (b : bool) : party buf :=
  let d := if b then nfd' else nfd in worker d (Tss.func_round (text b) d).

Definition system : Type := side (Z * buf) * side buf * bool.

(** The client and the thread that serves it move; [true]: the thread is the
    backup's. *)
Inductive talk : system → system → Prop :=
| talk_client x x' y b out : move client x x' out → talk (x, y, b) (x', push out y, b)
| talk_thread x y y' b out : move (thread b) y y' out → talk (x, y, b) (push out x, y', b).

(** At any time the server exits, and the backup starts its thread with the
    same connection and what has arrived on it. *)
Inductive switch : system → system → Prop :=
| switch_now x y : switch (x, y, false) (x, Side Tss.func_start (inbox y) [], true).

Definition at_start : system := (Side (Tss.client_start "echo_socket" None) [] [], Side Tss.func_start [] [], false).

(** Messages on their way. *)
Definition carries (texts : list string) (bytes : list ascii) : Prop :=
  ∃ ds, bytes = concat (list_ascii_of_string <$> ds) ∧ Forall2 (λ t d, reads 30 d t) texts ds.

Lemma carries_nil : carries [] [].
Proof. by exists []. Qed.

Lemma carries_snoc texts bytes t d : carries texts bytes → reads 30 d t → carries (texts ++ [t]) (bytes ++ list_ascii_of_string d).
Proof.
  intros (ds & -> & H) Hd. exists (ds ++ [d]). split; [by rewrite fmap_app, concat_app; cbn; rewrite app_nil_r|].
  apply Forall2_app; [done|]. constructor; [done|constructor].
Qed.

Lemma carries_cons texts bytes :
  carries texts bytes → bytes ≠ [] →
  ∃ t texts' d bytes', texts = t :: texts' ∧ bytes = list_ascii_of_string d ++ bytes' ∧ reads 30 d t ∧ carries texts' bytes'.
Proof.
  intros (ds & -> & H) Hne. destruct H as [|t d texts ds Hd H]; [done|]. exists t, texts, d, (concat (list_ascii_of_string <$> ds)).
  split_and!; [done..|]. by exists ds.
Qed.

Lemma carries_empty texts : carries texts [] → texts = [].
Proof.
  intros (ds & E & H). destruct H as [|t d texts ds Hd H]; [done|]. apply reads_nonempty in Hd. cbn in E.
  symmetry in E. apply app_eq_nil in E as [E _]. apply (f_equal length) in E. rewrite length_chars in E. cbn in E. lia.
Qed.

Lemma carries_length texts bytes : carries texts bytes → length bytes = (30 * length texts)%nat.
Proof.
  intros (ds & -> & H). induction H as [|t d texts ds [Hd _] _ IH]; [done|]. cbn [fmap list_fmap concat length].
  rewrite length_app, length_chars, IH. lia.
Qed.

(** The client is about to speak ([true]) or to listen, whatever it will hear. *)
Definition client_mode (m : bool) (c : prog (Z * buf)) : Prop :=
  if m then playing client (with_buffer fd) c [Out 30 said_by_client]
  else (∀ t, playing client (with_buffer fd) c [In 30 t; Out 30 said_by_client]) ∨ playing client (with_buffer fd) c [].
Definition thread_mode (b m : bool) (c : prog buf) : Prop :=
  if m then playing (thread b) (at_buffer 30) c [Out 30 (text b); In 30 said_by_client] ∨ playing (thread b) (at_buffer 30) c []
  else playing (thread b) (at_buffer 30) c [In 30 said_by_client].

Lemma client_head s t : with_buffer fd s → playing client (with_buffer fd) (Tss.client_round s) [In 30 t; Out 30 said_by_client].
Proof.
  intros Hs. destruct (part_rounds _ _ _ _ _ (tss_client fd Hfd "echo_socket" None t I)) as [_ H].
  destruct (H s Hs) as (ls & Ht & Hp & Ei). by exists ls.
Qed.

Lemma thread_head b s : at_buffer 30 s → playing (thread b) (at_buffer 30) (Tss.func_round (text b) (if b then nfd' else nfd) s)
  [Out 30 (text b); In 30 said_by_client].
Proof.
  intros Hs. assert (nonul (text b) = true) as Hb by by destruct b.
  destruct (part_rounds _ _ _ _ _ (func_part (if b then nfd' else nfd) (text b) Hb)) as [_ H].
  destruct (H s Hs) as (ls & Ht & Hp & Ei). by exists ls.
Qed.

Lemma client_starts : client_mode false (Tss.client_start "echo_socket" None).
Proof.
  right. destruct (part_starts _ _ _ _ _ (tss_client fd Hfd "echo_socket" None "" I)) as (ls & Ht & Hp & Ei). by exists ls.
Qed.

Lemma thread_starts b : thread_mode b true Tss.func_start.
Proof.
  right. assert (nonul (text b) = true) as Hb by by destruct b.
  destruct (part_starts _ _ _ _ _ (func_part (if b then nfd' else nfd) (text b) Hb)) as (ls & Ht & Hp & Ei). by exists ls.
Qed.

(** A local move does not change the mode. *)
Lemma client_local m c c' : client_mode m c → local_move client c c' → client_mode m c'.
Proof.
  intros Hc Hm. destruct Hm as [c k r Ho Hi Hr|f s [= <-]].
  - destruct m; cbn in *; [by eapply playing_local|]. destruct Hc as [Hc|Hc]; [left; intros t|right]; eapply playing_local; eauto.
  - destruct m; cbn in *; [by apply playing_ret in Hc as [? _]|].
    destruct Hc as [Hc|Hc]; [by destruct (playing_ret _ _ _ _ (Hc ""))|]. apply playing_ret in Hc as [_ Hs].
    left. intros t. by apply client_head.
Qed.

Lemma thread_local b m c c' : thread_mode b m c → local_move (thread b) c c' → thread_mode b m c'.
Proof.
  intros Hc Hm. destruct Hm as [c k r Ho Hi Hr|f s [= <-]].
  - destruct m; cbn in *; [|by eapply playing_local]. destruct Hc as [Hc|Hc]; [left|right]; eapply playing_local; eauto.
  - destruct m; cbn in *; [|by apply playing_ret in Hc as [? _]].
    destruct Hc as [Hc|Hc]; [by apply playing_ret in Hc as [? _]|]. apply playing_ret in Hc as [_ Hs].
    left. by apply thread_head.
Qed.

Definition tok (m : bool) : nat := if m then 1 else 0.

(** What a party hears, it heard whole. *)
Definition hears {A} (p : party A) (texts : list string) (l l' : list event) : Prop :=
  l' = l ∨ ∃ e, l' = l ++ [e] ∧ ∀ n, incoming p e.1 = Some n → ∃ t, t ∈ texts ∧ reads 30 (rdata e.2) t.

(** A move turns what is said or heard into the other, one message at a time. *)
Definition passes_token {A} (p : party A) (mode : bool → prog A → Prop) (says : string) (m : bool) (q : list string) (x x' : side A) (out : list ascii) : Prop :=
  ∃ m' q' o, mode m' (code x') ∧ carries q' (inbox x') ∧ carries o out ∧ Forall (eq says) o ∧
    (length q + tok m = length q' + tok m' + length o)%nat ∧ (∀ t, t ∈ q' → t ∈ q) ∧ hears p q (log x) (log x').

Lemma client_moves m q x x' out :
  client_mode m (code x) → carries q (inbox x) → move client x x' out →
  passes_token client client_mode said_by_client m q x x' out.
Proof.
  intros Hm Hq Hx. destruct Hx as [c k i l b n data Ho Hd|c k i l n data rest Hi Eq Hlen Hpos|c k i l r Ho Hi Hr|f s i l Hf]; cbn in Hm, Hq.
  3, 4: exists m, q, []; split_and!; [|exact Hq|apply carries_nil|done|cbn; lia|done|by left].
  3, 4: eapply client_local; [exact Hm|]; cbn [code]; by constructor.
  - assert (m = true ∧ playing client (with_buffer fd) (Call c k) [Out 30 said_by_client]) as [-> Hp].
    { destruct m; [by split|]. destruct Hm as [Hm|Hm]; [specialize (Hm "")|]; by destruct (playing_send _ _ _ _ _ _ _ Hm Ho) as (s & its' & [=] & _). }
    destruct (playing_send _ _ _ _ _ _ _ Hp Ho) as (s & its' & [= <- <- <-] & Hb & Hk).
    exists false, q, [said_by_client]. cbn [code inbox log]. split_and!; [right; apply Hk|done| |by constructor|cbn; lia|done|].
    + apply (carries_snoc [] []); [apply carries_nil|]. eapply delivers_reads; [exact Hb|cbn; lia|done].
    + right. eexists. split; [done|]. intros n Hn. cbn in Hn. by destruct c.
  - assert (i ≠ []) as Hne by (intros ->; apply (f_equal length) in Eq; rewrite length_app, length_chars in Eq; cbn in Eq; lia).
    destruct (carries_cons _ _ Hq Hne) as (t & q' & d & i' & -> & -> & Hd & Hq').
    assert (m = false ∧ playing client (with_buffer fd) (Call c k) [In 30 t; Out 30 said_by_client]) as [-> Hp].
    { destruct m; [|split; [done|destruct Hm as [Hm|Hm]; [apply Hm|]]]; by destruct (playing_recv _ _ _ _ _ _ Hm Hi) as (s & its' & [=] & _). }
    destruct (playing_recv _ _ _ _ _ _ Hp Hi) as (s & its' & [= <- <- <-] & Hk).
    destruct (recv_whole _ _ _ _ _ _ Hd Eq Hlen) as [-> ->].
    exists true, q', []. cbn [code inbox log]. split_and!; [apply Hk; [done|apply Hd]|done|apply carries_nil|done|cbn; lia|by right|].
    right. eexists. split; [done|]. intros n' _. exists t. split; [by left|done].
Qed.

Lemma thread_moves b m q x x' out :
  thread_mode b m (code x) → carries q (inbox x) → Forall (eq said_by_client) q → move (thread b) x x' out →
  passes_token (thread b) (thread_mode b) (text b) m q x x' out.
Proof.
  intros Hm Hq Hs Hx. destruct Hx as [c k i l bf n data Ho Hd|c k i l n data rest Hi Eq Hlen Hpos|c k i l r Ho Hi Hr|f s i l Hf]; cbn in Hm, Hq.
  3, 4: exists m, q, []; split_and!; [|exact Hq|apply carries_nil|done|cbn; lia|done|by left].
  3, 4: eapply thread_local; [exact Hm|]; cbn [code]; by constructor.
  - assert (m = true ∧ playing (thread b) (at_buffer 30) (Call c k) [Out 30 (text b); In 30 said_by_client]) as [-> Hp].
    { destruct m; [split; [done|]; destruct Hm as [Hm|Hm]; [done|]|]; by destruct (playing_send _ _ _ _ _ _ _ Hm Ho) as (s & its' & [=] & _). }
    destruct (playing_send _ _ _ _ _ _ _ Hp Ho) as (s & its' & [= <- <- <-] & Hb & Hk).
    exists false, q, [text b]. cbn [code inbox log]. split_and!; [apply Hk|done| |by constructor|cbn; lia|done|].
    + apply (carries_snoc [] []); [apply carries_nil|]. eapply delivers_reads; [exact Hb|destruct b; cbn; lia|done].
    + right. eexists. split; [done|]. intros n Hn. cbn in Hn. by destruct c.
  - assert (i ≠ []) as Hne by (intros ->; apply (f_equal length) in Eq; rewrite length_app, length_chars in Eq; cbn in Eq; lia).
    destruct (carries_cons _ _ Hq Hne) as (t & q' & d & i' & -> & -> & Hd & Hq'). apply Forall_cons in Hs as [<- Hs].
    assert (m = false ∧ playing (thread b) (at_buffer 30) (Call c k) [In 30 said_by_client]) as [-> Hp].
    { destruct m; [destruct Hm as [Hm|Hm]|by split]; by destruct (playing_recv _ _ _ _ _ _ Hm Hi) as (s & its' & [=] & _). }
    destruct (playing_recv _ _ _ _ _ _ Hp Hi) as (s & its' & [= <- <- <-] & Hk).
    destruct (recv_whole _ _ _ _ _ _ Hd Eq Hlen) as [-> ->].
    exists true, q', []. cbn [code inbox log]. split_and!; [right; apply Hk; [done|apply Hd]|done|apply carries_nil|done|cbn; lia|by right|].
    right. eexists. split; [done|]. intros n' _. exists said_by_client. split; [by left|done].
Qed.

(** One message is in the hands of a party or on its way, after the switch
    perhaps two. *)
Definition tokens_ok (b : bool) (n : nat) : Prop := if b then (1 ≤ n ≤ 2)%nat else n = 1%nat.

Definition spoken (b : bool) (t : string) : Prop := t = text false ∨ b = true ∧ t = text true.

Definition heard (b : bool) (e : event) : Prop :=
  ∀ n, incoming client e.1 = Some n → ∃ t, spoken b t ∧ reads 30 (rdata e.2) t.

Definition going (s : system) : Prop :=
  let '(x, y, b) := s in
  ∃ mx my qx qy, client_mode mx (code x) ∧ thread_mode b my (code y) ∧ carries qx (inbox x) ∧ carries qy (inbox y) ∧
    Forall (spoken b) qx ∧ Forall (eq said_by_client) qy ∧
    tokens_ok b (length qx + length qy + tok mx + tok my) ∧ Forall (heard b) (log x).

Lemma carries_app t1 b1 t2 b2 : carries t1 b1 → carries t2 b2 → carries (t1 ++ t2) (b1 ++ b2).
Proof.
  intros (d1 & -> & H1) (d2 & -> & H2). exists (d1 ++ d2). split; [by rewrite fmap_app, concat_app|by apply Forall2_app].
Qed.

Lemma spoken_text b : spoken b (text b).
Proof. destruct b; [by right|by left]. Qed.

Lemma talk_going s s' : going s → talk s s' → going s'.
Proof.
  intros Hg Ht. destruct Ht as [x x' y b out Hm|x y y' b out Hm];
    destruct Hg as (mx & my & qx & qy & Hx & Hy & Hqx & Hqy & Sx & Sy & Htok & Hlog).
  - destruct (client_moves _ _ _ _ _ Hx Hqx Hm) as (m' & q' & o & Hx' & Hq' & Ho & So & En & Hin & Hh).
    exists m', my, q', (qy ++ o). cbn [code inbox push]. split_and!; try done.
    + by apply carries_app.
    + apply Forall_forall. intros t Ht. rewrite Forall_forall in Sx. by apply Sx, Hin.
    + by apply Forall_app.
    + rewrite length_app. replace (length q' + (length qy + length o) + tok m' + tok my)%nat with (length qx + length qy + tok mx + tok my)%nat by lia. done.
    + destruct Hh as [-> |(e & -> & He)]; [done|]. apply Forall_app. split; [done|]. apply Forall_singleton.
      intros n Hn. destruct (He n Hn) as (t & Ht & Hr). exists t. split; [|done]. rewrite Forall_forall in Sx. by apply Sx.
  - destruct (thread_moves _ _ _ _ _ _ Hy Hqy Sy Hm) as (m' & q' & o & Hy' & Hq' & Ho & So & En & Hin & _).
    exists mx, m', (qx ++ o), q'. cbn [code inbox push log]. split_and!; try done.
    + by apply carries_app.
    + apply Forall_app. split; [done|]. eapply Forall_impl; [exact So|]. intros t <-. apply spoken_text.
    + apply Forall_forall. intros t Ht. rewrite Forall_forall in Sy. by apply Sy, Hin.
    + rewrite length_app. replace (length qx + length o + length q' + tok mx + tok m')%nat with (length qx + length qy + tok mx + tok my)%nat by lia. done.
Qed.

Lemma switch_going s s' : going s → switch s s' → going s'.
Proof.
  intros Hg Hs. destruct Hs as [x y]. destruct Hg as (mx & my & qx & qy & Hx & _ & Hqx & Hqy & Sx & Sy & Htok & Hlog).
  exists mx, true, qx, qy. cbn [code inbox]. split_and!; try done.
  - apply thread_starts.
  - eapply Forall_impl; [exact Sx|]. intros t [-> |[? _]]; [by left|done].
  - cbn in Htok |- *. destruct my; cbn in *; lia.
  - eapply Forall_impl; [exact Hlog|]. intros e He n Hn. destruct (He n Hn) as (t & [-> |[? _]] & Hr); [|done].
    exists (text false). split; [by left|done].
Qed.

Lemma start_going : going at_start.
Proof.
  exists false, true, [], []. cbn. split_and!; [apply client_starts|apply (thread_starts false)|apply carries_nil|apply carries_nil|done..].
Qed.

Lemma going_progress s : going s → ∃ s', talk s s'.
Proof.
  destruct s as [[x y] b]. intros (mx & my & qx & qy & Hx & Hy & Hqx & Hqy & Sx & Sy & Htok & _).
  assert ((∃ x' out, move client x x' out) ∨ mx = false ∧ inbox x = []) as [(x' & out & Hm)|[-> Ex]].
  { destruct mx; [|destruct Hx as [Hx|Hx]; [specialize (Hx "")|]];
      (destruct (playing_moves _ _ _ _ _ Hx eq_refl (fixed_total _)) as [?|(n & t & its & E & Ei)];
       [repeat (apply List.Forall_cons; [cbn; lia|]); apply List.Forall_nil|by left|by first [discriminate E|right]]). }
  { eexists. by apply talk_client. }
  assert ((∃ y' out, move (thread b) y y' out) ∨ my = false ∧ inbox y = []) as [(y' & out & Hm)|[-> Ey]].
  { destruct my; [destruct Hy as [Hy|Hy]|];
      (destruct (playing_moves _ _ _ _ _ Hy eq_refl (fixed_total _)) as [?|(n & t & its & E & Ei)];
       [repeat (apply List.Forall_cons; [destruct b; cbn; lia|]); apply List.Forall_nil|by left|by first [discriminate E|right]]). }
  { eexists. by apply talk_thread. }
  rewrite Ex in Hqx. rewrite Ey in Hqy. apply carries_empty in Hqx as ->. apply carries_empty in Hqy as ->.
  destruct b; cbn in Htok; lia.
Qed.

Lemma mode_alive (s : system) : going s → in_order s.1.1 ∧ in_order s.1.2.
Proof.
  destruct s as [[x y] b]. intros (mx & my & qx & qy & Hx & Hy & _). split; cbn.
  - destruct mx; [|destruct Hx as [Hx|Hx]; [specialize (Hx "")|]]; by eapply playing_alive.
  - destruct my; [destruct Hy as [Hy|Hy]|]; by eapply playing_alive.
Qed.
End takeover.

(** C8: While the connection delivers whole messages, a conversation survives
    the shutdown of the server at any moment: a
    client that converses with a thread of [server.c], which may be replaced at
    any time by one of [backserver.c] on the same connection.  In every
    reachable state client and thread are in order and one of them can move, at
    most two messages are on their way (one before the switch), and all the
    client has heard are whole messages of the server, or, after the switch, of
    the backup. *)
Theorem conversation_survives fd nfd nfd' s :
  0 ≤ fd → rtc (λ s s', talk fd nfd nfd' s s' ∨ switch s s') at_start s →
  let '(x, y, b) := s in
  (in_order x ∧ in_order y) ∧ (∃ s', talk fd nfd nfd' s s') ∧
  (length (inbox x) + length (inbox y) ≤ if b then 60 else 30)%nat ∧
  (∀ e n, e ∈ log x → incoming (client fd) e.1 = Some n →
     reads 30 (rdata e.2) "sending from server1" ∨ b = true ∧ reads 30 (rdata e.2) "sending from backserver").
Proof.
  intros Hfd Hs. assert (going fd nfd nfd' s) as Hg.
  { pose proof (start_going fd nfd nfd' Hfd) as H0. induction Hs as [s|s s1 s2 [H|H] _ IH]; [done| |]; apply IH.
    - by eapply talk_going.
    - by eapply switch_going. }
  pose proof (mode_alive fd nfd nfd' s Hg) as Ha. pose proof (going_progress fd nfd nfd' s Hg) as Hp.
  destruct s as [[x y] b]. destruct Hg as (mx & my & qx & qy & Hx & Hy & Hqx & Hqy & Sx & Sy & Htok & Hlog).
  split; [exact Ha|]. split; [exact Hp|]. split.
  - rewrite (carries_length _ _ Hqx), (carries_length _ _ Hqy). destruct b; cbn in Htok; lia.
  - intros e n He Hn. rewrite Forall_forall in Hlog. destruct (Hlog e He n Hn) as (t & [-> |[-> ->]] & Hr); auto.
Qed.

Lemma conversation_survives_witness :
  0 ≤ 3 ∧ ∃ s', talk 3 4 5 at_start s'.
Proof. split; [lia|]. exact (proj1 (proj2 (conversation_survives 3 4 5 at_start ltac:(lia) (rtc_refl _ _)))). Defined.
