(* ===== verification/Rpc.v ===== *)
(** * The small RPC services

    [end/rpc/add_*.c], [rpc/arraysum/*.c], [rpc/square/*.c] and the linked-list
    service [list_client.c]/[list_server.c]: the client stubs' callers and the
    service procedures, with the [static] result of a procedure as its state.
    The RPC runtime ([clnt_create], the generated stubs) is the environment:
    a stub call is an [Rpc] event whose reply is the returned pointer ([rv],
    0 for NULL) and the result it points to. *)

From S2P Require Import Prelude CString Posix.
From stdpp Require Import gmap.

#[local] Open Scope Z_scope.

(** ** What a summing service promises

    [svc arg st] is one call of the procedure with its static state [st]; the
    promise is that the value does not depend on earlier calls. *)
Record numbers := Numbers { num_size : Z; nums : list Z }.

Definition sum_ints : list Z → Z := foldr Z.add 0.

(** Every partial sum of the array is an [int]. *)
Fixpoint sums_fit (acc : Z) (l : list Z) : bool :=
  match l with
  | [] => true
  | x :: l' => fits_int (acc + x) && sums_fit (acc + x) l'
  end.

Definition valid_numbers (n : numbers) : Prop :=
  0 ≤ num_size n ≤ Z.of_nat (length (nums n)) ∧ sums_fit 0 (take (Z.to_nat (num_size n)) (nums n)) = true.

Class SumService (svc : numbers → Z → prog Z) : Prop := {
  sum_service : ∀ arg st r rs, valid_numbers arg →
    outcome_of (svc arg st) (r :: rs) = Done (sum_ints (take (Z.to_nat (num_size arg)) (nums arg)))
}.

(** A sequence of requests served by one server process. *)
Fixpoint serve (svc : numbers → Z → prog Z) (args : list numbers) (st : Z) : option (list Z) :=
  match args with
  | [] => Some []
  | arg :: args' =>
      match outcome_of (svc arg st) [ret_ 0] with
      | Done v => cons v <$> serve svc args' v
      | _ => None
      end
  end.

Definition request_sum (arg : numbers) : Z := sum_ints (take (Z.to_nat (num_size arg)) (nums arg)).

Lemma serve_sums svc `{!SumService svc} args st :
  Forall valid_numbers args → serve svc args st = Some (request_sum <$> args).
Proof.
  intros Hv. revert st. induction Hv as [|arg args Ha _ IH]; intros st; simpl; [done|].
  rewrite sum_service by done. by rewrite IH.
Qed.

(** The accumulation loop the procedures share:
    [for(i=0;i<argp->size;i++) result+=argp->nums[i];] *)
Definition accumulate (argp : numbers) (result : Z) : prog Z :=
  for_up 0 (num_size argp) (λ i res, v ← need (aget (nums argp) i); need (int_add res v)) result.

Lemma sum_ints_snoc l x : sum_ints (l ++ [x]) = sum_ints l + x.
Proof. unfold sum_ints. rewrite foldr_app. simpl. induction l as [|y l IH]; simpl; lia. Qed.

Lemma for_n_accumulate l i acc rs (get : Z → option Z) :
  (∀ k x, l !! k = Some x → get (i + Z.of_nat k) = Some x) →
  sums_fit acc l = true →
  run (for_n (length l) i (λ i res, v ← need (get i); need (int_add res v)) acc) rs
  = ([], Done (acc + sum_ints l)).
Proof.
  revert i acc. induction l as [|x l IH]; intros i acc Hget Hfit.
  - simpl. by rewrite Z.add_0_r.
  - simpl in Hfit. apply andb_true_iff in Hfit as [Hx Hl].
    assert (get i = Some x) as Hi by (rewrite <- (Hget 0%nat x) by done; f_equal; lia).
    cbn [length for_n]. rewrite Hi. unfold mbind, prog_mbind. cbn [need prog_bind].
    unfold int_add. rewrite int_of_Some by done. cbn [need prog_bind].
    unfold mbind, prog_mbind in IH. rewrite IH.
    + unfold sum_ints. simpl. by rewrite Z.add_assoc.
    + intros k y Hk. rewrite <- (Hget (S k) y) by done. f_equal. lia.
    + done.
Qed.

Lemma accumulate_run argp acc rs :
  0 ≤ num_size argp ≤ Z.of_nat (length (nums argp)) →
  sums_fit acc (take (Z.to_nat (num_size argp)) (nums argp)) = true →
  run (accumulate argp acc) rs = ([], Done (acc + sum_ints (take (Z.to_nat (num_size argp)) (nums argp)))).
Proof.
  intros Hs Hfit. unfold accumulate, for_up.
  pose proof (for_n_accumulate (take (Z.to_nat (num_size argp)) (nums argp)) 0 acc rs (aget (nums argp))) as H.
  rewrite length_take in H. rewrite Nat.min_l in H by lia. rewrite Z.sub_0_r. apply H; [|done].
  intros k x Hk. rewrite Z.add_0_l, aget_nat. by apply lookup_take_Some in Hk as [? _].
Qed.

(** ** [end/rpc]: the addition service *)
Module Addition.
Definition add_1_svc (argp : numbers) (result : Z) : prog Z :=
  let result := 0 in
  puts (dec (num_size argp) +:+ nl);;
  accumulate argp result.

(** The client: read the array, call the service, print the answer. *)
Definition addition_1 (host : string) : prog unit :=
  clnt ← sysv (LibCall "clnt_create" [536870911; 1] [host; "udp"]);
  if clnt =? 0 then do_ (LibCall "clnt_pcreateerror" [] [host]);; Halt 1 else
  sz ← scan_int;
  n ← need sz;
  ns ← for_up 0 n (λ i ns, v ← scan_int;
         match v with Some x => need (aset ns i (Some x)) | None => mret ns end)
       (replicate 128 None);
  r ← sys (Rpc "add_1" (sz :: ns) []);
  (if rv r =? 0 then do_ (LibCall "clnt_perror" [] ["call failed"]) else mret tt);;
  v ← need (if rv r =? 0 then None else head (rints r));
  puts (dec v +:+ nl);;
  do_ (LibCall "clnt_destroy" [] []).

Definition main (argv : list string) : prog unit :=
  match argv with
  | [a0] => puts ("usage: " +:+ a0 +:+ " server_host" +:+ nl);; Halt 1
  | _ :: host :: _ => addition_1 host;; Halt 0
  | [] => Undef
  end.

#[export] Instance add_sums : SumService add_1_svc.
Proof.
  split. intros arg st r rs [Hs Hfit].
  unfold outcome_of, add_1_svc, puts, do_, mbind, prog_mbind. cbn [prog_bind run].
  by rewrite (accumulate_run arg 0 rs Hs Hfit).
Qed.

(** A server process of the addition service answers every request with
    the sum of the request's own numbers, whatever was asked before. *)
Theorem serves_sums args st :
  Forall valid_numbers args → serve add_1_svc args st = Some (request_sum <$> args).
Proof. apply serve_sums. apply _. Qed.

Definition ex_args : list numbers := [Numbers 3 [1; 2; 3; 0]; Numbers 2 [10; -4]].
Lemma serves_sums_witness : serve add_1_svc ex_args 7 = Some [6; 6].
Proof. apply (serves_sums ex_args 7). repeat constructor; vm_compute; congruence. Defined.
End Addition.

(** ** [rpc/arraysum]: [static int result=0], initialised once *)
Module ArraySum.
Definition add_1_svc (argp : numbers) (result : Z) : prog Z :=
  puts ("Got a request of size " +:+ dec (num_size argp) +:+ nl);;
  accumulate argp result.

Definition arraysum_1 (host : string) : prog unit :=
  clnt ← sysv (LibCall "clnt_create" [536870911; 1] [host; "udp"]);
  if clnt =? 0 then do_ (LibCall "clnt_pcreateerror" [] [host]);; Halt 1 else
  puts "Enter Array Size: ";;
  sz ← scan_int;
  puts "Enter Numbers: ";;
  n ← need sz;
  ns ← for_up 0 n (λ i ns, v ← scan_int;
         match v with Some x => need (aset ns i (Some x)) | None => mret ns end)
       (replicate 100 None);
  r ← sys (Rpc "add_1" (sz :: ns) []);
  (if rv r =? 0 then do_ (LibCall "clnt_perror" [] ["call failed"]) else mret tt);;
  v ← need (if rv r =? 0 then None else head (rints r));
  puts ("Sum: " +:+ dec v +:+ nl);;
  do_ (LibCall "clnt_destroy" [] []).

Definition main (argv : list string) : prog unit :=
  match argv with
  | [a0] => puts ("usage: " +:+ a0 +:+ " server_host" +:+ nl);; Halt 1
  | _ :: host :: _ => arraysum_1 host;; Halt 0
  | [] => Undef
  end.

Lemma add_1_svc_run argp st r rs :
  0 ≤ num_size argp ≤ Z.of_nat (length (nums argp)) →
  sums_fit st (take (Z.to_nat (num_size argp)) (nums argp)) = true →
  outcome_of (add_1_svc argp st) (r :: rs) = Done (st + request_sum argp).
Proof.
  intros Hs Hfit. unfold outcome_of, add_1_svc, puts, do_, mbind, prog_mbind. cbn [prog_bind run].
  by rewrite (accumulate_run argp st rs Hs Hfit).
Qed.

(** The totals a process has accumulated after each request. *)
Fixpoint running_totals (st : Z) (args : list numbers) : list Z :=
  match args with
  | [] => []
  | arg :: args' => (st + request_sum arg) :: running_totals (st + request_sum arg) args'
  end.

(** Every request is well formed and no partial total overflows. *)
Fixpoint no_overflow (st : Z) (args : list numbers) : Prop :=
  match args with
  | [] => True
  | arg :: args' =>
      0 ≤ num_size arg ≤ Z.of_nat (length (nums arg)) ∧
      sums_fit st (take (Z.to_nat (num_size arg)) (nums arg)) = true ∧
      no_overflow (st + request_sum arg) args'
  end.

(** because [static int result=0] is initialised only once, the server
    answers each request with the total of all requests so far. *)
Theorem serves_running_totals args st :
  no_overflow st args → serve add_1_svc args st = Some (running_totals st args).
Proof.
  revert st. induction args as [|arg args IH]; intros st; simpl; [done|].
  intros (Hs & Hfit & Hrest). rewrite add_1_svc_run by done. by rewrite IH.
Qed.

(** The same request twice: the second answer is doubled. *)
Lemma serves_running_totals_witness :
  serve add_1_svc [Numbers 2 [5; 6]; Numbers 2 [5; 6]] 0 = Some [11; 22].
Proof. apply (serves_running_totals [Numbers 2 [5; 6]; Numbers 2 [5; 6]] 0). vm_compute. intuition congruence. Defined.
End ArraySum.

(** ** [rpc/square] *)
Module Square.
Definition square_1_svc (num : Z) : prog Z :=
  puts ("Got a request Number " +:+ dec num +:+ nl);;
  need (int_mul num num).

Definition square_calc_1 (host : string) : prog unit :=
  clnt ← sysv (LibCall "clnt_create" [536870911; 1] [host; "udp"]);
  if clnt =? 0 then do_ (LibCall "clnt_pcreateerror" [] [host]);; Halt 1 else
  puts ("Enter Number: " +:+ nl);;
  num ← scan_int;
  r ← sys (Rpc "square_1" [num] []);
  (if rv r =? 0 then do_ (LibCall "clnt_perror" [] ["call failed"]) else mret tt);;
  v ← need (if rv r =? 0 then None else head (rints r));
  puts (dec v +:+ nl);;
  do_ (LibCall "clnt_destroy" [] []).

Definition main (argv : list string) : prog unit :=
  match argv with
  | [a0] => puts ("usage: " +:+ a0 +:+ " server_host" +:+ nl);; Halt 1
  | _ :: host :: _ => square_calc_1 host;; Halt 0
  | [] => Undef
  end.
End Square.

(** ** [list_client.c], [list_server.c]: a linked list in the C heap *)
Module RpcList.
(** [struct node { int x; int y; node *next; }]; address 0 is NULL. *)
Record node := Node { x : option Z; y : option Z; next : option Z }.
Abbreviation heap := (gmap Z node).

(** [malloc(sizeof(node))]: the address is chosen by the environment. *)
Definition malloc (h : heap) : prog (Z * heap) :=
  a ← sysv (LibCall "malloc" [16] []);
  mret (a, if a =? 0 then h else <[a := Node None None None]> h).

Definition set_node (h : heap) (a : Z) (n : node) : option heap :=
  _ ← h !! a; Some (<[a := n]> h).

(** [while (temp->next != NULL) temp = temp->next;] *)
Fixpoint last_node (fuel : nat) (h : heap) (temp : Z) : option Z :=
  match fuel with
  | O => None
  | S fuel' =>
      n ← h !! temp; nx ← next n;
      if nx =? 0 then Some temp else last_node fuel' h nx
  end.

Definition mknode (x : Z) (st : heap * Z) : prog (heap * Z) :=
  let '(h, head) := st in
  if head =? 0 then
    '(a, h) ← malloc h;
    h ← need (n ← h !! a; set_node h a (Node (Some x) (y n) (Some 0)));
    mret (h, a)
  else
    temp ← need (last_node (S (size h)) h head);
    '(a, h) ← malloc h;
    h ← need (n ← h !! temp; set_node h temp (Node (RpcList.x n) (y n) (Some a)));
    h ← need (n ← h !! a; set_node h a (Node (Some x) (y n) (Some 0)));
    mret (h, head).

(** [h] holds the list [l] from address [a] on, in distinct nodes [as_]. *)
Fixpoint lseg (h : heap) (a : Z) (as_ : list Z) (l : list Z) : Prop :=
  match as_, l with
  | [], [] => a = 0
  | a' :: as', v :: l' =>
      a = a' ∧ a ≠ 0 ∧ ∃ yv nx, h !! a = Some (Node (Some v) yv (Some nx)) ∧ lseg h nx as' l'
  | _, _ => False
  end.

(** The structure the heap holds: exactly the nodes of the list. *)
Definition is_list (st : heap * Z) (l : list Z) : Prop :=
  ∃ as_, NoDup as_ ∧ lseg st.1 st.2 as_ l ∧ dom st.1 = list_to_set as_.

(** What the stub sends: the list as the client sees it. *)
Fixpoint to_wire (fuel : nat) (h : heap) (a : Z) : option (list Z) :=
  match fuel with
  | O => None
  | S fuel' =>
      if a =? 0 then Some [] else
      n ← h !! a; v ← x n; nx ← next n; l ← to_wire fuel' h nx; Some (v :: l)
  end.

(** The server walks the decoded list; [printf] of each element. *)
Fixpoint add_list_loop (temp : list Z) (result : Z) : prog Z :=
  match temp with
  | [] => mret result
  | v :: temp' =>
      result ← need (int_add result v);
      puts (dec v +:+ ", ");;
      add_list_loop temp' result
  end.

Definition add_list_1_svc (argp : list Z) : prog Z :=
  puts "Numbers are: { ";;
  result ← add_list_loop argp 0;
  puts ("}" +:+ nl);;
  mret result.

Definition list_1 (host : string) : prog unit :=
  st ← mknode 1 (∅, 0);
  st ← mknode 2 st;
  st ← mknode 102 st;
  st ← mknode 40 st;
  let '(h, head) := st in
  clnt ← sysv (LibCall "clnt_create" [805306367; 1] [host; "udp"]);
  if clnt =? 0 then do_ (LibCall "clnt_pcreateerror" [] [host]);; Halt 1 else
  arg ← need (to_wire (S (size h)) h head);
  r ← sys (Rpc "add_list_1" (Some <$> arg) []);
  (if rv r =? 0 then do_ (LibCall "clnt_perror" [] ["call failed"]) else mret tt);;
  v ← need (if rv r =? 0 then None else list.head (rints r));
  puts ("Sum is : " +:+ dec v +:+ nl);;
  do_ (LibCall "clnt_destroy" [] []).

Definition main (argv : list string) : prog unit :=
  match argv with
  | [a0] => puts ("usage: " +:+ a0 +:+ " server_host" +:+ nl);; Halt 1
  | _ :: host :: _ => list_1 host;; Halt 0
  | [] => Undef
  end.

(** *** Walking and extending a list *)

Lemma lseg_lookup_frame h a as_ l b n :
  b ∉ as_ → lseg h a as_ l → lseg (<[b := n]> h) a as_ l.
Proof.
  revert a l. induction as_ as [|a' as_ IH]; intros a [|v l] Hb; simpl; try done.
  intros (-> & Ha & yv & nx & Hh & Hl). apply not_elem_of_cons in Hb as [Hne Hb].
  split_and!; [done..|]. exists yv, nx. rewrite lookup_insert_ne by done. auto.
Qed.

Lemma lseg_split h a as_ l :
  l ≠ [] → lseg h a as_ l →
  ∃ as1 t l1 v yv, as_ = as1 ++ [t] ∧ l = l1 ++ [v] ∧ h !! t = Some (Node (Some v) yv (Some 0)).
Proof.
  revert a l. induction as_ as [|a' as_ IH]; intros a [|v l] Hne; simpl; try done.
  intros (-> & Ha & yv & nx & Hh & Hl). destruct l as [|v' l].
  - destruct as_; simpl in Hl; [|done]. subst. exists [], a', [], v, yv. done.
  - destruct (IH nx (v' :: l)) as (as1 & t & l1 & w & yw & -> & -> & Ht); [done..|].
    exists (a' :: as1), t, (v :: l1), w, yw. done.
Qed.

Lemma last_node_lseg h a as_ l fuel :
  l ≠ [] → lseg h a as_ l → (length as_ < fuel)%nat →
  ∃ t, last as_ = Some t ∧ last_node fuel h a = Some t.
Proof.
  revert a l fuel. induction as_ as [|a' as_ IH]; intros a [|v l] fuel Hne; simpl; try done.
  intros (-> & Ha & yv & nx & Hh & Hl) Hf. destruct fuel as [|fuel]; [lia|]. simpl.
  rewrite Hh. simpl. destruct as_ as [|a2 as_].
  - destruct l; [|done]. simpl in Hl. subst. exists a'. by rewrite Z.eqb_refl.
  - destruct l as [|v2 l]; [done|]. assert (nx ≠ 0) by (simpl in Hl; destruct Hl as (-> & ? & _); done).
    rewrite (proj2 (Z.eqb_neq nx 0)) by done.
    destruct (IH nx (v2 :: l) fuel) as (t & Hlast & Ht); [done..|simpl in *; lia|].
    exists t. rewrite last_cons_cons. done.
Qed.

Lemma to_wire_lseg h a as_ l fuel :
  lseg h a as_ l → (length as_ < fuel)%nat → to_wire fuel h a = Some l.
Proof.
  revert a l fuel. induction as_ as [|a' as_ IH]; intros a [|v l] fuel; simpl; try done.
  - intros -> ?. destruct fuel; [lia|done].
  - intros (-> & Ha & yv & nx & Hh & Hl) Hf. destruct fuel as [|fuel]; [lia|]. simpl.
    rewrite (proj2 (Z.eqb_neq a' 0)) by done. rewrite Hh. simpl.
    rewrite (IH nx l) by (done || simpl in Hf; lia). done.
Qed.

Lemma lseg_append h a as_ l b v t n :
  NoDup as_ → b ∉ as_ → b ≠ 0 → lseg h a as_ l →
  last as_ = Some t → h !! t = Some n →
  lseg (<[b := Node (Some v) None (Some 0)]> (<[t := Node (x n) (y n) (Some b)]> h)) a (as_ ++ [b]) (l ++ [v]).
Proof.
  revert a l. induction as_ as [|a' as_ IH]; intros a [|w l] Hnd Hb Hb0; simpl; try done.
  intros (-> & Ha & yv & nx & Hh & Hl) Hlast Ht.
  apply NoDup_cons in Hnd as [Hni Hnd]. apply not_elem_of_cons in Hb as [Hne Hb].
  split_and!; [done..|]. destruct as_ as [|a2 as_].
  - destruct l; [|done]. simpl in *. simplify_eq. exists yv, b.
    rewrite lookup_insert_ne, lookup_insert_eq by done. split; [done|].
    split_and!; [done..|]. exists None, 0. by rewrite lookup_insert_eq.
  - exists yv, nx. rewrite last_cons_cons in Hlast.
    assert (a' ≠ t). { intros ->. apply Hni. by apply last_Some_elem_of. }
    rewrite !lookup_insert_ne by done. split; [done|]. by apply IH.
Qed.

Definition fresh_node : node := Node None None None.

Lemma malloc_bind {B} h (f : Z * heap → prog B) r rs :
  rv r ≠ 0 →
  run (malloc h ≫= f) (r :: rs) =
  let '(t, o) := run (f (rv r, <[rv r := fresh_node]> h)) rs in
  ((LibCall "malloc" [16] [], r) :: t, o).
Proof. intros Hr. cbn. by rewrite (proj2 (Z.eqb_neq (rv r) 0) Hr). Qed.

Lemma set_node_Some h a n n' : h !! a = Some n → set_node h a n' = Some (<[a := n']> h).
Proof. unfold set_node. by intros ->. Qed.

(** [mknode] on a heap holding [l], with a [malloc] that returns a fresh
    non-null block, leaves a heap holding [l ++ [v]]. *)
Lemma mknode_append v st l r rs :
  is_list st l → rv r ≠ 0 → rv r ∉ dom st.1 →
  ∃ st', run (mknode v st) (r :: rs) = ([(LibCall "malloc" [16] [], r)], Done st') ∧
         is_list st' (l ++ [v]) ∧ dom st'.1 = {[ rv r ]} ∪ dom st.1.
Proof.
  intros (as_ & Hnd & Hl & Hdom) Hr0 Hfresh. destruct st as [h head]. cbn [fst snd] in *.
  assert (rv r ∉ as_) as Hni by (rewrite Hdom in Hfresh; by rewrite elem_of_list_to_set in Hfresh).
  apply Z.eqb_neq in Hr0 as Hr0'.
  unfold mknode. bool_case.
  - subst head. destruct as_, l; simpl in Hl; [|done..|by destruct Hl as (<- & ? & _)].
    rewrite malloc_bind by done.
    rewrite lookup_insert_eq. cbn [option_bind mbind y].
    erewrite set_node_Some by apply lookup_insert_eq.
    eexists. split; [done|]. simpl. rewrite insert_insert_eq. split; [|by rewrite dom_insert_L].
    exists [rv r]. split_and!; [apply NoDup_singleton| |].
    + simpl. split_and!; [done..|]. exists None, 0. by rewrite lookup_insert_eq.
    + simpl. rewrite dom_insert_L, Hdom. done.
  - assert (l ≠ []). { intros ->. destruct as_; simpl in Hl; done. }
    assert (length as_ = size h) as Hsz.
    { rewrite <- size_dom, Hdom. symmetry. by apply size_list_to_set. }
    destruct (last_node_lseg h head as_ l (S (size h))) as (t & Hlast & Ht); [done..|lia|].
    destruct (lseg_split h head as_ l) as (as1 & t' & l1 & w & yw & -> & -> & Hht); [done..|].
    rewrite last_snoc in Hlast. simplify_eq.
    assert (t ≠ rv r) by (intros ->; apply Hni; set_solver).
    rewrite (need_Some_bind _ t) by done. rewrite malloc_bind by done.
    rewrite lookup_insert_ne, Hht by done. cbn [option_bind mbind x y].
    erewrite set_node_Some by (rewrite lookup_insert_ne by done; exact Hht).
    rewrite need_Some_bind with (a := <[t := Node (Some w) yw (Some (rv r))]> (<[rv r := fresh_node]> h)) by done.
    rewrite lookup_insert_ne, lookup_insert_eq by done. cbn [option_bind mbind x y fresh_node].
    erewrite set_node_Some by (rewrite lookup_insert_ne by done; apply lookup_insert_eq).
    rewrite (insert_insert_ne h t (rv r)) by done. rewrite insert_insert_eq.
    eexists. split; [done|]. split; [|simpl; rewrite !dom_insert_L, Hdom; set_solver].
    exists ((as1 ++ [t]) ++ [rv r]). split_and!.
    + apply NoDup_app. split_and!; [done|set_solver|apply NoDup_singleton].
    + apply (lseg_append h head (as1 ++ [t]) (l1 ++ [w]) (rv r) v t (Node (Some w) yw (Some 0)));
        try done. by rewrite last_snoc.
    + simpl. rewrite !dom_insert_L, Hdom, !list_to_set_app_L. set_solver.
Qed.

Lemma add_list_loop_outcome l acc rs :
  sums_fit acc l = true →
  outcome_of (add_list_loop l acc) rs = Blocked ∨
  outcome_of (add_list_loop l acc) rs = Done (acc + sum_ints l).
Proof.
  revert acc rs. induction l as [|v l IH]; intros acc rs Hfit; simpl in Hfit.
  - right. unfold outcome_of. simpl. by rewrite Z.add_0_r.
  - apply andb_true_iff in Hfit as [Hv Hl].
    unfold outcome_of, add_list_loop; fold add_list_loop.
    unfold int_add. rewrite (need_Some_bind _ (acc + v)) by (by apply int_of_Some).
    change (sum_ints (v :: l)) with (v + sum_ints l). rewrite Z.add_assoc.
    destruct rs as [|r rs]; [by left|].
    specialize (IH (acc + v) rs Hl). unfold outcome_of in IH. simpl.
    by destruct (run (add_list_loop l (acc + v)) rs).
Qed.

(** Four blocks that [malloc] may return: non-null and distinct. *)
Definition good_blocks (a : list Z) : Prop := length a = 4%nat ∧ NoDup a ∧ 0 ∉ a.

Lemma build_list a1 a2 a3 a4 rs :
  good_blocks [a1; a2; a3; a4] →
  ∃ st t, is_list st [1; 2; 102; 40] ∧ select_ev (λ c r, match c with Rpc _ l _ => Some l | _ => None end) t = [] ∧
    ∀ B (f : heap * Z → prog B),
      run (st ← mknode 1 (∅, 0); st ← mknode 2 st; st ← mknode 102 st; st ← mknode 40 st; f st)
          (ret_ a1 :: ret_ a2 :: ret_ a3 :: ret_ a4 :: rs)
      = let '(t', o) := run (f st) rs in (t ++ t', o).
Proof.
  intros (_ & Hnd & H0).
  assert (is_list (∅, 0) []) as Hl0 by (exists []; split_and!; [constructor|done|apply dom_empty_L]).
  rewrite !NoDup_cons in Hnd. destruct Hnd as (N1 & N2 & N3 & _).
  destruct (mknode_append 1 (∅, 0) [] (ret_ a1) (ret_ a2 :: ret_ a3 :: ret_ a4 :: rs) Hl0)
    as (s1 & R1 & L1 & D1); [cbn; set_solver..|].
  destruct (mknode_append 2 s1 _ (ret_ a2) (ret_ a3 :: ret_ a4 :: rs) L1)
    as (s2 & R2 & L2 & D2); [cbn; set_solver..|].
  destruct (mknode_append 102 s2 _ (ret_ a3) (ret_ a4 :: rs) L2) as (s3 & R3 & L3 & D3); [cbn; set_solver..|].
  destruct (mknode_append 40 s3 _ (ret_ a4) rs L3) as (s4 & R4 & L4 & D4); [cbn; set_solver..|].
  exists s4, ((λ a, (LibCall "malloc" [16] [], ret_ a)) <$> [a1; a2; a3; a4]). split; [done|]. split; [done|]. intros B f.
  rewrite run_bind, R1. cbn [length drop]. rewrite run_bind, R2. cbn [length drop].
  rewrite run_bind, R3. cbn [length drop]. rewrite run_bind, R4. cbn [length drop].
  rewrite drop_0. by destruct (run (f s4) rs).
Qed.

Definition rpc_args (t : trace) : list (list (option Z)) :=
  select_ev (λ c r, match c with Rpc _ l _ => Some l | _ => None end) t.

(** the client builds its list in insertion order, whatever blocks
    [malloc] hands out, and sends exactly that list; the server's answer is
    the sum of the list it receives, and the client prints what it is sent. *)
Theorem list_client_server a1 a2 a3 a4 clnt v host rs :
  good_blocks [a1; a2; a3; a4] → clnt ≠ 0 →
  rpc_args (trace_of (list_1 host)
    (ret_ a1 :: ret_ a2 :: ret_ a3 :: ret_ a4 :: ret_ clnt :: Reply 1 "" [v] [] :: ret_ 0 :: ret_ 0 :: rs))
    = [Some <$> [1; 2; 102; 40]] ∧
  (∃ t, trace_of (list_1 host)
    (ret_ a1 :: ret_ a2 :: ret_ a3 :: ret_ a4 :: ret_ clnt :: Reply 1 "" [v] [] :: ret_ 0 :: ret_ 0 :: rs)
    = t ++ [(Puts ("Sum is : " +:+ dec v +:+ nl), ret_ 0); (LibCall "clnt_destroy" [] [], ret_ 0)]) ∧
  ∀ l rs', sums_fit 0 l = true →
    outcome_of (add_list_1_svc l) rs' = Blocked ∨ outcome_of (add_list_1_svc l) rs' = Done (sum_ints l).
Proof.
  intros Hb Hc.
  destruct (build_list a1 a2 a3 a4
    (ret_ clnt :: Reply 1 "" [v] [] :: ret_ 0 :: ret_ 0 :: rs) Hb) as ([h hd] & t & Hl & Hsel & Hrun).
  assert (to_wire (S (size h)) h hd = Some [1; 2; 102; 40]) as Hw.
  { destruct Hl as (as_ & Hnd & Hseg & Hdom). apply (to_wire_lseg _ _ as_); [done|].
    rewrite <- size_dom. simpl in Hdom. rewrite Hdom, size_list_to_set by done. lia. }
  unfold trace_of, list_1. rewrite Hrun. apply Z.eqb_neq in Hc.
  cbn [sysv mbind prog_mbind prog_bind run rv ret_]. rewrite Hc, Hw. cbn.
  split_and!.
  - unfold select_ev in Hsel. by rewrite omap_app, Hsel.
  - eexists (t ++ [_; _]). rewrite <- app_assoc. reflexivity.
  - intros l rs' Hfit. unfold outcome_of, add_list_1_svc. destruct rs' as [|r rs']; [by left|].
    cbn [run]. rewrite run_bind. destruct (add_list_loop_outcome l 0 rs' Hfit) as [E|E];
      unfold outcome_of in E; destruct (run (add_list_loop l 0) rs') as [t' o]; simpl in E; subst o; [by left|].
    destruct (drop (length t') rs') as [|r' rs'']; [by left|by right].
Qed.

Lemma list_client_server_witness :
  rpc_args (trace_of (list_1 "localhost")
    [ret_ 16; ret_ 64; ret_ 32; ret_ 128; ret_ 1; Reply 1 "" [145] []; ret_ 0; ret_ 0]) = [Some <$> [1; 2; 102; 40]].
Proof.
  apply (list_client_server 16 64 32 128 1 145 "localhost" []); [|done].
  split_and!; [done| |]; [repeat constructor; set_solver|set_solver].
Defined.
End RpcList.
