(* ===== verification/Heap.v ===== *)
(** * [mid/heap.c]: heap sort with an array-based binary heap

    [heap[1 .. heapSize]] is a binary heap, [heap[0]] a sentinel below every
    element.  The array is a global of 1,000,000 zero-initialised cells; the
    two loops are loops with fuel and the theorems show that the fuel is
    enough, except for the one input on which the loop of [Insert] runs
    forever. *)

From S2P Require Import Prelude CString Posix.
From stdpp Require Import gmap sorting.

#[local] Open Scope Z_scope.

Ltac Zify.zify_post_hook ::= Z.to_euclidean_division_equations.

(** ** The program *)

Definition HEAP_CELLS : Z := 1000000.

(** The global [int heap[1000000], heapSize;]. *)
Record Heap := mkHeap { heap : gmap Z Z; heapSize : Z }.

Definition in_heap (i : Z) : bool := (0 <=? i) && (i <? HEAP_CELLS).

(** A cell nothing was stored in holds 0, as globals do. *)
Definition cell_of (m : gmap Z Z) (i : Z) : Z := default 0 (m !! i).

Definition hget (m : gmap Z Z) (i : Z) : option Z :=
  if in_heap i then Some (cell_of m i) else None.

Definition hset (m : gmap Z Z) (i x : Z) : option (gmap Z Z) :=
  if in_heap i then Some (<[i := x]> m) else None.

Definition Init (h : Heap) : Heap := mkHeap (<[0 := - INT_MAX]> (heap h)) 0.

(** [while(heap[now/2] > element) { heap[now] = heap[now/2]; now /= 2; }] *)
Definition sift_up_step (element : Z) (s : gmap Z Z * Z) : option ((gmap Z Z * Z) + (gmap Z Z * Z)) :=
  let '(m, now) := s in
  p ← hget m (Z.quot now 2);
  if p >? element then
    m ← hset m now p;
    Some (inl (m, Z.quot now 2))
  else Some (inr (m, now)).

Definition sift_up (n : nat) (element : Z) (s : gmap Z Z * Z) : option ((gmap Z Z * Z) + (gmap Z Z * Z)) :=
  loop n (sift_up_step element) s.

(** Halving an index of the array reaches 0 within this many rounds. *)
Definition ROUNDS : nat := 21.

Definition Insert (element : Z) (h : Heap) : option Heap :=
  let heapSize := heapSize h + 1 in
  m ← hset (heap h) heapSize element;
  r ← sift_up ROUNDS element (m, heapSize);
  match r with
  | inr (m, now) => m ← hset m now element; Some (mkHeap m heapSize)
  | inl _ => None
  end.

(** The body of the [for(now = 1; now*2 <= heapSize; now = child)] loop. *)
Definition sift_down_step (size lastElement : Z) (s : gmap Z Z * Z) : option ((gmap Z Z * Z) + (gmap Z Z * Z)) :=
  let '(m, now) := s in
  if now * 2 <=? size then
    let child := now * 2 in
    c ← hget m child;
    child ← (if negb (child =? size) then d ← hget m (child + 1); Some (if d <? c then child + 1 else child)
             else Some child);
    c ← hget m child;
    if lastElement >? c then
      m ← hset m now c;
      Some (inl (m, child))
    else Some (inr (m, now))
  else Some (inr (m, now)).

Definition sift_down (n : nat) (size lastElement : Z) (s : gmap Z Z * Z) : option ((gmap Z Z * Z) + (gmap Z Z * Z)) :=
  loop n (sift_down_step size lastElement) s.

Definition DeleteMin (h : Heap) : option (Z * Heap) :=
  minElement ← hget (heap h) 1;
  lastElement ← hget (heap h) (heapSize h);
  let heapSize := heapSize h - 1 in
  r ← sift_down ROUNDS heapSize lastElement (heap h, 1);
  match r with
  | inr (m, now) => m ← hset m now lastElement; Some (minElement, mkHeap m heapSize)
  | inl _ => None
  end.

(** The bodies of the two loops of [main].  [element] is declared outside of
    the loop: a failing [scanf] leaves it as it is. *)
Definition insert_one (_ : Z) (s : Heap * option Z) : prog (Heap * option Z) :=
  let '(h, element) := s in
  v ← scan_int;
  let element := match v with Some x => Some x | None => element end in
  e ← need element;
  h ← need (Insert e h);
  mret (h, element).

Definition delete_one (_ : Z) (h : Heap) : prog Heap :=
  '(x, h) ← need (DeleteMin h);
  puts (dec x +:+ " ");;
  mret h.

Definition main : prog unit :=
  v ← scan_int;
  number_of_elements ← need v;
  let h := Init (mkHeap ∅ 0) in
  '(h, _) ← for_up 0 number_of_elements insert_one (h, None);
  for_up 0 number_of_elements delete_one h;;
  puts nl.

(** ** The priority queue the heap implements *)

(** The elements in the heap, in array order. *)
Definition contents (m : gmap Z Z) (size : Z) : list Z := cell_of m <$> seqZ 1 size.

Definition ordered (m : gmap Z Z) (size : Z) : Prop :=
  ∀ i, 2 ≤ i ≤ size → cell_of m (i / 2) ≤ cell_of m i.

Definition is_heap (h : Heap) : Prop :=
  0 ≤ heapSize h < HEAP_CELLS ∧ cell_of (heap h) 0 = - INT_MAX ∧ ordered (heap h) (heapSize h).

Definition elems (h : Heap) : list Z := contents (heap h) (heapSize h).

(** ** Array cells *)

Lemma cell_insert_eq m i x : cell_of (<[i := x]> m) i = x.
Proof. unfold cell_of. by rewrite lookup_insert_eq. Qed.

Lemma cell_insert_ne m i j x : i ≠ j → cell_of (<[i := x]> m) j = cell_of m j.
Proof. intros. unfold cell_of. by rewrite lookup_insert_ne. Qed.

Lemma cell_insert m i j x :
  cell_of (<[i := x]> m) j = if decide (i = j) then x else cell_of m j.
Proof. case_decide; subst; [apply cell_insert_eq|by apply cell_insert_ne]. Qed.

Lemma in_heap_range i : 0 ≤ i < HEAP_CELLS → in_heap i = true.
Proof. intros. unfold in_heap. apply andb_true_iff. split; [apply Z.leb_le|apply Z.ltb_lt]; lia. Qed.

Lemma hget_Some m i : 0 ≤ i < HEAP_CELLS → hget m i = Some (cell_of m i).
Proof. intros. unfold hget. by rewrite in_heap_range. Qed.

Lemma hset_Some m i x : 0 ≤ i < HEAP_CELLS → hset m i x = Some (<[i := x]> m).
Proof. intros. unfold hset. by rewrite in_heap_range. Qed.

(** ** Contents as a list *)

Lemma contents_lookup m size i :
  1 ≤ i ≤ size → contents m size !! Z.to_nat (i - 1) = Some (cell_of m i).
Proof.
  intros. unfold contents. rewrite list_lookup_fmap, lookup_seqZ_lt by lia.
  simpl. do 2 f_equal. lia.
Qed.

Lemma contents_insert m size i x :
  1 ≤ i → contents (<[i := x]> m) size = <[Z.to_nat (i - 1) := x]> (contents m size).
Proof.
  intros Hi. apply list_eq. intros k. unfold contents.
  destruct (decide (k = Z.to_nat (i - 1))) as [->|Hne].
  - destruct (decide (Z.to_nat (i - 1) < Z.to_nat size)%nat) as [Hlt|Hge].
    + rewrite list_lookup_insert_eq by (rewrite length_fmap, length_seqZ; lia).
      rewrite list_lookup_fmap, lookup_seqZ_lt by lia. simpl.
      replace (1 + Z.of_nat (Z.to_nat (i - 1))) with i by lia. by rewrite cell_insert_eq.
    + rewrite !lookup_ge_None_2; [done|rewrite length_insert|]; rewrite length_fmap, length_seqZ; lia.
  - rewrite list_lookup_insert_ne by done. rewrite !list_lookup_fmap.
    destruct (seqZ 1 size !! k) as [j|] eqn:E; [|done]. apply lookup_seqZ in E as [-> ?]. simpl.
    rewrite cell_insert_ne by lia. done.
Qed.

Lemma contents_snoc m size : 0 ≤ size → contents m (size + 1) = contents m size ++ [cell_of m (size + 1)].
Proof. intros. unfold contents. rewrite seqZ_app, fmap_app by lia. simpl. by rewrite (Z.add_comm 1 size). Qed.

Lemma contents_elem m size x : x ∈ contents m size → ∃ i, 1 ≤ i ≤ size ∧ x = cell_of m i.
Proof. unfold contents. intros (i & -> & Hi)%list_elem_of_fmap. apply elem_of_seqZ in Hi. exists i. lia. Qed.

Lemma replace_perm {A} (l : list A) k x y : l !! k = Some x → x :: <[k := y]> l ≡ₚ y :: l.
Proof.
  revert k. induction l as [|z l IH]; intros [|k] H; simpl in *; simplify_eq.
  - constructor.
  - rewrite Permutation_swap, (IH k H). apply Permutation_swap.
Qed.

(** Exchanging the values of two cells. *)
Lemma swap_perm {A} (l : list A) i j x y :
  l !! i = Some x → l !! j = Some y → <[i := y]> (<[j := x]> l) ≡ₚ l.
Proof.
  intros Hi Hj. apply Permutation_cons_inv with x.
  destruct (decide (i = j)) as [->|Hne].
  - simplify_eq. rewrite list_insert_insert_eq. by rewrite list_insert_id.
  - rewrite replace_perm by (by rewrite list_lookup_insert_ne). by apply replace_perm.
Qed.

(** ** Moving the hole

    While a loop runs, the cell [now] is a hole that will receive the element
    [e].  The invariant is about the array with the hole filled. *)

Definition filled (m : gmap Z Z) (now e : Z) : gmap Z Z := <[now := e]> m.

(** Moving the hole from [a] to [b] and the value of [b] to [a] permutes the
    filled array. *)
Lemma move_hole_perm m size a b e :
  1 ≤ a ≤ size → 1 ≤ b ≤ size → a ≠ b →
  contents (filled (<[a := cell_of m b]> m) b e) size ≡ₚ contents (filled m a e) size.
Proof.
  intros Ha Hb Hne. unfold filled. rewrite !contents_insert by lia.
  rewrite <- (swap_perm (<[Z.to_nat (a - 1) := e]> (contents m size)) (Z.to_nat (a - 1)) (Z.to_nat (b - 1)) e (cell_of m b)).
  - rewrite (list_insert_insert_ne (<[_ := e]> _)) by lia. by rewrite list_insert_insert_eq.
  - apply list_lookup_insert_eq. unfold contents. rewrite length_fmap, length_seqZ. lia.
  - rewrite list_lookup_insert_ne by lia. apply contents_lookup. lia.
Qed.

(** Going up: only the hole may be smaller than its parent. *)
Definition up_inv (size e : Z) (l : list Z) (s : gmap Z Z * Z) : Prop :=
  let '(m, now) := s in
  1 ≤ now ≤ size ∧ cell_of m 0 = - INT_MAX ∧
  contents (filled m now e) size ≡ₚ l ∧
  (∀ i, 2 ≤ i ≤ size → i ≠ now → cell_of (filled m now e) (i / 2) ≤ cell_of (filled m now e) i) ∧
  (∀ i, 2 ≤ i ≤ size → i / 2 = now → 2 ≤ now → cell_of m (now / 2) ≤ cell_of m i).

(** Going down: only the children of the hole may be smaller than it. *)
Definition down_inv (size e : Z) (l : list Z) (s : gmap Z Z * Z) : Prop :=
  let '(m, now) := s in
  1 ≤ now ∧ (1 < now → now ≤ size) ∧ cell_of m 0 = - INT_MAX ∧
  contents (filled m now e) size ≡ₚ l ∧
  (∀ i, 2 ≤ i ≤ size → i / 2 ≠ now → cell_of (filled m now e) (i / 2) ≤ cell_of (filled m now e) i) ∧
  (∀ i, 2 ≤ i ≤ size → i / 2 = now → 2 ≤ now → cell_of m (now / 2) ≤ cell_of m i).

(** A loop whose body maintains [I] and decreases [v] below [n] leaves. *)
Lemma loop_Some {S A} (I : S → Prop) (Q : A → Prop) (v : S → Z) (n : nat) (body : S → option (S + A)) s :
  (∀ s, I s → (∃ s', body s = Some (inl s') ∧ I s' ∧ 0 ≤ v s' ∧ 2 * v s' ≤ v s) ∨ (∃ a, body s = Some (inr a) ∧ Q a)) →
  I s → 0 < v s < 2 ^ Z.of_nat n → (∀ s, I s → 0 < v s) → ∃ a, loop n body s = Some (inr a) ∧ Q a.
Proof.
  intros Hb HI Hv Hpos. revert s HI Hv. induction n as [|n IH]; intros s HI Hv; [simpl in Hv; lia|].
  destruct (Hb s HI) as [(s' & Hs & HI' & H0 & Hlt)|(a & Hs & HQ)]; simpl; rewrite Hs; simpl.
  - apply IH; [done|]. rewrite Nat2Z.inj_succ, Z.pow_succ_r in Hv by lia. split; [by apply Hpos|lia].
  - eauto.
Qed.

Ltac cells := unfold filled in *; repeat (rewrite cell_insert in * || case_decide); subst.

Lemma sift_up_step_spec size e l s :
  size < HEAP_CELLS → INT_MIN < e → up_inv size e l s →
  (∃ s', sift_up_step e s = Some (inl s') ∧ up_inv size e l s' ∧ 0 ≤ s'.2 ∧ 2 * s'.2 ≤ s.2) ∨
  (∃ a, sift_up_step e s = Some (inr a) ∧
     let '(m, now) := a in 1 ≤ now ≤ size ∧ cell_of m 0 = - INT_MAX ∧
       contents (filled m now e) size ≡ₚ l ∧ ordered (filled m now e) size).
Proof.
  intros Hsz He. destruct s as [m now]. intros (Hnow & H0 & Hperm & Hord & Hgp). unfold sift_up_step.
  rewrite hget_Some by lia. cbn [option_bind mbind]. rewrite Z.quot_div_nonneg by lia.
  destruct (cell_of m (now / 2) >? e) eqn:Hgt; rewrite Z.gtb_ltb in Hgt; bool_hyps.
  - left. assert (2 ≤ now).
    { destruct (decide (now = 1)) as [->|]; [|lia]. change (1 / 2) with 0 in Hgt.
      rewrite H0 in Hgt. unfold INT_MAX, INT_MIN in *. lia. }
    rewrite hset_Some by lia. cbn [option_bind mbind]. eexists. split; [done|].
    assert (now / 2 ≠ now ∧ 1 ≤ now / 2 ≤ size ∧ 2 * (now / 2) ≤ now) as (Hne & Hp & Hhalf) by lia.
    split; [|simpl; lia]. split_and!; [lia|lia|..].
    + by rewrite cell_insert_ne by lia.
    + rewrite <- Hperm. by apply move_hole_perm.
    + intros i Hi Hin. destruct (decide (i = now)) as [->|Hinow].
      { cells; try lia. }
      specialize (Hord i Hi Hinow). destruct (decide (i / 2 = now / 2)) as [E|E].
      * rewrite E in *. cells; try lia.
      * destruct (decide (i / 2 = now)) as [E2|E2].
        -- rewrite E2. specialize (Hgp i Hi E2). cells; try lia.
        -- cells; try lia.
    + intros i Hi E H2. assert (now / 2 / 2 ≠ now) by lia. rewrite cell_insert_ne by lia.
      specialize (Hord (now / 2) ltac:(lia) ltac:(lia)) as Hg.
      destruct (decide (i = now)) as [->|Hinow].
      * rewrite cell_insert_eq. cells; lia.
      * rewrite cell_insert_ne by done. specialize (Hord i Hi Hinow). rewrite E in Hord. cells; lia.
  - right. eexists. split; [done|]. split_and!; [lia|lia|done|done|].
    intros i Hi. destruct (decide (i = now)) as [->|]; [|by apply Hord]. cells; lia.
Qed.

(** The child [DeleteMin] compares with: the smaller of the two. *)
Definition min_child (m : gmap Z Z) (size now : Z) : Z :=
  if negb (2 * now =? size) && (cell_of m (2 * now + 1) <? cell_of m (2 * now)) then 2 * now + 1 else 2 * now.

Lemma min_child_spec m size now :
  1 ≤ now → 2 * now ≤ size →
  let c := min_child m size now in
  2 * now ≤ c ≤ size ∧ c ≤ 2 * now + 1 ∧ ∀ i, i / 2 = now → i ≤ size → cell_of m c ≤ cell_of m i.
Proof.
  intros Hn Hs. unfold min_child. cbv zeta.
  destruct (2 * now =? size) eqn:E; [|destruct (cell_of m (2 * now + 1) <? cell_of m (2 * now)) eqn:E2];
    bool_hyps; simpl; split_and!; try lia; intros i Hi1 Hi2;
    (assert (i = 2 * now ∨ i = 2 * now + 1) as [-> | ->] by lia); lia.
Qed.

Lemma sift_down_step_eq size e m now :
  size < HEAP_CELLS → 1 ≤ now → 2 * now ≤ size →
  sift_down_step size e (m, now) =
  Some (if e >? cell_of m (min_child m size now)
        then inl (<[now := cell_of m (min_child m size now)]> m, min_child m size now) else inr (m, now)).
Proof.
  intros Hsz Hn H2. pose proof (min_child_spec m size now Hn H2) as (Hc & _).
  unfold sift_down_step. rewrite (proj2 (Z.leb_le _ _)) by lia.
  rewrite (Z.mul_comm now 2). rewrite (hget_Some m (2 * now)) by lia. cbn [option_bind mbind].
  unfold min_child in *. destruct (2 * now =? size) eqn:E; cbn [negb andb] in *.
  - cbn [option_bind mbind]. rewrite hget_Some by lia. cbn [option_bind mbind].
    destruct (e >? _); [|done]. by rewrite hset_Some by lia.
  - bool_hyps. rewrite (hget_Some m (2 * now + 1)) by lia. cbn [option_bind mbind].
    destruct (cell_of m (2 * now + 1) <? cell_of m (2 * now)); cbn [option_bind mbind];
      rewrite hget_Some by lia; cbn [option_bind mbind];
      (destruct (e >? _); [|done]); by rewrite hset_Some by lia.
Qed.

Definition down_measure (s : gmap Z Z * Z) : Z := HEAP_CELLS / s.2.

Lemma down_measure_step m m' now c :
  1 ≤ now → 2 * now ≤ c → 0 ≤ down_measure (m', c) ∧ 2 * down_measure (m', c) ≤ down_measure (m, now).
Proof.
  intros Hn Hc. unfold down_measure. cbn [snd]. split; [apply Z.div_pos; unfold HEAP_CELLS; lia|].
  apply Z.div_le_lower_bound; [lia|]. pose proof (Z.mul_div_le HEAP_CELLS c ltac:(lia)).
  assert (0 ≤ HEAP_CELLS / c) by (apply Z.div_pos; unfold HEAP_CELLS; lia).
  generalize dependent (HEAP_CELLS / c). intros. nia.
Qed.

Lemma sift_down_step_spec size e l s :
  0 ≤ size < HEAP_CELLS - 1 → down_inv size e l s →
  (∃ s', sift_down_step size e s = Some (inl s') ∧ down_inv size e l s' ∧
     0 ≤ down_measure s' ∧ 2 * down_measure s' ≤ down_measure s) ∨
  (∃ a, sift_down_step size e s = Some (inr a) ∧
     let '(m, now) := a in 1 ≤ now ≤ size + 1 ∧ cell_of m 0 = - INT_MAX ∧
       contents (filled m now e) size ≡ₚ l ∧ ordered (filled m now e) size).
Proof.
  intros Hsz. destruct s as [m now]. intros (Hnow & Hrng & H0 & Hperm & Hord & Hgp).
  destruct (decide (2 * now ≤ size)) as [H2|H2].
  - rewrite sift_down_step_eq by lia.
    pose proof (min_child_spec m size now Hnow H2) as (Hc & Hc1 & Hmin).
    set (c := min_child m size now) in *. clearbody c. assert (c / 2 = now ∧ c ≠ now) as [Hc2 Hcn] by lia.
    destruct (e >? cell_of m c) eqn:Hgt; rewrite Z.gtb_ltb in Hgt; bool_hyps.
    + left. eexists. split; [done|]. split; [|apply down_measure_step; lia].
      split_and!; [lia|lia|..].
      * by rewrite cell_insert_ne by lia.
      * rewrite <- Hperm. apply move_hole_perm; lia.
      * intros i Hi Hic. destruct (decide (i = c)) as [->|Hinc].
        { rewrite Hc2. unfold filled. rewrite cell_insert_eq, cell_insert_ne, cell_insert_eq by lia. lia. }
        destruct (decide (i / 2 = now)) as [E|E].
        -- rewrite E. specialize (Hmin i E ltac:(lia)). cells; lia.
        -- specialize (Hord i Hi E). destruct (decide (i = now)) as [->|Hin].
           ++ specialize (Hgp c ltac:(lia) Hc2 ltac:(lia)). cells; lia.
           ++ cells; lia.
      * intros i Hi Hic _. rewrite Hc2. rewrite cell_insert_eq.
        specialize (Hord i Hi ltac:(lia)). cells; lia.
    + right. eexists. split; [done|]. split_and!; [lia|lia|done|done|].
      intros i Hi. destruct (decide (i / 2 = now)) as [E|E]; [|by apply Hord].
      specialize (Hmin i E ltac:(lia)). rewrite E. cells; lia.
  - right. exists (m, now). split.
    + unfold sift_down_step. by rewrite (proj2 (Z.leb_gt _ _)) by lia.
    + split_and!; [lia|lia|done|done|]. intros i Hi. apply Hord; lia.
Qed.

(** ** The operations *)

Lemma ordered_min m size i : ordered m size → 1 ≤ i ≤ size → cell_of m 1 ≤ cell_of m i.
Proof.
  intros Ho. induction i as [i IH] using (well_founded_induction (Z.lt_wf 0)). intros Hi.
  destruct (decide (i = 1)) as [->|]; [done|].
  specialize (Ho i ltac:(lia)). specialize (IH (i / 2) ltac:(lia) ltac:(lia)). lia.
Qed.

Lemma Insert_spec x h :
  is_heap h → INT_MIN < x → heapSize h + 1 < HEAP_CELLS →
  ∃ h', Insert x h = Some h' ∧ is_heap h' ∧ elems h' ≡ₚ x :: elems h ∧ heapSize h' = heapSize h + 1.
Proof.
  intros (Hsz & H0 & Hord) Hx Hfit. destruct h as [m size]. unfold Insert, elems in *. cbn [heap heapSize] in *.
  rewrite hset_Some by lia. cbn [option_bind mbind]. unfold sift_up.
  set (m1 := <[size + 1 := x]> m).
  assert (up_inv (size + 1) x (x :: contents m size) (m1, size + 1)) as Hinv.
  { unfold up_inv, filled, m1. rewrite insert_insert_eq. split_and!; [lia|lia|..].
    - by rewrite cell_insert_ne by lia.
    - rewrite contents_snoc by lia. rewrite cell_insert_eq.
      assert (contents (<[size + 1 := x]> m) size = contents m size) as ->.
      { rewrite contents_insert by lia. apply list_insert_ge. unfold contents. rewrite length_fmap, length_seqZ. lia. }
      by rewrite Permutation_app_comm.
    - intros i Hi Hne. rewrite !cell_insert_ne by lia. apply Hord. lia.
    - intros i Hi E. lia. }
  destruct (loop_Some (up_inv (size + 1) x (x :: contents m size))
    (λ a, let '(m, now) := a in 1 ≤ now ≤ size + 1 ∧ cell_of m 0 = - INT_MAX ∧
       contents (filled m now x) (size + 1) ≡ₚ x :: contents m1 size ∧ ordered (filled m now x) (size + 1))
    snd ROUNDS (sift_up_step x) (m1, size + 1)) as ([m' now] & Hl & Hnow & H0' & Hperm & Ho).
  - intros s Hs. destruct (sift_up_step_spec (size + 1) x (x :: contents m size) s) as [?|(a & ? & Ha)]; [lia|lia|done|by left|].
    right. exists a. split; [done|]. destruct a. destruct Ha as (? & ? & Hp & ?). split_and!; try done; try lia.
    rewrite Hp. unfold m1. rewrite contents_insert by lia. rewrite list_insert_ge; [done|].
    unfold contents. rewrite length_fmap, length_seqZ. lia.
  - done.
  - cbn [snd]. unfold HEAP_CELLS, ROUNDS in *. simpl. lia.
  - intros [??] [? _]. cbn [snd]. lia.
  - rewrite Hl. cbn [option_bind mbind]. rewrite hset_Some by lia. cbn [option_bind mbind].
    eexists. split; [done|]. split; [|split; [|done]].
    + split_and!; cbn [heap heapSize]; [lia|lia| |done]. by rewrite cell_insert_ne by lia.
    + cbn [heap heapSize]. etransitivity; [apply Hperm|]. unfold m1. rewrite contents_insert by lia.
      rewrite list_insert_ge; [done|]. unfold contents. rewrite length_fmap, length_seqZ. lia.
Qed.

(** Taking the root out and the last element as the one to place. *)
Lemma take_root_perm m size :
  1 ≤ size → contents m size ≡ₚ cell_of m 1 :: contents (filled m 1 (cell_of m size)) (size - 1).
Proof.
  intros Hs. unfold filled. destruct (decide (size = 1)) as [->|Hne]; [done|].
  rewrite contents_insert by lia. rewrite replace_perm.
  - replace size with (size - 1 + 1) at 1 by lia. rewrite contents_snoc by lia.
    rewrite Permutation_app_comm. simpl. by replace (size - 1 + 1) with size by lia.
  - apply contents_lookup. lia.
Qed.

Lemma DeleteMin_spec h :
  is_heap h → 1 ≤ heapSize h →
  ∃ x h', DeleteMin h = Some (x, h') ∧ is_heap h' ∧ elems h ≡ₚ x :: elems h' ∧
          Forall (Z.le x) (elems h') ∧ heapSize h' = heapSize h - 1.
Proof.
  intros (Hsz & H0 & Hord) H1. destruct h as [m size]. unfold DeleteMin, elems in *. cbn [heap heapSize] in *.
  rewrite (hget_Some m 1) by (unfold HEAP_CELLS; lia). rewrite hget_Some by lia. cbn [option_bind mbind].
  set (e := cell_of m size). unfold sift_down.
  destruct (loop_Some (down_inv (size - 1) e (contents (filled m 1 e) (size - 1)))
    (λ a, let '(m', now) := a in 1 ≤ now ≤ size - 1 + 1 ∧ cell_of m' 0 = - INT_MAX ∧
       contents (filled m' now e) (size - 1) ≡ₚ contents (filled m 1 e) (size - 1) ∧ ordered (filled m' now e) (size - 1))
    down_measure ROUNDS (sift_down_step (size - 1) e) (m, 1)) as ([m' now] & Hl & Hnow & H0' & Hperm & Ho).
  - intros s Hs. apply sift_down_step_spec; [lia|done].
  - unfold down_inv. split_and!; [lia|lia|done|done|..]; intros i Hi E; [|lia].
    unfold filled. rewrite !cell_insert_ne by lia. apply Hord. lia.
  - unfold down_measure, ROUNDS. by vm_compute.
  - intros [m' now] (Hn & Hr & _). unfold down_measure. cbn [snd]. apply Z.div_str_pos.
    assert (now = 1 ∨ now < HEAP_CELLS) by lia. unfold HEAP_CELLS in *. lia.
  - rewrite Hl. cbn [option_bind mbind]. rewrite hset_Some by lia. cbn [option_bind mbind].
    pose proof (take_root_perm m size H1) as Hroot. fold e in Hroot.
    eexists _, _. split; [done|]. cbn [heap heapSize]. split_and!; [|..|done].
    + split_and!; cbn [heap heapSize]; [lia|lia| |done]. by rewrite cell_insert_ne by lia.
    + by rewrite Hroot, <- Hperm.
    + apply Forall_forall. intros y Hy. unfold filled in *. rewrite Hperm in Hy.
      assert (y ∈ contents m size) as (i & Hi & ->)%contents_elem by (rewrite Hroot; by right).
      by apply (ordered_min m size i).
Qed.

(** ** The sorting program *)

Definition scanned (l : list Z) : list reply := (λ x, ints_ [x]) <$> l.
Definition printed (out : list Z) : list call := (λ x, Puts (dec x +:+ " ")) <$> out.

(** What the program accepts: an [int] other than [INT_MIN]. *)
Definition insertable (x : Z) : Prop := INT_MIN < x ≤ INT_MAX.

Lemma insert_one_run x h h1 i el rs :
  Insert x h = Some h1 →
  run (insert_one i (h, el)) (ints_ [x] :: rs) = ([(ScanInt, ints_ [x])], Done (h1, Some x)).
Proof. intros E. unfold insert_one. cbn. by rewrite E. Qed.

Lemma delete_one_run x h h1 i r rs :
  DeleteMin h = Some (x, h1) →
  run (delete_one i h) (r :: rs) = ([(Puts (dec x +:+ " "), r)], Done h1).
Proof. intros E. unfold delete_one. by rewrite E. Qed.

Lemma insert_all_run l i h el rs :
  is_heap h → Forall insertable l → heapSize h + Z.of_nat (length l) < HEAP_CELLS →
  ∃ h' el' t, run (for_n (length l) i insert_one (h, el)) (scanned l ++ rs) = (t, Done (h', el')) ∧
    t.*1 = replicate (length l) ScanInt ∧ is_heap h' ∧
    elems h' ≡ₚ l ++ elems h ∧ heapSize h' = heapSize h + Z.of_nat (length l).
Proof.
  revert i h el. induction l as [|x l IH]; intros i h el Hh Hl Hfit.
  - exists h, el, []. simpl. split_and!; [done..|lia].
  - change (scanned (x :: l)) with (ints_ [x] :: scanned l).
    apply Forall_cons in Hl as [[Hx _] Hl]. cbn [length] in Hfit.
    destruct (Insert_spec x h Hh Hx) as (h1 & E & Hh1 & Hp1 & Hs1); [lia|].
    destruct (IH (i + 1) h1 (Some x) Hh1 Hl) as (h' & el' & t & Hrun & Ht & Hh' & Hp & Hs); [lia|].
    eexists h', el', (_ :: t). cbn [length for_n]. split; [|split_and!; [|done| |lia]].
    + erewrite run_bind_Done by (by apply insert_one_run). cbn [length skipn app]. rewrite ?drop_0.
      by rewrite Hrun.
    + by rewrite fmap_cons, Ht.
    + rewrite Hp, Hp1. simpl. by rewrite Permutation_middle.
Qed.

Lemma delete_all_run n i h rs rs' :
  is_heap h → heapSize h = Z.of_nat n → length rs = n →
  ∃ out h' t, run (for_n n i delete_one h) (rs ++ rs') = (t, Done h') ∧
    t.*1 = printed out ∧ StronglySorted Z.le out ∧ out ≡ₚ elems h.
Proof.
  revert i h rs. induction n as [|n IH]; intros i h rs Hh Hs Hrs.
  - exists [], h, []. split_and!; [done|done|constructor|]. unfold elems. by rewrite Hs.
  - destruct (DeleteMin_spec h Hh) as (x & h1 & E & Hh1 & Hp & Hmin & Hs1); [lia|].
    destruct rs as [|r rs]; [done|]. cbn [length] in Hrs.
    destruct (IH (i + 1) h1 rs Hh1) as (out & h' & t & Hrun & Ht & Hsort & Hout); [lia|lia|].
    eexists (x :: out), h', (_ :: t). cbn [for_n app]. split_and!.
    + erewrite run_bind_Done by (by apply delete_one_run). cbn [length skipn app]. rewrite ?drop_0.
      by rewrite Hrun.
    + by rewrite fmap_cons, Ht.
    + constructor; [done|]. by rewrite Hout.
    + by rewrite Hout.
Qed.

(** C1: given the number [n] of elements and [n] integers greater than
    [INT_MIN], fewer than the array has cells, the program reads them, prints
    exactly these integers in ascending order followed by a newline, and
    terminates without going out of the array. *)
Theorem main_sorts l rs r :
  Forall insertable l → Z.of_nat (length l) < HEAP_CELLS → length rs = length l →
  ∃ out t, StronglySorted Z.le out ∧ out ≡ₚ l ∧
    run main (ints_ [Z.of_nat (length l)] :: scanned l ++ rs ++ [r]) = (t, Done tt) ∧
    t.*1 = replicate (S (length l)) ScanInt ++ printed out ++ [Puts nl].
Proof.
  intros Hl Hlen Hrs. set (h0 := Init (mkHeap ∅ 0)).
  assert (is_heap h0) as Hh0 by (split_and!; [done|done|done|intros i ?; cbn in *; lia]).
  destruct (insert_all_run l 0 h0 None (rs ++ [r]) Hh0 Hl Hlen) as (h & el & t1 & R1 & T1 & Hh & Hp & Hs).
  assert (heapSize h = Z.of_nat (length l)) as Hsz by (rewrite Hs; cbn; lia).
  destruct (delete_all_run (length l) 0 h rs [r] Hh Hsz Hrs) as (out & h' & t2 & R2 & T2 & Hsort & Hout).
  pose proof (f_equal length T1) as L1. rewrite length_fmap, length_replicate in L1.
  pose proof (f_equal length T2) as L2. unfold printed in L2. rewrite !length_fmap, Hout in L2.
  unfold elems, contents in L2. rewrite length_fmap, length_seqZ, Hsz, Nat2Z.id in L2.
  assert (length (scanned l) = length l) as L3 by apply length_fmap.
  eexists out, (_ :: t1 ++ t2 ++ [(Puts nl, r)]). split_and!; [done|by rewrite Hout, Hp, app_nil_r| |].
  - unfold main. erewrite run_bind_Done by done. cbn [length skipn app rints ints_ head]. rewrite ?drop_0.
    rewrite need_Some_bind with (a := Z.of_nat (length l)) by done. fold h0.
    unfold for_up. rewrite Z.sub_0_r, Nat2Z.id.
    rewrite (run_bind_Done _ _ _ _ _ R1), drop_app_length' by exact (eq_trans L1 (eq_sym L3)).
    rewrite (run_bind_Done _ _ _ _ _ R2), drop_app_length' by exact (eq_trans L2 (eq_sym Hrs)). done.
  - cbn [fmap list_fmap fst]. rewrite !fmap_app, T1, T2. done.
Qed.

Lemma main_sorts_witness :
  ∃ out t, StronglySorted Z.le out ∧ out ≡ₚ [5; -3; 5; 0] ∧
    run main (ints_ [4] :: scanned [5; -3; 5; 0] ++ replicate 4 (ret_ 0) ++ [ret_ 0]) = (t, Done tt) ∧
    t.*1 = replicate 5 ScanInt ++ printed out ++ [Puts nl].
Proof.
  apply (main_sorts [5; -3; 5; 0] (replicate 4 (ret_ 0)) (ret_ 0)); [|done|done].
  unfold insertable, INT_MIN, INT_MAX. repeat constructor; lia.
Defined.

(** C2: [Insert] and [DeleteMin] implement a bounded priority queue: from a
    well-formed heap, inserting adds the element and keeps the heap order, and
    [DeleteMin] removes and returns a smallest element. *)
Theorem heap_refines_queue h :
  is_heap h →
  (∀ x, insertable x → heapSize h + 1 < HEAP_CELLS →
     ∃ h', Insert x h = Some h' ∧ is_heap h' ∧ elems h' ≡ₚ x :: elems h) ∧
  (1 ≤ heapSize h →
     ∃ x h', DeleteMin h = Some (x, h') ∧ is_heap h' ∧ elems h ≡ₚ x :: elems h' ∧ Forall (Z.le x) (elems h')).
Proof.
  intros Hh. split.
  - intros x [Hx _] Hfit. destruct (Insert_spec x h Hh Hx Hfit) as (h' & ? & ? & ? & _). by exists h'.
  - intros H1. destruct (DeleteMin_spec h Hh H1) as (x & h' & ? & ? & ? & ? & _). by exists x, h'.
Qed.

Lemma heap_refines_queue_witness :
  ∃ h', Insert 7 (Init (mkHeap ∅ 0)) = Some h' ∧ is_heap h' ∧ elems h' ≡ₚ [7].
Proof.
  apply (heap_refines_queue (Init (mkHeap ∅ 0))).
  - split_and!; [done|done|done|intros i ?; cbn in *; lia].
  - unfold insertable, INT_MIN, INT_MAX. lia.
  - unfold HEAP_CELLS. cbn. lia.
Defined.

(** C30: the sentinel is [-INT_MAX], which is greater than [INT_MIN]: inserting
    [INT_MIN] makes the loop of [Insert] run forever on any well-formed heap. *)
Theorem Insert_INT_MIN_diverges h n :
  is_heap h → heapSize h + 1 < HEAP_CELLS → Forall (Z.lt INT_MIN) (elems h) →
  ∃ m now, sift_up n INT_MIN (<[heapSize h + 1 := INT_MIN]> (heap h), heapSize h + 1) = Some (inl (m, now)).
Proof.
  intros (Hsz & H0 & _) Hfit Hel. destruct h as [m size]. cbn [heap heapSize elems] in *.
  assert (∀ i, 0 ≤ i ≤ size → INT_MIN < cell_of m i) as Hall.
  { intros i Hi. destruct (decide (i = 0)) as [->|]; [by rewrite H0|].
    rewrite Forall_forall in Hel. apply Hel. unfold elems, contents. cbn [heap heapSize].
    apply list_elem_of_fmap. exists i. split; [done|]. apply elem_of_seqZ. lia. }
  set (I := λ s : gmap Z Z * Z, 0 ≤ s.2 ≤ size + 1 ∧ ∀ i, 0 ≤ i ≤ s.2 / 2 → INT_MIN < cell_of s.1 i).
  assert (∀ s, I s → ∃ s', sift_up_step INT_MIN s = Some (inl s') ∧ I s') as Hstep.
  { intros [m1 now] [Hn Hm]. cbn [fst snd] in *. unfold sift_up_step. rewrite Z.quot_div_nonneg by lia.
    rewrite hget_Some by lia. cbn [option_bind mbind]. rewrite Z.gtb_ltb.
    rewrite (proj2 (Z.ltb_lt _ _)) by (apply Hm; lia). rewrite hset_Some by lia. cbn [option_bind mbind].
    eexists. split; [done|]. split; cbn [fst snd]; [lia|]. intros i Hi. rewrite cell_insert.
    case_decide; apply Hm; lia. }
  assert (∀ s, I s → ∃ s', sift_up n INT_MIN s = Some (inl s')) as Hloop.
  { unfold sift_up. induction n as [|n IH]; intros s Hs; [by exists s|].
    destruct (Hstep s Hs) as (s1 & E & Hs1). simpl. rewrite E. simpl. by apply IH. }
  destruct (Hloop (<[size + 1 := INT_MIN]> m, size + 1)) as ([m' now] & E); [|by eauto].
  split; cbn [fst snd]; [lia|]. intros i Hi. rewrite cell_insert_ne by lia. apply Hall. lia.
Qed.

Lemma Insert_INT_MIN_diverges_witness :
  ∃ m now, sift_up 1000 INT_MIN (<[1 := INT_MIN]> (heap (Init (mkHeap ∅ 0))), 1) = Some (inl (m, now)).
Proof.
  apply (Insert_INT_MIN_diverges (Init (mkHeap ∅ 0)) 1000).
  - split_and!; [done|done|done|intros i ?; cbn in *; lia].
  - by vm_compute.
  - constructor.
Defined.
