(* ===== verification/Crc.v ===== *)
(** * [errcorrection/crc1.c], [errcorrection/crc.c]: cyclic redundancy checks

    [crc1.c] divides the frame by the generator in a linear feedback shift
    register [r], appends the remainder, reads a received frame and divides
    again.  The reference is polynomial division over GF(2) by a register of
    [n] bits ([rem_bits]); the program is shown to compute it.  [crc.c] does
    the division on character strings. *)

From S2P Require Import Prelude CString Posix.

#[local] Open Scope Z_scope.

(** ** [crc1.c] *)
Module Crc1.

(** [scanf("%d", &b[i])] *)
Definition scan_cell (i : Z) (b : list (option Z)) : prog (list (option Z)) :=
  v ← scan_int;
  match v with
  | Some x => need (iset b i x)
  | None => _ ← need (aget b i); mret b
  end.

(** [for(j = 0; j<n; j++) r[j] = r[j+1]; r[j] = a[i];] *)
Definition shift_in (n i : Z) (a r : list (option Z)) : option (list (option Z)) :=
  r ← for_up 0 n (λ j r, x ← iget r (j + 1); iset r j x) r;
  x ← iget a i; iset r n x.

(** [for(j = 0; j<=n; j++) r[j] = r[j] ^ g[j];] *)
Definition xor_generator (n : Z) (g r : list (option Z)) : option (list (option Z)) :=
  for_up 0 (n + 1) (λ j r, x ← iget r j; y ← iget g j; iset r j (Z.lxor x y)) r.

Record division := Division { reg : list (option Z); quot : list (option Z); k : Z }.

(** The body of the division loops of the sender and of the receiver. *)
Definition divide_step (n : Z) (g a : list (option Z)) (i : Z) (d : division) : option division :=
  r ← (if i >? n then shift_in n i a (reg d) else Some (reg d));
  x ← iget r 0;
  if negb (x =? 0) then
    q ← iset (quot d) (k d) 1;
    r ← xor_generator n g r;
    Some (Division r q (k d + 1))
  else
    q ← iset (quot d) (k d) 0;
    Some (Division r q (k d + 1)).

(** [for(i = n; i<=last; i++) ...] *)
Definition divide (n last : Z) (g a : list (option Z)) (d : division) : option division :=
  for_up n (last + 1) (divide_step n g a) d.

(** [for(j = lo; j<hi; j++) printf("%d ", b[j]);] *)
Definition print_cells (lo hi : Z) (b : list (option Z)) : prog unit :=
  for_up lo hi (λ j _, x ← need (iget b j); puts (dec x +:+ " ")) tt.

(** [for(j = 0; j<=n; j++) r[j] = a[j];] *)
Definition load (n : Z) (a r : list (option Z)) : option (list (option Z)) :=
  for_up 0 (n + 1) (λ j r, x ← iget a j; iset r j x) r.

(** [for(i = m+1; i<=m+n; i++) a[i] = 0;] *)
Definition pad (m n : Z) (a : list (option Z)) : option (list (option Z)) :=
  for_up (m + 1) (m + n + 1) (λ i a, iset a i 0) a.

(** [for(i = m+1, j = 1; i<=m+n; i++, j++) a[i] = r[j];] *)
Definition append_remainder (m n : Z) (r a : list (option Z)) : option (list (option Z)) :=
  for_up (m + 1) (m + n + 1) (λ i a, x ← iget r (i - m); iset a i x) a.

(** [for(i = 1; i<=n; i++) if(r[i]) flag = 0;] *)
Definition check (n : Z) (r : list (option Z)) : option Z :=
  for_up 1 (n + 1) (λ i flag, x ← iget r i; Some (if negb (x =? 0) then 0 else flag)) 1.

Definition INDETERMINATE (n : nat) : list (option Z) := replicate n None.

(** Lines 8-74: read the generator and the frame, print the transmitted frame. *)
Definition sender : prog (Z * list (option Z) * list (option Z) * division) :=
  puts "Enter the degree of generator : ";;
  n ← scan_int; n ← need n;
  puts (nl +:+ "Enter the generator : " +:+ nl);;
  g ← for_up 0 (n + 1) scan_cell (INDETERMINATE 16);
  puts (nl +:+ "Enter the degree of frame : ");;
  m ← scan_int; m ← need m;
  puts ("Enter the frame : " +:+ nl);;
  a ← for_up 0 (m + 1) scan_cell (INDETERMINATE 16);
  proper ← (if m <? n then mret false else
    x ← need (iget g 0);
    if x =? 0 then mret false else
    y ← need (iget g n);
    mret (negb (y =? 0)));
  (if (proper : bool) then mret tt else puts ("Not a proper generator " +:+ nl);; Halt 0);;
  a ← need (pad m n a);
  r ← need (load n a (INDETERMINATE 20));
  d ← need (divide n (m + n) g a (Division r (INDETERMINATE 16) 0));
  puts (nl +:+ "Quotient is : ");;
  print_cells 0 (k d) (quot d);;
  puts (nl +:+ "Reminder is : ");;
  print_cells 1 (n + 1) (reg d);;
  puts (nl +:+ "Transmitted frame  is : ");;
  a ← need (append_remainder m n (reg d) a);
  print_cells 0 (m + n + 1) a;;
  mret (n, g, a, d).

(** Lines 75-126: read a received frame and divide it. *)
Definition receiver (s : Z * list (option Z) * list (option Z) * division) : prog Z :=
  let '(n, g, a, d) := s in
  puts nl;;
  puts (nl +:+ "Enter the degree of frame : ");;
  m ← scan_int; m ← need m;
  puts ("Enter the frame : " +:+ nl);;
  a ← for_up 0 (m + 1) scan_cell a;
  r ← need (load n a (reg d));
  d ← need (divide n m g a (Division r (quot d) 0));
  puts (nl +:+ "Quotient is : ");;
  print_cells 0 (k d) (quot d);;
  puts (nl +:+ "Reminder is : ");;
  print_cells 1 (n + 1) (reg d);;
  flag ← need (check n (reg d));
  (if negb (flag =? 0) then puts (nl +:+ " No Error" +:+ nl) else puts (nl +:+ "Error"));;
  mret 0.

Definition main : prog Z := s ← sender; receiver s.

(** *** The reference: division over GF(2)

    [step g R b] shifts the bit [b] into the register [R] and subtracts the
    generator when the bit shifted out is set. *)
Definition xors : list bool → list bool → list bool := zip_with xorb.

Definition step (g R : list bool) (b : bool) : list bool :=
  match R ++ [b] with
  | h :: t => if h then xors t (tail g) else t
  | [] => []
  end.

Definition zeros (n : nat) : list bool := replicate n false.

Definition rem_bits (g l : list bool) : list bool := foldl (step g) (zeros (length g - 1)) l.

(** The transmitted frame: the data bits and the remainder of their multiple
    by x^n. *)
Definition codeword (g a : list bool) : list bool :=
  a ++ rem_bits g (a ++ zeros (length g - 1)).

Definition generator (g : list bool) : Prop :=
  (2 ≤ length g)%nat ∧ head g = Some true ∧ last g = Some true.

(** *** Bit vectors *)

Lemma length_xors x y : length (xors x y) = min (length x) (length y).
Proof. apply length_zip_with. Qed.

Lemma length_zeros n : length (zeros n) = n.
Proof. apply length_replicate. Qed.

Lemma zeros_S_end n : zeros (S n) = zeros n ++ [false].
Proof. apply replicate_S_end. Qed.

Lemma xors_zeros_r x n : n = length x → xors x (zeros n) = x.
Proof. intros ->. induction x as [|b x IH]; [done|]. unfold xors, zeros in *. by destruct b; simpl; rewrite IH. Qed.

Lemma xors_nil x : xors x x = zeros (length x).
Proof. induction x as [|b x IH]; [done|]. unfold xors, zeros in *. by destruct b; simpl; rewrite IH. Qed.

Lemma xors_app x1 x2 y1 y2 :
  length x1 = length y1 → xors (x1 ++ x2) (y1 ++ y2) = xors x1 y1 ++ xors x2 y2.
Proof. apply zip_with_app. Qed.

Lemma xors_interchange a b c d :
  xors (xors a b) (xors c d) = xors (xors a c) (xors b d).
Proof.
  revert b c d. induction a as [|x a IH]; intros [|y b] [|z c] [|w d]; try done. simpl.
  f_equal; [|apply IH]. by destruct x, y, z, w.
Qed.

Lemma length_step g R b : length g = S (length R) → length (step g R b) = length R.
Proof.
  intros Hg. unfold step. destruct R as [|h R]; [by destruct b|]. simpl in *. destruct h.
  - rewrite length_xors, length_tl, length_app. simpl. lia.
  - rewrite length_app. simpl. lia.
Qed.

Lemma length_foldl_step g R l : length g = S (length R) → length (foldl (step g) R l) = length R.
Proof.
  revert R. induction l as [|b l IH]; intros R Hg; simpl; [done|].
  rewrite IH; rewrite length_step by done; done.
Qed.

Lemma length_rem_bits g l : (1 ≤ length g)%nat → length (rem_bits g l) = (length g - 1)%nat.
Proof. intros. unfold rem_bits. rewrite length_foldl_step; rewrite length_zeros; lia. Qed.

(** Division is linear. *)
Lemma step_xor g R R' b b' :
  length g = S (length R) → length R' = length R →
  step g (xors R R') (xorb b b') = xors (step g R b) (step g R' b').
Proof.
  intros Hg HR. unfold step.
  assert (xors R R' ++ [xorb b b'] = xors (R ++ [b]) (R' ++ [b'])) as -> by (by rewrite xors_app).
  destruct R as [|h R], R' as [|h' R']; try done; [by destruct b, b'|]. cbn [app xors zip_with].
  fold (xors (R ++ [b]) (R' ++ [b'])). set (u := R ++ [b]). set (v := R' ++ [b']).
  assert (length u = length (tail g)) as Hu by (unfold u; rewrite length_app, length_tl; simpl in *; lia).
  assert (length v = length (tail g)) as Hv by (unfold v; rewrite length_app, length_tl; simpl in *; lia).
  assert (xors (tail g) (tail g) = zeros (length u)) as Hgg by (rewrite xors_nil; congruence).
  destruct h, h'; cbn [xorb].
  - rewrite xors_interchange, Hgg, xors_zeros_r; [done|]. rewrite length_xors. lia.
  - rewrite <- (xors_zeros_r v (length v)) at 2 by done. rewrite xors_interchange. f_equal.
    rewrite xors_zeros_r; [done|lia].
  - rewrite <- (xors_zeros_r u (length u)) at 2 by done. rewrite xors_interchange. f_equal.
    clear -Hu. rewrite Hu. generalize (tail g). intros l. induction l as [|x l IH]; [done|].
    unfold xors, zeros in *. simpl. by rewrite <- IH.
  - done.
Qed.

Lemma foldl_step_xor g R R' l l' :
  length g = S (length R) → length R' = length R → length l = length l' →
  foldl (step g) (xors R R') (xors l l') = xors (foldl (step g) R l) (foldl (step g) R' l').
Proof.
  revert R R' l'. induction l as [|b l IH]; intros R R' [|b' l'] Hg HR Hl; try done. simpl.
  rewrite step_xor by done. apply IH; rewrite ?length_step; simpl in *; lia.
Qed.

Lemma rem_bits_xor g l l' :
  (1 ≤ length g)%nat → length l = length l' →
  rem_bits g (xors l l') = xors (rem_bits g l) (rem_bits g l').
Proof.
  intros. unfold rem_bits. rewrite <- foldl_step_xor by (rewrite ?length_zeros; lia).
  by rewrite xors_nil, length_zeros.
Qed.

(** The first [n] bits are shifted in unchanged. *)
Lemma foldl_step_load g p q :
  foldl (step g) (zeros (length q) ++ p) q = p ++ q.
Proof.
  revert p. induction q as [|b q IH]; intros p; simpl; [by rewrite app_nil_r|].
  unfold step at 2. cbn [zeros replicate app]. rewrite <- app_assoc.
  change (replicate (length q) false) with (zeros (length q)). rewrite IH, <- app_assoc. done.
Qed.

Lemma rem_bits_load g q l :
  length q = (length g - 1)%nat → rem_bits g (q ++ l) = foldl (step g) q l.
Proof.
  intros Hq. unfold rem_bits. rewrite foldl_app, <- Hq.
  pose proof (foldl_step_load g [] q) as H. rewrite app_nil_r in H. by rewrite H.
Qed.

Lemma step_zero g n b : step g (zeros n) b = match n with O => if b then xors [] (tail g) else [] | S n' => zeros n' ++ [b] end.
Proof. destruct n; done. Qed.

Lemma foldl_step_zeros g n l : foldl (step g) (zeros n) (zeros l) = zeros n.
Proof.
  induction l as [|l IH]; [done|]. simpl. rewrite step_zero. destruct n as [|n]; [done|].
  rewrite <- zeros_S_end. apply IH.
Qed.

(** Zeros do not clear a register that is not clear. *)
Lemma step_false_nonzero g R :
  generator g → length g = S (length R) → R ≠ zeros (length R) → step g R false ≠ zeros (length R).
Proof.
  intros (Hlen & Hh & Hl) Hg HR E. apply HR. unfold step in E.
  destruct R as [|h R]; [done|]. cbn [app length] in *. destruct h.
  - exfalso. destruct g as [|g0 g]; [done|]. cbn [tail] in *.
    destruct (exists_last (l := g)) as (t & x & ->); [by intros ->|].
    rewrite app_comm_cons, last_snoc in Hl. injection Hl as ->.
    cbn [length] in Hg. rewrite length_app in Hg. simpl in Hg.
    rewrite xors_app in E by lia. rewrite zeros_S_end in E.
    apply app_inj_2 in E as [_ E]; [by cbn in E|done].
  - rewrite zeros_S_end in E. apply app_inj_2 in E as [E _]; [by rewrite E at 1|done].
Qed.

Lemma foldl_false_nonzero g R q :
  generator g → length g = S (length R) → R ≠ zeros (length R) →
  foldl (step g) R (zeros q) ≠ zeros (length R).
Proof.
  revert R. induction q as [|q IH]; intros R Hg Hl HR; simpl; [done|].
  assert (length (step g R false) = length R) as E by (by apply length_step).
  rewrite <- E. apply IH; [done|lia|]. rewrite E. by apply step_false_nonzero.
Qed.

(** A burst of at most [n] wrong bits has a remainder, unless it is empty. *)
Lemma rem_bits_burst g p b q :
  generator g → (length b ≤ length g - 1)%nat →
  rem_bits g (zeros p ++ b ++ zeros q) = zeros (length g - 1) ↔ b = zeros (length b).
Proof.
  intros Hg Hb. unfold rem_bits. rewrite !foldl_app, foldl_step_zeros.
  set (n := (length g - 1)%nat) in *. pose proof (proj1 Hg) as Hlen.
  assert (foldl (step g) (zeros n) b = zeros (n - length b) ++ b) as ->.
  { pose proof (foldl_step_load g) as H.
    replace n with (length b + (n - length b))%nat at 1 by lia.
    unfold zeros. rewrite replicate_add. rewrite (H (replicate _ false) b). done. }
  assert (length (zeros (n - length b) ++ b) = n) as Hl by (rewrite length_app, length_zeros; lia).
  split.
  - intros E. destruct (decide (b = zeros (length b))) as [|Hne]; [done|]. exfalso.
    refine (foldl_false_nonzero g (zeros (n - length b) ++ b) q Hg _ _ _).
    + rewrite Hl. unfold n. lia.
    + rewrite Hl. intros E2. apply Hne. replace n with (n - length b + length b)%nat in E2 at 2 by lia.
      unfold zeros in E2. rewrite replicate_add in E2. by apply app_inj_1 in E2 as [_ ?].
    + by rewrite Hl.
  - intros ->. rewrite length_zeros in *. unfold zeros. rewrite <- replicate_add.
    rewrite Nat.sub_add by done. apply foldl_step_zeros.
Qed.

(** The frame the sender transmits has no remainder. *)
Lemma rem_bits_codeword g a :
  (1 ≤ length g)%nat → rem_bits g (codeword g a) = zeros (length g - 1).
Proof.
  intros Hg. unfold codeword. set (n := (length g - 1)%nat). set (R := rem_bits g (a ++ zeros n)).
  assert (length R = n) as HR by (by apply length_rem_bits).
  assert (a ++ R = xors (a ++ zeros n) (zeros (length a) ++ R)) as ->.
  { rewrite xors_app by (by rewrite length_zeros). rewrite xors_zeros_r by done. f_equal.
    rewrite <- HR. clear. induction R as [|b R IH]; [done|]. unfold xors, zeros in *. by destruct b; simpl; rewrite <- IH. }
  rewrite rem_bits_xor by (rewrite ?length_app, ?length_zeros; lia). fold R.
  assert (rem_bits g (zeros (length a) ++ R) = R) as ->.
  { unfold rem_bits. rewrite foldl_app, foldl_step_zeros. fold n. rewrite <- HR.
    pose proof (foldl_step_load g [] R) as H. by rewrite app_nil_r in H. }
  by rewrite xors_nil, HR.
Qed.

(** *** Arrays that hold bits *)

(** The cells of [b] from index [off] on hold the bits [l]. *)
Definition holds (b : list (option Z)) (off : Z) (l : list bool) : Prop :=
  0 ≤ off ∧ off + Z.of_nat (length l) ≤ Z.of_nat (length b) ∧
  ∀ j x, l !! j = Some x → iget b (off + Z.of_nat j) = Some (Z.b2z x).

Lemma holds_get b off l j x : holds b off l → l !! j = Some x → iget b (off + Z.of_nat j) = Some (Z.b2z x).
Proof. intros (_ & _ & H). apply H. Qed.

Lemma holds_app b off l1 l2 :
  holds b off (l1 ++ l2) ↔ holds b off l1 ∧ holds b (off + Z.of_nat (length l1)) l2.
Proof.
  unfold holds. rewrite length_app, Nat2Z.inj_add. split.
  - intros (? & ? & H). split_and!; try lia; intros j x Hj.
    + apply H. by apply lookup_app_l_Some.
    + rewrite <- Z.add_assoc, <- Nat2Z.inj_add. apply H. rewrite lookup_app_r by lia. by rewrite Nat.add_comm, Nat.add_sub.
  - intros ((? & ? & H1) & (? & ? & H2)). split_and!; try lia. intros j x Hj.
    apply lookup_app_Some in Hj as [Hj|[Hle Hj]]; [by apply H1|].
    specialize (H2 _ _ Hj). rewrite Nat2Z.inj_sub in H2 by done. rewrite <- H2. f_equal. lia.
Qed.

(** A loop that writes the bits [l] to [b] from [lo] on, from sources that
    it does not disturb. *)
Lemma fill_loop (l : list bool) lo hi body b0 :
  0 ≤ lo → hi = lo + Z.of_nat (length l) → hi ≤ Z.of_nat (length b0) →
  (∀ j x b, l !! j = Some x → length b = length b0 →
     (∀ i, lo + Z.of_nat j ≤ i → iget b i = iget b0 i) → holds b lo (take j l) →
     body (lo + Z.of_nat j) b = iset b (lo + Z.of_nat j) (Z.b2z x)) →
  ∃ b', for_up lo hi body b0 = Some b' ∧ length b' = length b0 ∧ holds b' lo l ∧
        ∀ i, i < lo ∨ hi ≤ i → iget b' i = iget b0 i.
Proof.
  intros Hlo Hhi Hlen Hbody.
  destruct (for_up_Some (λ i b, length b = length b0 ∧ holds b lo (take (Z.to_nat (i - lo)) l) ∧
      (∀ j, j < lo ∨ i ≤ j → iget b j = iget b0 j)) lo hi body b0) as (b' & E & Hb' & Hh & Hf).
  - lia.
  - intros i b Hi (Hb & Hh & Hf). set (j := Z.to_nat (i - lo)) in *.
    assert (i = lo + Z.of_nat j) as Ei by lia.
    destruct (lookup_lt_is_Some_2 l j) as [x Hx]; [lia|].
    destruct (iset_Some b i (Z.b2z x)) as (b' & Es & Hl'); [lia|].
    exists b'. split; [rewrite <- Es, Ei; apply Hbody; [done|done|intros; apply Hf; lia|done]|].
    split_and!; [congruence| |].
    + replace (Z.to_nat (i + 1 - lo)) with (S j) by lia. rewrite (take_S_r _ _ x) by done.
      assert (length (take j l) = j) as Hj by (rewrite length_take; lia).
      apply holds_app. split.
      * destruct Hh as (H1 & H2 & H3). split_and!; [done|lia|]. intros k y Hk.
        rewrite (iget_iset _ _ _ _ _ Es), decide_False; [by apply H3|].
        apply lookup_lt_Some in Hk. lia.
      * rewrite Hj, <- Ei. split_and!; [lia|simpl; lia|]. intros [|k] y Hk; simpl in Hk; simplify_eq.
        rewrite Z.add_0_r, (iget_iset _ _ _ _ _ Es), decide_True; done.
    + intros k Hk. rewrite (iget_iset _ _ _ _ _ Es), decide_False by lia. apply Hf. lia.
  - split_and!; [done| |done]. rewrite Z.sub_diag. split_and!; [done|simpl; lia|done].
  - exists b'. rewrite take_ge in Hh by lia. split_and!; [done|done|done|].
    intros i Hi. apply Hf. lia.
Qed.

Lemma holds_take b off l j : holds b off l → holds b off (take j l).
Proof.
  intros H. rewrite <- (take_drop j l) in H. by apply holds_app in H as [? _].
Qed.

(** *** The loops of the program *)
Section loops.
Context (g : list bool) (N : nat) (gb : list (option Z)).
Hypothesis (Hg : generator g) (HN : length g = S N) (Hgb : holds gb 0 g).

Abbreviation n := (Z.of_nat N).

Lemma load_spec a l r :
  length l = S N → holds a 0 l → (S N ≤ length r)%nat →
  ∃ r', load n a r = Some r' ∧ length r' = length r ∧ holds r' 0 l.
Proof.
  intros Hl Ha Hr.
  destruct (fill_loop l 0 (n + 1) (λ j r, x ← iget a j; iset r j x) r) as (r' & ? & ? & ? & _); [lia..| |by exists r'].
  intros j x b Hj _ _ _. erewrite holds_get by done. done.
Qed.

Lemma pad_spec a l :
  holds a 0 l → (length l + N ≤ length a)%nat →
  ∃ a', pad (Z.of_nat (length l) - 1) n a = Some a' ∧ length a' = length a ∧ holds a' 0 (l ++ zeros N).
Proof.
  intros Ha Hlen. unfold pad.
  destruct (fill_loop (zeros N) (Z.of_nat (length l) - 1 + 1) (Z.of_nat (length l) - 1 + n + 1) (λ i a, iset a i 0) a)
    as (a' & E & Hl' & Hh & Hf).
  - lia.
  - rewrite length_zeros. lia.
  - lia.
  - intros j x b [-> _]%lookup_replicate _ _ _. done.
  - exists a'. split_and!; [done|done|]. apply holds_app. split.
    + destruct Ha as (H1 & H2 & H3). split_and!; [done|lia|]. intros j x Hj.
      rewrite Hf; [by apply H3|]. apply lookup_lt_Some in Hj. lia.
    + by replace (0 + Z.of_nat (length l)) with (Z.of_nat (length l) - 1 + 1) by lia.
Qed.

Lemma append_remainder_spec a l R r :
  holds a 0 l → holds r 0 (false :: R) → length R = N → (length l + N ≤ length a)%nat →
  ∃ a', append_remainder (Z.of_nat (length l) - 1) n r a = Some a' ∧ length a' = length a ∧ holds a' 0 (l ++ R).
Proof.
  intros Ha Hr HR Hlen. unfold append_remainder.
  destruct (fill_loop R (Z.of_nat (length l) - 1 + 1) (Z.of_nat (length l) - 1 + n + 1)
     (λ i a, x ← iget r (i - (Z.of_nat (length l) - 1)); iset a i x) a) as (a' & E & Hl' & Hh & Hf).
  - lia.
  - lia.
  - lia.
  - intros j x b Hj _ _ _. replace (Z.of_nat (length l) - 1 + 1 + Z.of_nat j - (Z.of_nat (length l) - 1)) with (0 + Z.of_nat (S j)) by lia.
    erewrite (holds_get r 0 (false :: R)) by done. done.
  - exists a'. split_and!; [done|done|]. apply holds_app. split.
    + destruct Ha as (H1 & H2 & H3). split_and!; [done|lia|]. intros j x Hj.
      rewrite Hf; [by apply H3|]. apply lookup_lt_Some in Hj. lia.
    + by replace (0 + Z.of_nat (length l)) with (Z.of_nat (length l) - 1 + 1) by lia.
Qed.

Lemma shift_in_spec a i r c R x :
  length R = N → holds r 0 (c :: R) → iget a i = Some (Z.b2z x) →
  ∃ r', shift_in n i a r = Some r' ∧ length r' = length r ∧ holds r' 0 (R ++ [x]).
Proof.
  intros HR Hr Ha. pose proof Hr as (_ & Hb & Hget). unfold shift_in.
  destruct (fill_loop R 0 n (λ j r, x ← iget r (j + 1); iset r j x) r) as (r1 & E & Hl1 & Hh & Hf).
  - lia.
  - lia.
  - simpl in Hb. lia.
  - intros j y b Hj Hlb Hsame _. rewrite Hsame by lia.
    replace (0 + Z.of_nat j + 1) with (0 + Z.of_nat (S j)) by lia. rewrite (Hget (S j) y) by done. done.
  - rewrite E. cbn [option_bind mbind]. rewrite Ha. cbn [option_bind mbind].
    destruct (iset_Some r1 n (Z.b2z x)) as (r2 & E2 & Hl2); [simpl in Hb; lia|].
    exists r2. split_and!; [done|congruence|]. apply holds_app. split.
    + destruct Hh as (H1 & H2 & H3). split_and!; [done|lia|]. intros j y Hj.
      rewrite (iget_iset _ _ _ _ _ E2), decide_False; [by apply H3|]. apply lookup_lt_Some in Hj. lia.
    + split_and!; [lia|simpl in *; lia|]. intros [|k] y Hk; simpl in Hk; simplify_eq.
      rewrite (iget_iset _ _ _ _ _ E2), decide_True; [done|lia].
Qed.

Lemma xor_generator_spec r F :
  length F = S N → holds r 0 F →
  ∃ r', xor_generator n gb r = Some r' ∧ length r' = length r ∧ holds r' 0 (xors F g).
Proof.
  intros HF Hr. pose proof Hr as (_ & Hb & Hget). pose proof Hgb as (_ & _ & Hgget).
  destruct (fill_loop (xors F g) 0 (n + 1) (λ j r, x ← iget r j; y ← iget gb j; iset r j (Z.lxor x y)) r)
    as (r' & ? & ? & ? & _).
  - lia.
  - rewrite length_xors. lia.
  - lia.
  - intros j z b Hj Hlb Hsame _. apply lookup_zip_with_Some in Hj as (x & y & -> & Hx & Hy).
    rewrite Hsame by lia. rewrite (Hget j x) by done. cbn [option_bind mbind].
    rewrite (Hgget j y) by done. cbn [option_bind mbind]. f_equal. by destruct x, y.
  - by exists r'.
Qed.

Lemma rem_bits_take_S l j x :
  l !! j = Some x → rem_bits g (take (S j) l) = step g (rem_bits g (take j l)) x.
Proof. intros H. unfold rem_bits. by rewrite (take_S_r _ _ _ H), foldl_app. Qed.

(** The register before the test [if(r[0])]. *)
Lemma divide_step_spec a i d R x qs :
  length R = N → iget a i = Some (Z.b2z x) →
  (if i >? n then holds (reg d) 0 (false :: R) else holds (reg d) 0 (R ++ [x])) →
  holds (quot d) 0 qs → k d = Z.of_nat (length qs) → (length qs < length (quot d))%nat →
  ∃ d' q, divide_step n gb a i d = Some d' ∧ length (reg d') = length (reg d) ∧
    length (quot d') = length (quot d) ∧
    holds (reg d') 0 (false :: step g R x) ∧ holds (quot d') 0 (qs ++ [q]) ∧ k d' = k d + 1.
Proof.
  intros HR Ha Hreg Hq Hk Hroom. unfold divide_step.
  assert (∃ r, (if i >? n then shift_in n i a (reg d) else Some (reg d)) = Some r ∧
               length r = length (reg d) ∧ holds r 0 (R ++ [x])) as (r & -> & Hlr & Hr).
  { destruct (i >? n); [by eapply shift_in_spec|by exists (reg d)]. }
  cbn [option_bind mbind]. set (F := R ++ [x]) in *.
  assert (length F = S N) as HF by (unfold F; rewrite length_app; simpl; lia).
  assert (∀ q, ∃ b', iset (quot d) (k d) (Z.b2z q) = Some b' ∧ length b' = length (quot d) ∧ holds b' 0 (qs ++ [q])) as Hset.
  { intros q. destruct (iset_Some (quot d) (k d) (Z.b2z q)) as (b' & E & Hl'); [lia|]. exists b'. split_and!; [done|done|].
    apply holds_app. destruct Hq as (H1 & H2 & H3). split; (split_and!; [lia|simpl in *; lia|]).
    - intros j y Hj. rewrite (iget_iset _ _ _ _ _ E), decide_False; [by apply H3|]. apply lookup_lt_Some in Hj. lia.
    - intros [|j] y Hj; simpl in Hj; simplify_eq. rewrite (iget_iset _ _ _ _ _ E), decide_True; [done|lia]. }
  destruct F as [|h t] eqn:EF; [done|].
  rewrite (holds_get r 0 (h :: t) 0 h Hr eq_refl : iget r 0 = _). cbn [option_bind mbind].
  assert (step g R x = if h then xors t (tail g) else t) as -> by (unfold step; fold F; by rewrite EF).
  destruct h; cbn [Z.b2z negb Z.eqb].
  - destruct (Hset true) as (b' & E & Hl' & Hh'). cbn [Z.b2z] in E. rewrite E. cbn [option_bind mbind].
    destruct (xor_generator_spec r (true :: t)) as (r' & -> & Hlr' & Hr'); [done|done|].
    eexists _, true. split; [done|]. cbn [reg quot k]. split_and!; [congruence|done| |done|done].
    destruct Hg as (_ & Hhd & _). destruct g as [|g0 g']; [done|]. simpl in Hhd. by simplify_eq.
  - destruct (Hset false) as (b' & E & Hl' & Hh'). cbn [Z.b2z] in E. rewrite E. cbn [option_bind mbind].
    eexists _, false. split; [done|]. by cbn [reg quot k].
Qed.

Lemma divide_spec a l r q :
  holds a 0 l → (N < length l)%nat → (length l - N ≤ length q)%nat →
  holds r 0 (take (S N) l) →
  ∃ d' qs, divide n (Z.of_nat (length l) - 1) gb a (Division r q 0) = Some d' ∧
    length (reg d') = length r ∧ length (quot d') = length q ∧
    k d' = Z.of_nat (length qs) ∧ length qs = (length l - N)%nat ∧ holds (quot d') 0 qs ∧
    holds (reg d') 0 (false :: rem_bits g l).
Proof.
  intros Ha Hlen Hq Hr. unfold divide.
  destruct (for_up_Some (λ i d, ∃ qs, length (reg d) = length r ∧ length (quot d) = length q ∧
      k d = Z.of_nat (length qs) ∧ Z.of_nat (length qs) = i - n ∧ holds (quot d) 0 qs ∧
      if i >? n then holds (reg d) 0 (false :: rem_bits g (take (Z.to_nat i) l)) else holds (reg d) 0 (take (S N) l))
      n (Z.of_nat (length l) - 1 + 1) (divide_step n gb a) (Division r q 0)) as (d' & E & qs & H1 & H2 & H3 & H4 & H5 & H6).
  - lia.
  - intros i d Hi (qs & H1 & H2 & H3 & H4 & H5 & H6).
    destruct (lookup_lt_is_Some_2 l (Z.to_nat i)) as [x Hx]; [lia|].
    destruct (divide_step_spec a i d (rem_bits g (take (Z.to_nat i) l)) x qs)
      as (d' & q' & E & H1' & H2' & H3' & H4' & H5').
    + rewrite length_rem_bits by lia. lia.
    + destruct Ha as (_ & _ & Hget). rewrite <- (Hget _ _ Hx). f_equal. lia.
    + destruct (i >? n) eqn:Ei; [done|]. rewrite Z.gtb_ltb in Ei. bool_hyps.
      assert (Z.to_nat i = N) as Ej by lia. rewrite Ej in *.
      assert (rem_bits g (take N l) = take N l) as ->.
      { rewrite <- (app_nil_r (take N l)) at 1. rewrite rem_bits_load; [done|rewrite length_take; lia]. }
      by rewrite <- (take_S_r _ _ _ Hx).
    + done.
    + done.
    + lia.
    + exists d'. split; [done|]. exists (qs ++ [q']). rewrite length_app. cbn [length].
      split_and!; [congruence|congruence|lia|lia|done|].
      rewrite (proj2 (Z.gtb_lt (i + 1) n)) by lia. replace (Z.to_nat (i + 1)) with (S (Z.to_nat i)) by lia.
      by rewrite (rem_bits_take_S _ _ _ Hx).
  - exists []. cbn [reg quot k length]. rewrite Z.sub_diag. split_and!; try done.
    + split_and!; [done|simpl; lia|done].
    + by rewrite (proj2 (Z.ltb_ge n n) ltac:(lia) : (n >? n) = false) || by rewrite Z.gtb_ltb, Z.ltb_irrefl.
  - exists d', qs. rewrite (proj2 (Z.gtb_lt _ n)) in H6 by lia. rewrite take_ge in H6 by lia.
    split_and!; try done. lia.
Qed.

(** The verdict of the receiver. *)
Lemma check_spec r R :
  length R = N → holds r 0 (false :: R) →
  check n r = Some (if decide (R = zeros N) then 1 else 0).
Proof.
  intros HR Hr. unfold check.
  destruct (for_up_Some (λ i flag, 1 ≤ i ∧ flag = if decide (take (Z.to_nat i - 1) R = zeros (Z.to_nat i - 1)) then 1 else 0)
    1 (n + 1) (λ i flag, x ← iget r i; Some (if negb (x =? 0) then 0 else flag)) 1) as (f & E & _ & Hf).
  - lia.
  - intros i f Hi [_ Hf]. destruct (lookup_lt_is_Some_2 R (Z.to_nat i - 1)) as [x Hx]; [lia|].
    assert (iget r i = Some (Z.b2z x)) as ->.
    { rewrite <- (holds_get r 0 (false :: R) (Z.to_nat i) x Hr); [f_equal; lia|].
      by replace (Z.to_nat i) with (S (Z.to_nat i - 1)) by lia. }
    eexists. split; [done|]. split; [lia|].
    replace (Z.to_nat (i + 1) - 1)%nat with (S (Z.to_nat i - 1)) by lia.
    rewrite (take_S_r _ _ _ Hx), zeros_S_end. subst f. destruct x; simpl.
    + rewrite decide_False; [done|]. intros [_ ?]%app_inj_2; done.
    + repeat case_decide; try done.
      * exfalso. match goal with H : ¬ _ |- _ => apply H end. f_equal. done.
      * exfalso. match goal with H : ¬ _ |- _ => apply H end. by apply app_inj_2 in H as [? _] || (apply app_inj_2 in H0 as [? _]; done).
  - split; [lia|]. done.
  - rewrite E, Hf. replace (Z.to_nat (n + 1) - 1)%nat with N by lia. by rewrite take_ge by lia.
Qed.
End loops.

(** *** Input and output *)

Definition bits (l : list bool) : list Z := Z.b2z <$> l.
Definition shown (l : list bool) : list string := (λ x, dec (Z.b2z x) +:+ " ") <$> l.

Lemma for_n_scan l i b stdin :
  0 ≤ i → i + Z.of_nat (length l) ≤ Z.of_nat (length b) →
  ∃ b', terminal (for_n (length l) i scan_cell b) (bits l ++ stdin) = ([], Done b', stdin) ∧
    length b' = length b ∧ holds b' i l ∧ ∀ j, j < i → iget b' j = iget b j.
Proof.
  revert i b. induction l as [|x l IH]; intros i b Hi Hlen.
  - exists b. split_and!; [done|done| |done]. split_and!; [done|simpl in *; lia|done].
  - cbn [length] in Hlen. destruct (iset_Some b i (Z.b2z x)) as (b1 & E & L1); [lia|].
    destruct (IH (i + 1) b1) as (b' & R & L & Hh & Hf); [lia|lia|].
    exists b'. cbn [length for_n].
    assert (terminal (scan_cell i b) (bits (x :: l) ++ stdin) = ([], Done b1, bits l ++ stdin)) as Hs.
    { unfold scan_cell. cbn. by rewrite E. }
    rewrite (terminal_bind_Done _ _ _ _ _ _ Hs), R. split_and!; [done|congruence| |].
    + rewrite (holds_app _ _ [x] l : holds b' i (x :: l) ↔ _). split.
      * split_and!; [done|simpl; lia|]. intros [|j] y Hy; simpl in Hy; simplify_eq.
        rewrite Z.add_0_r, Hf, (iget_iset _ _ _ _ _ E), decide_True by lia. done.
      * done.
    + intros j Hj. rewrite Hf, (iget_iset _ _ _ _ _ E), decide_False by lia. done.
Qed.

Lemma scan_cells l hi b stdin :
  hi = Z.of_nat (length l) → (length l ≤ length b)%nat →
  ∃ b', terminal (for_up 0 hi scan_cell b) (bits l ++ stdin) = ([], Done b', stdin) ∧
    length b' = length b ∧ holds b' 0 l.
Proof.
  intros -> Hlen. unfold for_up. rewrite Z.sub_0_r, Nat2Z.id.
  destruct (for_n_scan l 0 b stdin) as (b' & ? & ? & ? & _); [lia|lia|by exists b'].
Qed.

Lemma for_n_print l i b stdin :
  holds b i l →
  terminal (for_n (length l) i (λ j _, x ← need (iget b j); puts (dec x +:+ " ")) tt) stdin
  = (shown l, Done tt, stdin).
Proof.
  revert i. induction l as [|x l IH]; intros i Hh; [done|].
  rewrite (holds_app _ _ [x] l : holds b i (x :: l) ↔ _) in Hh. destruct Hh as [(_ & _ & Hx) Hl].
  specialize (Hx 0%nat x eq_refl). rewrite Z.add_0_r in Hx. cbn [length for_n].
  assert (terminal (x ← need (iget b i); puts (dec x +:+ " ")) stdin = ([dec (Z.b2z x) +:+ " "], Done tt, stdin)) as Hs
    by by rewrite Hx.
  rewrite (terminal_bind_Done _ _ _ _ _ _ Hs), IH by done. done.
Qed.

Lemma print_cells_spec l lo hi b stdin :
  holds b lo l → hi = lo + Z.of_nat (length l) →
  terminal (print_cells lo hi b) stdin = (shown l, Done tt, stdin).
Proof.
  intros Hh ->. unfold print_cells, for_up.
  replace (Z.to_nat (lo + Z.of_nat (length l) - lo)) with (length l) by lia. by apply for_n_print.
Qed.

(** What the sender and the receiver leave in memory. *)
Definition sent (g T : list bool) (s : Z * list (option Z) * list (option Z) * division) : Prop :=
  let '(n, gb, ab, d) := s in
  n = Z.of_nat (length g) - 1 ∧ holds gb 0 g ∧ length ab = 16%nat ∧
  length (reg d) = 20%nat ∧ length (quot d) = 16%nat ∧ holds ab 0 T.

Definition frame_ok (g a : list bool) : Prop :=
  generator g ∧ (length g ≤ length a)%nat ∧ (length a + (length g - 1) ≤ 16)%nat.

Lemma sender_spec g a stdin :
  frame_ok g a →
  ∃ s, ends sender ((Z.of_nat (length g) - 1) :: bits g ++ (Z.of_nat (length a) - 1) :: bits a ++ stdin)
         ((nl +:+ "Transmitted frame  is : ") :: shown (codeword g a)) (Done s) stdin ∧ sent g (codeword g a) s.
Proof.
  intros (Hg & Hga & Hfit). pose proof Hg as (Hg2 & Hg0 & Hgn).
  destruct (length g) as [|N] eqn:HN; [lia|]. replace (Z.of_nat (S N) - 1) with (Z.of_nat N) by lia.
  replace (S N - 1)%nat with N in * by lia.
  destruct (scan_cells g (Z.of_nat N + 1) (INDETERMINATE 16) ((Z.of_nat (length a) - 1) :: bits a ++ stdin))
    as (gb & E1 & Lg & Hgb); [lia|unfold INDETERMINATE; rewrite length_replicate; lia|].
  destruct (scan_cells a (Z.of_nat (length a) - 1 + 1) (INDETERMINATE 16) stdin)
    as (ab & E2 & La & Hab); [lia|unfold INDETERMINATE; rewrite length_replicate; lia|].
  unfold INDETERMINATE in La. rewrite length_replicate in La.
  assert (iget gb 0 = Some 1) as G0.
  { destruct g as [|g0 g']; [done|]. simpl in Hg0. simplify_eq. by apply (holds_get gb 0 _ 0 true Hgb). }
  assert (iget gb (Z.of_nat N) = Some 1) as GN.
  { rewrite last_lookup, HN in Hgn. by apply (holds_get gb 0 _ N true Hgb). }
  destruct (pad_spec g N HN ab a Hab) as (ab1 & E3 & La1 & Hab1); [lia|].
  set (l := a ++ zeros N) in *.
  assert (length l = length a + N)%nat as Hl by (unfold l; rewrite length_app, length_zeros; lia).
  destruct (load_spec g N HN ab1 (take (S N) l) (INDETERMINATE 20)) as (r & E4 & Lr & Hr).
  { rewrite length_take. lia. }
  { by apply holds_take. }
  { unfold INDETERMINATE. rewrite length_replicate. lia. }
  unfold INDETERMINATE in Lr. rewrite length_replicate in Lr.
  destruct (divide_spec g N gb Hg HN Hgb ab1 l r (INDETERMINATE 16) Hab1) as (d & qs & E5 & Ld & Lq & Hk & Hqs & Hq & Hd).
  { lia. } { unfold INDETERMINATE. rewrite length_replicate. lia. } { done. }
  unfold INDETERMINATE in Lq. rewrite length_replicate in Lq.
  set (R := rem_bits g l) in *. assert (length R = N) as HR by (unfold R; rewrite length_rem_bits; lia).
  assert (codeword g a = a ++ R) as Hcw by (unfold codeword; rewrite HN; by replace (S N - 1)%nat with N by lia).
  destruct (append_remainder_spec g N HN ab1 a R (reg d)) as (ab2 & E6 & La2 & Hab2); [|done..|lia|].
  { by apply holds_app in Hab1 as [? _]. }
  exists (Z.of_nat N, gb, ab2, d). split; [|by split_and!; (lia || congruence)].
  unfold sender. repeat ends_step. eapply ends_bind; [exact E1|]. repeat ends_step.
  eapply ends_bind; [exact E2|]. rewrite (proj2 (Z.ltb_ge _ _)) by lia. rewrite G0, GN.
  eapply ends_bind; [done|]. cbn [Z.eqb negb]. repeat ends_step.
  rewrite E3. ends_step. rewrite E4. ends_step.
  replace (Z.of_nat (length a) - 1 + Z.of_nat N) with (Z.of_nat (length l) - 1) by lia.
  rewrite E5. repeat ends_step.
  eapply ends_bind; [apply (print_cells_spec qs); [done|lia]|]. ends_step.
  eapply ends_bind; [apply (print_cells_spec R)|].
  { apply (holds_app _ 0 [false] R) in Hd as [_ Hd]. exact Hd. } { lia. }
  apply ends_exact. eapply terminal_seq; [apply terminal_puts| |reflexivity]. rewrite E6, Hcw.
  eapply (terminal_seq _ _ _ []); [done| |reflexivity].
  eapply terminal_seq; [|done|by rewrite app_nil_r]. apply print_cells_spec; [done|rewrite length_app; lia].
Qed.

Definition verdict (g F : list bool) : string :=
  if decide (rem_bits g F = zeros (length g - 1)) then nl +:+ " No Error" +:+ nl else nl +:+ "Error".

Lemma receiver_spec g T F s stdin :
  sent g T s → generator g → length F = length T → (length g ≤ length F)%nat → (length F ≤ 16)%nat →
  ends (receiver s) ((Z.of_nat (length F) - 1) :: bits F ++ stdin) [verdict g F] (Done 0) stdin.
Proof.
  destruct s as [[[n gb] ab] d]. intros (-> & Hgb & La & Lr & Lq & Hab) Hg HF HgF H16.
  unfold verdict. pose proof Hg as (Hg2 & _).
  destruct (length g) as [|N] eqn:HN; [lia|]. replace (Z.of_nat (S N) - 1) with (Z.of_nat N) by lia.
  replace (S N - 1)%nat with N in * by lia.
  destruct (scan_cells F (Z.of_nat (length F) - 1 + 1) ab stdin) as (ab1 & E1 & La1 & Hab1); [lia|lia|].
  destruct (load_spec g N HN ab1 (take (S N) F) (reg d)) as (r & E2 & Lr1 & Hr).
  { rewrite length_take. lia. } { by apply holds_take. } { lia. }
  destruct (divide_spec g N gb Hg HN Hgb ab1 F r (quot d) Hab1) as (d1 & qs & E3 & Ld & Lq1 & Hk & Hqs & Hq & Hd).
  { lia. } { lia. } { done. }
  set (R := rem_bits g F) in *. assert (length R = N) as HR by (unfold R; rewrite length_rem_bits; lia).
  pose proof (check_spec g N HN (reg d1) R HR Hd) as E4.
  unfold receiver. repeat ends_step. eapply ends_bind; [exact E1|].
  rewrite E2. ends_step. rewrite E3. repeat ends_step.
  eapply ends_bind; [apply (print_cells_spec qs); [done|lia]|]. ends_step.
  eapply ends_bind; [apply (print_cells_spec R)|].
  { apply (holds_app _ 0 [false] R) in Hd as [_ Hd]. exact Hd. } { lia. }
  rewrite E4. ends_step. case_decide; cbn [Z.eqb negb]; by apply ends_exact.
Qed.

(** C3: for a generator of degree [n ≥ 1] with leading and final coefficient
    1 and a frame of at least that degree that fits the arrays, the program
    prints [codeword g a] (the frame followed by the remainder of the division
    over GF(2)) as transmitted frame and stays inside its arrays; and when the
    received frame is the transmitted one with a burst of at most [n] bits
    inverted, it prints "No Error" exactly when no bit was inverted. *)
Theorem crc_detects_bursts g a p b q :
  frame_ok g a → (length b ≤ length g - 1)%nat →
  length (zeros p ++ b ++ zeros q) = length (codeword g a) →
  let F := xors (codeword g a) (zeros p ++ b ++ zeros q) in
  (∃ s, ends sender ((Z.of_nat (length g) - 1) :: bits g ++ (Z.of_nat (length a) - 1) :: bits a)
     ((nl +:+ "Transmitted frame  is : ") :: shown (codeword g a)) (Done s) []) ∧
  ends main ((Z.of_nat (length g) - 1) :: bits g ++ (Z.of_nat (length a) - 1) :: bits a ++
             (Z.of_nat (length F) - 1) :: bits F)
    [if decide (b = zeros (length b)) then nl +:+ " No Error" +:+ nl else nl +:+ "Error"] (Done 0) [].
Proof.
  intros Hok Hb Hlen F. pose proof Hok as (Hg & Hga & Hfit). pose proof Hg as (Hg2 & _).
  assert (length (codeword g a) = length a + (length g - 1))%nat as Hcw.
  { unfold codeword. rewrite length_app, length_rem_bits; lia. }
  assert (length F = length (codeword g a)) as HF by (unfold F; rewrite length_xors; lia).
  split.
  { destruct (sender_spec g a [] Hok) as (s & Hs & _). rewrite app_nil_r in Hs. by exists s. }
  destruct (sender_spec g a ((Z.of_nat (length F) - 1) :: bits F) Hok) as (s & [out Hs] & Hsent).
  unfold main. eapply ends_bind; [exact Hs|]. rewrite <- (app_nil_r (bits F)).
  pose proof (receiver_spec g _ F s [] Hsent Hg HF ltac:(lia) ltac:(lia)) as Hr.
  unfold verdict in Hr.
  assert (rem_bits g F = rem_bits g (zeros p ++ b ++ zeros q)) as HR.
  { unfold F. rewrite rem_bits_xor, rem_bits_codeword by lia.
    assert (length (rem_bits g (zeros p ++ b ++ zeros q)) = (length g - 1)%nat) as <- by (apply length_rem_bits; lia).
    generalize (rem_bits g (zeros p ++ b ++ zeros q)). intros l. clear. induction l as [|x l IH]; [done|].
    unfold xors, zeros in *. simpl. by rewrite IH. }
  rewrite HR in Hr. pose proof (rem_bits_burst g p b q Hg Hb) as Hiff.
  destruct (decide (rem_bits _ _ = _)) as [E|E], (decide (b = _)) as [E'|E']; try done; tauto.
Qed.

Lemma crc_detects_bursts_witness :
  ends main [3; 1; 0; 1; 1;  3; 1; 0; 0; 1;  6; 1; 0; 0; 0; 1; 0; 0] [nl +:+ "Error"] (Done 0) [].
Proof.
  refine (proj2 (crc_detects_bursts [true; false; true; true] [true; false; false; true] 3 [true; false; true] 1 _ _ _)); [|simpl; lia|done].
  split_and!; [|simpl; lia|simpl; lia]. split_and!; [simpl; lia|done|done].
Defined.

(** a generator whose first or last coefficient is 0, or a frame of lower
    degree, is refused: the program prints so and exits, transmitting nothing. *)
Theorem improper_generator g a stdin :
  (1 ≤ length g ≤ 16)%nat → (1 ≤ length a ≤ 16)%nat →
  (length a < length g)%nat ∨ head g = Some false ∨ last g = Some false →
  ends main ((Z.of_nat (length g) - 1) :: bits g ++ (Z.of_nat (length a) - 1) :: bits a ++ stdin)
    ["Not a proper generator " +:+ nl] (Exited 0) stdin.
Proof.
  intros Hg Ha Hbad.
  destruct (scan_cells g (Z.of_nat (length g) - 1 + 1) (INDETERMINATE 16) ((Z.of_nat (length a) - 1) :: bits a ++ stdin))
    as (gb & E1 & Lg & Hgb); [lia|unfold INDETERMINATE; rewrite length_replicate; lia|].
  destruct (scan_cells a (Z.of_nat (length a) - 1 + 1) (INDETERMINATE 16) stdin)
    as (ab & E2 & La & Hab); [lia|unfold INDETERMINATE; rewrite length_replicate; lia|].
  destruct (lookup_lt_is_Some_2 g 0) as [g0 G0]; [lia|].
  destruct (lookup_lt_is_Some_2 g (length g - 1)) as [gn Gn]; [lia|].
  pose proof (holds_get _ _ _ _ _ Hgb G0) as I0. pose proof (holds_get _ _ _ _ _ Hgb Gn) as In.
  assert ((Z.of_nat (length a) - 1 <? Z.of_nat (length g) - 1) = false → g0 && gn = false) as Hor.
  { intros Hlt. bool_hyps. destruct Hbad as [|[Hh|Hl]]; [lia| |].
    - rewrite head_lookup in Hh. by simplify_eq.
    - rewrite last_lookup in Hl. replace (pred (length g)) with (length g - 1)%nat in Hl by lia.
      simplify_eq. apply andb_false_r. }
  unfold main. apply ends_exit. unfold sender. repeat ends_step. eapply ends_bind; [exact E1|].
  repeat ends_step. eapply ends_bind; [exact E2|].
  apply (ends_bind _ _ _ [] false stdin).
  - destruct (Z.of_nat (length a) - 1 <? Z.of_nat (length g) - 1); [done|].
    rewrite Z.add_0_l in I0, In. rewrite (I0 : iget gb 0 = _).
    replace (Z.of_nat (length g) - 1) with (Z.of_nat (length g - 1)) by lia. rewrite In.
    specialize (Hor eq_refl). by destruct g0, gn.
  - cbv iota. apply ends_exit, ends_exact. done.
Qed.

Lemma improper_generator_witness :
  ends main [2; 1; 0; 0;  3; 1; 0; 0; 1] ["Not a proper generator " +:+ nl] (Exited 0) [].
Proof.
  apply (improper_generator [true; false; false] [true; false; false; true] []); [simpl; lia|simpl; lia|].
  by right; right.
Defined.

End Crc1.

(** ** [crc.c]: division of character strings *)
Module Crc0.

Definition zero : ascii := "0"%char.
Definition one : ascii := "1"%char.

(** [gets(b)]: stores the line and a NUL without a bound; 0 at end of file. *)
Definition gets (b : buf) : prog buf :=
  r ← sys (LibCall "gets" [] []);
  if rv r =? 0 then mret b else need (strcpy b (rdata r)).

(** [for(j = 0; j<keylen; j++) key[j] = '0';] or [key[j] = key1[j];] *)
Definition select_key (keylen : Z) (c : ascii) (key1 key : buf) : option buf :=
  if decide (c = zero) then for_up 0 keylen (λ j key, aset key j (Some zero)) key
  else for_up 0 keylen (λ j key, x ← aget key1 j; aset key j x) key.

(** [for(j = keylen-1; j>0; j--) rem[j-1] = temp[j]==key[j] ? '0' : '1';] *)
Definition subtract (keylen : Z) (temp key rem : buf) : option buf :=
  for_up 0 (keylen - 1) (λ t rem,
    let j := keylen - 1 - t in
    x ← aget temp j ≫= id; y ← aget key j ≫= id;
    aset rem (j - 1) (Some (if decide (x = y) then zero else one))) rem.

Record state := State { quot : buf; temp : buf; key : buf; rem : buf }.

Definition divide_step (keylen : Z) (key1 input : buf) (i : Z) (s : state) : option state :=
  c0 ← aget (temp s) 0;
  quot ← aset (quot s) i c0;
  c ← c0;
  key ← select_key keylen c key1 (key s);
  rem ← subtract keylen (temp s) key (rem s);
  x ← aget input (i + keylen);
  rem ← aset rem (keylen - 1) x;
  t ← cstr rem; temp ← strcpy (temp s) t;
  Some (State quot temp key rem).

(** [input[msglen+i]='0'] for [i < keylen-1] *)
Definition pad (keylen msglen : Z) (input : buf) : option buf :=
  for_up 0 (keylen - 1) (λ i input, aset input (msglen + i) (Some zero)) input.

(** [for(i = 0; i<keylen; i++) temp[i]=input[i];] *)
Definition load (keylen : Z) (input temp : buf) : option buf :=
  for_up 0 keylen (λ i temp, c ← aget input i; aset temp i c) temp.

Definition divide (keylen msglen : Z) (key1 input : buf) (s : state) : option state :=
  for_up 0 msglen (divide_step keylen key1 input) s.

(** [for(i = 0; i<n; i++) printf("%c",b[i]);] *)
Definition print_chars (n : Z) (b : buf) : prog unit :=
  for_up 0 n (λ i _, c ← need (aget b i ≫= id); puts (String c EmptyString)) tt.

Definition main : prog unit :=
  puts "Enter Data: ";;
  input ← gets (fresh 100);
  puts "Enter Key: ";;
  key ← gets (fresh 30);
  keylen ← need (strlen key);
  msglen ← need (strlen input);
  key1 ← need (s ← cstr key; strcpy (fresh 30) s);
  input ← need (pad keylen msglen input);
  temp ← need (load keylen input (fresh 30));
  s ← need (divide keylen msglen key1 input (State (fresh 100) temp key (fresh 30)));
  rem ← need (t ← cstr (Crc0.temp s); strcpy (rem s) t);
  puts (nl +:+ "Quotient is ");;
  print_chars msglen (quot s);;
  puts (nl +:+ "Remainder is ");;
  print_chars (keylen - 1) rem;;
  puts (nl +:+ "Final data is: ");;
  print_chars msglen input;;
  print_chars (keylen - 1) rem.

(** *** The missing terminator *)

(** Reading a string that runs into an indeterminate cell is undefined. *)
Lemma cstr_runs_out b k :
  b !! k = Some None → (∀ j, (j < k)%nat → b !! j ≠ Some (Some NUL)) → cstr b = None.
Proof.
  revert k. induction b as [|c b IH]; intros [|k] Hk Hj; simpl in *; simplify_eq; [done|].
  destruct c as [c|]; [|done]. rewrite decide_False by (intros ->; by apply (Hj 0%nat); [lia|]).
  rewrite (IH k); [done|done|]. intros j ?. apply (Hj (S j)). lia.
Qed.

Definition no_nul (b : buf) : Prop := ∀ j, b !! j ≠ Some (Some NUL).

Lemma aset_lookup {A} (l l' : list A) i x j :
  aset l i x = Some l' → l' !! j = if decide (Z.to_nat i = j) then Some x else l !! j.
Proof.
  intros [Hi ->]%aset_inv. case_decide; subst.
  - apply list_lookup_insert_eq. lia.
  - by apply list_lookup_insert_ne.
Qed.

Lemma lit_lookup_NUL s junk j :
  nonul s = true → (lit s ++ replicate junk None) !! j = Some (Some NUL) → j = String.length s.
Proof.
  revert j. induction s as [|c s IH]; intros j Hs; simpl.
  - destruct j; [done|]. simpl. intros [? _]%lookup_replicate. done.
  - simpl in Hs. apply andb_true_iff in Hs as [Hc Hs]. destruct j as [|j].
    + intros [= ->]. by rewrite Ascii.eqb_refl in Hc.
    + intros Hj. f_equal. by apply IH.
Qed.

Lemma gets_fresh n line b :
  nonul line = true → strcpy (fresh n) line = Some b →
  cstr b = Some line ∧ (String.length line < n)%nat ∧ length b = n ∧
  ∀ j, b !! j = Some (Some NUL) → j = String.length line.
Proof.
  intros Hl E. assert (String.length line < n)%nat as Hlt.
  { unfold strcpy, strcpy_at, store in E. case_decide as Hd; [|done].
    rewrite length_lit in Hd. unfold fresh in Hd. rewrite length_replicate in Hd. lia. }
  pose proof (cstr_strcpy _ _ _ Hl E). unfold fresh in E.
  rewrite strcpy_Some in E by (rewrite length_replicate; lia). simplify_eq.
  split_and!; [done|done| |].
  - rewrite length_app, length_lit, length_drop, length_replicate. lia.
  - intros j. rewrite drop_replicate. by apply lit_lookup_NUL.
Qed.

(** The padding overwrites the terminator of the data. *)
Lemma pad_no_nul keylen msglen input input' :
  2 ≤ keylen → 0 ≤ msglen → (∀ j, input !! j = Some (Some NUL) → Z.of_nat j = msglen) →
  pad keylen msglen input = Some input' → no_nul input'.
Proof.
  intros Hk Hm Hin E. unfold pad in E.
  apply (for_up_inv (λ i b, (i = 0 ∧ ∀ j, b !! j = Some (Some NUL) → Z.of_nat j = msglen) ∨ (0 < i ∧ no_nul b))) in E.
  - destruct E as [[? _]|[_ ?]]; [lia|done].
  - intros i b b' Hi HI Hb. right. split; [lia|]. intros j Hj.
    rewrite (aset_lookup _ _ _ _ _ Hb) in Hj. case_decide as Hd; [by simplify_eq|].
    destruct HI as [[-> HI]|[_ HI]]; [|by apply (HI j)]. specialize (HI j Hj). lia.
  - by left.
Qed.

(** One round of the division reaches the unterminated [rem]. *)
Lemma first_round_undefined keylen key1 input i s :
  1 ≤ keylen < 30 → no_nul input → rem s = fresh 30 →
  divide_step keylen key1 input i s = None.
Proof.
  intros Hk Hin Hrem. unfold divide_step.
  destruct (aget (temp s) 0) as [[c|]|]; cbn [option_bind mbind]; [|by destruct aset|done].
  destruct (aset (quot s) i (Some c)) as [q|]; [|done]. cbn [option_bind mbind].
  destruct (select_key keylen c key1 (key s)) as [ky|]; [|done]. cbn [option_bind mbind].
  destruct (subtract keylen (temp s) ky (rem s)) as [rm|] eqn:E; [|done]. cbn [option_bind mbind].
  assert (no_nul rm ∧ ∀ j, keylen ≤ Z.of_nat j < 30 → rm !! j = Some None) as [Hno Hnone].
  { unfold subtract in E. apply (for_up_inv (λ _ b, no_nul b ∧ ∀ j, keylen ≤ Z.of_nat j < 30 → b !! j = Some None)) in E;
      [done| |].
    - intros t b b' Ht [H1 H2]. cbv beta zeta.
      destruct (aget (temp s) (keylen - 1 - t) ≫= id) as [x|]; [|done]. cbn [option_bind mbind].
      destruct (aget ky (keylen - 1 - t) ≫= id) as [y|]; [|done]. cbn [option_bind mbind]. intros Hb.
      split; intros j; rewrite (aset_lookup _ _ _ _ _ Hb).
      + repeat case_decide; (apply H1 || done).
      + intros Hj. rewrite decide_False by lia. by apply H2.
    - rewrite Hrem. split.
      + intros j [? _]%lookup_replicate. done.
      + intros j Hj. apply lookup_replicate. split; [done|lia]. }
  destruct (aget input (i + keylen)) as [x|] eqn:Ex; [|done]. cbn [option_bind mbind].
  destruct (aset rm (keylen - 1) x) as [rm'|] eqn:E'; [|done]. cbn [option_bind mbind].
  rewrite (cstr_runs_out rm' (Z.to_nat keylen)); [done| |].
  - rewrite (aset_lookup _ _ _ _ _ E'), decide_False by lia. apply Hnone. lia.
  - intros j Hj. rewrite (aset_lookup _ _ _ _ _ E'). case_decide; [|apply Hno].
    intros [= ->]. unfold aget in Ex. case_decide; [|done]. by apply (Hin (Z.to_nat (i + keylen))).
Qed.

(** [rem] is never terminated: for every non-empty data and every key of
    at least two characters the program runs into undefined behaviour (in
    [strcpy(temp,rem)] at the latest) before printing any result. *)
Theorem undefined_on_all_data data ky r0 r1 rs :
  nonul data = true → nonul ky = true → data ≠ EmptyString → (2 ≤ String.length ky)%nat →
  run main (r0 :: bytes_ data :: r1 :: bytes_ ky :: rs) =
    (take (if decide (String.length data < 100)%nat then 4 else 2)
       [(Puts "Enter Data: ", r0); (LibCall "gets" [] [], bytes_ data);
        (Puts "Enter Key: ", r1); (LibCall "gets" [] [], bytes_ ky)], UB).
Proof.
  intros Hd Hk Hd0 Hk2. unfold main, gets. cbn -[strcpy fresh strlen pad load divide].
  rewrite (proj2 (Z.eqb_neq _ _)) by (destruct data; [done|simpl; lia]).
  assert (∀ n line, (String.length line < n)%nat ↔ is_Some (strcpy (fresh n) line)) as Hcpy.
  { intros n line. unfold strcpy, strcpy_at, store, fresh. rewrite length_lit, length_replicate.
    case_decide; [|by split; [lia|intros [? ?]]]. split; [by eexists|intros; lia]. }
  destruct (strcpy (fresh 100) data) as [input|] eqn:E1.
  2: { rewrite decide_False; [done|]. rewrite Hcpy, E1. by intros [? ?]. }
  rewrite decide_True by (rewrite Hcpy, E1; done).
  destruct (gets_fresh _ _ _ Hd E1) as (C1 & L1 & _ & N1). cbn -[strcpy fresh strlen pad load divide].
  rewrite (proj2 (Z.eqb_neq (Z.of_nat (String.length ky)) 0)) by lia.
  destruct (strcpy (fresh 30) ky) as [key|] eqn:E2; [|done].
  destruct (gets_fresh _ _ _ Hk E2) as (C2 & L2 & Lk & N2). cbn -[strcpy fresh strlen pad load divide].
  unfold strlen. rewrite C1, C2. cbn -[strcpy fresh strlen pad load divide]. rewrite E2. cbn -[strcpy fresh strlen pad load divide].
  destruct (pad _ _ input) as [input'|] eqn:E3; [|done].
  cbn [need mbind prog_mbind prog_bind].
  destruct (load _ input' (fresh 30)) as [temp0|]; [|done].
  assert (∀ s, rem s = fresh 30 → divide (Z.of_nat (String.length ky)) (Z.of_nat (String.length data)) key input' s = None) as Hdiv.
  { intros s Hs. unfold divide, for_up. destruct data as [|c data]; [done|].
    replace (Z.to_nat (Z.of_nat (String.length (String c data)) - 0)) with (S (String.length data)) by (simpl; lia).
    cbn [for_n]. rewrite first_round_undefined; [done|lia| |done].
    refine (pad_no_nul _ _ _ _ _ _ _ E3); [lia|lia|]. intros j Hj. by rewrite (N1 j Hj). }
  cbn [need mbind prog_mbind prog_bind]. by rewrite Hdiv.
Qed.

Lemma undefined_on_all_data_witness :
  outcome_of main [ret_ 0; bytes_ "1001"; ret_ 0; bytes_ "1011"] = UB.
Proof.
  unfold outcome_of. by rewrite (undefined_on_all_data "1001" "1011" (ret_ 0) (ret_ 0) []) by (done || simpl; lia).
Defined.

End Crc0.
