(* ===== verification/Hamming.v ===== *)
(** * [errcorrection/hamming.cpp], [first.cpp], [first.c]: parity codes

    [hamming.cpp] inserts redundancy bits at the positions that are powers of
    two, computes them by counting ones, inverts a bit chosen by the user and
    recomputes the redundancy bits to find the position of the error.  The
    reference is the syndrome: the exclusive or of the positions that hold a
    one.  [first.cpp] appends a parity bit to a number; [first.c] is an earlier
    version whose loop does not advance.

    [cout << ...] of several items is one [Puts] per statement. *)

From S2P Require Import Prelude CString Posix.

#[local] Open Scope Z_scope.

Ltac Zify.zify_post_hook ::= Z.to_euclidean_division_equations.

Module Hamming.

Definition INDETERMINATE (n : nat) : list (option Z) := replicate n None.

(** [cin>>x]: at the end of the input the variable keeps its value. *)
Definition cin (x : option Z) : prog (option Z) :=
  v ← scan_int; mret (match v with Some y => Some y | None => x end).

Definition cin_cell (i : Z) (b : list (option Z)) : prog (list (option Z)) :=
  c ← need (aget b i); x ← cin c; need (aset b i x).

(** Lines 16-19: [for (i=m-1;i>=0;i--) cin>>db[i];] *)
Definition read_frame (m : Z) (db : list (option Z)) : prog (list (option Z)) :=
  for_up 0 m (λ t db, cin_cell (m - 1 - t) db) db.

(** Lines 26-29. *)
Definition show_frame (m : Z) (db : list (option Z)) : prog unit :=
  for_up 0 m (λ i _, x ← need (iget db i); puts (dec x +:+ " ")) tt.

(** Lines 33-40: reverse [db] through [temp]. *)
Definition reverse (m : Z) (db : list (option Z)) : option (list (option Z)) :=
  temp ← for_up 0 m (λ j temp, x ← iget db (m - 1 - j); iset temp j x) (INDETERMINATE 30);
  for_up 0 m (λ i db, x ← iget temp i; iset db i x) db.

Record frame := Frame { df : list (option Z); l : Z; nrb : Z }.

(** Lines 49-66: [for(i=1,j=0;j<m;i++) ...]; [df] has 30 cells, so 30 rounds
    are as many as can be run. *)
Definition insert_step (m : Z) (db : list (option Z)) (s : Z * Z * Z * frame)
    : option ((Z * Z * Z * frame) + frame) :=
  let '(i, j, k, f) := s in
  if j <? m then
    if i =? k then
      d ← iset (df f) i (-1);
      Some (inl (i + 1, j, k * 2, Frame d (l f + 1) (nrb f + 1)))
    else
      x ← iget db j;
      d ← iset (df f) i x;
      Some (inl (i + 1, j + 1, k, Frame d (l f + 1) (nrb f)))
  else Some (inr f).

Definition insert_redundancy (m : Z) (db : list (option Z)) : option frame :=
  r ← loop 30 (insert_step m db) (1, 0, 1, Frame (INDETERMINATE 30) 0 0);
  match r with inr f => Some f | inl _ => None end.

(** [for(i=l;i>0;i--) cout<<df[i]<<" ";] *)
Definition show_down (sep1 sep2 : string) (l : Z) (df : list (option Z)) : prog unit :=
  for_up 0 l (λ t _, x ← need (iget df (l - t)); puts (sep1 +:+ dec x +:+ sep2)) tt.

(** [for(i2=1;i2<=l;i2++) cout<<" "<<df[i2];] *)
Definition show_up (l : Z) (df : list (option Z)) : prog unit :=
  for_up 1 (l + 1) (λ i _, x ← need (iget df i); puts (" " +:+ dec x)) tt.

(** Lines 91-103: the position of the one in a redundancy position. *)
Definition one_position_step (s : Z * Z) : option ((Z * Z) + Z) :=
  let '(i4, i7) := s in
  if 0 <? i7 then
    let i4 := i4 + 1 in
    if i7 =? 1 then Some (inr i4) else Some (inl (i4, Z.quot i7 2))
  else Some (inr i4).

Definition one_position (i1 : Z) : option Z :=
  r ← loop 31 one_position_step (-1, i1);
  match r with inr i4 => Some i4 | inl _ => None end.

(** Lines 111-136: the binary digits of [i2] in [a1]. *)
Definition binary_step (s : list (option Z) * Z * Z) : option ((list (option Z) * Z * Z) + list (option Z)) :=
  let '(a1, i6, i7) := s in
  if 0 <? i7 then
    if i7 =? 1 then a1 ← iset a1 i6 1; Some (inr a1)
    else
      '(a1, i7) ← (if i7 =? 0 then a1 ← iset a1 i6 0; Some (a1, i7)
                   else a1 ← iset a1 i6 (Z.rem i7 2); Some (a1, Z.quot i7 2));
      Some (inl (a1, i6 + 1, i7))
  else Some (inr a1).

Definition binary (a1 : list (option Z)) (i2 : Z) : option (list (option Z)) :=
  a1 ← for_up 0 4 (λ i6 a1, iset a1 i6 (-1)) a1;
  r ← loop 31 binary_step (a1, 0, i2);
  match r with inr a1 => Some a1 | inl _ => None end.

(** Lines 105-149: count the ones at the positions that have the bit [i4]. *)
Definition count_step (i4 : Z) (df : list (option Z)) (i2 : Z) (s : list (option Z) * Z)
    : option (list (option Z) * Z) :=
  let '(a1, i3) := s in
  a1 ← binary a1 i2;
  x ← iget a1 i4;
  if x =? 1 then
    y ← iget df i2;
    Some (a1, if y =? 1 then i3 + 1 else i3)
  else Some (a1, i3).

Definition count_ones (l i4 : Z) (df a1 : list (option Z)) : option (list (option Z) * Z) :=
  for_up 1 (l + 1) (count_step i4 df) (a1, 0).

Record work := Work { wdf : list (option Z); wa1 : list (option Z); rb : list (option Z); i5 : Z; wk : Z }.

(** Lines 87-165 and 214-293: the redundancy bit of position [i1]. *)
Definition redundancy_bit (l i1 : Z) (w : work) : option work :=
  i4 ← one_position i1;
  '(a1, i3) ← count_ones l i4 (wdf w) (wa1 w);
  let bit := if Z.rem i3 2 =? 0 then 0 else 1 in
  d ← iset (wdf w) i1 bit;
  b ← iset (rb w) (i5 w) bit;
  Some (Work d a1 b (i5 w + 1) (wk w)).

(** Lines 82-175. *)
Definition encode_step (l i1 : Z) (w : work) : prog work :=
  x ← need (iget (wdf w) i1);
  if x =? -1 then
    w ← need (redundancy_bit l i1 w);
    b ← need (iget (rb w) (i5 w - 1));
    puts (nl +:+ " R" +:+ dec (i5 w) +:+ " = " +:+ dec b +:+ String "009" " New Frame");;
    show_up l (wdf w);;
    mret w
  else mret w.

(** Lines 178-202.  The condition [df[eb]=1] is an assignment. *)
Definition inject_error (l : Z) (df : list (option Z)) : prog (list (option Z)) :=
  puts nl;;
  puts (nl +:+ " Enter bit number where error is occurred: ");;
  eb ← cin None; eb ← need eb;
  x ← need (iget df eb);
  puts (nl +:+ " Bit at position " +:+ dec eb +:+ " is " +:+ dec x);;
  df ← need (iset df eb 1);
  y ← need (iget df eb);
  df ← need (if negb (y =? 0) then iset df eb 0 else iset df eb 1);
  z ← need (iget df eb);
  puts (" and now changed to " +:+ dec z);;
  puts (nl +:+ " New Frame is");;
  show_down " " "" l df;;
  mret df.

(** Lines 209-298. *)
Definition recalculate_step (l i1 : Z) (w : work) : option work :=
  if i1 =? wk w then
    w ← redundancy_bit l i1 w;
    Some (Work (wdf w) (wa1 w) (rb w) (i5 w) (wk w * 2))
  else Some w.

(** Lines 307-315. *)
Definition error_position (nrb : Z) (rb : list (option Z)) : option Z :=
  '(ep, _) ← for_up 0 nrb (λ i '(ep, j), b ← iget rb i; Some (if b =? 1 then ep + j else ep, j * 2)) (0, 1);
  Some ep.

Definition main : prog Z :=
  puts (nl +:+ " Enter frame size:");;
  m ← cin None; m ← need m;
  puts (nl +:+ " Enter Frame :");;
  db ← read_frame m (INDETERMINATE 30);
  puts (nl +:+ " Enter redundancy bits: ");;
  _ ← cin None;
  puts (nl +:+ " Frame :" +:+ nl +:+ " ");;
  show_frame m db;;
  db ← need (reverse m db);
  f ← need (insert_redundancy m db);
  puts nl;;
  puts (nl +:+ " Frame after introducing redundancy bits :" +:+ nl +:+ " ");;
  show_down "" " " (l f) (df f);;
  w ← for_up 1 (l f + 1) (encode_step (l f)) (Work (df f) (INDETERMINATE 4) (INDETERMINATE 8) 0 1);
  d ← inject_error (l f) (wdf w);
  w ← need (for_up 1 (l f + 1) (recalculate_step (l f)) (Work d (wa1 w) (rb w) 0 1));
  puts (nl +:+ " Redundancy bits:");;
  for_up 0 (nrb f) (λ i _, x ← need (iget (rb w) i); puts (" " +:+ dec x)) tt;;
  ep ← need (error_position (nrb f) (rb w));
  puts (nl +:+ " Error is at : " +:+ dec ep);;
  mret 0.

(** *** The syndrome

    A frame is a function from positions to cell values. *)
Fixpoint syndrome (F : Z → Z) (n : nat) : Z :=
  match n with
  | O => 0
  | S n' => Z.lxor (syndrome F n') (if F (Z.of_nat n) =? 1 then Z.of_nat n else 0)
  end.

Definition upd (F : Z → Z) (i x : Z) : Z → Z := λ j, if decide (j = i) then x else F j.

Lemma upd_eq F i x : upd F i x i = x.
Proof. unfold upd. by rewrite decide_True. Qed.

Lemma upd_ne F i j x : j ≠ i → upd F i x j = F j.
Proof. intros. unfold upd. by rewrite decide_False. Qed.

Lemma syndrome_ext F G n : (∀ i, 1 ≤ i ≤ Z.of_nat n → F i = G i) → syndrome F n = syndrome G n.
Proof.
  induction n as [|n IH]; intros H; [done|]. cbn [syndrome].
  rewrite IH, H by (intros; try apply H; lia). done.
Qed.

(** Equations between exclusive ors hold bit by bit. *)
Ltac xor_bits :=
  apply Z.bits_inj'; intros; rewrite !Z.lxor_spec;
  repeat match goal with |- context [Z.testbit ?a ?b] => destruct (Z.testbit a b) end; done.

Definition one_at (x i : Z) : Z := if x =? 1 then i else 0.

(** Changing one cell. *)
Lemma syndrome_upd F n i x :
  1 ≤ i ≤ Z.of_nat n →
  syndrome (upd F i x) n = Z.lxor (syndrome F n) (Z.lxor (one_at (F i) i) (one_at x i)).
Proof.
  induction n as [|n IH]; intros Hi; [lia|]. cbn [syndrome]. unfold one_at in *.
  destruct (decide (i = Z.of_nat (S n))) as [->|Hne].
  - rewrite upd_eq. rewrite (syndrome_ext (upd F _ x) F) by (intros; apply upd_ne; lia).
    xor_bits.
  - rewrite IH by lia. rewrite upd_ne by lia. xor_bits.
Qed.

Lemma syndrome_bound F n k : 0 ≤ k → Z.of_nat n < 2 ^ k → 0 ≤ syndrome F n < 2 ^ k.
Proof.
  intros Hk. induction n as [|n IH]; intros Hn; cbn [syndrome]; [lia|].
  specialize (IH ltac:(lia)). set (y := if F (Z.of_nat (S n)) =? 1 then Z.of_nat (S n) else 0).
  assert (0 ≤ y < 2 ^ k) as Hy by (unfold y; bool_case; lia).
  assert (0 ≤ Z.lxor (syndrome F n) y) as H0 by (apply Z.lxor_nonneg; lia).
  split; [done|]. destruct (decide (Z.lxor (syndrome F n) y = 0)) as [->|Hnz]; [lia|].
  apply Z.log2_lt_pow2; [lia|]. eapply Z.le_lt_trans; [apply Z.log2_lxor; lia|].
  apply Z.max_lub_lt.
  - destruct (decide (syndrome F n = 0)) as [->|]; [|apply Z.log2_lt_pow2; lia].
    destruct (decide (k = 0)) as [->|]; [|cbn; lia]. assert (y = 0) as -> by lia.
    assert (syndrome F n = 0) as E by lia. by rewrite E in Hnz.
  - destruct (decide (y = 0)) as [Ey|]; [|apply Z.log2_lt_pow2; lia].
    rewrite Ey. destruct (decide (k = 0)) as [->|]; [|cbn; lia].
    assert (syndrome F n = 0) as E by lia. by rewrite E, Ey in Hnz.
Qed.

(** *** Cells and positions *)

(** The cells 1 to [l] of [df] hold [F]. *)
Definition at_positions (df : list (option Z)) (l : Z) (F : Z → Z) : Prop :=
  length df = 30%nat ∧ ∀ i, 1 ≤ i ≤ l → iget df i = Some (F i).

Lemma at_positions_upd df df' l F i x :
  at_positions df l F → iset df i x = Some df' → at_positions df' l (upd F i x).
Proof.
  intros [Hl H] E. unfold iset in E. split; [by rewrite (aset_length _ _ _ _ E)|].
  intros j Hj. unfold iget. rewrite (aget_aset _ _ _ j _ E). unfold upd. repeat case_decide; subst; try done.
  by apply H.
Qed.

Ltac positions i := repeat (destruct (decide (i = 1)) as [->|]; [|destruct (decide (i = 2)) as [->|];
  [|destruct (decide (i = 3)) as [->|]; [|destruct (decide (i = 4)) as [->|]; [|destruct (decide (i = 5)) as [->|];
  [|destruct (decide (i = 6)) as [->|]; [|destruct (decide (i = 7)) as [->|]; [|destruct (decide (i = 8)) as [->|];
  [|destruct (decide (i = 9)) as [->|]; [|destruct (decide (i = 10)) as [->|]; [|destruct (decide (i = 11)) as [->|];
  [|destruct (decide (i = 12)) as [->|]; [|destruct (decide (i = 13)) as [->|]; [|destruct (decide (i = 14)) as [->|];
  [|destruct (decide (i = 15)) as [->|]; [|exfalso; lia]]]]]]]]]]]]]]]).

Lemma binary_bits a1 i2 :
  length a1 = 4%nat → 1 ≤ i2 ≤ 15 →
  ∃ a1', binary a1 i2 = Some a1' ∧ length a1' = 4%nat ∧
    ∀ t, 0 ≤ t ≤ 3 → ∃ x, iget a1' t = Some x ∧ (x =? 1) = Z.testbit i2 t.
Proof.
  intros Ha Hi. do 5 (destruct a1 as [|? a1]; try done). clear Ha.
  positions i2; (eexists; split; [reflexivity|split; [reflexivity|]]);
    intros t Ht; (assert (t = 0 ∨ t = 1 ∨ t = 2 ∨ t = 3) as [->|[->|[->| ->]]] by lia); eexists; done.
Qed.

Lemma count_ones_spec l t df F a1 :
  0 ≤ l ≤ 15 → 0 ≤ t ≤ 3 → length a1 = 4%nat → at_positions df l F →
  ∃ a1' i3, count_ones l t df a1 = Some (a1', i3) ∧ length a1' = 4%nat ∧ 0 ≤ i3 ∧
    Z.odd i3 = Z.testbit (syndrome F (Z.to_nat l)) t.
Proof.
  intros Hl Ht Ha [_ Hdf]. unfold count_ones.
  destruct (for_up_Some (λ i '(a, i3), length a = 4%nat ∧ 0 ≤ i3 ∧
      Z.odd i3 = Z.testbit (syndrome F (Z.to_nat (i - 1))) t) 1 (l + 1) (count_step t df) (a1, 0))
    as ([a' i3] & E & H1 & H2 & H3).
  - lia.
  - intros i [a i3] Hi (H1 & H2 & H3). unfold count_step.
    destruct (binary_bits a i H1) as (a' & -> & La & Hx); [lia|]. cbn [option_bind mbind].
    destruct (Hx t Ht) as (x & -> & Hxt). cbn [option_bind mbind].
    replace (Z.to_nat (i + 1 - 1)) with (S (Z.to_nat (i - 1))) by lia. cbn [syndrome].
    replace (Z.of_nat (S (Z.to_nat (i - 1)))) with i by lia. rewrite Hxt.
    destruct (Z.testbit i t) eqn:Eb.
    + rewrite Hdf by lia. cbn [option_bind mbind]. eexists. split; [done|].
      split_and!; [done|destruct (F i =? 1); lia|]. rewrite Z.lxor_spec, <- H3.
      destruct (F i =? 1); [rewrite Eb, Z.odd_add; done|by rewrite Z.testbit_0_l, xorb_false_r].
    + eexists. split; [done|]. split_and!; [done|done|]. rewrite Z.lxor_spec, <- H3.
      destruct (F i =? 1); [by rewrite Eb, xorb_false_r|by rewrite Z.testbit_0_l, xorb_false_r].
  - split_and!; [done|lia|]. by rewrite Z.testbit_0_l.
  - exists a', i3. split_and!; try done. rewrite H3. do 3 f_equal. lia.
Qed.

Lemma one_position_pow2 t : 0 ≤ t ≤ 3 → one_position (2 ^ t) = Some t.
Proof. intros. assert (t = 0 ∨ t = 1 ∨ t = 2 ∨ t = 3) as [->|[->|[->| ->]]] by lia; done. Qed.

(** The parity bit that position [2^t] receives. *)
Definition parity_of (F : Z → Z) (l t : Z) : Z := Z.b2z (Z.testbit (syndrome F (Z.to_nat l)) t).

Definition work_ok (l : Z) (F : Z → Z) (w : work) : Prop :=
  at_positions (wdf w) l F ∧ length (wa1 w) = 4%nat ∧ length (rb w) = 8%nat.

Lemma redundancy_bit_spec l t F w :
  0 ≤ l ≤ 15 → 0 ≤ t ≤ 3 → 2 ^ t ≤ l → work_ok l F w → i5 w = t →
  ∃ w', redundancy_bit l (2 ^ t) w = Some w' ∧ work_ok l (upd F (2 ^ t) (parity_of F l t)) w' ∧
    i5 w' = t + 1 ∧ wk w' = wk w ∧ iget (rb w') t = Some (parity_of F l t) ∧
    ∀ j, j ≠ t → iget (rb w') j = iget (rb w) j.
Proof.
  intros Hl Ht H2 (Hdf & Ha & Hrb) Hi5. unfold redundancy_bit. rewrite one_position_pow2 by done.
  cbn [option_bind mbind].
  destruct (count_ones_spec l t (wdf w) F (wa1 w) Hl Ht Ha Hdf) as (a1 & i3 & -> & La & Hi3 & Hodd).
  cbn [option_bind mbind].
  assert ((if Z.rem i3 2 =? 0 then 0 else 1) = parity_of F l t) as ->.
  { unfold parity_of. rewrite <- Hodd. rewrite Z.rem_mod_nonneg by lia. rewrite Zmod_odd. by destruct (Z.odd i3). }
  destruct (iset_Some (wdf w) (2 ^ t) (parity_of F l t)) as (d & Ed & Ld); [rewrite (proj1 Hdf); lia|].
  destruct (iset_Some (rb w) t (parity_of F l t)) as (b & Eb & Lb); [rewrite Hrb; lia|].
  rewrite Ed, Hi5. cbn [option_bind mbind]. rewrite Eb. cbn [option_bind mbind].
  eexists. split; [done|]. cbn [wdf wa1 rb i5 wk]. split_and!; try done.
  - split_and!; cbn [wdf wa1 rb]; [by eapply at_positions_upd|done|congruence].
  - by rewrite (iget_iset _ _ _ _ _ Eb), decide_True.
  - intros j Hj. by rewrite (iget_iset _ _ _ _ _ Eb), decide_False.
Qed.

(** *** Layout of the frame *)

Definition is_pow (i : Z) : bool := i =? 2 ^ Z.log2 i.

(** The data bits, in order, at the positions that are not powers of two. *)
Definition layout (zs : list Z) (i : Z) : Z :=
  if is_pow i then -1 else default 0 (zs !! Z.to_nat (i - 2 - Z.log2 i)).

Definition frame_length (m l : Z) : Prop := l = m + Z.log2_up (l + 1) ∧ is_pow l = false ∧ 1 ≤ l ≤ 15.

Definition insert_inv (m : Z) (zs : list Z) (s : Z * Z * Z * frame) : Prop :=
  let '(i, j, k, f) := s in
  1 ≤ i ≤ 16 ∧ j = i - 1 - Z.log2_up i ∧ k = 2 ^ Z.log2_up i ∧ j ≤ m ∧
  (is_pow (i - 1) = true → j < m) ∧
  l f = i - 1 ∧ nrb f = Z.log2_up i ∧ at_positions (df f) (i - 1) (layout zs).

Lemma at_positions_snoc df df' n F x :
  at_positions df (n - 1) F → x = F n → 1 ≤ n → iset df n x = Some df' → at_positions df' n F.
Proof.
  intros [Hl H] -> Hn E. split; [unfold iset in E; by rewrite (aset_length _ _ _ _ E)|].
  intros i Hi. rewrite (iget_iset _ _ _ _ _ E). case_decide; [by subst|]. apply H. lia.
Qed.

Lemma insert_redundancy_spec zs db :
  (1 ≤ length zs ≤ 11)%nat → (∀ j x, zs !! j = Some x → iget db (Z.of_nat j) = Some x) →
  ∃ f, insert_redundancy (Z.of_nat (length zs)) db = Some f ∧
    frame_length (Z.of_nat (length zs)) (l f) ∧ nrb f = Z.log2_up (l f + 1) ∧ at_positions (df f) (l f) (layout zs).
Proof.
  intros Hm Hdb. set (m := Z.of_nat (length zs)). unfold insert_redundancy.
  destruct (loop_dec (insert_inv m zs)
    (λ f, frame_length m (l f) ∧ nrb f = Z.log2_up (l f + 1) ∧ at_positions (df f) (l f) (layout zs))
    (λ s, 16 - s.1.1.1) 30 (insert_step m db) (1, 0, 1, Frame (INDETERMINATE 30) 0 0))
    as (f & -> & Hf); [| |simpl; lia| |by exists f].
  - intros [[[i j] k] f] (Hi & Hj & Hk & Hjm & Hlast & Hl & Hn & Hp). unfold insert_step.
    destruct (j <? m) eqn:Ejm; bool_hyps.
    + left. assert (i ≠ 16) as Hi16 by (intros ->; change (Z.log2_up 16) with 4 in Hj; lia).
      destruct (i =? k) eqn:Eik; bool_hyps.
      * destruct (iset_Some (df f) i (-1)) as (d & E & _); [rewrite (proj1 Hp); lia|].
        rewrite E. eexists. split; [done|]. split; [|simpl; lia].
        assert (is_pow i = true ∧ Z.log2_up (i + 1) = Z.log2_up i + 1) as [Hpow Hlog].
        { rewrite Hk in Eik. clear -Hi Hi16 Eik. positions i; vm_compute in Eik |- *; try done; congruence. }
        split_and!; try lia; cbn [l nrb df]; try lia.
        -- by rewrite Hlog, Z.pow_add_r, Hk by (lia || apply Z.log2_up_nonneg).
        -- replace (i + 1 - 1) with i by lia. eapply at_positions_snoc; [done| |lia|done].
           unfold layout. by rewrite Hpow.
      * assert (is_pow i = false ∧ Z.log2_up (i + 1) = Z.log2_up i ∧ Z.log2_up i = Z.log2 i + 1) as (Hpow & Hlog & Hlog').
        { rewrite Hk in Eik. clear -Hi Hi16 Eik. positions i; vm_compute in Eik |- *; try done; by exfalso. }
        assert (0 ≤ j) as Hj0.
        { rewrite Hj. rewrite Hk in Eik. clear -Hi Hi16 Eik. positions i; vm_compute in Eik |- *; congruence. }
        destruct (lookup_lt_is_Some_2 zs (Z.to_nat j)) as [x Hx]; [lia|]. pose proof (Hdb _ _ Hx) as Hg.
        rewrite Z2Nat.id in Hg by done. rewrite Hg. cbn [option_bind mbind].
        destruct (iset_Some (df f) i x) as (d & E & _); [rewrite (proj1 Hp); lia|].
        rewrite E. eexists. split; [done|]. split; [|simpl; lia].
        split_and!; try lia; cbn [l nrb df]; try lia.
        -- by rewrite Hlog.
        -- replace (i + 1 - 1) with i by lia. by rewrite Hpow.
        -- replace (i + 1 - 1) with i by lia. eapply at_positions_snoc; [done| |lia|done].
           unfold layout. rewrite Hpow. replace (i - 2 - Z.log2 i) with j by lia. by rewrite Hx.
    + right. exists f. split; [done|]. assert (j = m) as -> by lia.
      rewrite Hl, Hn. unfold frame_length. replace (i - 1 + 1) with i by lia.
      assert (i ≠ 1) by (intros ->; cbn in Hj; unfold m in *; lia).
      split_and!; try done; try lia.
      destruct (is_pow (i - 1)); [|done]. specialize (Hlast eq_refl). lia.
  - unfold insert_inv. cbn [l nrb df]. split_and!; try done; try lia.
    split; [done|]. intros i Hi. lia.
  - intros [[[i j] k] f] (Hi & _). simpl. lia.
Qed.

(** *** The two passes over the frame *)

Lemma position_cases i :
  1 ≤ i ≤ 15 →
  (∃ t, 0 ≤ t ≤ 3 ∧ i = 2 ^ t ∧ is_pow i = true ∧ Z.log2_up i = t ∧ Z.log2_up (i + 1) = t + 1) ∨
  (is_pow i = false ∧ Z.log2_up (i + 1) = Z.log2_up i ∧ i ≠ 2 ^ Z.log2_up i).
Proof.
  intros Hi. positions i;
    first [right; split_and!; [reflexivity|reflexivity|by vm_compute]
          |left; first [exists 0; split_and!; by vm_compute|exists 1; split_and!; by vm_compute
                       |exists 2; split_and!; by vm_compute|exists 3; split_and!; by vm_compute]].
Qed.

Lemma one_at_pow2 x t t' : 0 ≤ t → 0 ≤ t' → Z.testbit (one_at x (2 ^ t)) t' = (x =? 1) && (t =? t').
Proof.
  intros Ht Ht'. unfold one_at. destruct (x =? 1); [|by rewrite Z.testbit_0_l].
  destruct (t =? t') eqn:E; bool_hyps; [subst; by rewrite Z.pow2_bits_true|by rewrite Z.pow2_bits_false].
Qed.

(** Setting the parity bit of position [2^t] changes bit [t] of the syndrome only. *)
Lemma syndrome_upd_pow2 F l t x t' :
  2 ^ t ≤ l → 0 ≤ t → 0 ≤ t' →
  Z.testbit (syndrome (upd F (2 ^ t) x) (Z.to_nat l)) t' =
  xorb (Z.testbit (syndrome F (Z.to_nat l)) t') (xorb (F (2 ^ t) =? 1) (x =? 1) && (t =? t')).
Proof.
  intros Hl Ht Ht'. rewrite syndrome_upd by lia. rewrite !Z.lxor_spec, !one_at_pow2 by done.
  by destruct (F (2 ^ t) =? 1), (x =? 1), (t =? t').
Qed.

Lemma parity_of_bit F l t : (parity_of F l t =? 1) = Z.testbit (syndrome F (Z.to_nat l)) t.
Proof. unfold parity_of. by destruct (Z.testbit _ _). Qed.

Definition encode_inv (l : Z) (F0 : Z → Z) (i : Z) (w : work) : Prop :=
  ∃ F, work_ok l F w ∧ i5 w = Z.log2_up i ∧
    (∀ j, 1 ≤ j ≤ l → is_pow j = true → j < i → F j = 0 ∨ F j = 1) ∧
    (∀ j, 1 ≤ j ≤ l → is_pow j = false ∨ i ≤ j → F j = F0 j) ∧
    (∀ t, 0 ≤ t < Z.log2_up i → Z.testbit (syndrome F (Z.to_nat l)) t = false).

Lemma show_up_out l df F stdin :
  0 ≤ l → at_positions df l F → ∃ out, terminal (show_up l df) stdin = (out, Done tt, stdin).
Proof.
  intros Hl [_ Hdf].
  destruct (terminal_for_up (λ _ _, True) 1 (l + 1) (λ i _, x ← need (iget df i); puts (" " +:+ dec x)) tt stdin)
    as (out & [] & E & _); [lia| |done|by exists out].
  intros i [] Hi _. rewrite Hdf by lia. by eexists _, _.
Qed.

Lemma show_down_out s1 s2 l df F stdin :
  0 ≤ l → at_positions df l F → ∃ out, terminal (show_down s1 s2 l df) stdin = (out, Done tt, stdin).
Proof.
  intros Hl [_ Hdf].
  destruct (terminal_for_up (λ _ _, True) 0 l (λ t _, x ← need (iget df (l - t)); puts (s1 +:+ dec x +:+ s2)) tt stdin)
    as (out & [] & E & _); [lia| |done|by exists out].
  intros i [] Hi _. rewrite Hdf by lia. by eexists _, _.
Qed.

Lemma encode_step_spec l F0 i w stdin :
  1 ≤ l ≤ 15 → 1 ≤ i ≤ l →
  (∀ j, 1 ≤ j ≤ l → if is_pow j then F0 j = -1 else F0 j = 0 ∨ F0 j = 1) →
  encode_inv l F0 i w →
  ∃ out w', terminal (encode_step l i w) stdin = (out, Done w', stdin) ∧ encode_inv l F0 (i + 1) w'.
Proof.
  intros Hl Hi HF0 (F & Hok & Hi5 & Hbits & Hsame & Hsyn). unfold encode_step.
  pose proof Hok as ([_ Hdf] & _ & _). rewrite Hdf by done.
  assert (F i = F0 i) as Fi by (apply Hsame; [done|right; lia]).
  pose proof (HF0 i Hi) as H0.
  destruct (position_cases i) as [(t & Ht & Ei & Hpow & Hlog & Hlog')|(Hpow & Hlog & _)]; [lia| |].
  - rewrite Hpow in H0. rewrite Fi, H0. cbn [need mbind prog_mbind prog_bind Z.eqb Pos.eqb].
    destruct (redundancy_bit_spec l t F w) as (w' & E & Hok' & Hi5' & _ & Hrb & _); [lia|lia|lia|done|lia|].
    rewrite Ei, E. cbn [need mbind prog_mbind prog_bind]. rewrite Hi5'.
    replace (t + 1 - 1) with t by lia. rewrite Hrb. cbn [need mbind prog_mbind prog_bind].
    destruct (show_up_out l (wdf w') _ stdin ltac:(lia) (proj1 Hok')) as [out Eout].
    exists ((nl +:+ " R" +:+ dec (t + 1) +:+ " = " +:+ dec (parity_of F l t) +:+ String "009" " New Frame") :: out), w'.
    split.
    { eapply terminal_seq; [apply terminal_puts| |reflexivity]. eapply terminal_seq; [done|done|by rewrite app_nil_r]. }
    exists (upd F (2 ^ t) (parity_of F l t)). rewrite <- Ei, Hlog', Ei. split_and!; [done|done|..].
    + intros j Hj Hpj Hlt. unfold upd. case_decide; [|apply Hbits; [done|done|lia]].
      unfold parity_of. destruct (Z.testbit _ _); simpl; lia.
    + intros j Hj Hor. rewrite upd_ne; [apply Hsame; [done|]|]; destruct Hor as [Hp|]; try lia.
      * by left.
      * intros ->. by rewrite <- Ei, Hpow in Hp.
    + intros t' Ht'. rewrite syndrome_upd_pow2 by lia. rewrite parity_of_bit.
      rewrite <- Ei, Fi, H0. cbn [Z.eqb]. rewrite xorb_false_l.
      destruct (decide (t = t')) as [<-|Hne].
      * by rewrite Z.eqb_refl, andb_true_r, xorb_nilpotent.
      * rewrite (proj2 (Z.eqb_neq t t')), andb_false_r, xorb_false_r by done. apply Hsyn. lia.
  - rewrite Hpow in H0. rewrite Fi. cbn [need mbind prog_mbind prog_bind].
    rewrite (proj2 (Z.eqb_neq _ _)) by lia. exists [], w. split; [done|].
    exists F. rewrite Hlog. split_and!; try done.
    + intros j Hj Hpj Hlt. apply Hbits; [done|done|]. destruct (decide (j = i)) as [->|]; [|lia]. congruence.
    + intros j Hj Hor. apply Hsame; [done|]. destruct Hor; [by left|right; lia].
Qed.

(** The frame that was encoded: the data in order, every redundancy bit a
    bit, and no syndrome. *)
Definition codeword (d : list Z) (l : Z) (F : Z → Z) : Prop :=
  frame_length (Z.of_nat (length d)) l ∧ (∀ i, 1 ≤ i ≤ l → F i = 0 ∨ F i = 1) ∧
  (∀ i, 1 ≤ i ≤ l → is_pow i = false → F i = layout d i) ∧ syndrome F (Z.to_nat l) = 0.

Definition is_bits (d : list Z) : Prop := Forall (λ x, x = 0 ∨ x = 1) d.

Lemma layout_ok d j :
  is_bits d → if is_pow j then layout d j = -1 else layout d j = 0 ∨ layout d j = 1.
Proof.
  intros Hd. unfold layout. destruct (is_pow j); [done|].
  destruct (d !! _) as [x|] eqn:E; [|by left]. simpl. by eapply Forall_lookup_1 in Hd.
Qed.

Lemma encode_pass d l w stdin :
  is_bits d → frame_length (Z.of_nat (length d)) l → work_ok l (layout d) w → i5 w = 0 →
  ∃ out w' F, terminal (for_up 1 (l + 1) (encode_step l) w) stdin = (out, Done w', stdin) ∧
    work_ok l F w' ∧ codeword d l F.
Proof.
  intros Hd Hlen Hok Hi5. pose proof Hlen as (_ & _ & Hl).
  destruct (terminal_for_up (encode_inv l (layout d)) 1 (l + 1) (encode_step l) w stdin)
    as (out & w' & E & F & Hok' & _ & Hbits & Hsame & Hsyn).
  - lia.
  - intros i s Hi HI. apply encode_step_spec; [done|lia| |done]. intros j _. by apply layout_ok.
  - exists (layout d). split; [done|]. split_and!; [by rewrite Hi5|intros; lia|done|intros t Ht; cbn in Ht; lia].
  - exists out, w', F. unfold codeword. split_and!; try done.
    + intros i Hi. destruct (is_pow i) eqn:Ep; [apply Hbits; [done|done|lia]|].
      rewrite Hsame by (done || by left). pose proof (layout_ok d i Hd) as H. by rewrite Ep in H.
    + intros i Hi Ep. apply Hsame; [done|by left].
    + pose proof (syndrome_bound F (Z.to_nat l) (Z.log2_up (l + 1)) (Z.log2_up_nonneg _)) as Hb.
      rewrite Z2Nat.id in Hb by lia. assert (l < 2 ^ Z.log2_up (l + 1)) as Hlt.
      { pose proof (Z.log2_up_spec (l + 1)). lia. }
      specialize (Hb Hlt). apply Z.bits_inj'. intros t Ht. rewrite Z.testbit_0_l.
      destruct (decide (t < Z.log2_up (l + 1))); [by apply Hsyn|].
      rewrite Z.bits_above_log2; [done|lia|].
      destruct (decide (syndrome F (Z.to_nat l) = 0)) as [->|]; [cbn; pose proof (Z.log2_up_nonneg (l + 1)); pose proof (Z.log2_up_pos (l + 1)); lia|].
      apply Z.lt_le_trans with (Z.log2_up (l + 1)); [|lia]. apply Z.log2_lt_pow2; lia.
Qed.

(** *** Injecting and locating an error *)

Lemma upd_upd F i x y : ∀ j, upd (upd F i x) i y j = upd F i y j.
Proof. intros j. unfold upd. by case_decide. Qed.

Lemma at_positions_ext df l F G : (∀ i, F i = G i) → at_positions df l F → at_positions df l G.
Proof. intros E [Hl H]. split; [done|]. intros i Hi. rewrite <- E. by apply H. Qed.

Lemma cin_reads v x rest : terminal (cin v) (x :: rest) = ([], Done (Some x), rest).
Proof. done. Qed.

Lemma inject_error_spec l F df eb rest :
  1 ≤ eb ≤ l → l ≤ 15 → at_positions df l F →
  ∃ out df', terminal (inject_error l df) (eb :: rest) = (out, Done df', rest) ∧ at_positions df' l (upd F eb 0).
Proof.
  intros Heb Hl Hdf. pose proof Hdf as [Hlen Hget].
  destruct (iset_Some df eb 1) as (d1 & E1 & L1); [lia|].
  destruct (iset_Some d1 eb 0) as (d2 & E2 & L2); [lia|].
  assert (at_positions d2 l (upd F eb 0)) as H2.
  { eapply at_positions_ext; [apply (upd_upd F eb 1 0)|]. eapply at_positions_upd; [|exact E2].
    by eapply at_positions_upd. }
  assert (iget d1 eb = Some 1) as G1 by (by rewrite (iget_iset _ _ _ _ _ E1), decide_True).
  assert (iget d2 eb = Some 0) as G2 by (by rewrite (iget_iset _ _ _ _ _ E2), decide_True).
  destruct (show_down_out " " "" l d2 _ rest ltac:(lia) H2) as [out Eout].
  eexists _, d2. split; [|done]. unfold inject_error.
  do 2 (eapply terminal_seq; [apply terminal_puts| |reflexivity]).
  eapply terminal_seq; [apply cin_reads| |reflexivity]. eapply terminal_seq; [done| |reflexivity].
  rewrite Hget by done. eapply terminal_seq; [done| |reflexivity].
  eapply terminal_seq; [apply terminal_puts| |reflexivity].
  rewrite E1. eapply terminal_seq; [done| |reflexivity]. rewrite G1. eapply terminal_seq; [done| |reflexivity].
  cbn [Z.eqb negb]. rewrite E2. eapply terminal_seq; [done| |reflexivity].
  rewrite G2. eapply terminal_seq; [done| |reflexivity].
  do 2 (eapply terminal_seq; [apply terminal_puts| |reflexivity]).
  eapply terminal_seq; [exact Eout|done|reflexivity].
Qed.

Definition recalculate_inv (l : Z) (F : Z → Z) (i : Z) (w : work) : Prop :=
  ∃ G, work_ok l G w ∧ i5 w = Z.log2_up i ∧ wk w = 2 ^ Z.log2_up i ∧
    (∀ t, 0 ≤ t < Z.log2_up i → iget (rb w) t = Some (parity_of F l t)) ∧
    (∀ t, Z.log2_up i ≤ t → Z.testbit (syndrome G (Z.to_nat l)) t = Z.testbit (syndrome F (Z.to_nat l)) t).

Lemma recalculate_pass l F w :
  1 ≤ l ≤ 15 → work_ok l F w → i5 w = 0 → wk w = 1 →
  ∃ w', for_up 1 (l + 1) (recalculate_step l) w = Some w' ∧
    ∀ t, 0 ≤ t < Z.log2_up (l + 1) → iget (rb w') t = Some (parity_of F l t).
Proof.
  intros Hl Hok Hi5 Hwk.
  destruct (for_up_Some (recalculate_inv l F) 1 (l + 1) (recalculate_step l) w) as (w' & E & G & _ & _ & _ & Hrb & _).
  - lia.
  - intros i s Hi (G & Hok' & Hs5 & Hsk & Hrb & Hbits). unfold recalculate_step. rewrite Hsk.
    destruct (position_cases i) as [(t & Ht & Ei & Hpow & Hlog & Hlog')|(Hpow & Hlog & Hne)]; [lia| |].
    + rewrite Hlog, Ei, Z.eqb_refl.
      destruct (redundancy_bit_spec l t G s) as (s' & -> & Hok2 & H5 & Hk2 & Hrbt & Hrbo); [lia|lia|lia|done|lia|].
      eexists. split; [done|]. exists (upd G (2 ^ t) (parity_of G l t)).
      rewrite <- Ei, Hlog', Ei. cbn [wdf wa1 rb i5 wk]. split_and!; [done|done| |..].
      * by rewrite Hk2, Hsk, Hlog, Z.pow_add_r by lia.
      * intros t' Ht'. destruct (decide (t' = t)) as [->|Hne].
        -- rewrite Hrbt. unfold parity_of. rewrite Hbits by lia. done.
        -- rewrite Hrbo by done. apply Hrb. lia.
      * intros t' Ht'. rewrite syndrome_upd_pow2 by lia. rewrite (proj2 (Z.eqb_neq t t')), andb_false_r, xorb_false_r by lia.
        apply Hbits. lia.
    + rewrite (proj2 (Z.eqb_neq _ _)) by done. exists s. split; [done|]. exists G. by rewrite Hlog.
  - exists F. split_and!; [by split_and!; apply Hok|by rewrite Hi5|by rewrite Hwk|intros t Ht; cbn in Ht; lia|done].
  - by exists w'.
Qed.

Lemma error_position_spec nrb rb s :
  0 ≤ nrb → 0 ≤ s < 2 ^ nrb → (∀ t, 0 ≤ t < nrb → iget rb t = Some (Z.b2z (Z.testbit s t))) →
  error_position nrb rb = Some s.
Proof.
  intros Hn Hs Hrb. unfold error_position.
  destruct (for_up_Some (λ i '(ep, j), 0 ≤ i ∧ ep = s mod 2 ^ i ∧ j = 2 ^ i) 0 nrb
    (λ i '(ep, j), b ← iget rb i; Some (if b =? 1 then ep + j else ep, j * 2)) (0, 1)) as ([ep j] & -> & _ & Hep & _).
  - done.
  - intros i [ep j] Hi (_ & -> & ->). rewrite Hrb by done. eexists. split; [done|].
    assert (0 < 2 ^ i) by (apply Z.pow_pos_nonneg; lia).
    split_and!; [lia| |by rewrite Z.pow_add_r by lia].
    rewrite Z.pow_add_r, Z.rem_mul_r by lia. rewrite <- Z.testbit_spec' by lia.
    destruct (Z.testbit s i); simpl; lia.
  - split_and!; [done| |done]. by rewrite Z.mod_1_r.
  - cbn. by rewrite Hep, Z.mod_small.
Qed.

(** Reading the data: the first bit entered ends up first. *)
Lemma read_frame_spec d rest :
  (length d ≤ 30)%nat →
  ∃ db, terminal (read_frame (Z.of_nat (length d)) (INDETERMINATE 30)) (d ++ rest) = ([], Done db, rest) ∧
    length db = 30%nat ∧ ∀ j x, d !! j = Some x → iget db (Z.of_nat (length d) - 1 - Z.of_nat j) = Some x.
Proof.
  intros Hlen. unfold read_frame, for_up. rewrite Z.sub_0_r, Nat2Z.id.
  assert (∀ n d' t b, n = length d' → 0 ≤ t → t + Z.of_nat (length d') = Z.of_nat (length d) → length b = 30%nat →
    ∃ db, terminal (for_n n t (λ t db, cin_cell (Z.of_nat (length d) - 1 - t) db) b) (d' ++ rest) = ([], Done db, rest) ∧
      length db = 30%nat ∧ (∀ j x, d' !! j = Some x → iget db (Z.of_nat (length d) - 1 - t - Z.of_nat j) = Some x) ∧
      ∀ i, Z.of_nat (length d) - 1 - t < i → iget db i = iget b i) as Hloop.
  { clear -Hlen. induction n as [|n IH]; intros d' t b Hn Ht Htl Hb; destruct d' as [|x d']; try done.
    - exists b. split_and!; [done|done|done|done].
    - cbn [length] in *. destruct (iset_Some b (Z.of_nat (length d) - 1 - t) x) as (b1 & E & L); [lia|].
      destruct (IH d' (t + 1) b1) as (db & R & Ld & Hg & Hf); [lia|lia|lia|congruence|].
      exists db. split_and!; [|done| |].
      + cbn [for_n]. eapply (terminal_seq _ _ _ [] b1 (d' ++ rest) []); [|exact R|done].
        unfold cin_cell, cin. destruct (aget_is_Some b (Z.of_nat (length d) - 1 - t)) as [c Hc]; [lia|].
        rewrite Hc. cbn. unfold iset in E. by rewrite E.
      + intros [|j] y Hj; simpl in Hj; simplify_eq.
        * rewrite Hf by lia. rewrite (iget_iset _ _ _ _ _ E), decide_True; [done|lia].
        * rewrite <- (Hg j y Hj). f_equal. lia.
      + intros i Hi. rewrite Hf by lia. rewrite (iget_iset _ _ _ _ _ E), decide_False; [done|lia]. }
  destruct (Hloop (length d) d 0 (INDETERMINATE 30)) as (db & ? & ? & Hg & _); [done|lia|lia|done|].
  exists db. split_and!; [done|done|]. intros j x Hj. rewrite <- (Hg j x Hj). f_equal. lia.
Qed.

Lemma copy_loop d src b (f : Z → Z) :
  (length d ≤ length b)%nat → (∀ j x, d !! j = Some x → iget src (f (Z.of_nat j)) = Some x) →
  ∃ b', for_up 0 (Z.of_nat (length d)) (λ j b, x ← iget src (f j); iset b j x) b = Some b' ∧ length b' = length b ∧
    ∀ j x, d !! j = Some x → iget b' (Z.of_nat j) = Some x.
Proof.
  intros Hlen Hsrc.
  destruct (for_up_Some (λ i b', length b' = length b ∧ ∀ j x, Z.of_nat j < i → d !! j = Some x → iget b' (Z.of_nat j) = Some x)
    0 (Z.of_nat (length d)) (λ j b, x ← iget src (f j); iset b j x) b) as (b' & E & L & Hg).
  - lia.
  - intros i b1 Hi [L Hg]. destruct (lookup_lt_is_Some_2 d (Z.to_nat i)) as [x Hx]; [lia|].
    pose proof (Hsrc _ _ Hx) as Hs. rewrite Z2Nat.id in Hs by lia. rewrite Hs. cbn [option_bind mbind].
    destruct (iset_Some b1 i x) as (b2 & E & L2); [lia|]. exists b2. split; [done|]. split; [congruence|].
    intros j y Hj Hy. rewrite (iget_iset _ _ _ _ _ E). case_decide; [|apply Hg; [lia|done]].
    subst i. rewrite Nat2Z.id in Hx. by simplify_eq.
  - split; [done|]. intros j x Hj. lia.
  - exists b'. split_and!; [done|done|]. intros j x Hx. apply Hg; [|done]. apply lookup_lt_Some in Hx. lia.
Qed.

Lemma reverse_spec d db :
  (length d ≤ 30)%nat → length db = 30%nat →
  (∀ j x, d !! j = Some x → iget db (Z.of_nat (length d) - 1 - Z.of_nat j) = Some x) →
  ∃ db', reverse (Z.of_nat (length d)) db = Some db' ∧ ∀ j x, d !! j = Some x → iget db' (Z.of_nat j) = Some x.
Proof.
  intros Hlen Hdb Hg. unfold reverse.
  destruct (copy_loop d db (INDETERMINATE 30) (λ j, Z.of_nat (length d) - 1 - j)) as (temp & -> & Lt & Ht);
    [done|done|]. cbn [option_bind mbind].
  destruct (copy_loop d temp db id) as (db' & E & _ & H); [lia|done|]. exists db'. by split.
Qed.

Lemma frame_length_unique m l l' : frame_length m l → frame_length m l' → l = l'.
Proof.
  intros (E & Hp & Hl) (E' & Hp' & Hl').
  assert (l - Z.log2_up (l + 1) = l' - Z.log2_up (l' + 1)) as H by lia. clear E E'.
  positions l; try done; positions l'; try done; exfalso; vm_compute in H; lia.
Qed.

Lemma show_frame_out d db stdin :
  (∀ j x, d !! j = Some x → iget db (Z.of_nat (length d) - 1 - Z.of_nat j) = Some x) →
  ∃ out, terminal (show_frame (Z.of_nat (length d)) db) stdin = (out, Done tt, stdin).
Proof.
  intros Hg. destruct (terminal_for_up (λ _ _, True) 0 (Z.of_nat (length d))
    (λ i _, x ← need (iget db i); puts (dec x +:+ " ")) tt stdin) as (out & [] & E & _); [lia| |done|by exists out].
  intros i [] Hi _. destruct (lookup_lt_is_Some_2 d (length d - 1 - Z.to_nat i)) as [x Hx]; [lia|].
  specialize (Hg _ _ Hx). replace (_ - 1 - _) with i in Hg by lia. rewrite Hg. by eexists _, _.
Qed.

Lemma show_down_cases s1 s2 l df stdin :
  ∃ out, terminal (show_down s1 s2 l df) stdin = (out, Done tt, stdin) ∨
         terminal (show_down s1 s2 l df) stdin = (out, UB, stdin).
Proof.
  unfold show_down, for_up. generalize 0 at 2 4. induction (Z.to_nat (l - 0)) as [|n IH]; intros i.
  - exists []. by left.
  - cbn [for_n]. rewrite !terminal_bind. destruct (iget df (l - i)) as [x|]; [|exists []; by right].
    destruct (IH (i + 1)) as [out Hout]. cbn [need mbind prog_mbind prog_bind puts do_ terminal].
    exists ((s1 +:+ dec x +:+ s2) :: out). destruct Hout as [E|E]; rewrite E; [by left|by right].
Qed.

Lemma show_bits_out (n : Z) rb stdin :
  0 ≤ n → (∀ t, 0 ≤ t < n → is_Some (iget rb t)) →
  ∃ out, terminal (for_up 0 n (λ i _, x ← need (iget rb i); puts (" " +:+ dec x)) tt) stdin = (out, Done tt, stdin).
Proof.
  intros Hn Hrb. destruct (terminal_for_up (λ _ _, True) 0 n (λ i _, x ← need (iget rb i); puts (" " +:+ dec x)) tt stdin)
    as (out & [] & E & _); [done| |done|by exists out].
  intros i [] Hi _. destruct (Hrb i Hi) as [x ->]. by eexists _, _.
Qed.

Lemma syndrome_of_error F l eb :
  1 ≤ eb ≤ l → syndrome F (Z.to_nat l) = 0 →
  syndrome (upd F eb 0) (Z.to_nat l) = if F eb =? 1 then eb else 0.
Proof.
  intros Heb Hs. rewrite syndrome_upd, Hs by lia. unfold one_at. cbn [Z.eqb].
  by rewrite Z.lxor_0_r, Z.lxor_0_l.
Qed.

(** C4: for a frame of 1 to 11 data bits and every error position [eb] of the
    resulting frame, the program encodes the data as a Hamming codeword [F]
    (data in order, syndrome 0), and finally prints as error position [eb] if
    that bit of the codeword was 1, and 0 if it was 0: the test [df[eb]=1] is
    an assignment, so a 0 is never turned into a 1. *)
Theorem locates_errors d r eb l :
  (1 ≤ length d ≤ 11)%nat → is_bits d → frame_length (Z.of_nat (length d)) l → 1 ≤ eb ≤ l →
  ∃ F, codeword d l F ∧
    ends main (Z.of_nat (length d) :: d ++ [r; eb])
      [nl +:+ " Error is at : " +:+ dec (if F eb =? 1 then eb else 0)] (Done 0) [].
Proof.
  intros Hd Hbits Hlen Heb. pose proof Hlen as (_ & _ & Hl).
  destruct (read_frame_spec d [r; eb]) as (db & E1 & Ldb & Hdb); [lia|].
  destruct (show_frame_out d db [eb] Hdb) as [o1 E2].
  destruct (reverse_spec d db) as (db' & E3 & Hdb'); [lia|done|done|].
  destruct (insert_redundancy_spec d db' Hd Hdb') as (f & E4 & Hf & Hn & Hdf).
  pose proof (frame_length_unique _ _ _ Hlen Hf) as El. rewrite <- El in *.
  destruct (show_down_out "" " " l (df f) _ [eb] ltac:(lia) Hdf) as [o2 E5].
  destruct (encode_pass d l (Work (df f) (INDETERMINATE 4) (INDETERMINATE 8) 0 1) [eb])
    as (o3 & w & F & E6 & Hw & HF); [done|done|done|done|].
  pose proof Hw as (Hwdf & Hwa & Hwrb).
  destruct (inject_error_spec l F (wdf w) eb [] Heb ltac:(lia) Hwdf) as (o4 & d1 & E7 & Hd1).
  destruct (recalculate_pass l (upd F eb 0) (Work d1 (wa1 w) (rb w) 0 1)) as (w2 & E8 & Hrb2); [done|done|done|done|].
  destruct (show_bits_out (nrb f) (rb w2) []) as [o5 E9].
  { rewrite Hn. apply Z.log2_up_nonneg. } { intros t Ht. rewrite Hrb2; [done|lia]. }
  pose proof HF as (_ & _ & _ & Hsyn).
  assert (error_position (nrb f) (rb w2) = Some (if F eb =? 1 then eb else 0)) as E10.
  { rewrite <- (syndrome_of_error F l eb Heb Hsyn). apply error_position_spec.
    - rewrite Hn. apply Z.log2_up_nonneg.
    - apply syndrome_bound; [rewrite Hn; apply Z.log2_up_nonneg|].
      rewrite Hn. pose proof (Z.log2_up_spec (l + 1)). lia.
    - intros t Ht. rewrite Hrb2 by lia. done. }
  exists F. split; [done|]. unfold main. ends_step. eapply ends_bind; [apply cin_reads|]. repeat ends_step.
  eapply ends_bind; [exact E1|]. ends_step. eapply ends_bind; [apply cin_reads|]. ends_step.
  eapply ends_bind; [exact E2|]. rewrite E3. ends_step. rewrite E4. repeat ends_step. rewrite <- El.
  eapply ends_bind; [exact E5|]. eapply ends_bind; [exact E6|]. eapply ends_bind; [exact E7|].
  rewrite E8. repeat ends_step. eapply ends_bind; [exact E9|]. rewrite E10. ends_step. by apply ends_exact.
Qed.

Lemma locates_errors_witness :
  ∃ F, codeword [1; 0; 1; 1] 7 F ∧
    ends main [4; 1; 0; 1; 1; 3; 5] [nl +:+ " Error is at : " +:+ dec (if F 5 =? 1 then 5 else 0)] (Done 0) [].
Proof.
  apply (locates_errors [1; 0; 1; 1] 3 5 7); [simpl; lia| |split_and!; by vm_compute|lia].
  repeat constructor; lia.
Defined.

(** *** Frames that do not fit *)

Definition long_inv (m : Z) (s : Z * Z * Z * frame) : Prop :=
  let '(i, j, k, f) := s in
  1 ≤ i ≤ k ∧ k = 2 ^ nrb f ∧ 0 ≤ nrb f ∧ 0 ≤ j ∧ i - 1 = j + nrb f ∧ l f = i - 1 ∧ (2 ≤ i → iget (df f) 1 = Some (-1)).

Lemma insert_long m db f :
  12 ≤ m → insert_redundancy m db = Some f → 17 ≤ l f ∧ iget (df f) 1 = Some (-1).
Proof.
  intros Hm E. unfold insert_redundancy in E.
  destruct (loop 30 (insert_step m db) _) as [[s|f']|] eqn:El; [done| |done].
  injection E as ->. revert El.
  apply (loop_inv (long_inv m) (λ f, 17 ≤ l f ∧ iget (df f) 1 = Some (-1))).
  - intros [[[i j] k] f0] s' (Hi & Hk & Hn & Hj0 & Hij & Hl & H1). unfold insert_step. bool_case; [|done].
    destruct (i =? k) eqn:Eik; bool_hyps.
    + destruct (iset (df f0) i (-1)) as [d|] eqn:Ed; [|done]. intros [= <-]. unfold long_inv. cbn [l nrb df].
      assert (2 ^ (nrb f0 + 1) = k * 2) by (rewrite Z.pow_add_r, <- Hk by lia; done).
      split_and!; try lia. intros _. rewrite (iget_iset _ _ _ _ _ Ed).
      case_decide; [done|]. apply H1. lia.
    + destruct (iget db j) as [x|]; [|done]. cbn [option_bind mbind].
      destruct (iset (df f0) i x) as [d|] eqn:Ed; [|done]. intros [= <-]. unfold long_inv. cbn [l nrb df].
      assert (i ≠ 1). { intros ->. assert (nrb f0 = 0) as E0 by lia. rewrite E0 in Hk. cbn in Hk. lia. }
      split_and!; try lia. intros _. rewrite (iget_iset _ _ _ _ _ Ed). rewrite decide_False by lia. apply H1. lia.
  - intros [[[i j] k] f0] a (Hi & Hk & Hn & Hj0 & Hij & Hl & H1). unfold insert_step. bool_case.
    { destruct (i =? k); [by destruct (iset _ _ _)|]. destruct (iget db j); [|done]. cbn. by destruct (iset _ _ _). }
    intros [= <-]. assert (4 < nrb f0).
    { destruct (decide (nrb f0 ≤ 4)) as [Hle|]; [|lia].
      assert (nrb f0 = 0 ∨ nrb f0 = 1 ∨ nrb f0 = 2 ∨ nrb f0 = 3 ∨ nrb f0 = 4) as Hcases by lia.
      destruct Hcases as [E|[E|[E|[E|E]]]]; rewrite E in Hk; cbn in Hk; lia. }
    split; [lia|apply H1; lia].
  - unfold long_inv. cbn [l nrb df]. split_and!; try done; lia.
Qed.

Lemma count_ones_long l t df a1 :
  16 ≤ l → length a1 = 4%nat → count_ones l t df a1 = None.
Proof.
  intros Hl Ha. destruct (count_ones l t df a1) as [[a3 i3]|] eqn:E; [|done]. exfalso. unfold count_ones in E.
  apply (for_up_inv (λ i '(a, _), length a = 4%nat ∧ i ≤ 16)) in E; [destruct E; lia| |done].
  intros i [a n] [a' n'] Hi [La Hi16]. unfold count_step. destruct (decide (i = 16)) as [->|Hne].
  - do 5 (destruct a as [|? a]; try done).
  - destruct (binary_bits a i La) as (a2 & -> & La2 & _); [lia|]. cbn [option_bind mbind].
    destruct (iget a2 t) as [x|]; [|done]. cbn [option_bind mbind]. bool_case.
    + destruct (iget df i); [|done]. cbn. intros [= <- <-]. split; [done|lia].
    + intros [= <- <-]. split; [done|lia].
Qed.

(** C31: positions from 16 on have five binary digits, which do not fit in
    [a1[4]]: with 12 or more data bits the program runs into undefined
    behaviour, whatever the data, before asking for an error position. *)
Theorem long_frames_undefined d r :
  (12 ≤ length d)%nat → goes_wrong main (Z.of_nat (length d) :: d ++ [r]).
Proof.
  intros Hd. unfold main. wrong_step. eapply wrong_later; [apply cin_reads|]. repeat wrong_step.
  destruct (decide (length d ≤ 30)%nat) as [Hle|Hgt].
  2: { apply wrong_here. unfold read_frame, for_up. rewrite Z.sub_0_r, Nat2Z.id.
       destruct (length d) as [|n] eqn:En; [lia|]. cbn [for_n]. apply wrong_here. unfold cin_cell.
       rewrite aget_None by (right; change (length (INDETERMINATE 30)) with 30%nat; lia). by eexists _, _. }
  destruct (read_frame_spec d [r]) as (db & E1 & Ldb & Hdb); [done|].
  eapply wrong_later; [exact E1|]. wrong_step. eapply wrong_later; [apply cin_reads|]. wrong_step.
  destruct (show_frame_out d db [] Hdb) as [o1 E2]. eapply wrong_later; [exact E2|].
  destruct (reverse_spec d db) as (db' & -> & Hdb'); [done..|]. wrong_step.
  apply wrong_need. intros f Hf. apply insert_long in Hf as [Hl H1]; [|lia]. repeat wrong_step.
  destruct (show_down_cases "" " " (l f) (df f) []) as [o2 [E3|E3]]; [|apply wrong_here; by eexists _, _].
  eapply wrong_later; [exact E3|]. apply wrong_here. unfold for_up.
  replace (Z.to_nat (l f + 1 - 1)) with (S (Z.to_nat (l f - 1))) by lia. cbn [for_n]. apply wrong_here.
  unfold encode_step. cbn [wdf]. rewrite H1. wrong_step. cbn [Z.eqb Pos.eqb]. apply wrong_need. intros w Hw. exfalso.
  unfold redundancy_bit in Hw. rewrite (one_position_pow2 0 ltac:(lia) : one_position 1 = _) in Hw.
  cbn [option_bind mbind] in Hw. rewrite count_ones_long in Hw; [done|lia|done].
Qed.

Lemma long_frames_undefined_witness : goes_wrong main (12 :: replicate 12 1 ++ [4]).
Proof. apply (long_frames_undefined (replicate 12 1) 4). simpl. lia. Defined.

End Hamming.

(** ** [first.cpp], [first.c] *)
Module Parity.

(** [while(num) { if(num & 1) count++; num=num>>1; }] *)
Definition count_step (s : Z * Z) : option ((Z * Z) + Z) :=
  let '(num, count) := s in
  if negb (num =? 0) then
    count ← (if negb (Z.land num 1 =? 0) then int_add count 1 else Some count);
    Some (inl (Z.shiftr num 1, count))
  else Some (inr count).

(** An [int] has 31 value bits. *)
Definition count_bits (num : Z) : option Z :=
  r ← loop 32 count_step (num, 0);
  match r with inr count => Some count | inl _ => None end.

(** [temp<<1] of a negative or too large [int] is undefined. *)
Definition shift_left1 (temp : Z) : option Z := if temp <? 0 then None else int_of (Z.shiftl temp 1).

Definition main : prog Z :=
  v ← scan_int; num ← need v;
  let temp := num in
  count ← need (count_bits num);
  let parity := if Z.rem count 2 =? 1 then 1 else 0 in
  puts ("The parity bit is " +:+ dec parity +:+ nl);;
  t ← need (shift_left1 temp);
  puts ("And the transmitted number is " +:+ dec (Z.lor t parity) +:+ nl);;
  mret 0.

(** [first.c]: [while(num>>1) { if(num & 1) count++; }] *)
Definition stuck_step (s : Z * Z) : option ((Z * Z) + Z) :=
  let '(num, count) := s in
  if negb (Z.shiftr num 1 =? 0) then
    count ← (if negb (Z.land num 1 =? 0) then int_add count 1 else Some count);
    Some (inl (num, count))
  else Some (inr count).

(** The number of ones among the low [n] bits. *)
Fixpoint ones (n : nat) (x : Z) : Z :=
  match n with O => 0 | S n' => Z.b2z (Z.odd x) + ones n' (Z.div2 x) end.

Lemma ones_range n x : 0 ≤ ones n x ≤ Z.of_nat n.
Proof.
  revert x. induction n as [|n IH]; intros x; cbn [ones]; [lia|]. specialize (IH (Z.div2 x)).
  destruct (Z.odd x); cbn [Z.b2z]; lia.
Qed.

Lemma count_loop n x c fuel :
  0 ≤ x < 2 ^ Z.of_nat n → (n < fuel)%nat → 0 ≤ c → c + Z.of_nat n ≤ 100 →
  loop fuel count_step (x, c) = Some (inr (c + ones n x)).
Proof.
  revert x c fuel. induction n as [|n IH]; intros x c fuel Hx Hf Hc Hb; (destruct fuel as [|fuel]; [lia|]).
  - assert (x = 0) as -> by (cbn in Hx; lia). cbn. by rewrite Z.add_0_r.
  - rewrite Nat2Z.inj_succ, Z.pow_succ_r in Hx by lia. cbn [loop]. unfold count_step at 2. cbn [ones].
    assert (0 ≤ Z.div2 x < 2 ^ Z.of_nat n) as Hd by (rewrite Z.div2_div; lia).
    bool_case.
    + rewrite Z.land_ones with (n := 1) by lia. change (2 ^ 1) with 2. rewrite Zmod_odd.
      rewrite <- Z.div2_spec. destruct (Z.odd x); cbn [Z.eqb negb Z.b2z].
      * unfold int_add. rewrite int_of_Some.
        2: { unfold fits_int, INT_MIN, INT_MAX. apply andb_true_iff. split; apply Z.leb_le; lia. }
        cbn [option_bind mbind]. rewrite IH by lia. do 2 f_equal. lia.
      * cbn [option_bind mbind]. rewrite IH by lia. done.
    + apply negb_false_iff in Heqb. bool_hyps. subst. cbn. rewrite <- (Z.add_0_r c) at 1. do 3 f_equal.
      clear. induction n as [|n IH]; [done|]. cbn. exact IH.
Qed.

(** For a number below 2^30 the program terminates and transmits the number
    with one more bit such that the count of ones is even; [first.c], whose
    loop does not shift, never leaves its loop unless the number is 0 or 1. *)
Theorem parity_even num :
  0 ≤ num < 2 ^ 30 →
  (∃ t p, terminal main [num] = (["The parity bit is " +:+ dec p +:+ nl;
       "And the transmitted number is " +:+ dec t +:+ nl], Done 0, []) ∧
     Z.div2 t = num ∧ p = Z.b2z (Z.odd t) ∧ Z.even (ones 31 t) = true) ∧
  (2 ≤ num → ∀ n c, loop n stuck_step (num, 0) ≠ Some (inr c)).
Proof.
  intros Hnum. split.
  - set (p := if Z.rem (ones 30 num) 2 =? 1 then 1 else 0). set (t := Z.lor (Z.shiftl num 1) p).
    pose proof (ones_range 30 num) as Hr.
    assert (p = Z.b2z (Z.odd (ones 30 num))) as Hp.
    { unfold p. rewrite Z.rem_mod_nonneg, Zmod_odd by lia. by destruct (Z.odd _). }
    assert (t = 2 * num + p) as Ht.
    { unfold t. rewrite Z.shiftl_mul_pow2 by lia. change (2 ^ 1) with 2. rewrite Hp.
      destruct (Z.odd (ones 30 num)); cbn [Z.b2z]; [|by rewrite Z.lor_0_r; lia].
      apply Z.bits_inj'. intros i Hi. rewrite (Z.mul_comm num 2), Z.lor_spec.
      destruct (decide (i = 0)) as [->|].
      - by rewrite Z.testbit_odd_0, Z.testbit_even_0.
      - replace i with (Z.succ (i - 1)) by lia. rewrite Z.testbit_odd_succ, Z.testbit_even_succ by lia.
        rewrite (Z.bits_above_log2 1) by (cbn; lia). apply orb_false_r. }
    assert (Z.odd t = Z.odd p) as Hodd by (rewrite Ht, Z.odd_add_mul_2 || rewrite Ht, Z.odd_add, Z.odd_mul; by destruct (Z.odd p)).
    assert (Z.div2 t = num) as Hdiv by (rewrite Ht, Z.div2_div, Hp; destruct (Z.odd _); cbn [Z.b2z]; lia).
    exists t, p. split; [|split_and!; [done| |]].
    + assert (count_bits num = Some (ones 30 num)) as Hc.
      { unfold count_bits. rewrite (count_loop 30) by lia. done. }
      unfold main. cbn -[count_bits shift_left1 Z.rem dec]. rewrite Hc. cbn -[count_bits shift_left1 Z.rem dec].
      assert (shift_left1 num = Some (Z.shiftl num 1)) as ->.
      { unfold shift_left1. rewrite (proj2 (Z.ltb_ge _ _)) by lia. apply int_of_Some.
        rewrite Z.shiftl_mul_pow2 by lia. unfold fits_int, INT_MIN, INT_MAX.
        apply andb_true_iff. split; apply Z.leb_le; lia. }
      done.
    + rewrite Hodd, Hp. by destruct (Z.odd (ones 30 num)).
    + change (ones 31 t) with (Z.b2z (Z.odd t) + ones 30 (Z.div2 t)). rewrite Hodd, Hdiv, Z.even_add, Hp.
      rewrite <- !Z.negb_odd. by destruct (Z.odd (ones 30 num)).
  - intros H2 n. assert (∀ k c, loop n stuck_step (num, k) ≠ Some (inr c)) as H; [|apply H].
    induction n as [|n IH]; intros k c; [done|]. cbn [loop]. unfold stuck_step at 2.
    rewrite (proj2 (Z.eqb_neq (Z.shiftr num 1) 0)) by (rewrite Z.shiftr_div_pow2 by lia; change (2 ^ 1) with 2; lia).
    cbn [negb]. destruct (if negb (Z.land num 1 =? 0) then int_add k 1 else Some k) as [k'|]; [|done].
    cbn [option_bind mbind]. apply IH.
Qed.

Lemma parity_even_witness :
  ∃ t p, terminal main [5] = (["The parity bit is " +:+ dec p +:+ nl;
       "And the transmitted number is " +:+ dec t +:+ nl], Done 0, []) ∧
     Z.div2 t = 5 ∧ p = Z.b2z (Z.odd t) ∧ Z.even (ones 31 t) = true.
Proof. apply (parity_even 5). lia. Defined.

End Parity.
