(* ===== verification/Nfs.v ===== *)
(** * [rpc/nfs/nfs_server.c], [rpc/nfs/nfs_client.c]: a remote file service

    The nine service procedures and the command interpreter of the client.
    The stubs and the dispatcher that rpcgen generated, the RPC runtime and the
    file system are the environment: a library call on the file system is a
    [LibCall] whose reply holds its result ([stat] stores the fields of the
    [struct stat] in [rints], [readdir] the name in [rdata]), a stub call is an
    [Rpc] whose reply holds the returned structure.  The [static] result of a
    procedure is its argument and result. *)

From S2P Require Import Prelude CString Posix.

#[local] Open Scope Z_scope.

(** ** The data of [nfs.x] *)

Record bufnode := Bufnode { buffer : buf; size : Z }.
Record file_args_r := FileArgsR { r_filename : buf; r_offset : Z; r_size : Z }.
Record file_args_w := FileArgsW { w_filename : buf; w_offset : Z; w_buffer : buf; w_size : Z }.

Definition F_OK : Z := 0.
Definition W_OK : Z := 2.
Definition R_OK : Z := 4.

Definition access (path : string) (mode : Z) : prog Z := sysv (LibCall "access" [mode] [path]).

Definition S_IFMT : Z := 61440.
Definition S_ISREG (m : Z) : bool := Z.land m S_IFMT =? 32768.
Definition S_ISDIR (m : Z) : bool := Z.land m S_IFMT =? 16384.
Definition S_ISFIFO (m : Z) : bool := Z.land m S_IFMT =? 4096.
Definition S_ISSOCK (m : Z) : bool := Z.land m S_IFMT =? 49152.
Definition S_ISCHR (m : Z) : bool := Z.land m S_IFMT =? 8192.
Definition S_ISBLK (m : Z) : bool := Z.land m S_IFMT =? 24576.

Record stat_t := Stat { st_mode : Z; st_nlink : Z; st_uid : Z; st_gid : Z; st_size : Z; st_mtime : Z }.

(** [stat(path, &sb)] with its result ignored: the fields are indeterminate
    when the call failed. *)
Definition stat (path : string) : prog (option stat_t) :=
  r ← sys (LibCall "stat" [] [path]);
  mret (match rints r with
        | [m; n; u; g; s; t] => if rv r =? 0 then Some (Stat m n u g s t) else None
        | _ => None
        end).

(** ** The server *)
Module Server.

Definition perms_type (st : Z) : ascii :=
  if negb (st =? 0) && S_ISREG st then "-"%char
  else if negb (st =? 0) && S_ISDIR st then "d"%char
  else if negb (st =? 0) && S_ISFIFO st then "|"%char
  else if negb (st =? 0) && S_ISSOCK st then "s"%char
  else if negb (st =? 0) && S_ISCHR st then "c"%char
  else if negb (st =? 0) && S_ISBLK st then "b"%char
  else "l"%char.

Definition flag (st mask : Z) (c : ascii) : ascii := if negb (Z.land st mask =? 0) then c else "-"%char.

Definition perms (st : Z) : string :=
  string_of_list_ascii
    [perms_type st; flag st 256 "r"; flag st 128 "w"; flag st 64 "x";
     flag st 32 "r"; flag st 16 "w"; flag st 8 "x"; flag st 4 "r"; flag st 2 "w"; flag st 1 "x"].

Definition print_perms (st : Z) (b : buf) : option buf := sprintf b (perms st).

(** The body of [while(file=readdir(dir))]. *)
Definition ls_step (dir : Z) (result : bufnode) : prog (bufnode + bufnode) :=
  r ← sys (LibCall "readdir" [dir] []);
  if rv r =? 0 then mret (inr result) else
  let d_name := rdata r in
  match d_name with
  | String c _ =>
      if decide (c = "."%char) then mret (inl result) else
      b ← need (strcat (buffer result) d_name);
      b ← need (strcat b nl);
      mret (inl (Bufnode b (u32 (size result + 1))))
  | EmptyString =>
      b ← need (strcat (buffer result) d_name);
      b ← need (strcat b nl);
      mret (inl (Bufnode b (u32 (size result + 1))))
  end.

(** [inl] is a call that is still reading the directory after [n] entries. *)
Definition nfs_ls_1_svc (n : nat) (argp result : bufnode) : prog (bufnode + bufnode) :=
  let result := Bufnode (buffer result) 0 in
  path ← str (buffer argp);
  puts ("Got a ls req " +:+ path +:+ nl);;
  a ← access path (Z.lor F_OK R_OK);
  if a <? 0 then
    b ← need (sprintf (buffer result) "File not exist or access denied !");
    mret (inr (Bufnode b (u32 (-1))))
  else
    sb ← stat path; sb ← need sb;
    if negb (st_mode sb =? 0) && S_ISDIR (st_mode sb) then
      dir ← sysv (LibCall "opendir" [] [path]);
      b ← need (aset (buffer result) 0 (Some NUL));
      if dir =? 0 then Undef else
      loop n (ls_step dir) (Bufnode b 0)
    else
      b ← need (sprintf (buffer result) "Path is not a directory !");
      mret (inr (Bufnode b (u32 (-1)))).

Definition lseek (fd offset : Z) : prog Z := sysv (LibCall "lseek" [fd; offset; 0] []).

(** [lseek]'s failure sets [result], which [write] then overwrites. *)
Definition nfs_write_1_svc (argp : file_args_w) (result : Z) : prog Z :=
  path ← str (w_filename argp);
  puts ("Got a write req " +:+ path +:+ nl);;
  a ← access path (Z.lor W_OK F_OK);
  if a <? 0 then mret (-1) else
  sb ← stat path; sb ← need sb;
  if negb (st_mode sb =? 0) && S_ISREG (st_mode sb) then
    fd ← sysv (Open path "O_WRONLY");
    o ← lseek fd (w_offset argp);
    let result := if o <? 0 then -1 else result in
    result ← sysv (Write fd (w_buffer argp) (w_size argp));
    do_ (Close fd);;
    mret result
  else mret (-1).

Definition nfs_read_1_svc (argp : file_args_r) (result : bufnode) : prog bufnode :=
  path ← str (r_filename argp);
  puts ("Got a read request " +:+ path +:+ " " +:+ dec (Z.of_nat (String.length path)) +:+ nl);;
  a ← access path (Z.lor F_OK R_OK);
  if a <? 0 then mret (Bufnode (buffer result) (u32 (-1))) else
  sb ← stat path; sb ← need sb;
  if negb (st_mode sb =? 0) && S_ISREG (st_mode sb) then
    fd ← sysv (Open path "O_RDONLY");
    o ← lseek fd (r_offset argp);
    if o <? 0 then mret (Bufnode (buffer result) (u32 (-1))) else
    '(n, b) ← read fd (buffer result) (r_size argp);
    do_ (Close fd);;
    mret (Bufnode b (u32 n))
  else mret (Bufnode (buffer result) (u32 (-1))).

Definition nfs_cd_1_svc (argp : bufnode) (result : Z) : prog Z :=
  path ← str (buffer argp);
  puts ("Got a cd req " +:+ path +:+ nl);;
  sysv (LibCall "chdir" [] [path]).

(** [getpwuid_r] and [getgrgid_r] are given [buf] for their strings, so
    [sprintf(buf, " %s", pwent.pw_name)] reads the object it writes to:
    undefined.  [printf(buf, ...)] prints the text in [buf]. *)
Definition getattr_1_svc (argp result : bufnode) : prog bufnode :=
  path ← str (buffer argp);
  puts ("Got a getattr req " +:+ path +:+ nl);;
  a ← access path F_OK;
  if a <? 0 then
    b ← need (sprintf (buffer result) "file or dir not exist !");
    mret (Bufnode b (u32 (-1)))
  else
    sb ← stat path; sb ← need sb;
    b ← need (print_perms (st_mode sb) (buffer result));
    bf ← need (sprintf (fresh 128) (" " +:+ dec (st_nlink sb)));
    s ← str bf; b ← need (strcat b s);
    pw ← sysv (LibCall "getpwuid_r" [st_uid sb] []);
    (if pw =? 0 then Undef else s ← str bf; puts s);;
    s ← str bf; b ← need (strcat b s);
    gr ← sysv (LibCall "getgrgid_r" [st_gid sb] []);
    bf ← (if gr =? 0 then Undef else need (sprintf bf (" " +:+ dec (st_gid sb))));
    s ← str bf; b ← need (strcat b s);
    let t := dec (st_size sb) in
    bf ← need (sprintf bf (" " +:+ string_of_list_ascii (replicate (5 - String.length t) " "%char) +:+ t));
    s ← str bf; b ← need (strcat b s);
    r ← sys (LibCall "strftime" [st_mtime sb; 256] []);
    bf ← need (sprintf bf (" " +:+ rdata r +:+ " " +:+ path +:+ nl));
    s ← str bf; b ← need (strcat b s);
    mret (Bufnode b 1).

Definition setattr_1_svc (argp : bufnode) (result : Z) : prog Z :=
  path ← str (buffer argp);
  puts ("Got a setattr req " +:+ path +:+ nl);;
  a ← access path F_OK;
  if a <? 0 then mret (-1) else
  sysv (LibCall "chmod" [size argp] [path]).

Definition nfs_remove_1_svc (argp : bufnode) (result : Z) : prog Z :=
  path ← str (buffer argp);
  puts ("Got a remove req " +:+ path +:+ nl);;
  sysv (LibCall "remove" [] [path]).

Definition nfs_mkdir_1_svc (argp : bufnode) (result : Z) : prog Z :=
  path ← str (buffer argp);
  puts ("Got a mkdir req " +:+ path +:+ nl);;
  sysv (LibCall "mkdir" [size argp] [path]).

(** The descriptor that [creat] returns is the result and stays open. *)
Definition nfs_touch_1_svc (argp : bufnode) (result : Z) : prog Z :=
  path ← str (buffer argp);
  puts ("Got a touch req " +:+ path +:+ nl);;
  sysv (LibCall "creat" [size argp] [path]).

(** *** Listing a directory *)

Definition visible (name : string) : bool :=
  match name with String c _ => if decide (c = "."%char) then false else true | EmptyString => true end.

(** What a listing should contain: the visible names, one per line. *)
Definition listing (names : list string) : string :=
  foldr (λ name text, if visible name then name +:+ nl +:+ text else text) EmptyString names.

Definition entry (name : string) : reply := Reply 1 name [] [].

Lemma ls_step_run dir result name rs :
  run (ls_step dir result) (entry name :: rs) =
  ([(LibCall "readdir" [dir] [], entry name)],
   if visible name
   then match (b ← strcat (buffer result) name; strcat b nl) with
        | Some b => Done (inl (Bufnode b (u32 (size result + 1))))
        | None => UB
        end
   else Done (inl result)).
Proof.
  unfold ls_step. destruct name as [|c name].
  - cbn. destruct (strcat (buffer result) EmptyString) as [b|]; [|done]. cbn. by destruct (strcat b nl).
  - cbn -[strcat decide]. destruct (decide (c = "."%char)) as [->|Hc]; [done|].
    destruct (strcat (buffer result) (String c name)) as [b|]; [|done]. cbn -[strcat]. by destruct (strcat b nl).
Qed.

Definition visible_count (names : list string) : Z :=
  foldr (λ name n, if visible name then n + 1 else n) 0 names.

Lemma loop_ls names : ∀ n dir result text rest,
  (length names < n)%nat → cstr (buffer result) = Some text → length (buffer result) = 1024%nat →
  0 ≤ size result ≤ Z.of_nat (String.length text) → forallb nonul names = true →
  if decide (String.length text + String.length (listing names) < 1024)%nat
  then ∃ b, outcome_of (loop n (ls_step dir) result) ((entry <$> names) ++ ret_ 0 :: rest) =
         Done (inr (Bufnode b (size result + visible_count names))) ∧ cstr b = Some (text +:+ listing names)
  else outcome_of (loop n (ls_step dir) result) ((entry <$> names) ++ ret_ 0 :: rest) = UB.
Proof.
  induction names as [|name names IH]; intros n dir result text rest Hn Ht Hl Hs Hnn;
    (destruct n as [|n]; [simpl in Hn; lia|]).
  - pose proof (cstr_length _ _ Ht). cbn [listing foldr String.length]. rewrite decide_True by lia.
    exists (buffer result). cbn. rewrite string_app_nil, Z.add_0_r. split; [|done]. by destruct result.
  - simpl in Hnn. apply andb_true_iff in Hnn as [Hnm Hnn]. cbn [length] in Hn.
    cbn [loop fmap list_fmap app listing foldr visible_count]. fold (listing names) (visible_count names).
    unfold outcome_of. rewrite run_bind, ls_step_run. destruct (visible name) eqn:Hv.
    + pose proof (strcat_spec (buffer result) text name Ht Hnm) as H1.
      rewrite !string_length_app. change (String.length nl) with 1%nat.
      case_decide as D1; cycle 1.
      { rewrite decide_False by lia. by rewrite H1. }
      destruct H1 as (b1 & -> & C1 & L1). cbn [option_bind mbind].
      pose proof (strcat_spec b1 (text +:+ name) nl C1 eq_refl) as H2. rewrite string_length_app in H2.
      change (String.length nl) with 1%nat in H2. rewrite L1, Hl in H2.
      case_decide as D2; cycle 1.
      { rewrite decide_False by lia. by rewrite H2. }
      destruct H2 as (b2 & -> & C2 & L2). cbn [length skipn].
      assert (u32 (size result + 1) = size result + 1) as Hu.
      { unfold u32. apply Z.mod_small. lia. }
      specialize (IH n dir (Bufnode b2 (size result + 1)) ((text +:+ name) +:+ nl) rest).
      cbn [buffer size] in IH. rewrite !string_length_app in IH. change (String.length nl) with 1%nat in IH.
      specialize (IH ltac:(lia) C2 ltac:(lia) ltac:(lia) Hnn). rewrite Hu.
      replace (String.length text + (String.length name + (1 + String.length (listing names))))%nat
        with (String.length text + String.length name + 1 + String.length (listing names))%nat by lia.
      unfold outcome_of in IH. case_decide.
      * destruct IH as (b & E & Cb). exists b. split; [|by rewrite Cb, !string_app_assoc].
        replace (size result + (visible_count names + 1)) with (size result + 1 + visible_count names) by lia.
        rewrite <- E. by destruct (run (loop n _ _) _).
      * rewrite <- IH. by destruct (run (loop n _ _) _).
    + cbn [length skipn]. specialize (IH n dir result text rest ltac:(lia) Ht Hl Hs Hnn).
      unfold outcome_of in IH. case_decide.
      * destruct IH as (b & E & Cb). exists b. split; [|done]. rewrite <- E. by destruct (run (loop n _ _) _).
      * rewrite <- IH. by destruct (run (loop n _ _) _).
Qed.

Definition stat_reply (sb : stat_t) : reply :=
  Reply 0 EmptyString [st_mode sb; st_nlink sb; st_uid sb; st_gid sb; st_size sb; st_mtime sb] [].

Lemma S_ISDIR_nonzero m : S_ISDIR m = true → m ≠ 0.
Proof. by intros H ->. Qed.

Lemma S_ISREG_nonzero m : S_ISREG m = true → m ≠ 0.
Proof. by intros H ->. Qed.

(** C32: for an accessible directory, [nfs_ls] returns the names that do not
    start with a dot, one per line, and their number, whatever the directory;
    when this text does not fit in the 1024 bytes of the result the procedure
    writes past it. *)
Theorem nfs_ls_lists n names path argp result sb dir rest :
  cstr (buffer argp) = Some path → length (buffer result) = 1024%nat →
  S_ISDIR (st_mode sb) = true → dir ≠ 0 → (length names < n)%nat → forallb nonul names = true →
  let rs := ret_ 0 :: ret_ 0 :: stat_reply sb :: ret_ dir :: (entry <$> names) ++ ret_ 0 :: rest in
  if decide (String.length (listing names) < 1024)%nat
  then ∃ b, outcome_of (nfs_ls_1_svc n argp result) rs = Done (inr (Bufnode b (visible_count names))) ∧
            cstr b = Some (listing names)
  else outcome_of (nfs_ls_1_svc n argp result) rs = UB.
Proof.
  intros Hp Hl Hdir Hd0 Hn Hnn rs.
  destruct (buffer result) as [|c0 b0] eqn:Eb; [done|].
  assert (outcome_of (nfs_ls_1_svc n argp result) rs =
          outcome_of (loop n (ls_step dir) (Bufnode (Some NUL :: b0) 0)) ((entry <$> names) ++ ret_ 0 :: rest)) as ->.
  { unfold outcome_of, nfs_ls_1_svc, str. rewrite Hp. cbn -[loop S_ISDIR aset].
    rewrite Hdir, (proj2 (Z.eqb_neq _ _)) by (by apply S_ISDIR_nonzero). cbn -[loop S_ISDIR aset].
    rewrite Eb, (proj2 (Z.eqb_neq dir 0)) by done. rewrite aset_Some by (cbn [length]; lia).
    cbn -[loop].
    by destruct (run (loop n _ _) _). }
  apply (loop_ls names n dir (Bufnode (Some NUL :: b0) 0) EmptyString rest); done.
Qed.

Lemma nfs_ls_lists_witness :
  ∃ b, outcome_of (nfs_ls_1_svc 9 (Bufnode (lit "/srv") 0) (Bufnode (zeroed 1024) 7))
    (ret_ 0 :: ret_ 0 :: stat_reply (Stat 16877 2 0 0 4096 0) :: ret_ 99 ::
     (entry <$> [".hidden"; "b"; "a.txt"]) ++ ret_ 0 :: []) = Done (inr (Bufnode b 2)) ∧
    cstr b = Some ("b" +:+ nl +:+ "a.txt" +:+ nl).
Proof.
  exact (nfs_ls_lists 9 [".hidden"; "b"; "a.txt"] "/srv" (Bufnode (lit "/srv") 0) (Bufnode (zeroed 1024) 7)
    (Stat 16877 2 0 0 4096 0) 99 [] eq_refl eq_refl eq_refl ltac:(done) ltac:(simpl; lia) eq_refl).
Defined.

(** *** Reading and writing *)

Definition is_error (b : bufnode) : bool := size b =? 4294967295.

(** [nfs_write] opens, positions, writes and closes exactly when the file
    is accessible and regular, and its result is then the result of [write]
    even when [lseek] failed (the -1 stored for it is overwritten); otherwise
    it is -1 and nothing is opened. *)
Theorem nfs_write_result argp st path r0 acc sb fd off n r1 rs :
  cstr (w_filename argp) = Some path →
  run (nfs_write_1_svc argp st) (r0 :: ret_ acc :: stat_reply sb :: ret_ fd :: ret_ off :: ret_ n :: r1 :: rs) =
  let seen := [(Puts ("Got a write req " +:+ path +:+ nl), r0); (LibCall "access" [2] [path], ret_ acc)] in
  if acc <? 0 then (seen, Done (-1))
  else if S_ISREG (st_mode sb) then
    (seen ++ [(LibCall "stat" [] [path], stat_reply sb); (Open path "O_WRONLY", ret_ fd);
              (LibCall "lseek" [fd; w_offset argp; 0] [], ret_ off);
              (Write fd (w_buffer argp) (w_size argp), ret_ n); (Close fd, r1)], Done n)
  else (seen ++ [(LibCall "stat" [] [path], stat_reply sb)], Done (-1)).
Proof.
  intros Hp. unfold nfs_write_1_svc, str. rewrite Hp. cbn -[S_ISREG Z.lor]. change (Z.lor W_OK F_OK) with 2.
  destruct (acc <? 0); [done|]. cbn -[S_ISREG]. destruct (S_ISREG (st_mode sb)) eqn:E.
  - by rewrite (proj2 (Z.eqb_neq _ _)) by (by apply S_ISREG_nonzero).
  - by rewrite andb_false_r.
Qed.

Lemma nfs_write_result_witness :
  outcome_of (nfs_write_1_svc (FileArgsW (lit "f") 10 (lit "hello") 5) 0)
    [ret_ 0; ret_ 0; stat_reply (Stat 33188 1 0 0 3 0); ret_ 4; ret_ (-1); ret_ 5; ret_ 0] = Done 5.
Proof.
  unfold outcome_of.
  by rewrite (nfs_write_result (FileArgsW (lit "f") 10 (lit "hello") 5) 0 "f" (ret_ 0) 0 (Stat 33188 1 0 0 3 0) 4 (-1) 5 (ret_ 0) [] eq_refl).
Defined.

(** C13: [nfs_read] reports an error (a size of 2^32-1) when the file is not
    accessible, not regular or cannot be positioned, and in the last case
    leaves the descriptor it opened open; otherwise it returns the bytes read
    and closes it. *)
Theorem nfs_read_result argp st path r0 acc sb fd off data r1 rs :
  cstr (r_filename argp) = Some path → (String.length data ≤ length (buffer st))%nat →
  length (buffer st) = 1024%nat →
  let '(t, o) := run (nfs_read_1_svc argp st) (r0 :: ret_ acc :: stat_reply sb :: ret_ fd :: ret_ off :: bytes_ data :: r1 :: rs) in
  let opened := select_ev (λ c r, match c with Open _ _ => Some (rv r) | _ => None end) t in
  let closed := select_ev (λ c _, match c with Close f => Some f | _ => None end) t in
  ∃ res, o = Done res ∧
    if (acc <? 0) || negb (S_ISREG (st_mode sb))
    then is_error res = true ∧ opened = [] ∧ closed = []
    else if off <? 0 then is_error res = true ∧ opened = [fd] ∧ closed = []
    else size res = Z.of_nat (String.length data) ∧ take (String.length data) (buffer res) = cells data ∧
         opened = [fd] ∧ closed = [fd].
Proof.
  intros Hp Hd Hl. unfold nfs_read_1_svc, str. rewrite Hp. cbn -[S_ISREG Z.lor dec u32].
  destruct (acc <? 0); [by eexists|]. cbn -[S_ISREG dec u32].
  destruct (S_ISREG (st_mode sb)) eqn:E; [|rewrite andb_false_r; by eexists].
  rewrite (proj2 (Z.eqb_neq _ _)) by (by apply S_ISREG_nonzero). cbn -[S_ISREG dec u32].
  destruct (off <? 0); [by eexists|]. cbn -[S_ISREG dec u32 store].
  unfold received. cbn [rdata bytes_].
  assert (length (cells data) = String.length data) as Hc by (unfold cells; by rewrite length_fmap, length_chars).
  rewrite store_Some by lia. cbn -[S_ISREG dec u32]. eexists. split; [done|]. cbn -[u32 app].
  split_and!; [|rewrite take_0; cbn [app]; by rewrite take_app_length'|done|done].
  unfold u32. apply Z.mod_small. lia.
Qed.

Lemma nfs_read_result_witness :
  ∃ t res, run (nfs_read_1_svc (FileArgsR (lit "f") 0 3) (Bufnode (zeroed 1024) 0))
    [ret_ 0; ret_ 0; stat_reply (Stat 33188 1 0 0 3 0); ret_ 4; ret_ 0; bytes_ "abc"; ret_ 0] = (t, Done res) ∧ size res = 3.
Proof.
  pose proof (nfs_read_result (FileArgsR (lit "f") 0 3) (Bufnode (zeroed 1024) 0) "f" (ret_ 0) 0 (Stat 33188 1 0 0 3 0)
    4 0 "abc" (ret_ 0) [] eq_refl ltac:(simpl; lia) eq_refl) as H.
  destruct (run _ _) as [t o]. destruct H as (res & -> & Hs & _). by exists t, res.
Defined.

(** [nfs_cd], [nfs_remove], [nfs_mkdir] and [nfs_touch] apply one operation
    to the path (and mode) of the request and return its value; [setattr]
    does so only when the path exists; an argument that is not terminated is
    read past its end. *)
Theorem path_operations argp st path r0 r rs :
  cstr (buffer argp) = Some path →
  run (nfs_cd_1_svc argp st) (r0 :: r :: rs)
    = ([(Puts ("Got a cd req " +:+ path +:+ nl), r0); (LibCall "chdir" [] [path], r)], Done (rv r)) ∧
  run (nfs_remove_1_svc argp st) (r0 :: r :: rs)
    = ([(Puts ("Got a remove req " +:+ path +:+ nl), r0); (LibCall "remove" [] [path], r)], Done (rv r)) ∧
  run (nfs_mkdir_1_svc argp st) (r0 :: r :: rs)
    = ([(Puts ("Got a mkdir req " +:+ path +:+ nl), r0); (LibCall "mkdir" [size argp] [path], r)], Done (rv r)) ∧
  run (nfs_touch_1_svc argp st) (r0 :: r :: rs)
    = ([(Puts ("Got a touch req " +:+ path +:+ nl), r0); (LibCall "creat" [size argp] [path], r)], Done (rv r)) ∧
  ∀ acc, run (setattr_1_svc argp st) (r0 :: ret_ acc :: r :: rs)
    = if acc <? 0
      then ([(Puts ("Got a setattr req " +:+ path +:+ nl), r0); (LibCall "access" [0] [path], ret_ acc)], Done (-1))
      else ([(Puts ("Got a setattr req " +:+ path +:+ nl), r0); (LibCall "access" [0] [path], ret_ acc);
             (LibCall "chmod" [size argp] [path], r)], Done (rv r)).
Proof.
  intros Hp. unfold nfs_cd_1_svc, nfs_remove_1_svc, nfs_mkdir_1_svc, nfs_touch_1_svc, setattr_1_svc, str. rewrite Hp.
  split_and!; try done. intros acc. cbn. by destruct (acc <? 0).
Qed.

Lemma path_operations_witness :
  run (nfs_cd_1_svc (Bufnode (lit "/tmp") 0) 0) [ret_ 0; ret_ (-1)]
    = ([(Puts ("Got a cd req /tmp" +:+ nl), ret_ 0); (LibCall "chdir" [] ["/tmp"], ret_ (-1))], Done (-1)).
Proof. exact (proj1 (path_operations (Bufnode (lit "/tmp") 0) 0 "/tmp" (ret_ 0) (ret_ (-1)) [] eq_refl)). Defined.

Lemma length_perms st : String.length (perms st) = 10%nat.
Proof. done. Qed.

Lemma flag_nonul st mask c : c ≠ NUL → flag st mask c ≠ NUL.
Proof. unfold flag. by destruct (Z.land st mask =? 0). Qed.

Lemma nonul_perms st : nonul (perms st) = true.
Proof.
  unfold perms. cbn [string_of_list_ascii nonul].
  repeat (apply andb_true_iff; split); try done; apply negb_true_iff, Ascii.eqb_neq;
    try (by apply flag_nonul). unfold perms_type. by repeat (case_match; try done).
Qed.

Lemma length_spaces n : String.length (string_of_list_ascii (replicate n " "%char)) = n.
Proof. induction n as [|n IH]; [done|]. simpl. by f_equal. Qed.

Lemma nonul_spaces n : nonul (string_of_list_ascii (replicate n " "%char)) = true.
Proof. by induction n. Qed.

(** [getattr] of an existing path is undefined as soon as the user or the
    group is found (their names are kept in the buffer that is printed to);
    when neither is found, the owner column of the answer repeats the link
    count, and the group id stands where it should. *)
Theorem getattr_answers argp result path sb r0 r1 pw gr date rs :
  cstr (buffer argp) = Some path → length (buffer result) = 1024%nat →
  fits_int (st_nlink sb) = true → fits_int (st_gid sb) = true → fits_int (st_size sb) = true →
  nonul date = true → (String.length path + String.length date ≤ 120)%nat →
  let o := outcome_of (getattr_1_svc argp result)
     (r0 :: ret_ 0 :: stat_reply sb :: ret_ pw :: (if pw =? 0 then [] else r1 :: ret_ gr :: (if gr =? 0 then [] else bytes_ date :: rs))) in
  if (pw =? 0) || (gr =? 0) then o = UB
  else ∃ b pad, o = Done (Bufnode b 1) ∧
    cstr b = Some (perms (st_mode sb) +:+ " " +:+ dec (st_nlink sb) +:+ " " +:+ dec (st_nlink sb) +:+ " " +:+ dec (st_gid sb)
                    +:+ " " +:+ pad +:+ dec (st_size sb) +:+ " " +:+ date +:+ " " +:+ path +:+ nl).
Proof.
  intros Hp Hl Hn Hg Hz Hdate Hlen. unfold outcome_of, getattr_1_svc, str. rewrite Hp.
  pose proof (dec_length (st_nlink sb)) as Ln. pose proof (dec_length (st_gid sb)) as Lg.
  pose proof (dec_length (st_size sb)) as Lz. pose proof (length_perms (st_mode sb)) as Lpm.
  cbn -[print_perms sprintf strcat fresh dec perms].
  set (pad := string_of_list_ascii (replicate (5 - String.length (dec (st_size sb))) " "%char)).
  pose proof (length_spaces (5 - String.length (dec (st_size sb)))) as Lp. fold pad in Lp.
  assert (nonul pad = true) as Np by apply nonul_spaces.
  assert (nonul path = true) as Npath by (by apply cstr_inv in Hp as [? _]).
  destruct (sprintf_fits (buffer result) (perms (st_mode sb))) as (b1 & E1 & C1 & L1); [apply nonul_perms|lia|].
  unfold print_perms. rewrite E1. cbn -[sprintf strcat fresh dec perms].
  destruct (sprintf_fits (fresh 128) (" " +:+ dec (st_nlink sb))) as (f1 & E2 & C2 & M1);
    [str_nonul|change (length (fresh 128)) with 128%nat; str_len|]. change (length (fresh 128)) with 128%nat in M1.
  rewrite E2. cbn -[sprintf strcat dec perms]. rewrite C2. cbn -[sprintf strcat dec perms].
  destruct (strcat_fits b1 _ (" " +:+ dec (st_nlink sb)) C1) as (b2 & E3 & C3 & L2); [str_nonul|str_len|].
  rewrite E3. cbn -[sprintf strcat dec perms]. destruct (pw =? 0); [done|].
  destruct (strcat_fits b2 _ (" " +:+ dec (st_nlink sb)) C3) as (b3 & E4 & C4 & L3); [str_nonul|str_len|].
  cbn -[sprintf strcat dec perms]. rewrite E4. cbn -[sprintf strcat dec perms].
  destruct (gr =? 0); [done|]. cbn -[sprintf strcat dec perms].
  destruct (sprintf_fits f1 (" " +:+ dec (st_gid sb))) as (f2 & E5 & C5 & M2); [str_nonul|str_len|].
  rewrite E5. cbn -[sprintf strcat dec perms]. rewrite C5. cbn -[sprintf strcat dec perms].
  destruct (strcat_fits b3 _ (" " +:+ dec (st_gid sb)) C4) as (b4 & E6 & C6 & L4); [str_nonul|str_len|].
  rewrite E6. cbn -[sprintf strcat dec perms].
  destruct (sprintf_fits f2 (" " +:+ pad +:+ dec (st_size sb))) as (f3 & E7 & C7 & M3); [str_nonul|str_len|].
  rewrite E7. cbn -[sprintf strcat dec perms]. rewrite C7. cbn -[sprintf strcat dec perms].
  destruct (strcat_fits b4 _ (" " +:+ pad +:+ dec (st_size sb)) C6) as (b5 & E8 & C8 & L5); [str_nonul|str_len|].
  rewrite E8. cbn -[sprintf strcat dec perms].
  destruct (sprintf_fits f3 (" " +:+ date +:+ " " +:+ path +:+ nl)) as (f4 & E9 & C9 & M4); [str_nonul|str_len|].
  rewrite E9. cbn -[sprintf strcat dec perms]. rewrite C9. cbn -[sprintf strcat dec perms].
  destruct (strcat_fits b5 _ (" " +:+ date +:+ " " +:+ path +:+ nl) C8) as (b6 & E10 & C10 & L6); [str_nonul|str_len|].
  rewrite E10. cbn -[dec perms]. exists b6, pad. split; [done|]. by rewrite C10, !string_app_assoc.
Qed.

Lemma getattr_answers_witness :
  outcome_of (getattr_1_svc (Bufnode (lit "f") 0) (Bufnode (zeroed 1024) 0))
    [ret_ 0; ret_ 0; stat_reply (Stat 33188 1 1000 1000 3 0); ret_ 0] = UB.
Proof.
  exact (getattr_answers (Bufnode (lit "f") 0) (Bufnode (zeroed 1024) 0) "f" (Stat 33188 1 1000 1000 3 0) (ret_ 0) (ret_ 0)
    0 0 "2017-11-01 10:00:00" [] eq_refl eq_refl eq_refl eq_refl eq_refl eq_refl ltac:(simpl; lia)).
Defined.

End Server.

(** ** The client *)
Module Client.

(** *** [strtok] on the text of a buffer *)

Definition mem (c : ascii) (delims : string) : bool :=
  existsb (Ascii.eqb c) (list_ascii_of_string delims).

Fixpoint skip_delims (delims s : string) : string :=
  match s with
  | String c s' => if mem c delims then skip_delims delims s' else s
  | EmptyString => EmptyString
  end.

(** The characters before the first delimiter, and those behind it. *)
Fixpoint span (delims s : string) : string * string :=
  match s with
  | EmptyString => (EmptyString, EmptyString)
  | String c s' =>
      if mem c delims then (EmptyString, s')
      else let '(t, rest) := span delims s' in (String c t, rest)
  end.

(** [strtok(s, delims)]: the token and the text the next call goes on with. *)
Definition strtok (delims s : string) : option (string * string) :=
  match skip_delims delims s with
  | EmptyString => None
  | s' => Some (span delims s')
  end.

(** [strtok(arg, delims)] with the result unused: the text at [arg] afterwards
    (leading delimiters stay, the text ends behind the first token). *)
Fixpoint cut (delims s : string) : string :=
  match s with
  | String c s' => if mem c delims then String c (cut delims s') else (span delims s).1
  | EmptyString => EmptyString
  end.

(** [for (i = 0; i < 4; ++i) { tok = strtok(NULL, " "); ...; args[i] = tok; }] *)
Fixpoint split_args (n : nat) (s : string) : list string :=
  match n with
  | O => []
  | S n' => match strtok " " s with
            | None => []
            | Some (t, rest) => t :: split_args n' rest
            end
  end.

(** *** The commands *)

Definition getCommandType (s : string) : Z :=
  if strcmp_eq "ls" s then 1
  else if strcmp_eq "read" s then 2
  else if strcmp_eq "write" s then 3
  else if strcmp_eq "exit" s then 0
  else if strcmp_eq "cd" s then 4
  else if strcmp_eq "getattr" s then 5
  else if strcmp_eq "setattr" s then 6
  else if strcmp_eq "remove" s then 7
  else if strcmp_eq "mkdir" s then 8
  else if strcmp_eq "touch" s then 9
  else -1.

(** [char] is signed. *)
Definition schar (c : ascii) : Z := if char_val c <? 128 then char_val c else char_val c - 256.

(** The digits from the last to the first, with the weight [coff]. *)
Fixpoint perm_digits (l : list ascii) (coff perm : Z) : option Z :=
  match l with
  | [] => Some perm
  | c :: l' =>
      d ← int_mul (schar c - 48) coff;
      perm ← int_add perm d;
      coff ← int_mul coff 8;
      perm_digits l' coff perm
  end.

Definition perm_bit (args : string) : option Z :=
  perm_digits (reverse (list_ascii_of_string args)) 1 0.

(** The argument structures; they keep their contents between commands. *)
Record arguments := Arguments_ {
  nfs_ls_1_arg : bufnode; nfs_read_1_arg : file_args_r; nfs_write_1_arg : file_args_w;
  nfs_cd_1_arg : bufnode; getattr_1_arg : bufnode; setattr_1_arg : bufnode;
  nfs_remove_1_arg : bufnode; nfs_mkdir_1_arg : bufnode; nfs_touch_1_arg : bufnode
}.

Definition usage (text : string) : prog unit := puts (text +:+ nl).

Definition call_failed : prog unit := do_ (LibCall "clnt_perror" [] ["call failed"]).

(** A call that returns an [int]: what is printed for it. *)
Definition int_result (r : reply) (bad good : string) : prog unit :=
  if rv r =? 0 then call_failed else
  v ← need (head (rints r));
  puts ((if v <? 0 then bad else good) +:+ nl).

(** The structure a [bufnode] call returns: its 1024 bytes and its size. *)
Definition node_result (r : reply) : option (Z * string) :=
  s ← head (rints r); b ← cstr (cells (rdata r)); Some (u32 s, b).

(** ["%d"] of an [unsigned int] prints it as an [int]. *)
Definition as_int (z : Z) : Z := if u32 z <=? INT_MAX then u32 z else u32 z - 4294967296.

Definition do_ls (args : list string) (st : arguments) : prog bufnode :=
  match args with
  | [a0] =>
      b ← need (strcpy (buffer (nfs_ls_1_arg st)) (cut nl a0));
      r ← sys (Rpc "nfs_ls_1" [Some 0] [b]);
      (if rv r =? 0 then call_failed else
       '(size, text) ← need (node_result r);
       puts ("Read " +:+ dec (as_int size) +:+ " files and dirs" +:+ nl);;
       puts (text +:+ nl));;
      mret (Bufnode b 0)
  | _ => usage "usage: ls <dir_name>";; mret (nfs_ls_1_arg st)
  end.

(** [if(result_3->size < 0)] compares an unsigned number with 0. *)
Definition do_read (args : list string) (st : arguments) : prog file_args_r :=
  match args with
  | [a0; a1; a2] =>
      f ← need (strcpy (r_filename (nfs_read_1_arg st)) (cut nl a0));
      off ← need (atoi a1); sz ← need (atoi a2);
      r ← sys (Rpc "nfs_read_1" [Some (u32 off); Some (u32 sz)] [f]);
      (if rv r =? 0 then call_failed else
       '(size, text) ← need (node_result r);
       if size <? 0 then puts ("File Reading error Occured !" +:+ nl) else
       puts ("Read " +:+ dec (as_int size) +:+ " bytes" +:+ nl);;
       puts (text +:+ nl));;
      mret (FileArgsR f (u32 off) (u32 sz))
  | _ => usage "usage: read <filename> <offset> <size>";; mret (nfs_read_1_arg st)
  end.

Definition do_write (args : list string) (st : arguments) : prog file_args_w :=
  match args with
  | [a0; a1; a2; a3] =>
      f ← need (strcpy (w_filename (nfs_write_1_arg st)) (cut nl a0));
      b ← need (strcpy (w_buffer (nfs_write_1_arg st)) (cut nl a1));
      off ← need (atoi a2); sz ← need (atoi a3);
      r ← sys (Rpc "nfs_write_1" [Some (u32 off); Some (u32 sz)] [f; b]);
      (if rv r =? 0 then call_failed else
       v ← need (head (rints r));
       if v <? 0 then puts ("Wrting Error occured, File not exist or access denied." +:+ nl)
       else puts (dec v +:+ " byte written !" +:+ nl));;
      mret (FileArgsW f (u32 off) b (u32 sz))
  | _ => usage "usage: write <filename> <msg_without_blanks> <offset> <size>";; mret (nfs_write_1_arg st)
  end.

Definition do_cd (args : list string) (st : arguments) : prog bufnode :=
  match args with
  | [a0] =>
      b ← need (strcpy (buffer (nfs_cd_1_arg st)) (cut nl a0));
      r ← sys (Rpc "nfs_cd_1" [None] [b]);
      int_result r "Wrong path !" "Curr directory changed";;
      mret (Bufnode b (size (nfs_cd_1_arg st)))
  | _ => usage "usage: cd <dir>";; mret (nfs_cd_1_arg st)
  end.

Definition do_getattr (args : list string) (st : arguments) : prog bufnode :=
  match args with
  | [a0] =>
      b ← need (strcpy (buffer (getattr_1_arg st)) (cut nl a0));
      r ← sys (Rpc "getattr_1" [None] [b]);
      (if rv r =? 0 then call_failed else
       '(_, text) ← need (node_result r);
       puts (text +:+ nl));;
      mret (Bufnode b (size (getattr_1_arg st)))
  | _ => usage "usage: getattr <file_or_dir>";; mret (getattr_1_arg st)
  end.

(** [setattr], [mkdir] and [touch] take a path and a mode in octal. *)
Definition do_mode (proc use bad good : string) (args : list string) (a : bufnode) : prog bufnode :=
  match args with
  | [a0; a1] =>
      b ← need (strcpy (buffer a) (cut nl a0));
      p ← need (perm_bit (cut nl a1));
      r ← sys (Rpc proc [Some (u32 p)] [b]);
      int_result r bad good;;
      mret (Bufnode b (u32 p))
  | _ => usage use;; mret a
  end.

Definition do_remove (args : list string) (st : arguments) : prog bufnode :=
  match args with
  | [a0] =>
      b ← need (strcpy (buffer (nfs_remove_1_arg st)) (cut nl a0));
      r ← sys (Rpc "nfs_remove_1" [None] [b]);
      int_result r "Error in remove" "Removed !";;
      mret (Bufnode b (size (nfs_remove_1_arg st)))
  | _ => usage "usage: remove <file_or_dir>";; mret (nfs_remove_1_arg st)
  end.

Definition do_setattr (args : list string) (st : arguments) : prog bufnode :=
  do_mode "setattr_1" "usage: setattr <file_or_dir> <perm_in_octal>" "Error in setting attr" "Attr set." args (setattr_1_arg st).
Definition do_mkdir (args : list string) (st : arguments) : prog bufnode :=
  do_mode "nfs_mkdir_1" "usage: mkdir <dir> <perm_in_octal>" "Error in creating dirs" "Created !" args (nfs_mkdir_1_arg st).
Definition do_touch (args : list string) (st : arguments) : prog bufnode :=
  do_mode "nfs_touch_1" "usage: touch <filename> <perm_in_octal>" "Error in creating dirs" "Created !" args (nfs_touch_1_arg st).

(** The [switch] of the command loop. *)
Definition command (cmd : string) (args : list string) (st : arguments) : prog arguments :=
  let '(Arguments_ l rd w c g s rm mk t) := st in
  match getCommandType cmd with
  | 0 => puts ("Byee !" +:+ nl);; Halt 1
  | 1 => l ← do_ls args st; mret (Arguments_ l rd w c g s rm mk t)
  | 2 => rd ← do_read args st; mret (Arguments_ l rd w c g s rm mk t)
  | 3 => w ← do_write args st; mret (Arguments_ l rd w c g s rm mk t)
  | 4 => c ← do_cd args st; mret (Arguments_ l rd w c g s rm mk t)
  | 5 => g ← do_getattr args st; mret (Arguments_ l rd w c g s rm mk t)
  | 6 => s ← do_setattr args st; mret (Arguments_ l rd w c g s rm mk t)
  | 7 => rm ← do_remove args st; mret (Arguments_ l rd w c g s rm mk t)
  | 8 => mk ← do_mkdir args st; mret (Arguments_ l rd w c g s rm mk t)
  | 9 => t ← do_touch args st; mret (Arguments_ l rd w c g s rm mk t)
  | _ => puts ("Invalid Command" +:+ nl);; mret st
  end.

(** One round of [while(1)]: [line] is the text in [buffer] (indeterminate
    before the first line).  [fgets] returning NULL leaves it; a line without
    a token makes [strtok] return NULL, which [strcmp] dereferences; the
    first [strtok] ends the text of the buffer behind the command. *)
Definition round (s : option string * arguments) : prog (option string * arguments) :=
  let '(line, st) := s in
  puts "terminal@$ ";;
  r ← sys (Fgets 1024);
  line ← need (if rv r =? 0 then line else Some (rdata r));
  '(cmd, rest) ← need (strtok (String " " nl) line);
  st ← command cmd (split_args 4 rest) st;
  mret (Some (cut (String " " nl) line), st).

Definition no_arguments : arguments :=
  let b := Bufnode (fresh 1024) 0 in
  Arguments_ b (FileArgsR (fresh 128) 0 0) (FileArgsW (fresh 128) 0 (fresh 1024) 0) b b b b b b.

Definition nfs_remote_1 (n : nat) (host : string) : prog unit :=
  clnt ← sysv (LibCall "clnt_create" [805306367; 1] [host; "udp"]);
  (if clnt =? 0 then do_ (LibCall "clnt_pcreateerror" [] [host]);; Halt 1 else mret tt);;
  forever n round (None, no_arguments);;
  mret tt.

Definition main (n : nat) (argv : list string) : prog unit :=
  match argv with
  | [a0] => puts ("usage: " +:+ a0 +:+ " server_host" +:+ nl);; Halt 1
  | _ :: host :: _ => nfs_remote_1 n host;; Halt 0
  | [] => Undef
  end.

(** *** Modes *)

(** The text a user types for a mode. *)
Definition octal (p : Z) : string :=
  string_of_list_ascii [digit (p / 64); digit (p / 8 mod 8); digit (p mod 8)].

(** The permission bits a listing like ["-rwxr-x---"] stands for. *)
Definition parse_flags (s : string) : Z :=
  foldl (λ n c, 2 * n + (if decide (c = "-"%char) then 0 else 1)) 0 (drop 1 (list_ascii_of_string s)).

Definition type_letter (fmt : Z) : ascii :=
  if fmt =? 32768 then "-" else if fmt =? 16384 then "d" else if fmt =? 4096 then "|"
  else if fmt =? 49152 then "s" else if fmt =? 8192 then "c" else "b".

Definition file_types : list Z := [32768; 16384; 4096; 49152; 8192; 24576].

(** C33: for every permission set the mode typed in octal is the mode the client
    sends, and the text the server prints for a file with that mode shows
    exactly these bits, behind the letter of its type. *)
Theorem mode_roundtrip p fmt :
  0 ≤ p < 512 → fmt ∈ file_types →
  perm_bit (octal p) = Some p ∧
  parse_flags (Server.perms (fmt + p)) = p ∧
  head (list_ascii_of_string (Server.perms (fmt + p))) = Some (type_letter fmt).
Proof.
  intros Hp Hf.
  assert (forallb (λ f, forallb (λ n, let p := Z.of_nat n in
      bool_decide (perm_bit (octal p) = Some p) && bool_decide (parse_flags (Server.perms (f + p)) = p) &&
      bool_decide (head (list_ascii_of_string (Server.perms (f + p))) = Some (type_letter f))) (seq 0 512))
    file_types = true) as H by by vm_compute.
  rewrite forallb_forall in H. specialize (H fmt (proj1 (list_elem_of_In _ _) Hf)).
  rewrite forallb_forall in H. specialize (H (Z.to_nat p) (proj2 (in_seq 512 0 (Z.to_nat p)) ltac:(lia))).
  cbv zeta in H. rewrite Z2Nat.id in H by lia.
  apply andb_true_iff in H as [[H1 H2]%andb_true_iff H3]. by apply bool_decide_eq_true in H1, H2, H3.
Qed.

Lemma mode_roundtrip_witness : perm_bit (octal 493) = Some 493 ∧ parse_flags (Server.perms (32768 + 493)) = 493.
Proof.
  destruct (mode_roundtrip 493 32768) as (H1 & H2 & _); [lia|by left|]. by split.
Defined.

(** *** Command lines *)

(** A word: what a user can type without blanks. *)
Definition plain (c : ascii) : bool := negb (mem c (String " " nl)) && negb (Ascii.eqb c NUL).
Definition word (w : string) : bool :=
  negb (String.eqb w EmptyString) && forallb plain (list_ascii_of_string w).

(** The arguments, each behind a blank, and the newline [fgets] stores. *)
Fixpoint tail_of (ws : list string) : string :=
  match ws with [] => nl | w :: ws' => String " " (w +:+ tail_of ws') end.

Definition line_of (cmd : string) (ws : list string) : string := cmd +:+ tail_of ws.

(** The tokens [strtok] finds: the last one keeps the newline. *)
Fixpoint tokens (ws : list string) : list string :=
  match ws with [] => [] | [w] => [w +:+ nl] | w :: ws' => w :: tokens ws' end.

Inductive request :=
| Ls (path : string)
| Read (file : string) (offset size : Z)
| Write (file msg : string) (offset size : Z)
| Cd (path : string)
| Getattr (path : string)
| Setattr (path : string) (mode : Z)
| Remove (path : string)
| Mkdir (path : string) (mode : Z)
| Touch (path : string) (mode : Z).

(** What the user types for a request, and the call it should make. *)
Definition typed (q : request) : string * list string :=
  match q with
  | Ls p => ("ls", [p])
  | Read f o s => ("read", [f; dec o; dec s])
  | Write f m o s => ("write", [f; m; dec o; dec s])
  | Cd p => ("cd", [p])
  | Getattr p => ("getattr", [p])
  | Setattr p m => ("setattr", [p; octal m])
  | Remove p => ("remove", [p])
  | Mkdir p m => ("mkdir", [p; octal m])
  | Touch p m => ("touch", [p; octal m])
  end%string.

Definition wanted (q : request) : string * list (option Z) * list (option string) :=
  match q with
  | Ls p => ("nfs_ls_1", [Some 0], [Some p])
  | Read f o s => ("nfs_read_1", [Some o; Some s], [Some f])
  | Write f m o s => ("nfs_write_1", [Some o; Some s], [Some f; Some m])
  | Cd p => ("nfs_cd_1", [None], [Some p])
  | Getattr p => ("getattr_1", [None], [Some p])
  | Setattr p m => ("setattr_1", [Some m], [Some p])
  | Remove p => ("nfs_remove_1", [None], [Some p])
  | Mkdir p m => ("nfs_mkdir_1", [Some m], [Some p])
  | Touch p m => ("nfs_touch_1", [Some m], [Some p])
  end%string.

Definition path_ok (limit : nat) (p : string) : Prop := word p = true ∧ (String.length p < limit)%nat.
Definition mode_ok (m : Z) : Prop := 0 ≤ m < 512.
Definition number_ok (n : Z) : Prop := 0 ≤ n ≤ INT_MAX.

Definition typable (q : request) : Prop :=
  match q with
  | Ls p | Cd p | Getattr p | Remove p => path_ok 1000 p
  | Read f o s => path_ok 128 f ∧ number_ok o ∧ number_ok s
  | Write f m o s => path_ok 128 f ∧ path_ok 800 m ∧ number_ok o ∧ number_ok s
  | Setattr p m | Mkdir p m | Touch p m => path_ok 1000 p ∧ mode_ok m
  end.

Definition rpcs (t : trace) : list (string * list (option Z) * list (option string)) :=
  select_ev (λ c _, match c with Rpc p ints bs => Some (p, ints, cstr <$> bs) | _ => None end) t.

(** *** Tokenising *)

Definition clear (d w : string) : Prop := ∀ c, In c (list_ascii_of_string w) → mem c d = false.

Lemma word_clear w : word w = true → clear (String " " nl) w ∧ clear " " w ∧ clear nl w.
Proof.
  unfold word. intros [_ H]%andb_true_iff. rewrite forallb_forall in H.
  assert (∀ c, In c (list_ascii_of_string w) → Ascii.eqb c " " = false ∧ Ascii.eqb c NL = false) as Hc.
  { intros c Hin. apply H in Hin. unfold plain, mem in Hin. simpl in Hin.
    destruct (Ascii.eqb c " "), (Ascii.eqb c NL); simpl in Hin; done. }
  split_and!; intros c Hin; destruct (Hc c Hin) as [H1 H2]; unfold mem; simpl; by rewrite ?H1, ?H2.
Qed.

Lemma word_nonul w : word w = true → nonul w = true.
Proof.
  unfold word. intros [_ H]%andb_true_iff. induction w as [|c w IH]; [done|]. cbn [list_ascii_of_string forallb] in H.
  apply andb_true_iff in H as [[_ Hc]%andb_true_iff Hw]. cbn [nonul]. by rewrite Hc, IH.
Qed.

Lemma clear_cons d c w : clear d (String c w) ↔ mem c d = false ∧ clear d w.
Proof.
  unfold clear. simpl. split.
  - intros H. split; [apply H; by left|]. intros c' ?. apply H. by right.
  - intros [Hc H] c' [<-|?]; [done|]. by apply H.
Qed.

Lemma span_app d w c rest : clear d w → mem c d = true → span d (w +:+ String c rest) = (w, rest).
Proof.
  induction w as [|x w IH]; intros Hw Hc; [simpl; by rewrite Hc|].
  apply clear_cons in Hw as [Hx Hw]. change (String x w +:+ String c rest) with (String x (w +:+ String c rest)).
  cbn [span]. by rewrite Hx, IH.
Qed.

Lemma span_clear d w : clear d w → span d w = (w, EmptyString).
Proof.
  induction w as [|x w IH]; intros Hw; [done|]. apply clear_cons in Hw as [Hx Hw].
  cbn [span]. by rewrite Hx, IH.
Qed.

Lemma strtok_span d x w : mem x d = false → strtok d (String x w) = Some (span d (String x w)).
Proof. intros Hx. unfold strtok. cbn [skip_delims]. by rewrite Hx. Qed.

Lemma word_cons w : word w = true → ∃ x w', w = String x w'.
Proof. destruct w; [done|eauto]. Qed.

Lemma cut_word w : word w = true → cut nl w = w ∧ cut nl (w +:+ nl) = w.
Proof.
  intros Hw. pose proof (word_clear w Hw) as (_ & _ & Hn). destruct (word_cons w Hw) as (x & w' & ->).
  pose proof Hn as Hn2. apply clear_cons in Hn as [Hx Hn]. split.
  - cbn [cut]. rewrite Hx. by rewrite span_clear.
  - change (String x w' +:+ nl) with (String x (w' +:+ nl)). cbn [cut]. rewrite Hx.
    change (String x (w' +:+ nl)) with (String x w' +:+ String NL EmptyString).
    by rewrite span_app.
Qed.

Definition after (ws : list string) : string :=
  match ws with [] => EmptyString | w :: ws' => w +:+ tail_of ws' end.

Lemma strtok_command cmd ws :
  word cmd = true → strtok (String " " nl) (line_of cmd ws) = Some (cmd, after ws).
Proof.
  intros Hw. pose proof (word_clear cmd Hw) as (Hc & _). destruct (word_cons cmd Hw) as (x & w' & ->).
  unfold line_of. change (String x w' +:+ tail_of ws) with (String x (w' +:+ tail_of ws)).
  rewrite strtok_span by (by apply clear_cons in Hc as [? _]).
  change (String x (w' +:+ tail_of ws)) with (String x w' +:+ tail_of ws).
  destruct ws as [|w ws]; [exact (f_equal Some (span_app _ (String x w') NL EmptyString Hc eq_refl))|].
  exact (f_equal Some (span_app _ (String x w') " " (w +:+ tail_of ws) Hc eq_refl)).
Qed.

Lemma split_args_tokens n ws :
  Forall (λ w, word w = true) ws → split_args n (after ws) = take n (tokens ws).
Proof.
  revert n. induction ws as [|w ws IH]; intros n Hws; [by destruct n|].
  apply Forall_cons in Hws as [Hw Hws]. destruct n as [|n]; [done|].
  pose proof (word_clear w Hw) as (_ & Hc & _). destruct (word_cons w Hw) as (x & w' & ->).
  cbn [split_args after]. change (String x w' +:+ tail_of ws) with (String x (w' +:+ tail_of ws)).
  rewrite strtok_span by (by apply clear_cons in Hc as [? _]).
  change (String x (w' +:+ tail_of ws)) with (String x w' +:+ tail_of ws).
  destruct ws as [|w2 ws].
  - rewrite span_clear; [by destruct n|]. cbn [tail_of]. intros c Hin.
    assert (list_ascii_of_string (String x w' +:+ nl) = list_ascii_of_string (String x w') ++ [NL]) as E.
    { generalize (String x w'). intros s. induction s as [|y s IHs]; [done|]. exact (f_equal (cons y) IHs). }
    rewrite E, in_app_iff in Hin. destruct Hin as [Hin|[<-|[]]]; [by apply Hc|done].
  - cbn [tail_of]. rewrite span_app by done. cbn [tokens take]. f_equal.
    change (w2 +:+ tail_of ws) with (after (w2 :: ws)). by apply IH.
Qed.

(** *** Numbers *)

Lemma atoi_digits_app s c v : is_digit c = false → atoi_digits (s +:+ String c EmptyString) v = atoi_digits s v.
Proof.
  intros Hc. revert v. induction s as [|x s IH]; intros v; [change (atoi_digits (String c EmptyString) v = v); cbn [atoi_digits]; by rewrite Hc|].
  change (String x s +:+ String c EmptyString) with (String x (s +:+ String c EmptyString)).
  cbn [atoi_digits]. destruct (is_digit x); [apply IH|done].
Qed.

Lemma digits_all fuel n acc :
  forallb is_digit (list_ascii_of_string acc) = true → forallb is_digit (list_ascii_of_string (digits fuel n acc)) = true.
Proof.
  revert n acc. induction fuel as [|fuel IH]; intros n acc Ha; cbn [digits]; [done|].
  assert (forallb is_digit (list_ascii_of_string (String (digit (n mod 10)) acc)) = true).
  { cbn. rewrite Ha. by rewrite (proj2 (is_digit_digit (n mod 10) ltac:(apply Z.mod_pos_bound; lia))). }
  bool_case; [done|]. by apply IH.
Qed.

Lemma digit_plain c : is_digit c = true → plain c = true.
Proof.
  intros Hd. unfold plain, mem. cbn [list_ascii_of_string existsb nl].
  destruct (Ascii.eqb_spec c " "%char) as [->|]; [done|]. destruct (Ascii.eqb_spec c NL) as [->|]; [done|].
  by destruct (Ascii.eqb_spec c NUL) as [->|].
Qed.

Lemma digits_word s : s ≠ EmptyString → forallb is_digit (list_ascii_of_string s) = true → word s = true.
Proof.
  intros Hs H. unfold word. apply andb_true_iff. split.
  - by destruct s.
  - rewrite forallb_forall in *. intros c Hc. by apply digit_plain, H.
Qed.

Lemma dec_word n : 0 ≤ n → word (dec n) = true ∧ ∀ c s, dec n = String c s → is_digit c = true.
Proof.
  intros Hn. unfold dec. rewrite (proj2 (Z.ltb_ge n 0)) by lia.
  pose proof (digits_all 10 n EmptyString eq_refl) as H.
  destruct (digits_head 10 n EmptyString Hn) as (c & s & E & Hc); [by left|]. rewrite E in *. split.
  - by apply digits_word.
  - intros c' s' [= <- <-]. done.
Qed.

Lemma atoi_token n : number_ok n → atoi (dec n) = Some n ∧ atoi (dec n +:+ nl) = Some n.
Proof.
  intros [Hn Hmax]. assert (fits_int n = true) as Hf.
  { unfold fits_int, INT_MIN. apply andb_true_iff. split; apply Z.leb_le; lia. }
  split; [by apply atoi_dec|]. rewrite <- (atoi_dec n Hf). unfold atoi.
  assert (strtol (dec n +:+ nl) = strtol (dec n)) as ->; [|done].
  destruct (dec_word n Hn) as [Hw Hd]. destruct (word_cons _ Hw) as (c & s & E). rewrite E in *.
  specialize (Hd c s eq_refl). change (String c s +:+ nl) with (String c (s +:+ nl)).
  unfold strtol. cbn [skip_space]. rewrite digit_not_space by done.
  change (String c (s +:+ nl)) with (String c s +:+ String NL EmptyString).
  destruct (Ascii.eqb_spec c "-") as [->|]; [done|]. destruct (Ascii.eqb_spec c "+") as [->|]; [done|].
  by apply atoi_digits_app.
Qed.

Lemma octal_facts m : mode_ok m → word (octal m) = true ∧ perm_bit (octal m) = Some m.
Proof.
  intros Hm. assert (forallb (λ n, let p := Z.of_nat n in word (octal p) && bool_decide (perm_bit (octal p) = Some p)) (seq 0 512) = true)
    as H by by vm_compute.
  rewrite forallb_forall in H. unfold mode_ok in Hm.
  specialize (H (Z.to_nat m) (proj2 (in_seq 512 0 (Z.to_nat m)) ltac:(lia))). cbv zeta in H.
  rewrite Z2Nat.id in H by lia. apply andb_true_iff in H as [H1 H2%bool_decide_eq_true]. done.
Qed.

(** *** One command *)

(** The sizes of the argument structures. *)
Definition ready (st : arguments) : Prop :=
  length (buffer (nfs_ls_1_arg st)) = 1024%nat ∧ length (r_filename (nfs_read_1_arg st)) = 128%nat ∧
  length (w_filename (nfs_write_1_arg st)) = 128%nat ∧ length (w_buffer (nfs_write_1_arg st)) = 1024%nat ∧
  length (buffer (nfs_cd_1_arg st)) = 1024%nat ∧ length (buffer (getattr_1_arg st)) = 1024%nat ∧
  length (buffer (setattr_1_arg st)) = 1024%nat ∧ length (buffer (nfs_remove_1_arg st)) = 1024%nat ∧
  length (buffer (nfs_mkdir_1_arg st)) = 1024%nat ∧ length (buffer (nfs_touch_1_arg st)) = 1024%nat.

(** A process that makes no remote call. *)
Fixpoint silent {A} (p : prog A) : Prop :=
  match p with
  | Call (Rpc _ _ _) _ => False
  | Call _ k => ∀ r, silent (k r)
  | _ => True
  end.

Lemma silent_rpcs {A} (p : prog A) rs : silent p → rpcs (trace_of p rs) = [].
Proof.
  unfold trace_of. revert rs. induction p as [a|z| |c k IH]; intros rs Hp; try done.
  destruct rs as [|r rs]; [done|]. simpl. specialize (IH r rs).
  destruct (run (k r) rs) as [t o]. simpl in *. destruct c; try done; by apply IH.
Qed.

Lemma silent_bind {A B} (f : A → prog B) (p : prog A) : silent p → (∀ a, silent (f a)) → silent (p ≫= f).
Proof.
  intros Hp Hf. unfold mbind, prog_mbind. induction p as [a|z| |c k IH]; cbn [prog_bind silent] in *; auto.
  destruct c; auto; intros r; by apply IH.
Qed.

Lemma silent_need {A} (o : option A) : silent (need o).
Proof. by destruct o. Qed.

Lemma silent_int_result r bad good : silent (int_result r bad good).
Proof.
  unfold int_result. bool_case; [done|]. apply silent_bind; [apply silent_need|]. done.
Qed.

(** The shape of a command that copies its argument and makes a call. *)
Lemma rpcs_after_call {A B} (o : option A) a (p : A → prog B) rs :
  o = Some a → rpcs (trace_of (need o ≫= p) rs) = rpcs (trace_of (p a) rs).
Proof. by intros ->. Qed.

Lemma rpcs_call proc ints bs B (k : reply → prog B) r rs :
  (∀ r, silent (k r)) → rpcs (trace_of (sys (Rpc proc ints bs) ≫= k) (r :: rs)) = [(proc, ints, cstr <$> bs)].
Proof.
  intros Hk. unfold trace_of, mbind, prog_mbind. cbn. pose proof (silent_rpcs (k r) rs (Hk r)) as H. unfold trace_of in H.
  destruct (run (k r) rs) as [t o]. cbn in *. by rewrite H.
Qed.

Lemma rpcs_then {A B} (p : prog A) (f : A → prog B) rs :
  (∀ a, silent (f a)) → rpcs (trace_of (p ≫= f) rs) = rpcs (trace_of p rs).
Proof.
  intros Hf. unfold trace_of. rewrite run_bind. destruct (run p rs) as [t o]. destruct o as [a|z| |]; try done.
  pose proof (silent_rpcs (f a) (drop (length t) rs) (Hf a)) as H. unfold trace_of in H.
  destruct (run (f a) _) as [t' o']. change (rpcs t' = []) in H. change (rpcs (t ++ t') = rpcs t).
  unfold rpcs in *. by rewrite select_ev_app, H, app_nil_r.
Qed.

Lemma copy_word b limit p :
  path_ok limit p → (limit ≤ length b)%nat → ∃ b', strcpy b p = Some b' ∧ cstr b' = Some p ∧ length b' = length b.
Proof.
  intros [Hw Hl] Hb. pose proof (strcpy_spec b p (word_nonul _ Hw)) as H. rewrite decide_True in H by lia. done.
Qed.

Lemma u32_number n : number_ok n → u32 n = n.
Proof. intros [? Hmax]. unfold INT_MAX in Hmax. unfold u32. apply Z.mod_small. lia. Qed.

Lemma u32_mode m : mode_ok m → u32 m = m.
Proof. intros ?. unfold mode_ok in *. unfold u32. apply Z.mod_small. lia. Qed.

Ltac silent_tac :=
  repeat first
    [ done
    | progress intros
    | apply silent_bind
    | apply silent_need
    | apply silent_int_result
    | match goal with |- silent (if ?b then _ else _) => destruct b end
    | match goal with |- silent (let '(_, _) := ?x in _) => destruct x end ].

Lemma path_call {B} b limit p a0 proc ints (k : buf → reply → prog B) r rs :
  path_ok limit p → cut nl a0 = p → (limit ≤ length b)%nat → (∀ b r, silent (k b r)) →
  rpcs (trace_of (b' ← need (strcpy b (cut nl a0)); x ← sys (Rpc proc ints [b']); k b' x) (r :: rs)) = [(proc, ints, [Some p])].
Proof.
  intros Hp -> Hb Hk. destruct (copy_word b limit p Hp Hb) as (b' & -> & C & _).
  cbn [need mbind prog_mbind prog_bind]. rewrite <- C. by apply rpcs_call.
Qed.

Lemma mode_call proc use bad good p m b r rs :
  path_ok 1000 p ∧ mode_ok m → length (buffer b) = 1024%nat →
  rpcs (trace_of (do_mode proc use bad good [p; octal m +:+ nl] b) (r :: rs)) = [(proc, [Some m], [Some p])].
Proof.
  intros [Hp Hm] Hb. cbn [do_mode]. destruct (octal_facts m Hm) as [Hw Ho].
  rewrite (proj2 (cut_word _ Hw)), Ho.
  destruct (copy_word (buffer b) 1000 p Hp) as (b' & E & C & _); [lia|].
  rewrite (proj1 (cut_word p (proj1 Hp))), E. cbn [need mbind prog_mbind prog_bind]. rewrite (u32_mode m Hm).
  etransitivity; [apply rpcs_call; silent_tac|]. cbn. by rewrite C.
Qed.

Lemma command_calls q st r rs :
  typable q → ready st →
  rpcs (trace_of (command (typed q).1 (take 4 (tokens (typed q).2)) st) (r :: rs)) = [wanted q].
Proof.
  intros Hq (R1 & R2 & R3 & R4 & R5 & R6 & R7 & R8 & R9 & R10). destruct st as [l rd w c g s rm mk t].
  cbn [nfs_ls_1_arg nfs_read_1_arg nfs_write_1_arg nfs_cd_1_arg getattr_1_arg setattr_1_arg nfs_remove_1_arg nfs_mkdir_1_arg nfs_touch_1_arg] in *.
  destruct q as [p|f o z|f m o z|p|p|p m|p|p m|p m]; cbn [typed fst snd tokens take typable wanted] in *;
    unfold command;
    match goal with |- context [getCommandType ?c] => let v := eval vm_compute in (getCommandType c) in change (getCommandType c) with v end;
    cbv iota; rewrite rpcs_then by done.
  - cbn [do_ls nfs_ls_1_arg]. apply (path_call _ 1000); [done|by apply cut_word, Hq|lia|silent_tac].
  - destruct Hq as (Hp & Ho & Hz). cbn [do_read nfs_read_1_arg].
    destruct (copy_word (r_filename rd) 128 f Hp) as (b1 & E1 & C1 & _); [lia|].
    rewrite (proj1 (cut_word f (proj1 Hp))), E1. cbn [need mbind prog_mbind prog_bind].
    rewrite (proj1 (atoi_token _ Ho)), (proj2 (atoi_token _ Hz)). cbn [need mbind prog_mbind prog_bind].
    rewrite (u32_number o Ho), (u32_number z Hz). etransitivity; [apply rpcs_call; silent_tac|]. cbn. by rewrite C1.
  - destruct Hq as (Hp & Hm & Ho & Hz). cbn [do_write nfs_write_1_arg].
    destruct (copy_word (w_filename w) 128 f Hp) as (b1 & E1 & C1 & _); [lia|].
    destruct (copy_word (w_buffer w) 800 m Hm) as (b2 & E2 & C2 & _); [lia|].
    rewrite (proj1 (cut_word f (proj1 Hp))), (proj1 (cut_word m (proj1 Hm))), E1.
    cbn [need mbind prog_mbind prog_bind]. rewrite E2. cbn [need mbind prog_mbind prog_bind].
    rewrite (proj1 (atoi_token _ Ho)), (proj2 (atoi_token _ Hz)). cbn [need mbind prog_mbind prog_bind].
    rewrite (u32_number o Ho), (u32_number z Hz). etransitivity; [apply rpcs_call; silent_tac|]. cbn. by rewrite C1, C2.
  - cbn [do_cd nfs_cd_1_arg]. apply (path_call _ 1000); [done|by apply cut_word, Hq|lia|silent_tac].
  - cbn [do_getattr getattr_1_arg]. apply (path_call _ 1000); [done|by apply cut_word, Hq|lia|silent_tac].
  - cbn [do_setattr setattr_1_arg]. by apply mode_call.
  - cbn [do_remove nfs_remove_1_arg]. apply (path_call _ 1000); [done|by apply cut_word, Hq|lia|silent_tac].
  - cbn [do_mkdir nfs_mkdir_1_arg]. by apply mode_call.
  - cbn [do_touch nfs_touch_1_arg]. by apply mode_call.
Qed.

Lemma typed_words q : typable q → word (typed q).1 = true ∧ Forall (λ w, word w = true) (typed q).2.
Proof.
  assert (∀ n, number_ok n → word (dec n) = true) as Hn by (intros n [? _]; by apply dec_word).
  assert (∀ m, mode_ok m → word (octal m) = true) as Hm by (intros m Hm; by apply octal_facts).
  intros Hq. destruct q; cbn in *; unfold path_ok in *; (split; [done|]); repeat constructor; naive_solver.
Qed.

Definition line_reply (line : string) : reply := Reply 1 line [] [].

(** C12: for each of the nine commands, the line a user types (words separated
    by single blanks, numbers in decimal, modes in octal, a newline) makes the
    client perform exactly the remote call it stands for, with the path,
    offset, size and mode that were typed, whatever the server answers. *)
Theorem client_dispatch q old st r0 r rs :
  typable q → ready st →
  rpcs (trace_of (round (old, st)) (r0 :: line_reply (line_of (typed q).1 (typed q).2) :: r :: rs)) = [wanted q].
Proof.
  intros Hq Hst. pose proof (typed_words q Hq) as [Hc Hws].
  rewrite <- (command_calls q st r rs Hq Hst). unfold round, trace_of. cbn -[strtok command typed line_of split_args].
  rewrite strtok_command by done. cbn -[command split_args after typed line_of].
  rewrite split_args_tokens by done.
  pose proof (rpcs_then (command (typed q).1 (take 4 (tokens (typed q).2)) st)
    (λ st, mret (Some (cut (String " " nl) (line_of (typed q).1 (typed q).2)), st)) (r :: rs) ltac:(intros; exact I)) as H.
  unfold trace_of in H. rewrite <- H. by destruct (run _ (r :: rs)).
Qed.

Lemma client_dispatch_witness :
  rpcs (trace_of (round (None, no_arguments))
    [ret_ 0; line_reply ("mkdir /tmp/x 750" +:+ nl); ints_ [0]; ret_ 0]) = [("nfs_mkdir_1", [Some 488], [Some "/tmp/x"])].
Proof.
  apply (client_dispatch (Mkdir "/tmp/x" 488) None no_arguments (ret_ 0) (ints_ [0]) [ret_ 0]).
  - split; [split; [done|simpl; lia]|unfold mode_ok; lia].
  - repeat split.
Defined.

(** A line without a word (the user only presses return) makes the client
    compare the NULL that [strtok] returned, and a failed remote read is
    reported as "Read -1 bytes" with the stale text: its error branch tests
    [size < 0] on an unsigned field. *)
Theorem client_errors old st r0 line rs f off sz data text r1 r2 rs' :
  skip_delims (String " " nl) line = EmptyString → ready st → typable (Read f off sz) →
  cstr (cells data) = Some text →
  outcome_of (round (old, st)) (r0 :: line_reply line :: rs) = UB ∧
  ∃ b, trace_of (do_read [f; dec off; dec sz +:+ nl] st) (Reply 1 data [4294967295] [] :: r1 :: r2 :: rs') =
     [(Rpc "nfs_read_1" [Some off; Some sz] [b], Reply 1 data [4294967295] []);
      (Puts ("Read -1 bytes" +:+ nl), r1); (Puts (text +:+ nl), r2)].
Proof.
  intros Hline Hst (Hp & Ho & Hz) Htext. split.
  - unfold outcome_of, round, strtok. cbn -[skip_delims command]. by rewrite Hline.
  - destruct Hst as (_ & R2 & _). destruct (copy_word (r_filename (nfs_read_1_arg st)) 128 f Hp) as (b & E & _ & _); [lia|].
    exists b. unfold trace_of. cbn [do_read]. rewrite (proj1 (cut_word f (proj1 Hp))), E.
    cbn [need mbind prog_mbind prog_bind].
    rewrite (proj1 (atoi_token _ Ho)), (proj2 (atoi_token _ Hz)). cbn [need mbind prog_mbind prog_bind].
    rewrite (u32_number off Ho), (u32_number sz Hz). cbn -[cells]. unfold node_result. cbn -[cells u32]. rewrite Htext. done.
Qed.

Lemma client_errors_witness :
  outcome_of (round (None, no_arguments)) [ret_ 0; line_reply nl] = UB.
Proof.
  refine (proj1 (client_errors None no_arguments (ret_ 0) nl [] "f" 0 5 (String NUL EmptyString) EmptyString
    (ret_ 0) (ret_ 0) [] _ _ _ _)); [done|repeat split| |done].
  split_and!; [split; [done|simpl; lia]| |]; unfold number_ok, INT_MAX; lia.
Defined.

End Client.
