(* ===== verification/Packet.v ===== *)
(** * Raw packets: [tcp_injection/TCP-Packet-Injection.c],
    [rawsockets/basic/server.c], [client.c], [newclient.c]

    Packets are lists of byte values.  The host is little-endian and LP64:
    [long] has 8 bytes, multi-byte fields are stored low byte first, and
    [htons] swaps.  Memory from [malloc] holds whatever the reply says
    ([rints]), so fields the program does not set are the environment's. *)

From S2P Require Import Prelude CString Posix.

#[local] Open Scope Z_scope.

Ltac Zify.zify_post_hook ::= Z.to_euclidean_division_equations.

(** ** Bytes *)

Definition byte (z : Z) : Prop := 0 ≤ z < 256.

Definition le16 (v : Z) : list Z := [v mod 256; v / 256 mod 256].
Definition le32 (v : Z) : list Z := le16 (v mod 65536) ++ le16 (v / 65536 mod 65536).
Definition le64 (v : Z) : list Z := le32 (v mod 4294967296) ++ le32 (v / 4294967296 mod 4294967296).

Definition get16 (m : list Z) (i : nat) : Z := nth i m 0 + 256 * nth (S i) m 0.
Definition get32 (m : list Z) (i : nat) : Z := get16 m i + 65536 * get16 m (S (S i)).

(** Storing bytes at an offset of an object that is large enough. *)
Definition poke (off : nat) (bs m : list Z) : list Z := take off m ++ bs ++ drop (off + length bs) m.

Definition htonl (z : Z) : Z :=
  (z mod 256) * 16777216 + (z / 256 mod 256) * 65536 + (z / 65536 mod 256) * 256 + z / 16777216 mod 256.

Definition to_cells (m : list Z) : buf := (λ z, Some (ascii_of_N (Z.to_N z))) <$> m.

(** [malloc(n)]: [n] bytes of unknown contents; the programs use the result
    without a test, so NULL is undefined behaviour. *)
Definition bytes_of (n : nat) (l : list Z) : list Z := (λ i, u8 (nth i l 0)) <$> seq 0 n.

Definition malloc (n : nat) : prog (list Z) :=
  r ← sys (LibCall "malloc" [Z.of_nat n] []);
  if rv r =? 0 then Undef else mret (bytes_of n (rints r)).

Lemma bytes_of_length n l : length (bytes_of n l) = n.
Proof. unfold bytes_of. by rewrite length_fmap, length_seq. Qed.

Lemma bytes_of_bytes n l : Forall byte (bytes_of n l).
Proof. apply Forall_fmap, Forall_true. intros i. unfold byte, compose, u8. apply Z.mod_pos_bound. lia. Qed.

Lemma poke_length off bs m : (off + length bs ≤ length m)%nat → length (poke off bs m) = length m.
Proof. intros. unfold poke. rewrite !length_app, length_take, length_drop. lia. Qed.

Lemma poke_at off pre bs post : off = length pre → poke off bs (pre ++ post) = (pre ++ bs) ++ drop (length bs) post.
Proof. intros ->. unfold poke. by rewrite take_app_length, drop_app_add, <- app_assoc. Qed.

(** ** Addresses in text form *)

Definition hex_val (c : ascii) : option Z :=
  let n := char_val c in
  if (48 <=? n) && (n <=? 57) then Some (n - 48)
  else if (97 <=? n) && (n <=? 102) then Some (n - 87)
  else if (65 <=? n) && (n <=? 70) then Some (n - 55) else None.

(** [ether_aton]: six one- or two-digit hexadecimal numbers and colons. *)
Fixpoint hex_groups (cur : option Z) (s : string) : option (list Z) :=
  match s with
  | EmptyString => v ← cur; Some [v]
  | String c s' =>
      if Ascii.eqb c ":" then v ← cur; l ← hex_groups None s'; Some (v :: l)
      else h ← hex_val c; hex_groups (Some (default 0 cur * 16 + h)) s'
  end.

Definition ether_aton (s : string) : option (list Z) :=
  l ← hex_groups None s; if decide (length l = 6%nat ∧ forallb (λ v, v <? 256) l = true) then Some l else None.

(** [inet_addr] of a dotted quad, the four bytes in the order written. *)
Fixpoint dotted (cur : option Z) (s : string) : option (list Z) :=
  match s with
  | EmptyString => v ← cur; Some [v]
  | String c s' =>
      if Ascii.eqb c "." then v ← cur; l ← dotted None s'; Some (v :: l)
      else if is_digit c then dotted (Some (default 0 cur * 10 + (char_val c - 48))) s' else None
  end.

Definition INADDR_NONE : Z := 4294967295.

Definition inet_addr (s : string) : Z :=
  match dotted None s with
  | Some l => if decide (length l = 4%nat ∧ forallb (λ v, v <? 256) l = true) then get32 l 0 else INADDR_NONE
  | None => INADDR_NONE
  end.

(** ** The Internet checksum *)
Module Checksum.

(** [if(sum & 0x80000000) sum = (sum & 0xFFFF) + (sum >> 16);] *)
Definition fold (sum : Z) : Z := Z.land sum 65535 + Z.shiftr sum 16.

(** [while(len > 1) { sum += *temp++; ...; len -= 2; } if(len) sum += *temp;] *)
Fixpoint add_words (sum : Z) (data : list Z) : Z :=
  match data with
  | b0 :: b1 :: data' =>
      let sum := sum + (b0 + 256 * b1) in
      add_words (if negb (Z.land sum 2147483648 =? 0) then fold sum else sum) data'
  | [b0] => sum + b0
  | [] => sum
  end.

(** [while(sum>>16) sum = (sum & 0xFFFF) + (sum >> 16);] *)
Definition fold_step (sum : Z) : option (Z + Z) :=
  if negb (Z.shiftr sum 16 =? 0) then Some (inl (fold sum)) else Some (inr sum).

Definition fold_all (sum : Z) : option Z :=
  match loop 4 fold_step sum with Some (inr s) => Some s | _ => None end.

(** [return ~sum;] as an [unsigned short] *)
Definition ComputeChecksum (data : list Z) : option Z :=
  s ← fold_all (add_words 0 data); Some (u16 (Z.lnot s)).

(** *** The reference: one's complement sum of the 16-bit words *)
Fixpoint word_sum (data : list Z) : Z :=
  match data with
  | b0 :: b1 :: data' => b0 + 256 * b1 + word_sum data'
  | [b0] => b0
  | [] => 0
  end.

(** The representative of a sum in 0 .. 65535; 0 only for 0. *)
Definition ones (s : Z) : Z := if s =? 0 then 0 else (s - 1) mod 65535 + 1.

Lemma fold_value s : 0 ≤ s → fold s = s mod 65536 + s / 65536.
Proof.
  intros. unfold fold. change 65535 with (Z.ones 16). rewrite Z.land_ones, Z.shiftr_div_pow2 by lia. done.
Qed.

Lemma ones_fold s : 0 ≤ s → ones (fold s) = ones s ∧ 0 ≤ fold s ≤ s.
Proof.
  intros Hs. rewrite fold_value by done. unfold ones. split; [|lia].
  destruct (s =? 0) eqn:E, (s mod 65536 + s / 65536 =? 0) eqn:E2; bool_hyps; [done|lia|lia|]. f_equal.
  replace (s - 1) with (s mod 65536 + s / 65536 - 1 + s / 65536 * 65535) by lia.
  by rewrite Z.mod_add.
Qed.

Lemma ones_add a b : 0 ≤ a → 0 ≤ b → ones (ones a + b) = ones (a + b).
Proof.
  intros Ha Hb. unfold ones at 2. destruct (a =? 0) eqn:E; bool_hyps; [by subst|]. unfold ones.
  pose proof (Z.mod_pos_bound (a - 1) 65535).
  rewrite (proj2 (Z.eqb_neq _ 0)), (proj2 (Z.eqb_neq _ 0)) by lia. f_equal.
  replace ((a - 1) mod 65535 + 1 + b - 1) with ((a - 1) mod 65535 + b) by lia.
  replace (a + b - 1) with (a - 1 + b) by lia. by rewrite Z.add_mod_idemp_l.
Qed.

Lemma ones_small s : 0 ≤ s ≤ 65535 → ones s = s.
Proof. intros. unfold ones. bool_case; [done|]. rewrite Z.mod_small by lia. lia. Qed.

Lemma ones_bound s : 0 ≤ s → 0 ≤ ones s ≤ 65535.
Proof. intros. unfold ones. bool_case; [lia|]. pose proof (Z.mod_pos_bound (s - 1) 65535). lia. Qed.

Lemma word_sum_nonneg data : Forall byte data → 0 ≤ word_sum data.
Proof.
  assert (∀ n data, (length data ≤ n)%nat → Forall byte data → 0 ≤ word_sum data) as H.
  { clear. induction n as [|n IH]; intros [|b0 [|b1 data]] Hn Hd; simpl in *; try lia.
    - apply Forall_cons in Hd as [[? _] _]. lia.
    - apply Forall_cons in Hd as [[? _] Hd]. apply Forall_cons in Hd as [[? _] Hd].
      specialize (IH data ltac:(lia) Hd). lia. }
  by apply (H (length data)).
Qed.

Lemma land_bit31 s : 0 ≤ s < 4294967296 → (Z.land s 2147483648 =? 0) = negb (2147483648 <=? s).
Proof.
  intros Hs. assert (Z.testbit s 31 = (2147483648 <=? s)) as Hb.
  { rewrite Z.testbit_odd, Z.shiftr_div_pow2 by lia. change (2 ^ 31) with 2147483648.
    destruct (2147483648 <=? s) eqn:E; bool_hyps.
    - replace (s / 2147483648) with 1 by lia. done.
    - replace (s / 2147483648) with 0 by lia. done. }
  rewrite <- Hb. assert (Z.land s 2147483648 = if Z.testbit s 31 then 2147483648 else 0) as ->.
  { change 2147483648 with (2 ^ 31) at 1. apply Z.bits_inj'. intros i Hi. rewrite Z.land_spec.
    destruct (decide (i = 31)) as [->|Hne].
    - rewrite Z.pow2_bits_true, andb_true_r by lia. by destruct (Z.testbit s 31).
    - rewrite Z.pow2_bits_false, andb_false_r by lia. destruct (Z.testbit s 31); [|by rewrite Z.testbit_0_l].
      change 2147483648 with (2 ^ 31). by rewrite Z.pow2_bits_false by lia. }
  by destruct (Z.testbit s 31).
Qed.

(** Adding up keeps the sum below 2^32 and its class. *)
Lemma add_words_spec sum data :
  Forall byte data → 0 ≤ sum < 2147483648 →
  0 ≤ add_words sum data < 4294967296 ∧ ones (add_words sum data) = ones (sum + word_sum data).
Proof.
  assert (∀ n data sum, (length data ≤ n)%nat → Forall byte data → 0 ≤ sum < 2147483648 →
    0 ≤ add_words sum data < 4294967296 ∧ ones (add_words sum data) = ones (sum + word_sum data)) as H.
  { clear. induction n as [|n IH]; intros [|b0 [|b1 data]] sum Hn Hd Hs; simpl in Hn; try lia; cbn [add_words word_sum].
    - rewrite Z.add_0_r. split; [lia|done].
    - rewrite Z.add_0_r. split; [lia|done].
    - apply Forall_cons in Hd as [[? ?] _]. split; [lia|done].
    - apply Forall_cons in Hd as [[? ?] Hd]. apply Forall_cons in Hd as [[? ?] Hd].
      pose proof (word_sum_nonneg data Hd). set (s := sum + (b0 + 256 * b1)).
      assert (0 ≤ s < 4294967296) as Hs' by (unfold s; lia).
      pose proof (ones_fold s ltac:(lia)) as [Ho Hf].
      rewrite land_bit31 by done. destruct (2147483648 <=? s) eqn:E; cbn [negb]; bool_hyps.
      + rewrite fold_value in Hf |- * by lia. destruct (IH data (s mod 65536 + s / 65536)) as [Hr He]; [lia|done|lia|].
        split; [done|]. rewrite He. rewrite fold_value in Ho by lia.
        rewrite <- (ones_add (s mod 65536 + s / 65536)) by lia. rewrite Ho, ones_add by lia. f_equal. unfold s. lia.
      + destruct (IH data s) as [Hr He]; [lia|done|lia|]. split; [done|]. rewrite He. f_equal. unfold s. lia. }
  intros. by apply (H (length data)).
Qed.

Lemma fold_all_spec s : 0 ≤ s < 4294967296 → fold_all s = Some (ones s).
Proof.
  assert (∀ n k s, 0 ≤ s < 4294967296 → (n = 1%nat ∧ s ≤ 65535) ∨ (n = 2%nat ∧ s ≤ 131070) ∨ n = 3%nat → (n ≤ k)%nat →
    loop k fold_step s = Some (inr (ones s))) as H.
  { induction n as [|n IH]; intros k s0 Hs Hn Hk; [lia|]. destruct k as [|k]; [lia|]. cbn [loop].
    unfold fold_step at 2. rewrite Z.shiftr_div_pow2 by lia. change (2 ^ 16) with 65536.
    destruct (s0 / 65536 =? 0) eqn:E; bool_hyps; cbn [negb option_bind mbind].
    - by rewrite ones_small by lia.
    - pose proof (ones_fold s0 ltac:(lia)) as [<- _]. rewrite fold_value by lia. apply IH; lia. }
  intros Hs. unfold fold_all. rewrite (H 3%nat); [done|done|by right; right|lia].
Qed.

(** The checksum is the complement of the one's complement sum. *)
Lemma ComputeChecksum_spec data :
  Forall byte data → ComputeChecksum data = Some (65535 - ones (word_sum data)).
Proof.
  intros Hd. destruct (add_words_spec 0 data Hd) as [Hr Ho]; [lia|]. rewrite Z.add_0_l in Ho.
  unfold ComputeChecksum. rewrite fold_all_spec, Ho by done. cbn [option_bind mbind]. f_equal.
  pose proof (ones_bound (word_sum data) (word_sum_nonneg data Hd)). unfold u16, Z.lnot. lia.
Qed.

(** A sum completed by its checksum is a non-zero multiple of 65535. *)
Lemma ones_completed s : 0 ≤ s → ones (s + (65535 - ones s)) = 65535.
Proof.
  intros Hs. unfold ones. destruct (s =? 0) eqn:E; bool_hyps; [by subst|].
  pose proof (Z.mod_pos_bound (s - 1) 65535). rewrite (proj2 (Z.eqb_neq _ 0)) by lia.
  pose proof (Z.div_mod (s - 1) 65535 ltac:(lia)).
  replace (s + (65535 - ((s - 1) mod 65535 + 1)) - 1) with (65534 + (s - 1) / 65535 * 65535) by lia.
  by rewrite Z.mod_add.
Qed.

Lemma ones_full x : 0 < x → ones x = 65535 ↔ x mod 65535 = 0.
Proof.
  intros Hx. unfold ones. rewrite (proj2 (Z.eqb_neq _ 0)) by lia. lia.
Qed.

Lemma ones_multiple L : 0 < L → ∃ q, 0 ≤ q ∧ L = 65535 * q + ones L.
Proof.
  intros HL. exists ((L - 1) / 65535). unfold ones. rewrite (proj2 (Z.eqb_neq _ 0)) by lia. lia.
Qed.

(** Taking [P] out of a completed sum is noticed unless [P] is a multiple. *)
Lemma ones_difference L P :
  0 ≤ P < L → ones (L - P + (65535 - ones L)) = 65535 ↔ P mod 65535 = 0.
Proof.
  intros HP. pose proof (ones_bound L ltac:(lia)). rewrite ones_full by lia.
  destruct (ones_multiple L) as (q & Hq & E); [lia|].
  replace (L - P + (65535 - ones L)) with (- P + (q + 1) * 65535) by lia.
  rewrite Z.mod_add by lia. clear. lia.
Qed.

Lemma word_sum_zeros l : Forall (eq 0) l → word_sum l = 0.
Proof.
  assert (∀ n l, (length l ≤ n)%nat → Forall (eq 0) l → word_sum l = 0) as H.
  { clear. induction n as [|n IH]; intros [|x [|y l]] Hn Hl; simpl in *; try done; try lia.
    - by inversion Hl.
    - inversion Hl as [|?? <- Hl']; inversion Hl' as [|?? <- Hl'']; subst. by rewrite IH by (done || lia). }
  by apply (H (length l)).
Qed.

Lemma word_sum_app a b : Nat.even (length a) = true → word_sum (a ++ b) = word_sum a + word_sum b.
Proof.
  assert (∀ n a, (length a ≤ n)%nat → Nat.even (length a) = true → word_sum (a ++ b) = word_sum a + word_sum b) as H.
  { clear. induction n as [|n IH]; intros [|x [|y a]] Hn He; simpl in *; try done; try lia.
    rewrite IH by (done || lia). lia. }
  by apply (H (length a)).
Qed.

End Checksum.

(** ** [tcp_injection/TCP-Packet-Injection.c] *)
Module TcpInjection.
Import Checksum.

(** *** The constants of the program *)
Definition DATA_SIZE : Z := 100.
Definition SRC_ETHER_ADDR : string := "aa:aa:aa:aa:aa:aa".
Definition DST_ETHER_ADDR : string := "bb:bb:bb:bb:bb:bb".
Definition SRC_IP : string := "192.168.0.10".
Definition DST_IP : string := "192.168.0.11".
Definition SRC_PORT : Z := 80.
Definition DST_PORT : Z := 100.
Definition ETH_P_ALL : Z := 3.
Definition ETHERTYPE_IP : Z := 2048.
Definition IPPROTO_TCP : Z := 6.
Definition IFNAMSIZ : nat := 16.
Definition RAND_MAX : Z := 2147483647.

(** *** The functions, in the order of the file *)

Definition CreateRawSocket (protocol_to_sniff : Z) : prog Z :=
  rawsock ← sysv (Socket PF_PACKET SOCK_RAW (htons protocol_to_sniff));
  if rawsock =? -1 then do_ (Perror "Error creating raw socket: ");; Halt (-1) else mret rawsock.

(** The reply to [SIOCGIFINDEX] carries the index of the interface. *)
Definition BindRawSocketToInterface (device : string) (rawsock protocol : Z) : prog Z :=
  r ← sys (LibCall "SIOCGIFINDEX" [rawsock] [substring 0 IFNAMSIZ device]);
  if rv r =? -1 then puts ("Error getting Interface index !" +:+ nl);; Halt (-1) else
  let ifr_ifindex := default 0 (head (rints r)) in
  b ← sysv (Bind rawsock (SaRaw ifr_ifindex (htons protocol)));
  if b =? -1 then do_ (Perror ("Error binding raw socket to interface" +:+ nl));; Halt (-1) else mret 1.

Definition SendRawPacket (rawsock : Z) (pkt : list Z) (pkt_len : Z) : prog Z :=
  sent ← sysv (Write rawsock (to_cells pkt) pkt_len);
  if negb (sent =? pkt_len)
  then puts ("Could only send " +:+ dec sent +:+ " bytes of packet of length " +:+ dec pkt_len +:+ nl);; mret 0
  else mret 1.

(** [struct ethhdr]: destination 0-5, source 6-11, protocol 12-13. *)
Definition CreateEthernetHeader (src_mac dst_mac : string) (protocol : Z) : prog (list Z) :=
  m ← malloc 14;
  src ← need (ether_aton src_mac);
  dst ← need (ether_aton dst_mac);
  mret (poke 12 (le16 (htons protocol)) (poke 0 dst (poke 6 src m))).

(** A four-bit field in the low or the high half of a byte. *)
Definition set_lo (v b : Z) : Z := b / 16 * 16 + v.
Definition set_hi (v b : Z) : Z := b mod 16 + 16 * v.
Definition set_byte (i : nat) (f : Z → Z) (m : list Z) : list Z := poke i [f (nth i m 0)] m.

(** The field assignments of [CreateIPHeader] on the allocated bytes. *)
Definition ip_fields (m : list Z) : list Z :=
  let m := set_byte 0 (set_hi 4) m in
  let m := set_byte 0 (set_lo (20 / 4)) m in
  let m := poke 1 [0] m in
  let m := poke 2 (le16 (htons (20 + 20 + DATA_SIZE))) m in
  let m := poke 4 (le16 (htons 111)) m in
  let m := poke 6 (le16 0) m in
  let m := poke 8 [111] m in
  let m := poke 9 [IPPROTO_TCP] m in
  let m := poke 10 (le16 0) m in
  let m := poke 12 (le32 (inet_addr SRC_IP)) m in
  poke 16 (le32 (inet_addr DST_IP)) m.

Definition ip_ihl (ip : list Z) : Z := nth 0 ip 0 mod 16.
Definition tcp_doff (tcp : list Z) : Z := nth 12 tcp 0 / 16.

Definition CreateIPHeader : prog (list Z) :=
  m ← malloc 20;
  let m := ip_fields m in
  check ← need (ComputeChecksum (take (Z.to_nat (ip_ihl m * 4)) m));
  mret (poke 10 (le16 check) m).

(** Byte 13 holds the flags: only [syn] (bit 1) is assigned, the other seven
    keep what [malloc] left there. *)
Definition tcp_fields (m : list Z) : list Z :=
  let m := poke 0 (le16 (htons SRC_PORT)) m in
  let m := poke 2 (le16 (htons DST_PORT)) m in
  let m := poke 4 (le32 (htonl 111)) m in
  let m := poke 8 (le32 (htonl 111)) m in
  let m := set_byte 12 (set_lo 0) m in
  let m := set_byte 12 (set_hi (20 / 4)) m in
  let m := set_byte 13 (Z.lor 2) m in
  let m := poke 14 (le16 (htons 100)) m in
  let m := poke 16 (le16 0) m in
  poke 18 (le16 0) m.

Definition CreateTcpHeader : prog (list Z) := m ← malloc 20; mret (tcp_fields m).

(** [sizeof(PseudoHeader)]: two [long]s, two bytes, a short and 4 of padding. *)
Definition PSEUDO : nat := 24.

(** The contents of [hdr] when the checksum is computed. *)
Definition pseudo_fields (segment_len : Z) (tcp_header ip_header data hdr : list Z) : list Z :=
  let hdr := poke 0 (le64 (get32 ip_header 12)) hdr in
  let hdr := poke 8 (le64 (get32 ip_header 16)) hdr in
  let hdr := poke 16 [0] hdr in
  let hdr := poke 17 [nth 9 ip_header 0] hdr in
  let hdr := poke 18 (le16 (htons segment_len)) hdr in
  let doff4 := Z.to_nat (tcp_doff tcp_header * 4) in
  let hdr := poke PSEUDO (take doff4 tcp_header) hdr in
  poke (PSEUDO + doff4) (take (Z.to_nat DATA_SIZE) data) hdr.

Definition CreatePseudoHeaderAndComputeTcpChecksum (tcp_header ip_header data : list Z) : prog (list Z) :=
  let segment_len := ntohs (get16 ip_header 2) - ip_ihl ip_header * 4 in
  let header_len := Z.of_nat PSEUDO + segment_len in
  hdr ← malloc (Z.to_nat header_len);
  let hdr := pseudo_fields segment_len tcp_header ip_header data hdr in
  check ← need (ComputeChecksum (take (Z.to_nat header_len) hdr));
  mret (poke 16 (le16 check) tcp_header).

(** [data[counter] = 255.0 * rand() / (RAND_MAX + 1.0);] the product has at
    most 39 bits and the divisor is a power of two: the doubles are exact and
    the conversion truncates. *)
Definition CreateData (len : Z) : prog (list Z) :=
  data ← malloc (Z.to_nat len);
  tv ← sysv (LibCall "gettimeofday" [] []);
  do_ (LibCall "srand" [tv] []);;
  for_up 0 len (λ counter data,
    x ← sysv (LibCall "rand" [] []);
    mret (poke (Z.to_nat counter) [255 * x / (RAND_MAX + 1)] data)) data.

(** The four copies into [packet]. *)
Definition assemble (ethernet_header ip_header tcp_header data packet : list Z) : list Z :=
  let ihl4 := Z.to_nat (ip_ihl ip_header * 4) in
  let doff4 := Z.to_nat (tcp_doff tcp_header * 4) in
  let packet := poke 0 (take 14 ethernet_header) packet in
  let packet := poke 14 (take ihl4 ip_header) packet in
  let packet := poke (14 + ihl4) (take doff4 tcp_header) packet in
  poke (14 + ihl4 + doff4) (take (Z.to_nat DATA_SIZE) data) packet.

Definition main (argv1 : string) : prog Z :=
  raw ← CreateRawSocket ETH_P_ALL;
  BindRawSocketToInterface argv1 raw ETH_P_ALL;;
  ethernet_header ← CreateEthernetHeader SRC_ETHER_ADDR DST_ETHER_ADDR ETHERTYPE_IP;
  ip_header ← CreateIPHeader;
  tcp_header ← CreateTcpHeader;
  data ← CreateData DATA_SIZE;
  tcp_header ← CreatePseudoHeaderAndComputeTcpChecksum tcp_header ip_header data;
  let pkt_len := 14 + ntohs (get16 ip_header 2) in
  packet ← malloc (Z.to_nat pkt_len);
  let packet := assemble ethernet_header ip_header tcp_header data packet in
  ok ← SendRawPacket raw packet pkt_len;
  (if ok =? 0 then do_ (Perror "Error sending packet") else puts ("Packet sent successfully" +:+ nl));;
  do_ (Close raw);;
  mret 0.

(** *** The headers that are sent *)

Definition eth_bytes : list Z := replicate 6 187 ++ replicate 6 170 ++ [8; 0].
Definition ip_bytes (check : Z) : list Z :=
  [69; 0; 0; 140; 0; 111; 0; 0; 111; 6] ++ le16 check ++ [192; 168; 0; 10; 192; 168; 0; 11].
Definition tcp_bytes (flags check : Z) : list Z :=
  [0; 80; 0; 100; 0; 0; 0; 111; 0; 0; 0; 111; 80; flags; 0; 100] ++ le16 check ++ [0; 0].

(** The pseudo-header of RFC 793. *)
Definition rfc_pseudo (segment_len : Z) : list Z :=
  [192; 168; 0; 10; 192; 168; 0; 11; 0; 6] ++ [segment_len / 256; segment_len mod 256].

Ltac split_list m n :=
  lazymatch n with
  | O => idtac
  | S ?n' => let x := fresh "x" in destruct m as [|x m]; [discriminate|]; split_list m n'
  end.

Lemma set_version b : set_lo (20 / 4) (set_hi 4 b) = 69.
Proof. unfold set_lo, set_hi. lia. Qed.

Lemma set_doff b : set_hi (20 / 4) (set_lo 0 b) = 80.
Proof. unfold set_lo, set_hi. lia. Qed.

Lemma ip_fields_bytes m : length m = 20%nat → ip_fields m = ip_bytes 0.
Proof.
  intros Hm. split_list m 20%nat. destruct m; [|done].
  unfold ip_fields, set_byte. cbn [nth poke take drop app length Nat.add]. rewrite set_version. by vm_compute.
Qed.

Lemma tcp_fields_bytes m : length m = 20%nat → tcp_fields m = tcp_bytes (Z.lor 2 (nth 13 m 0)) 0.
Proof.
  intros Hm. split_list m 20%nat. destruct m; [|done].
  unfold tcp_fields, set_byte. cbn [nth poke take drop app length Nat.add le16 le32]. rewrite set_doff.
  remember (Z.lor 2 _) as flags. by vm_compute.
Qed.

(** The one's complement sums of the two pseudo-segments differ by the
    padding of the [struct] and by the checksum field. *)
Lemma pseudo_fields_bytes flags data hdr :
  length hdr = 144%nat → length data = 100%nat →
  pseudo_fields 120 (tcp_bytes flags 0) (ip_bytes 0) data hdr =
  ([192; 168; 0; 10; 0; 0; 0; 0; 192; 168; 0; 11; 0; 0; 0; 0; 0; 6; 0; 120] ++ take 4 (drop 20 hdr)) ++
  tcp_bytes flags 0 ++ data.
Proof.
  intros Hh Hd. split_list hdr 24%nat. unfold pseudo_fields.
  set (pre := poke 18 _ _).
  assert (pre = [192; 168; 0; 10; 0; 0; 0; 0; 192; 168; 0; 11; 0; 0; 0; 0; 0; 6; 0; 120; x19; x20; x21; x22] ++ hdr) as ->
    by (unfold pre; vm_compute; reflexivity).
  set (pre := [192; _; _; _; _; _; _; _; _; _; _; _; _; _; _; _; _; _; _; _; _; _; _; _]).
  change (Z.to_nat (tcp_doff (tcp_bytes flags 0) * 4)) with 20%nat.
  change (take 20 (tcp_bytes flags 0)) with (tcp_bytes flags 0). rewrite take_ge by (rewrite Hd; done).
  rewrite (poke_at PSEUDO pre), (poke_at (PSEUDO + 20) (pre ++ _)) by done.
  rewrite drop_drop, (drop_ge hdr), app_nil_r.
  - unfold pre. by rewrite <- app_assoc.
  - rewrite Hd. cbn in *. lia.
Qed.

(** The four copies fill the packet. *)
Lemma assemble_bytes check flags tcheck data packet :
  length packet = 154%nat → length data = 100%nat →
  assemble eth_bytes (ip_bytes check) (tcp_bytes flags tcheck) data packet =
  eth_bytes ++ ip_bytes check ++ tcp_bytes flags tcheck ++ data.
Proof.
  intros Hp Hd. unfold assemble.
  change (Z.to_nat (tcp_doff (tcp_bytes flags tcheck) * 4)) with 20%nat.
  change (Z.to_nat (ip_ihl (ip_bytes check) * 4)) with 20%nat.
  change (take 14 eth_bytes) with eth_bytes. change (take 20 (ip_bytes check)) with (ip_bytes check).
  change (take 20 (tcp_bytes flags tcheck)) with (tcp_bytes flags tcheck). rewrite take_ge by (rewrite Hd; done).
  change packet with ([] ++ packet) at 1.
  rewrite (poke_at 0 []), (poke_at 14 (_ ++ _)), (poke_at (14 + 20) (_ ++ _)), (poke_at (14 + 20 + 20) (_ ++ _)) by done.
  rewrite !drop_drop, (drop_ge packet), app_nil_r.
  - by rewrite <- !app_assoc.
  - rewrite Hd. cbn in *. lia.
Qed.

(** The TCP checksum verifies, as RFC 793 defines it, exactly when the four
    padding bytes of the pseudo-header happen to add nothing. *)
Definition tcp_check (flags : Z) (pad data : list Z) : option Z :=
  ComputeChecksum (([192; 168; 0; 10; 0; 0; 0; 0; 192; 168; 0; 11; 0; 0; 0; 0; 0; 6; 0; 120] ++ pad) ++ tcp_bytes flags 0 ++ data).

Definition lp64_pseudo : list Z := [192; 168; 0; 10; 0; 0; 0; 0; 192; 168; 0; 11; 0; 0; 0; 0; 0; 6; 0; 120].

Lemma word_sum_tcp flags c : 0 ≤ c ≤ 65535 → word_sum (tcp_bytes flags c) = word_sum (tcp_bytes 0 0) + 256 * flags + c.
Proof.
  intros Hc. assert (c mod 256 + 256 * (c / 256 mod 256) = c) as Hle by lia.
  change (word_sum (tcp_bytes 0 0)) with 128592.
  unfold tcp_bytes. cbn [word_sum app le16]. revert Hle. generalize (c mod 256) (c / 256 mod 256). lia.
Qed.

Lemma bytes_tcp flags c : byte flags → 0 ≤ c ≤ 65535 → Forall byte (tcp_bytes flags c).
Proof.
  intros Hf Hc. unfold tcp_bytes, le16. repeat (apply Forall_cons; split; [done || (unfold byte in *; lia)|]). constructor.
Qed.

Lemma bytes_pseudo : Forall byte lp64_pseudo ∧ Forall byte (rfc_pseudo 120).
Proof.
  split; [change lp64_pseudo with (bytes_of 20 lp64_pseudo)|change (rfc_pseudo 120) with (bytes_of 12 (rfc_pseudo 120))];
    apply bytes_of_bytes.
Qed.

Lemma word_sum_segments flags c pad data :
  0 ≤ c ≤ 65535 → length pad = 4%nat →
  word_sum (rfc_pseudo 120 ++ tcp_bytes flags c ++ data) =
  word_sum ((lp64_pseudo ++ pad) ++ tcp_bytes flags 0 ++ data) - word_sum pad + c.
Proof.
  intros Hc Hp. rewrite !word_sum_app by (done || by rewrite length_app, Hp).
  rewrite (word_sum_tcp flags c), (word_sum_tcp flags 0) by (done || lia).
  change (word_sum (rfc_pseudo 120)) with (word_sum lp64_pseudo). lia.
Qed.

Lemma tcp_check_spec flags pad data :
  byte flags → Forall byte pad → length pad = 4%nat → Forall byte data →
  ∃ c, tcp_check flags pad data = Some c ∧ 0 ≤ c ≤ 65535 ∧
    (ComputeChecksum (rfc_pseudo 120 ++ tcp_bytes flags c ++ data) = Some 0 ↔ word_sum pad mod 65535 = 0).
Proof.
  intros Hf Hp Hlp Hd.
  assert (∀ c, 0 ≤ c ≤ 65535 → Forall byte (tcp_bytes flags c ++ data)) as Hseg
    by (intros; apply Forall_app; split; [by apply bytes_tcp|done]).
  assert (Forall byte ((lp64_pseudo ++ pad) ++ tcp_bytes flags 0 ++ data)) as Hb.
  { apply Forall_app. split; [|by apply Hseg]. apply Forall_app. split; [apply bytes_pseudo|done]. }
  set (P := word_sum pad). assert (0 ≤ P) by by apply word_sum_nonneg.
  set (L := word_sum ((lp64_pseudo ++ pad) ++ tcp_bytes flags 0 ++ data)).
  assert (P < L).
  { unfold L, P. rewrite !word_sum_app by (done || by rewrite length_app, Hlp).
    pose proof (word_sum_nonneg _ Hd). pose proof (word_sum_nonneg _ (bytes_tcp flags 0 Hf ltac:(lia))).
    change (word_sum lp64_pseudo) with 124032. lia. }
  assert (0 ≤ ones L ≤ 65535) by (apply ones_bound; lia).
  exists (65535 - ones L). split_and!; [by apply ComputeChecksum_spec|lia|lia|].
  rewrite ComputeChecksum_spec by (apply Forall_app; split; [apply bytes_pseudo|apply Hseg; lia]).
  rewrite (word_sum_segments _ _ pad) by (done || lia). fold L P.
  rewrite <- (ones_difference L P) by lia. split; [intros [= E]; lia|intros ->; done].
Qed.
(** *** The frame that reaches the wire *)

(** What the proof watches: the block of 144 bytes in which the TCP checksum
    is computed, and the writes. *)
Definition packet_ev (c : call) (r : reply) : option (list Z + buf * Z) :=
  match c with
  | LibCall name [n] _ => if String.eqb name "malloc" && (n =? 144) then Some (inl (bytes_of 144 (rints r))) else None
  | Write _ b n => Some (inr (b, n))
  | _ => None
  end.

(** [malloc] succeeds and [rand] returns a value of its range. *)
Definition kernel_memory (c : call) (r : reply) : Prop :=
  match c with
  | LibCall name _ _ =>
      if String.eqb name "malloc" then rv r ≠ 0
      else if String.eqb name "rand" then 0 ≤ rv r ≤ RAND_MAX else True
  | _ => True
  end.

Definition good_frame (hdr : list Z) (b : buf) (n : Z) : Prop :=
  n = 154 ∧ ∃ ip_check flags tcp_check data,
    b = to_cells (eth_bytes ++ ip_bytes ip_check ++ tcp_bytes flags tcp_check ++ data) ∧
    ComputeChecksum (ip_bytes ip_check) = Some 0 ∧
    byte flags ∧ Z.testbit flags 1 = true ∧ length data = 100%nat ∧ Forall byte data ∧
    (ComputeChecksum (rfc_pseudo 120 ++ tcp_bytes flags tcp_check ++ data) = Some 0 ↔
     word_sum (take 4 (drop 20 hdr)) mod 65535 = 0).

Definition quiet (l : list (list Z + buf * Z)) : Prop := l = [] ∨ ∃ h, l = [inl h].
Definition sent_once (l : list (list Z + buf * Z)) : Prop :=
  ∃ h b n, l = [inl h; inr (b, n)] ∧ good_frame h b n.

Local Abbreviation wp_inject := (wp (log_step packet_ev) (λ l, quiet l ∨ sent_once l) kernel_memory False (λ z l, z = -1 ∧ l = [])).

Lemma wp_malloc n Q l :
  n ≠ 144%nat → quiet l → (∀ m, length m = n → Forall byte m → Q m l) → wp_inject (malloc n) Q l.
Proof.
  intros Hn Hl HQ. unfold malloc. apply wp_bind. intros r Hr.
  assert (packet_ev (LibCall "malloc" [Z.of_nat n] []) r = None) as E.
  { cbn. by rewrite (proj2 (Z.eqb_neq _ 144)) by lia. }
  rewrite log_none by done. split; [by left|]. cbn [wp].
  rewrite (proj2 (Z.eqb_neq (rv r) 0)) by done. apply HQ; [apply bytes_of_length|apply bytes_of_bytes].
Qed.

Lemma wp_malloc_hdr Q :
  (∀ m, length m = 144%nat → Forall byte m → Q m [inl m]) → wp_inject (malloc 144) Q [].
Proof.
  intros HQ. unfold malloc. apply wp_bind. intros r Hr.
  rewrite (log_some _ _ _ _ (inl (bytes_of 144 (rints r)))) by done. split; [left; right; by eexists|]. cbn [wp].
  rewrite (proj2 (Z.eqb_neq (rv r) 0)) by done. apply HQ; [apply bytes_of_length|apply bytes_of_bytes].
Qed.

(** A call that is not watched. *)
Lemma wp_silent {A} c (k : reply → prog A) Q l :
  (∀ r, packet_ev c r = None) → quiet l ∨ sent_once l →
  (∀ r, kernel_memory c r → wp_inject (k r) Q l) → wp_inject (Call c k) Q l.
Proof. intros Hc Hl Hk r Hr. rewrite log_none by done. auto. Qed.

Lemma wp_CreateData Q :
  (∀ data, length data = 100%nat → Forall byte data → Q data []) → wp_inject (CreateData DATA_SIZE) Q [].
Proof.
  intros HQ. unfold CreateData. apply wp_bind, wp_malloc; [done|by left|]. intros m Hm Hb.
  apply wp_bind, wp_silent; [done|by left; left|]. intros tv _. cbn [wp].
  apply wp_bind, wp_silent; [done|by left; left|]. intros r _. cbn [wp].
  apply (wp_for_up _ _ _ _ _ (λ i d l, length d = 100%nat ∧ Forall byte d ∧ l = [])); [|done|].
  - intros i d l Hi (Hd & Hbd & ->). apply wp_bind, wp_silent; [done|by left; left|]. intros x Hx. cbn in Hx |- *.
    unfold DATA_SIZE in Hi. split_and!; [by rewrite poke_length; [|rewrite Hd; cbn; lia]| |done].
    unfold poke. apply Forall_app. split; [by apply Forall_take|]. apply Forall_app. split; [|by apply Forall_drop].
    apply Forall_singleton. unfold byte, RAND_MAX in *. lia.
  - intros d l (Hd & Hbd & ->). by apply HQ.
Qed.

Lemma eth_fields m :
  length m = 14%nat → poke 12 [8; 0] (poke 0 (replicate 6 187) (poke 6 (replicate 6 170) m)) = eth_bytes.
Proof. intros Hm. split_list m 14%nat. by destruct m. Qed.

Lemma wp_CreateEthernetHeader Q :
  Q eth_bytes [] → wp_inject (CreateEthernetHeader SRC_ETHER_ADDR DST_ETHER_ADDR ETHERTYPE_IP) Q [].
Proof.
  intros HQ. unfold CreateEthernetHeader. apply wp_bind, wp_malloc; [done|by left|]. intros m Hm _.
  change (ether_aton SRC_ETHER_ADDR) with (Some (replicate 6 170)).
  change (ether_aton DST_ETHER_ADDR) with (Some (replicate 6 187)). cbn [need mbind prog_mbind prog_bind wp mret prog_mret].
  change (le16 (htons ETHERTYPE_IP)) with [8; 0]. by rewrite eth_fields.
Qed.

Lemma wp_CreateIPHeader Q :
  (∀ c, ComputeChecksum (ip_bytes c) = Some 0 → Q (ip_bytes c) []) → wp_inject CreateIPHeader Q [].
Proof.
  intros HQ. unfold CreateIPHeader. apply wp_bind, wp_malloc; [done|by left|]. intros m Hm _. cbv zeta.
  rewrite ip_fields_bytes by done.
  change (Z.to_nat (ip_ihl (ip_bytes 0) * 4)) with 20%nat. change (take 20 (ip_bytes 0)) with (ip_bytes 0).
  destruct (ComputeChecksum (ip_bytes 0)) as [c|] eqn:E; [|done].
  cbn [need mbind prog_mbind prog_bind wp mret prog_mret].
  change (poke 10 (le16 c) (ip_bytes 0)) with (ip_bytes c). apply HQ.
  vm_compute in E. injection E as <-. by vm_compute.
Qed.

Lemma wp_CreateTcpHeader Q :
  (∀ flags, byte flags → Z.testbit flags 1 = true → Q (tcp_bytes flags 0) []) → wp_inject CreateTcpHeader Q [].
Proof.
  intros HQ. unfold CreateTcpHeader. apply wp_bind, wp_malloc; [done|by left|]. intros m Hm Hb. cbn [wp mret prog_mret].
  rewrite tcp_fields_bytes by done. apply HQ; [|by rewrite Z.lor_spec].
  assert (byte (nth 13 m 0)) as [H0 H1] by (apply (proj1 (Forall_nth byte 0 m)); [done|lia]). split; [by apply Z.lor_nonneg|].
  apply (Z.log2_lt_cancel _ 256). rewrite Z.log2_lor by lia.
  apply Z.max_lub_lt; [done|]. destruct (decide (nth 13 m 0 = 0)) as [->|]; [done|].
  apply (Z.log2_lt_pow2 _ 8); lia.
Qed.

Lemma wp_TcpChecksum flags ic data Q :
  byte flags → length data = 100%nat → Forall byte data →
  (∀ hdr c, (ComputeChecksum (rfc_pseudo 120 ++ tcp_bytes flags c ++ data) = Some 0 ↔
             word_sum (take 4 (drop 20 hdr)) mod 65535 = 0) → Q (tcp_bytes flags c) [inl hdr]) →
  wp_inject (CreatePseudoHeaderAndComputeTcpChecksum (tcp_bytes flags 0) (ip_bytes ic) data) Q [].
Proof.
  intros Hf Hd Hb HQ. unfold CreatePseudoHeaderAndComputeTcpChecksum.
  change (ntohs (get16 (ip_bytes ic) 2) - ip_ihl (ip_bytes ic) * 4) with 120. cbv zeta.
  change (Z.to_nat (Z.of_nat PSEUDO + 120)) with 144%nat.
  apply wp_bind, wp_malloc_hdr. intros hdr Hh Hbh.
  change (pseudo_fields 120 (tcp_bytes flags 0) (ip_bytes ic) data hdr)
    with (pseudo_fields 120 (tcp_bytes flags 0) (ip_bytes 0) data hdr).
  rewrite pseudo_fields_bytes by done.
  assert (length (take 4 (drop 20 hdr)) = 4%nat) as Hp by (rewrite length_take, length_drop, Hh; done).
  rewrite take_ge by (rewrite !length_app, Hp, Hd; done).
  destruct (tcp_check_spec flags (take 4 (drop 20 hdr)) data) as (c & Hc & Hr & Hiff); [done|by apply Forall_take, Forall_drop|done|done|].
  unfold tcp_check in Hc. fold lp64_pseudo in Hc |- *. rewrite Hc. cbn [need mbind prog_mbind prog_bind wp mret prog_mret].
  change (poke 16 (le16 c) (tcp_bytes flags 0)) with (tcp_bytes flags c). by apply HQ.
Qed.

(** Either nothing is written and the program exits with -1, or exactly one
    frame is. *)
Lemma wp_main argv1 : wp_inject (main argv1) (λ z l, z = 0 ∧ sent_once l) [].
Proof.
  assert (quiet []) as H0 by by left.
  unfold main, CreateRawSocket. apply wp_bind, wp_bind, wp_silent; [done|by left|]. intros r _. cbn [wp].
  destruct (rv r =? -1); [apply wp_bind, wp_silent; [done|by left|done]|].
  apply wp_bind. unfold BindRawSocketToInterface. apply wp_bind, wp_silent; [done|by left|]. intros r' _. cbn [wp].
  destruct (rv r' =? -1); [apply wp_bind, wp_silent; [done|by left|done]|]. cbv zeta.
  apply wp_bind, wp_silent; [done|by left|]. intros b _. cbn [wp].
  destruct (rv b =? -1); [apply wp_bind, wp_silent; [done|by left|done]|]. cbn [wp].
  apply wp_bind, wp_CreateEthernetHeader. apply wp_bind, wp_CreateIPHeader. intros ic Hic.
  apply wp_bind, wp_CreateTcpHeader. intros flags Hf Hsyn. apply wp_bind, wp_CreateData. intros data Hd Hbd.
  apply wp_bind, wp_TcpChecksum; [done..|]. intros hdr c Hiff.
  change (14 + ntohs (get16 (ip_bytes ic) 2)) with 154. apply wp_bind, wp_malloc; [done|right; by eexists|]. intros packet Hp _.
  rewrite assemble_bytes by done. unfold SendRawPacket. set (frame := eth_bytes ++ _).
  assert (sent_once [inl hdr; inr (to_cells frame, 154)]) as Hsent.
  { eexists _, _, _. split; [done|]. split; [done|]. by exists ic, flags, c, data. }
  apply wp_bind, wp_bind. intros w _. rewrite (log_some _ _ _ _ (inr (to_cells frame, 154))) by done. split; [by right|].
  cbn [wp app]. destruct (negb (rv w =? 154)).
  - apply wp_bind, wp_silent; [done|by right|]. intros p _. cbn [wp mret prog_mret]. rewrite Z.eqb_refl.
    apply wp_bind, wp_silent; [done|by right|]. intros p' _. cbn [wp].
    apply wp_bind, wp_silent; [done|by right|]. by intros p'' _.
  - cbn [wp mret prog_mret]. change (1 =? 0) with false. cbv iota.
    apply wp_bind, wp_silent; [done|by right|]. intros p' _. cbn [wp].
    apply wp_bind, wp_silent; [done|by right|]. by intros p'' _.
Qed.

(** C10: Whatever the kernel answers (with a [malloc] that succeeds), the
    injector puts at most one frame on the wire: 154 bytes, an Ethernet and an
    IP header with the configured addresses, an IP checksum that verifies, a
    TCP header with the SYN flag and unknown other flags, and 100 bytes of
    data.  Its TCP checksum verifies against the pseudo-header of RFC 793 if
    and only if the four uninitialised padding bytes of [PseudoHeader] sum to
    a multiple of 65535.  No undefined behaviour is reached, an error exits
    with -1 before anything is written, and a normal end has sent the frame. *)
Theorem injects_one_frame argv1 rs :
  env_ok kernel_memory (trace_of (main argv1) rs) →
  let log := select_ev packet_ev (trace_of (main argv1) rs) in
  (quiet log ∨ sent_once log) ∧
  match outcome_of (main argv1) rs with
  | Done z => z = 0 ∧ sent_once log
  | Exited z => z = -1 ∧ log = []
  | UB => False
  | Blocked => True
  end.
Proof.
  intros Henv. pose proof (wp_sound _ _ _ _ _ _ _ [] rs (wp_main argv1) ltac:(by left; left) Henv) as [Hok Ho].
  rewrite fold_log in Hok, Ho. by destruct (outcome_of (main argv1) rs).
Qed.

(** A run on [eth0] in which the padding is 1, 0, 0, 0: the frame is sent and
    its TCP checksum is wrong. *)
Definition example_run : list reply :=
  [ret_ 3; Reply 0 EmptyString [2] []; ret_ 0; ret_ 4096; ret_ 4112; ret_ 4144; ret_ 4176; ret_ 0; ret_ 0] ++
  replicate 100 (ret_ 1804289383) ++
  [Reply 4288 EmptyString (replicate 20 7 ++ [1; 0; 0; 0]) []; ret_ 4448; ret_ 154; ret_ 0; ret_ 0].

Definition allocs_ok (t : trace) : bool :=
  forallb (λ e : event, match e.1 with
    | LibCall name _ _ =>
        if String.eqb name "malloc" then negb (rv e.2 =? 0)
        else if String.eqb name "rand" then (0 <=? rv e.2) && (rv e.2 <=? RAND_MAX) else true
    | _ => true end) t.

Lemma allocs_ok_spec t : allocs_ok t = true → env_ok kernel_memory t.
Proof.
  intros H. apply Forall_forall. intros [c r] Hin. unfold allocs_ok in H. rewrite forallb_forall in H.
  apply list_elem_of_In in Hin. specialize (H _ Hin). destruct c; try done. cbn in H |- *.
  destruct (String.eqb _ "malloc"); [by apply negb_true_iff, Z.eqb_neq in H|]. destruct (String.eqb _ "rand"); [by bool_hyps|done].
Qed.

Lemma injects_one_frame_witness :
  outcome_of (main "eth0") example_run = Done 0 ∧
  sent_once (select_ev packet_ev (trace_of (main "eth0") example_run)) ∧
  word_sum (take 4 (drop 20 (bytes_of 144 (replicate 20 7 ++ [1; 0; 0; 0])))) mod 65535 = 1.
Proof.
  destruct (injects_one_frame "eth0" example_run) as [_ H]; [apply allocs_ok_spec; by vm_compute|].
  assert (outcome_of (main "eth0") example_run = Done 0) as E by by vm_compute.
  rewrite E in H. split_and!; [done|apply H|by vm_compute].
Defined.

End TcpInjection.

(** ** [rawsockets/basic/server.c] and [client.c]: datagrams with headers of
    the programs' own *)
Module RawSender.
Import Checksum.

Definition PCKT_LEN : Z := 8192.

(** [csum]: [nwords] 16-bit words; the source's [unsigned long] has 64 bits. *)
Definition csum (buf : list Z) (nwords : Z) : option Z :=
  sum ← for_up 0 nwords (λ k sum, lo ← aget buf (2 * k); hi ← aget buf (2 * k + 1); Some (sum + (lo + 256 * hi))) 0;
  let sum := Z.shiftr sum 16 + Z.land sum 65535 in
  let sum := sum + Z.shiftr sum 16 in
  Some (u16 (Z.lnot sum)).

(** [struct ipheader] as compiled: [iph_ihl:5] and [iph_ver:4] do not fit one
    byte, so the version is in byte 1 and every later field is displaced:
    tos 2, len 4-5, ident 6-7, flag 8, offset 10-11, ttl 12, protocol 13,
    chksum 14-15, source 16-19, destination 20-23; 24 bytes in all. *)
Definition IPHEADER : Z := 24.
Definition UDPHEADER : Z := 8.

(** [struct tcpheader] as compiled: 24 bytes; the nine bit-fields after
    [tcph_offset] are bytes 13 and 14, [tcph_win] 16, [tcph_chksum] 18. *)
Definition TCPHEADER : Z := 24.

Definition poke8 (off : nat) (v : Z) : list Z → list Z := poke off [u8 v].
Definition poke16 (off : nat) (v : Z) : list Z → list Z := poke off (le16 v).
Definition poke32 (off : nat) (v : Z) : list Z → list Z := poke off (le32 v).

(** A bit-field of [w] bits at bit [o] of byte [off]. *)
Definition poke_bits (off : nat) (o w v : Z) (m : list Z) : list Z :=
  let b := nth off m 0 in
  poke off [b - (b / 2 ^ o mod 2 ^ w) * 2 ^ o + (v mod 2 ^ w) * 2 ^ o] m.

(** The buffer when the checksum is computed. *)
Definition udp_buffer (src dst : string) (sport dport : Z) : list Z :=
  let b := replicate (Z.to_nat PCKT_LEN) 0 in
  let b := poke_bits 0 0 5 5 b in
  let b := poke_bits 1 0 4 4 b in
  let b := poke8 2 16 b in
  let b := poke16 4 (IPHEADER + UDPHEADER) b in
  let b := poke16 6 (htons 54321) b in
  let b := poke8 12 64 b in
  let b := poke8 13 17 b in
  let b := poke32 16 (inet_addr src) b in
  let b := poke32 20 (inet_addr dst) b in
  let b := poke16 24 (htons sport) b in
  let b := poke16 26 (htons dport) b in
  poke16 28 (htons UDPHEADER) b.

Definition udp_packet (src dst : string) (sport dport : Z) : option (list Z) :=
  let b := udp_buffer src dst sport dport in
  c ← csum b (IPHEADER + UDPHEADER);
  Some (poke16 14 c b).

(** The buffer when the checksum is computed. *)
Definition tcp_buffer (src dst : string) (sport dport : Z) : list Z :=
  let b := replicate (Z.to_nat PCKT_LEN) 0 in
  let b := poke_bits 0 0 5 5 b in
  let b := poke_bits 1 0 4 4 b in
  let b := poke8 2 16 b in
  let b := poke16 4 (IPHEADER + TCPHEADER) b in
  let b := poke16 6 (htons 54321) b in
  let b := poke16 10 0 b in
  let b := poke8 12 64 b in
  let b := poke8 13 6 b in
  let b := poke16 14 0 b in
  let b := poke32 16 (inet_addr src) b in
  let b := poke32 20 (inet_addr dst) b in
  let b := poke16 24 (htons sport) b in
  let b := poke16 26 (htons dport) b in
  let b := poke32 28 (htonl 1) b in
  let b := poke32 32 0 b in
  let b := poke_bits 36 4 4 5 b in
  let b := poke_bits 38 1 1 1 b in
  let b := poke_bits 38 4 1 0 b in
  let b := poke16 40 (htons 32767) b in
  let b := poke16 42 0 b in
  poke16 44 0 b.

Definition tcp_packet (src dst : string) (sport dport : Z) : option (list Z) :=
  let b := tcp_buffer src dst sport dport in
  c ← csum b (IPHEADER + TCPHEADER);
  Some (poke16 14 c b).

(** The two [main]s differ in the texts, the exit codes and the packet. *)
Definition announce (src sport dst dport : string) : prog unit :=
  s ← need (atoi sport); d ← need (atoi dport);
  puts (src +:+ " port: " +:+ dec s +:+ ", Target IP: " +:+ dst +:+ " port: " +:+ dec d +:+ "." +:+ nl).

Definition server_main (argv : list string) : prog Z :=
  match argv with
  | [_; src; sport; dst; dport] =>
      sd ← sysv (Socket AF_INET SOCK_RAW 17);
      if sd <? 0 then do_ (Perror "socket() error");; Halt (-1) else
      puts ("socket() - Using SOCK_RAW socket and UDP protocol is OK." +:+ nl);;
      sp ← need (atoi sport);
      dp ← need (atoi dport);
      let sin := SaIn (htons sp) (inet_addr src) in
      b ← need (udp_packet src dst sp dp);
      o ← sysv (Setsockopt sd "IP_HDRINCL");
      if o <? 0 then do_ (Perror "setsockopt() error");; Halt (-1) else
      puts ("setsockopt() is OK." +:+ nl);;
      puts ("Trying..." +:+ nl);;
      puts ("Using raw socket and UDP protocol" +:+ nl);;
      announce src sport dst dport;;
      for_up 1 21 (λ count _,
        r ← sysv (Sendto sd (to_cells (take (Z.to_nat (get16 b 4)) b)) (get16 b 4) sin);
        if r <? 0 then do_ (Perror "sendto() error");; Halt (-1) else
        puts ("Count #" +:+ dec count +:+ " - sendto() is OK." +:+ nl);;
        do_ (Sleep 2)) tt;;
      do_ (Close sd);;
      mret 0
  | _ =>
      puts ("- Invalid parameters!!!" +:+ nl);;
      puts ("- Usage <source hostname/IP> <source port> <target hostname/IP> <target port>" +:+ nl);;
      Halt 0
  end.

Definition client_main (argv : list string) : prog Z :=
  match argv with
  | [_; src; sport; dst; dport] =>
      sd ← sysv (Socket AF_INET SOCK_RAW 6);
      if sd <? 0 then do_ (Perror "socket() error");; Halt 0 else
      puts ("socket()-SOCK_RAW and tcp protocol is OK." +:+ nl);;
      sp ← need (atoi sport);
      dp ← need (atoi dport);
      let sin := SaIn (htons sp) (inet_addr src) in
      b ← need (tcp_packet src dst sp dp);
      o ← sysv (Setsockopt sd "IP_HDRINCL");
      if o <? 0 then do_ (Perror "setsockopt() error");; Halt 0 else
      puts ("setsockopt() is OK" +:+ nl);;
      announce src sport dst dport;;
      for_up 0 20 (λ count _,
        r ← sysv (Sendto sd (to_cells (take (Z.to_nat (get16 b 4)) b)) (get16 b 4) sin);
        if r <? 0 then do_ (Perror "sendto() error");; Halt 0 else
        puts ("Count #" +:+ dec count +:+ " - sendto() is OK" +:+ nl);;
        do_ (Sleep 2)) tt;;
      do_ (Close sd);;
      mret 0
  | _ =>
      puts ("- Invalid parameters!!!" +:+ nl);;
      puts ("- Usage: <source hostname/IP> <source port> <target hostname/IP> <target port>" +:+ nl);;
      Halt (-1)
  end.

(** *** The checksum *)

Lemma two_folds s :
  0 ≤ s < 4294967295 →
  u16 (Z.lnot (Z.shiftr s 16 + Z.land s 65535 + Z.shiftr (Z.shiftr s 16 + Z.land s 65535) 16)) = 65535 - ones s.
Proof.
  intros Hs. pose proof (ones_fold s ltac:(lia)) as [<- Hf]. pose proof (fold_value s ltac:(lia)) as E.
  rewrite (Z.add_comm (Z.shiftr s 16)). fold (fold s). rewrite Z.shiftr_div_pow2 by lia. change (2 ^ 16) with 65536.
  assert (fold s < 131070) by lia. clear E. revert Hf H. generalize (fold s). clear. intros f Hf H.
  unfold ones, u16, Z.lnot. destruct (f =? 0) eqn:E; bool_hyps; [by subst|]. lia.
Qed.

Lemma csum_spec buf n :
  Forall byte buf → (2 * n ≤ length buf)%nat → Z.of_nat n ≤ 65535 →
  csum buf (Z.of_nat n) = Some (65535 - ones (word_sum (take (2 * n) buf))).
Proof.
  intros Hb Hl Hn. unfold csum.
  destruct (for_up_Some (λ k sum, sum = word_sum (take (Z.to_nat (2 * k)) buf) ∧ 0 ≤ sum ≤ 65535 * k) 0 (Z.of_nat n)
    (λ k sum, lo ← aget buf (2 * k); hi ← aget buf (2 * k + 1); Some (sum + (lo + 256 * hi))) 0)
    as (s & Hs & -> & Hr); [lia| |done|].
  - intros k sum Hk [-> Hr].
    destruct (aget_is_Some buf (2 * k)) as [lo Hlo]; [lia|]. destruct (aget_is_Some buf (2 * k + 1)) as [hi Hhi]; [lia|].
    rewrite Hlo, Hhi. eexists. split; [done|]. apply aget_lookup in Hlo, Hhi.
    assert (byte lo) as [??] by (eapply Forall_lookup_1; [apply Hb|done]).
    assert (byte hi) as [??] by (eapply Forall_lookup_1; [apply Hb|done]). split; [|lia].
    replace (Z.to_nat (2 * (k + 1))) with (S (S (Z.to_nat (2 * k)))) by lia.
    rewrite (take_S_r _ _ hi), (take_S_r _ _ lo), <- app_assoc; [|done|by replace (S (Z.to_nat (2 * k))) with (Z.to_nat (2 * k + 1)) by lia].
    rewrite word_sum_app; [simpl; lia|]. rewrite length_take_le by lia.
    replace (Z.to_nat (2 * k)) with (2 * Z.to_nat k)%nat by lia. by rewrite Nat.even_mul.
  - rewrite Hs. cbn [mbind option_bind]. do 2 f_equal. replace (Z.to_nat (2 * Z.of_nat n)) with (2 * n)%nat in * by lia.
    apply two_folds. clear -Hr Hn. lia.
Qed.

(** *** The bytes of the packets *)

Definition l3_head (len proto : Z) : list Z :=
  [5; 4; 16; 0] ++ le16 len ++ le16 (htons 54321) ++ [0; 0; 0; 0; 64; proto].
Definition addresses (src dst : string) (sport dport : Z) : list Z :=
  le32 (inet_addr src) ++ le32 (inet_addr dst) ++ le16 (htons sport) ++ le16 (htons dport).
Definition udp_bytes (check : Z) (src dst : string) (sport dport : Z) : list Z :=
  l3_head 32 17 ++ le16 check ++ addresses src dst sport dport ++ [0; 8; 0; 0].
(** The SYN bit is in byte 14 of the TCP header; byte 13, where TCP has its
    flags, is 0. *)
Definition syn_bytes (check : Z) (src dst : string) (sport dport : Z) : list Z :=
  l3_head 48 6 ++ le16 check ++ addresses src dst sport dport ++
  [0; 0; 0; 1; 0; 0; 0; 0; 80; 0; 2; 0; 127; 255; 0; 0; 0; 0; 0; 0].

Lemma le16_byte v : Forall byte (le16 v).
Proof. unfold le16, byte. repeat (apply Forall_cons; split; [lia|]). constructor. Qed.

Lemma le32_byte v : Forall byte (le32 v).
Proof. apply Forall_app. split; apply le16_byte. Qed.

Lemma word_sum_le16 v : 0 ≤ v ≤ 65535 → word_sum (le16 v) = v.
Proof. intros. cbn [le16 word_sum]. lia. Qed.

Lemma consts_byte n l : l = bytes_of n l → Forall byte l.
Proof. intros ->. apply bytes_of_bytes. Qed.

(** A header completed by its [csum] verifies. *)
Lemma completed_verifies pre post rest n :
  Forall byte pre → Forall byte post → Forall (eq 0) rest → Nat.even (length pre) = true → Nat.even (length post) = true →
  (length pre + 2 + length post = n)%nat → (n ≤ length rest)%nat → Z.of_nat n ≤ 65535 →
  ∃ c, csum (pre ++ [0; 0] ++ post ++ rest) (Z.of_nat n) = Some c ∧ 0 ≤ c ≤ 65535 ∧
       ComputeChecksum (pre ++ le16 c ++ post) = Some 0.
Proof.
  intros Hpre Hpost Hrest He1 He2 Hlen Hrl Hn.
  assert (∀ x, Forall byte x → Forall byte (pre ++ x ++ post)) as Hb3
    by (intros; rewrite !Forall_app; done).
  assert (Forall byte rest) as Hbr by (eapply Forall_impl; [done|]; intros ? <-; done).
  set (s := word_sum pre + word_sum post).
  assert (0 ≤ s) as Hs by (pose proof (word_sum_nonneg pre Hpre); pose proof (word_sum_nonneg post Hpost); unfold s; lia).
  pose proof (ones_bound s Hs) as Hob.
  assert (word_sum (take (2 * n) (pre ++ [0; 0] ++ post ++ rest)) = s) as E.
  { replace (pre ++ [0; 0] ++ post ++ rest) with ((pre ++ [0; 0] ++ post) ++ rest) by (by rewrite <- !app_assoc).
    rewrite take_app_ge by (rewrite !length_app; simpl; lia).
    rewrite word_sum_app by (rewrite !length_app, !Nat.even_add, He1, He2; done).
    rewrite (word_sum_zeros (take _ rest)) by by apply Forall_take.
    rewrite !word_sum_app by done. simpl. unfold s. lia. }
  exists (65535 - ones s). rewrite csum_spec; [rewrite E| |rewrite !length_app; simpl; lia|done].
  2: { rewrite !Forall_app. split_and!; try done. by apply (consts_byte 2). }
  split_and!; [done|lia|lia|].
  rewrite ComputeChecksum_spec by apply Hb3, le16_byte.
  assert (word_sum (pre ++ le16 (65535 - ones s) ++ post) = s + (65535 - ones s)) as ->.
  { rewrite !word_sum_app, word_sum_le16 by (done || lia). generalize (65535 - ones s). unfold s. clear. lia. }
  by rewrite ones_completed.
Qed.

Lemma addresses_byte src dst sport dport : Forall byte (addresses src dst sport dport).
Proof. unfold addresses. rewrite !Forall_app. split_and!; auto using le16_byte, le32_byte. Qed.

Lemma buffer_split n :
  (n ≤ 48)%nat → replicate (Z.to_nat PCKT_LEN) 0 = replicate n 0 ++ replicate (Z.to_nat PCKT_LEN - n) 0 ∧
  Forall (eq 0) (replicate (Z.to_nat PCKT_LEN - n) 0) ∧ (48 ≤ length (replicate (Z.to_nat PCKT_LEN - n) 0%Z))%nat.
Proof.
  intros Hn. assert (n + 48 ≤ Z.to_nat PCKT_LEN)%nat by (transitivity 96%nat; [lia|apply Nat.leb_le; by vm_compute]).
  split_and!; [|by apply Forall_replicate|rewrite length_replicate; lia].
  rewrite <- replicate_add. f_equal. lia.
Qed.

Lemma packet_bytes fields head tail n :
  fields = head ++ [0; 0] ++ tail ++ replicate (Z.to_nat PCKT_LEN - n) 0 →
  Forall byte head → Forall byte tail → length head = 14%nat → Nat.even (length tail) = true →
  (14 + 2 + length tail = n)%nat → (n ≤ 48)%nat →
  ∃ c, csum fields (Z.of_nat n) = Some c ∧
    poke16 14 c fields = (head ++ le16 c ++ tail) ++ replicate (Z.to_nat PCKT_LEN - n) 0 ∧
    ComputeChecksum (head ++ le16 c ++ tail) = Some 0.
Proof.
  intros -> Hh Ht Hl He Hn Hle. destruct (buffer_split n) as (_ & Hz & Hr); [lia|].
  set (rest := replicate (_ - n) 0) in *. clearbody rest.
  destruct (completed_verifies head tail rest n) as (c & E & _ & Hv); [done|done|done|by rewrite Hl|done|lia|lia|lia|].
  exists c. split_and!; [done| |done].
  unfold poke16. rewrite (poke_at 14 head) by done. by rewrite <- !app_assoc.
Qed.

(** The constant and the variable parts of the packets hold bytes. *)
Ltac head_byte := vm_compute; repeat (apply Forall_cons; split; [done|]); constructor.
Ltac tail_byte := apply Forall_app; split; [apply addresses_byte|head_byte].

(** Evaluate the stores from the innermost outwards. *)
Ltac run_stores :=
  repeat match goal with
  | |- context [poke_bits ?o ?b ?w ?v (?x :: ?l)] =>
      let r := eval cbn [poke_bits nth poke take drop app length Nat.add] in (poke_bits o b w v (x :: l)) in
      change (poke_bits o b w v (x :: l)) with r
  | |- context [?f ?o ?v (?x :: ?l)] =>
      lazymatch f with poke8 => idtac | poke16 => idtac | poke32 => idtac end;
      let r := eval cbn [poke8 poke16 poke32 le16 le32 poke take drop app length Nat.add] in (f o v (x :: l)) in
      change (f o v (x :: l)) with r
  end.

Lemma udp_buffer_bytes src dst sport dport :
  udp_buffer src dst sport dport =
  l3_head 32 17 ++ [0; 0] ++ (addresses src dst sport dport ++ [0; 8; 0; 0]) ++ replicate (Z.to_nat PCKT_LEN - 32) 0.
Proof.
  destruct (buffer_split 32) as (Eb & _); [lia|]. unfold udp_buffer. rewrite Eb.
  set (rest := replicate (_ - 32) 0) in *. clearbody rest. cbn [replicate app]. run_stores. reflexivity.
Qed.

Lemma tcp_buffer_bytes src dst sport dport :
  tcp_buffer src dst sport dport =
  l3_head 48 6 ++ [0; 0] ++ (addresses src dst sport dport ++
  [0; 0; 0; 1; 0; 0; 0; 0; 80; 0; 2; 0; 127; 255; 0; 0; 0; 0; 0; 0]) ++ replicate (Z.to_nat PCKT_LEN - 48) 0.
Proof.
  destruct (buffer_split 48) as (Eb & _); [lia|]. unfold tcp_buffer. rewrite Eb.
  set (rest := replicate (_ - 48) 0) in *. clearbody rest. cbn [replicate app]. run_stores. reflexivity.
Qed.

(** *** What the programs send *)

Definition sendto_ev (c : call) (r : reply) : option (buf * Z * sockaddr) :=
  match c with Sendto _ b n a => Some (b, n, a) | _ => None end.

Definition same_sends (pkt : buf * Z * sockaddr) (l : list (buf * Z * sockaddr)) : Prop :=
  Forall (eq pkt) l ∧ (length l ≤ 20)%nat.

Section sends.
Context (pkt : buf * Z * sockaddr).

Local Abbreviation wp_send := (wp (log_step sendto_ev) (same_sends pkt) any_reply False (λ _ _, True)).

Lemma wp_unsent {A} c (k : reply → prog A) Q l :
  (∀ r, sendto_ev c r = None) → same_sends pkt l → (∀ r, wp_send (k r) Q l) → wp_send (Call c k) Q l.
Proof. intros Hc Hl Hk r _. by rewrite log_none. Qed.

(** Twenty rounds of the same [sendto]. *)
Lemma wp_send_loop sd lo code text Q b n a :
  pkt = (b, n, a) → (∀ l, same_sends pkt l → length l = 20%nat → Q tt l) →
  wp_send (for_up lo (lo + 20) (λ count _,
    r ← sysv (Sendto sd b n a);
    if r <? 0 then do_ (Perror "sendto() error");; Halt code else
    puts (text count);; do_ (Sleep 2)) tt) Q [].
Proof.
  intros Hp HQ. apply (wp_for_up _ _ _ _ _ (λ i _ l, same_sends pkt l ∧ Z.of_nat (length l) = i - lo)).
  - intros i [] l Hi [[Hl Hn] Hlen]. apply wp_bind. intros r _.
    rewrite (log_some _ _ _ _ pkt) by (by rewrite Hp).
    assert (same_sends pkt (l ++ [pkt])) as Hl'.
    { split; [by apply Forall_app; split; [|apply Forall_singleton]|]. rewrite length_app. simpl. lia. }
    split; [done|]. cbn [wp]. destruct (rv r <? 0); (apply wp_bind, wp_unsent; [done|done|]); [done|].
    intros r' . cbn [wp]. apply wp_unsent; [done|done|]. intros _. split; [done|]. rewrite length_app. simpl. lia.
  - split; [split; [by constructor|simpl; lia]|simpl; lia].
  - intros [] l [Hl Hn]. apply HQ; [done|lia].
Qed.
End sends.

(** All a process sends is [pkt], at most 20 times, and 20 times when it ends
    normally; it does not go wrong. *)
Definition sends_only (pkt : buf * Z * sockaddr) (p : prog Z) (rs : list reply) : Prop :=
  let log := select_ev sendto_ev (trace_of p rs) in
  same_sends pkt log ∧
  match outcome_of p rs with Done z => z = 0 ∧ length log = 20%nat | UB => False | _ => True end.

Lemma wp_sends_only pkt p rs :
  wp (log_step sendto_ev) (same_sends pkt) any_reply False (λ _ _, True) p (λ z l, z = 0 ∧ length l = 20%nat) [] →
  sends_only pkt p rs.
Proof.
  intros Hwp.
  destruct (wp_sound _ _ _ _ _ _ _ [] rs Hwp ltac:(by split; [constructor|simpl; lia]) (env_ok_any _)) as [Hok Ho].
  rewrite fold_log in Hok, Ho. unfold sends_only. split; [done|]. by destruct (outcome_of p rs).
Qed.

Lemma no_sends pkt : same_sends pkt [].
Proof. split; [by constructor|simpl; lia]. Qed.

Lemma take_packet (bytes rest : list Z) n : length bytes = Z.to_nat n → take (Z.to_nat n) (bytes ++ rest) = bytes.
Proof. intros <-. apply take_app_length. Qed.

(** Step over calls that are not sends, at the beginning of the trace. *)
Ltac unsent :=
  cbn [wp]; repeat lazymatch goal with
    | |- wp _ _ _ _ _ (_ ≫= _) _ _ => apply wp_bind
    | |- wp _ _ _ _ _ (need (Some _)) _ _ => cbn [wp need]
    | |- wp _ _ _ _ _ (Ret _) _ _ => cbn [wp]
    | |- wp _ _ _ _ _ (sysv _) _ _ => apply wp_unsent; [done|by apply no_sends|intros ?; cbn [wp]]
    | |- wp _ _ _ _ _ (do_ _) _ _ => apply wp_unsent; [done|by apply no_sends|intros ?; cbn [wp]]
    | |- wp _ _ _ _ _ (puts _) _ _ => apply wp_unsent; [done|by apply no_sends|intros ?; cbn [wp]]
    end.

Lemma wp_server prog0 src sport dst dport sp dp c rest :
  atoi sport = Some sp → atoi dport = Some dp →
  udp_packet src dst sp dp = Some (udp_bytes c src dst sp dp ++ rest) →
  let pkt := (to_cells (udp_bytes c src dst sp dp), 32, SaIn (htons sp) (inet_addr src)) in
  wp (log_step sendto_ev) (same_sends pkt) any_reply False (λ _ _, True)
    (server_main [prog0; src; sport; dst; dport]) (λ z l, z = 0 ∧ length l = 20%nat) [].
Proof.
  intros Hs Hd Hp pkt. unfold server_main, announce. rewrite Hs, Hd. unsent.
  destruct (rv r <? 0); unsent; [done|]. rewrite Hp. unsent. destruct (rv r1 <? 0); unsent; [done|].
  change (get16 (udp_bytes c src dst sp dp ++ rest) 4) with 32. rewrite take_packet by done.
  apply (wp_send_loop pkt (rv r) 1 (-1) (λ count, "Count #" +:+ dec count +:+ " - sendto() is OK." +:+ nl)); [reflexivity|].
  clear Hp. intros l Hl Hlen. cbn [wp]. by apply wp_bind, wp_unsent.
Qed.

Lemma wp_client prog0 src sport dst dport sp dp c rest :
  atoi sport = Some sp → atoi dport = Some dp →
  tcp_packet src dst sp dp = Some (syn_bytes c src dst sp dp ++ rest) →
  let pkt := (to_cells (syn_bytes c src dst sp dp), 48, SaIn (htons sp) (inet_addr src)) in
  wp (log_step sendto_ev) (same_sends pkt) any_reply False (λ _ _, True)
    (client_main [prog0; src; sport; dst; dport]) (λ z l, z = 0 ∧ length l = 20%nat) [].
Proof.
  intros Hs Hd Hp pkt. unfold client_main, announce. rewrite Hs, Hd. unsent.
  destruct (rv r <? 0); unsent; [done|]. rewrite Hp. unsent. destruct (rv r1 <? 0); unsent; [done|].
  change (get16 (syn_bytes c src dst sp dp ++ rest) 4) with 48. rewrite take_packet by done.
  apply (wp_send_loop pkt (rv r) 0 0 (λ count, "Count #" +:+ dec count +:+ " - sendto() is OK" +:+ nl)); [reflexivity|].
  clear Hp. intros l Hl Hlen. cbn [wp]. by apply wp_bind, wp_unsent.
Qed.

(** With the arguments [src sport dst dport], [server.c] and [client.c]
    send the same packet at most twenty times, exactly twenty when they end
    normally, and never reach undefined behaviour (the ports being numbers in
    the range of [int]).  The packets are [udp_bytes] and [syn_bytes]: the
    first byte is 5, so the IP version is 0; the destination of [sendto] is
    the source address given; the checksum verifies over the whole packet, not
    over the IP header; the TCP flags (byte 13 of the TCP header) are 0. *)
Theorem sends_displaced_headers prog0 src sport dst dport sp dp rs :
  atoi sport = Some sp → atoi dport = Some dp →
  let sin := SaIn (htons sp) (inet_addr src) in
  let argv := [prog0; src; sport; dst; dport] in
  ∃ cu ct,
    ComputeChecksum (udp_bytes cu src dst sp dp) = Some 0 ∧
    sends_only (to_cells (udp_bytes cu src dst sp dp), 32, sin) (server_main argv) rs ∧
    ComputeChecksum (syn_bytes ct src dst sp dp) = Some 0 ∧
    sends_only (to_cells (syn_bytes ct src dst sp dp), 48, sin) (client_main argv) rs.
Proof.
  intros Hs Hd sin argv.
  assert (Forall byte (l3_head 32 17) ∧ Forall byte (l3_head 48 6)) as [H1 H2] by (split; head_byte).
  assert (Forall byte (addresses src dst sp dp ++ [0; 8; 0; 0])) as H3 by tail_byte.
  assert (Forall byte (addresses src dst sp dp ++ [0; 0; 0; 1; 0; 0; 0; 0; 80; 0; 2; 0; 127; 255; 0; 0; 0; 0; 0; 0])) as H4
    by tail_byte.
  destruct (packet_bytes _ _ _ 32 (udp_buffer_bytes src dst sp dp) H1 H3 eq_refl eq_refl eq_refl ltac:(lia)) as (cu & Eu & Pu & Vu).
  destruct (packet_bytes _ _ _ 48 (tcp_buffer_bytes src dst sp dp) H2 H4 eq_refl eq_refl eq_refl ltac:(lia)) as (ct & Et & Pt & Vt).
  clear H1 H2 H3 H4.
  exists cu, ct. split; [exact Vu|]. split; [|split; [exact Vt|]]; apply wp_sends_only.
  - apply (wp_server _ _ _ _ _ _ _ cu (replicate (Z.to_nat PCKT_LEN - 32) 0) Hs Hd). unfold udp_packet.
    change (IPHEADER + UDPHEADER) with (Z.of_nat 32). rewrite Eu. cbn [mbind option_bind]. rewrite Pu. reflexivity.
  - apply (wp_client _ _ _ _ _ _ _ ct (replicate (Z.to_nat PCKT_LEN - 48) 0) Hs Hd). unfold tcp_packet.
    change (IPHEADER + TCPHEADER) with (Z.of_nat 48). rewrite Et. cbn [mbind option_bind]. rewrite Pt. reflexivity.
Qed.

Lemma sends_displaced_headers_witness :
  atoi "80" = Some 80 ∧
  ∃ cu, ComputeChecksum (udp_bytes cu "10.0.0.1" "10.0.0.2" 80 90) = Some 0 ∧
    sends_only (to_cells (udp_bytes cu "10.0.0.1" "10.0.0.2" 80 90), 32, SaIn (htons 80) (inet_addr "10.0.0.1"))
      (server_main ["prog"; "10.0.0.1"; "80"; "10.0.0.2"; "90"]) [ret_ 3; ret_ 0; ret_ 0; ret_ 0; ret_ 0; ret_ 0; ret_ 0; ret_ 32].
Proof.
  split; [done|].
  destruct (sends_displaced_headers "prog" "10.0.0.1" "80" "10.0.0.2" "90" 80 90
    [ret_ 3; ret_ 0; ret_ 0; ret_ 0; ret_ 0; ret_ 0; ret_ 0; ret_ 32]) as (cu & _ & H1 & H2 & _); [done|done|].
  exists cu. by split.
Defined.

End RawSender.

(** ** [rawsockets/basic/newclient.c]: a packet logger *)
Module Sniffer.

Fixpoint cat (l : list string) : string := match l with [] => EmptyString | s :: l' => s +:+ cat l' end.

Definition hex_digit (d : Z) : ascii := if d <? 10 then ascii_of_N (Z.to_N (48 + d)) else ascii_of_N (Z.to_N (55 + d)).
(** ["%02X"] of a byte *)
Definition hex2 (b : Z) : string := String (hex_digit (b / 16)) (String (hex_digit (b mod 16)) EmptyString).

(** The character column: bytes 32 to 128 as they are, the others as a dot. *)
Definition show_char (b : Z) : string :=
  if (32 <=? b) && (b <=? 128) then String (ascii_of_N (Z.to_N b)) EmptyString else ".".

Definition GAP : string := "         ".

(** The loops over [j], reading [data[j]] for [lo <= j < hi]. *)
Definition chars (data : list Z) (lo hi : Z) (out : string) : option string :=
  for_up lo hi (λ j out, b ← aget data j; Some (out +:+ show_char b)) out.
Definition extra_spaces (n : Z) (out : string) : option string :=
  for_up 0 n (λ _ out, Some (out +:+ "   ")) out.

(** One round of [PrintData] and the whole function; [data] is what lies at
    and after the pointer, [out] the text written to the log so far. *)
Definition PrintData_step (data : list Z) (Size i : Z) (out : string) : option string :=
  out ← (if negb (i =? 0) && (Z.rem i 16 =? 0)
         then out ← chars data (i - 16) i (out +:+ GAP); Some (out +:+ nl)
         else Some out);
  let out := if Z.rem i 16 =? 0 then out +:+ "   " else out in
  b ← aget data i;
  let out := out +:+ " " +:+ hex2 b in
  if i =? Size - 1
  then
    out ← extra_spaces (15 - Z.rem i 16) out;
    out ← chars data (i - Z.rem i 16) (i + 1) (out +:+ GAP);
    Some (out +:+ nl)
  else Some out.

Definition PrintData (data : list Z) (Size : Z) (out : string) : option string :=
  for_up 0 Size (PrintData_step data Size) out.

(** [inet_ntoa] *)
Definition inet_ntoa (l : list Z) : string :=
  match l with
  | [a; b; c; d] => dec a +:+ "." +:+ dec b +:+ "." +:+ dec c +:+ "." +:+ dec d
  | _ => EmptyString
  end.

(** Two bytes in network order. *)
Definition net16 (Buffer : list Z) (i : Z) : option Z :=
  hi ← aget Buffer i; lo ← aget Buffer (i + 1); Some (hi * 256 + lo).

Definition print_ip_header (Buffer : list Z) (out : string) : option string :=
  b0 ← aget Buffer 0; tos ← aget Buffer 1; len ← net16 Buffer 2; id ← net16 Buffer 4;
  ttl ← aget Buffer 8; protocol ← aget Buffer 9; check ← net16 Buffer 10;
  Some (out +:+ nl +:+ "IP Header" +:+ nl +:+
    "   |-IP Version        : " +:+ dec (b0 / 16) +:+ nl +:+
    "   |-IP Header Length  : " +:+ dec (b0 mod 16) +:+ " DWORDS or " +:+ dec (b0 mod 16 * 4) +:+ " Bytes" +:+ nl +:+
    "   |-Type Of Service   : " +:+ dec tos +:+ nl +:+
    "   |-IP Total Length   : " +:+ dec len +:+ "  Bytes(Size of Packet)" +:+ nl +:+
    "   |-Identification    : " +:+ dec id +:+ nl +:+
    "   |-TTL      : " +:+ dec ttl +:+ nl +:+
    "   |-Protocol : " +:+ dec protocol +:+ nl +:+
    "   |-Checksum : " +:+ dec check +:+ nl +:+
    "   |-Source IP        : " +:+ inet_ntoa (take 4 (drop 12 Buffer)) +:+ nl +:+
    "   |-Destination IP   : " +:+ inet_ntoa (take 4 (drop 16 Buffer)) +:+ nl).

(** [sizeof udph] is the size of a pointer, 8, which is also that of a UDP
    header.  [Size - sizeof udph - iph->ihl * 4] is computed in [size_t] and
    converted back to [int]: the value is the mathematical one. *)
Definition print_udp_packet (Buffer : list Z) (Size : Z) (out : string) : option string :=
  b0 ← aget Buffer 0;
  let iphdrlen := b0 mod 16 * 4 in
  out ← print_ip_header Buffer
    (out +:+ nl +:+ nl +:+ "***********************UDP Packet*************************" +:+ nl);
  source ← net16 Buffer iphdrlen; dest ← net16 Buffer (iphdrlen + 2);
  len ← net16 Buffer (iphdrlen + 4); check ← net16 Buffer (iphdrlen + 6);
  let out := out +:+ nl +:+ "UDP Header" +:+ nl +:+
    "   |-Source Port      : " +:+ dec source +:+ nl +:+
    "   |-Destination Port : " +:+ dec dest +:+ nl +:+
    "   |-UDP Length       : " +:+ dec len +:+ nl +:+
    "   |-UDP Checksum     : " +:+ dec check +:+ nl +:+ nl +:+ "IP Header" +:+ nl in
  out ← PrintData Buffer iphdrlen out;
  out ← PrintData (drop (Z.to_nat iphdrlen) Buffer) 8 (out +:+ "UDP Header" +:+ nl);
  out ← PrintData (drop (Z.to_nat (iphdrlen + 8)) Buffer) (Size - 8 - b0 mod 16 * 4) (out +:+ "Data Payload" +:+ nl);
  Some (out +:+ nl +:+ "###########################################################").

Definition ProcessPacket (buffer : list Z) (size : Z) (out : string) : option string :=
  protocol ← aget buffer 9;
  if protocol =? 17 then print_udp_packet buffer size out else print_ip_header buffer out.

(** The bytes [recvfrom] stores at the start of [buffer]. *)
Definition receive (buffer : list Z) (data : string) : option (list Z) :=
  let bs := (λ c, char_val c) <$> list_ascii_of_string data in
  if (length bs <=? length buffer)%nat then Some (poke 0 bs buffer) else None.

(** One round of [main]: [None] ends the loop.  The text is logged; a
    [logfile] that could not be opened makes [fprintf] undefined. *)
Definition round (sock_raw : Z) (opened : bool) (buffer : list Z) : prog (list Z + Z) :=
  r ← sys (Recvfrom sock_raw 65536);
  if rv r <? 0 then puts ("Recvfrom error , failed to get packets" +:+ nl);; mret (inr 1) else
  b ← need (receive buffer (rdata r));
  out ← need (if opened then ProcessPacket b (rv r) EmptyString else None);
  do_ (LibCall "fprintf" [] [out]);;
  mret (inl b).

Definition main (n : nat) : prog (list Z + Z) :=
  buffer ← malloc (Z.to_nat 65536);
  f ← sysv (LibCall "fopen" [] ["log.txt"; "w"]);
  (if f =? 0 then puts "Unable to create file." else mret tt);;
  puts ("Starting..." +:+ nl);;
  sock_raw ← sysv (Socket AF_INET SOCK_RAW 17);
  if sock_raw <? 0 then do_ (Perror "socket:");; puts ("Socket Error" +:+ nl);; mret (inr 1) else
  loop n (round sock_raw (negb (f =? 0))) buffer.

(** *** The reference hex dump: rows of sixteen bytes *)
Definition row (bs : list Z) : string :=
  "   " +:+ cat ((λ b, " " +:+ hex2 b) <$> bs) +:+ cat (replicate (16 - length bs) "   ") +:+ GAP +:+
  cat (show_char <$> bs) +:+ nl.

Definition hexdump (bs : list Z) : string :=
  cat ((λ k, row (take 16 (drop (16 * k) bs))) <$> seq 0 ((length bs + 15) / 16)).

Lemma cat_app l1 l2 : cat (l1 ++ l2) = cat l1 +:+ cat l2.
Proof. induction l1 as [|s l IH]; [done|]. cbn [app cat]. by rewrite IH, string_app_assoc. Qed.

Lemma for_up_collect (f : Z → string) data lo hi out :
  (lo ≤ hi ≤ length data)%nat →
  for_up (Z.of_nat lo) (Z.of_nat hi) (λ j out, b ← aget data j; Some (out +:+ f b)) out =
  Some (out +:+ cat (f <$> take (hi - lo) (drop lo data))).
Proof.
  intros H.
  destruct (for_up_Some (λ j o, o = out +:+ cat (f <$> take (Z.to_nat j - lo) (drop lo data))) (Z.of_nat lo) (Z.of_nat hi)
    (λ j out, b ← aget data j; Some (out +:+ f b)) out) as (o & E & ->); [lia| | |by rewrite E, Nat2Z.id].
  - intros j o Hj ->. destruct (aget_is_Some data j) as [b Hb]; [lia|]. rewrite Hb. eexists. split; [done|].
    apply aget_lookup in Hb. replace (Z.to_nat (j + 1) - lo)%nat with (S (Z.to_nat j - lo)) by lia.
    rewrite (take_S_r _ _ b), fmap_app, cat_app.
    + cbn [fmap list_fmap cat]. by rewrite string_app_nil, string_app_assoc.
    + rewrite lookup_drop. by replace (lo + (Z.to_nat j - lo))%nat with (Z.to_nat j) by lia.
  - rewrite Nat2Z.id, Nat.sub_diag. cbn [take fmap list_fmap cat]. by rewrite string_app_nil.
Qed.

Lemma chars_spec data lo hi out :
  (lo ≤ hi ≤ length data)%nat →
  chars data (Z.of_nat lo) (Z.of_nat hi) out = Some (out +:+ cat (show_char <$> take (hi - lo) (drop lo data))).
Proof. apply for_up_collect. Qed.

Lemma extra_spaces_spec n out : extra_spaces (Z.of_nat n) out = Some (out +:+ cat (replicate n "   ")).
Proof.
  destruct (for_up_Some (λ j o, o = out +:+ cat (replicate (Z.to_nat j) "   ")) 0 (Z.of_nat n)
    (λ _ out, Some (out +:+ "   ")) out) as (o & E & ->); [lia| | |by unfold extra_spaces; rewrite E, Nat2Z.id].
  - intros j o Hj ->. eexists. split; [done|]. replace (Z.to_nat (j + 1)) with (Z.to_nat j + 1)%nat by lia.
    rewrite replicate_add, cat_app, string_app_assoc. done.
  - change (cat (replicate (Z.to_nat 0) "   ")) with EmptyString. by rewrite string_app_nil.
Qed.

(** The rows complete before byte [16 * q], and the text after [n] bytes. *)
Definition rows (data : list Z) (q : nat) : string :=
  cat ((λ k, row (take 16 (drop (16 * k) data))) <$> seq 0 q).
Definition hexes (data : list Z) (lo hi : nat) : string :=
  cat ((λ b, " " +:+ hex2 b) <$> take (hi - lo) (drop lo data)).
Definition partial (data : list Z) (n : nat) : string :=
  match n with
  | O => EmptyString
  | S m => let q := (m / 16)%nat in rows data q +:+ "   " +:+ hexes data (16 * q) n
  end.

Lemma rows_S data q : rows data (S q) = rows data q +:+ row (take 16 (drop (16 * q) data)).
Proof.
  unfold rows. rewrite seq_S, fmap_app, cat_app. cbn [fmap list_fmap cat Nat.add]. by rewrite string_app_nil.
Qed.

Lemma hexdump_rows data n :
  (0 < n ≤ length data)%nat → let q := ((n - 1) / 16)%nat in
  hexdump (take n data) = rows data q +:+ row (take (n - 16 * q) (drop (16 * q) data)).
Proof.
  intros Hn q. unfold hexdump. rewrite length_take_le by lia.
  assert ((n + 15) / 16 = S q)%nat as ->.
  { unfold q. replace (n + 15)%nat with ((n - 1) + 1 * 16)%nat by lia. rewrite Nat.div_add by lia. lia. }
  assert (16 * q ≤ n - 1)%nat by (apply Nat.Div0.mul_div_le).
  rewrite seq_S, fmap_app, cat_app. cbn [fmap list_fmap cat Nat.add]. rewrite string_app_nil. f_equal.
  - unfold rows. f_equal. apply list_fmap_ext. intros i k Hk%lookup_seq. f_equal.
    rewrite skipn_firstn_comm, take_take. f_equal. lia.
  - f_equal. rewrite skipn_firstn_comm, take_take. f_equal.
    pose proof (Nat.div_mod (n - 1) 16). pose proof (Nat.mod_upper_bound (n - 1) 16). fold q in H0. lia.
Qed.

Lemma hexes_snoc data lo n b :
  (lo ≤ n)%nat → data !! n = Some b → hexes data lo (S n) = hexes data lo n +:+ " " +:+ hex2 b.
Proof.
  intros Hle Hb. unfold hexes. replace (S n - lo)%nat with (S (n - lo)) by lia.
  rewrite (take_S_r _ _ b), fmap_app, cat_app; [cbn [fmap list_fmap cat]; by rewrite string_app_nil|].
  rewrite lookup_drop. by replace (lo + (n - lo))%nat with n by lia.
Qed.

(** A row whose bytes are all written is closed by the gap and its
    characters. *)
Lemma close_row data q n :
  (16 * q ≤ n ≤ 16 * q + 16)%nat → (n ≤ length data)%nat →
  ("   " +:+ hexes data (16 * q) n) +:+ cat (replicate (16 * q + 16 - n) "   ") +:+ GAP +:+
    cat (show_char <$> take (n - 16 * q) (drop (16 * q) data)) +:+ nl =
  row (take (n - 16 * q) (drop (16 * q) data)).
Proof.
  intros H Hl. unfold row, hexes. rewrite length_take_le by (rewrite length_drop; lia).
  replace (16 - (n - 16 * q))%nat with (16 * q + 16 - n)%nat by lia. by rewrite string_app_assoc.
Qed.

Lemma row_end m : (S m mod 16 = 0)%nat → ∃ q, S m = (16 * S q)%nat ∧ (m / 16 = q)%nat.
Proof.
  intros E. pose proof (Nat.div_mod (S m) 16 ltac:(lia)) as H. rewrite E in H.
  destruct (S m / 16)%nat as [|q] eqn:Eq; [lia|]. exists q. split; [lia|].
  replace m with (15 + q * 16)%nat by lia. by rewrite Nat.div_add.
Qed.

(** Before byte [n] of a new row the previous row is closed. *)
Lemma open_row data n out :
  (n ≤ length data)%nat →
  (if negb (Z.of_nat n =? 0) && (Z.rem (Z.of_nat n) 16 =? 0)
   then out ← chars data (Z.of_nat n - 16) (Z.of_nat n) ((out +:+ partial data n) +:+ GAP); Some (out +:+ nl)
   else Some (out +:+ partial data n)) =
  Some (out +:+ if (n mod 16 =? 0)%nat then rows data (n / 16) else partial data n).
Proof.
  intros Hl. rewrite Z.rem_mod_nonneg by lia. change 16 with (Z.of_nat 16) at 1. rewrite <- Nat2Z.inj_mod.
  destruct (n mod 16)%nat as [|x] eqn:E; cbn [Nat.eqb].
  - rewrite andb_true_r. destruct n as [|m]; [done|]. cbn [Z.eqb negb Z.of_nat].
    rewrite (proj2 (Z.eqb_neq _ 0)) by lia. cbn [negb].
    destruct (row_end m E) as (q & Hq & Hm). unfold partial. rewrite Hm, Hq.
    replace (Z.of_nat (16 * S q) - 16) with (Z.of_nat (16 * q)) by lia. rewrite chars_spec by lia.
    cbn [mbind option_bind]. replace (16 * S q / 16)%nat with (S q) by (symmetry; rewrite Nat.mul_comm; by apply Nat.div_mul).
    rewrite rows_S. replace (take 16 (drop (16 * q) data)) with (take (16 * S q - 16 * q) (drop (16 * q) data)) by (f_equal; lia).
    rewrite <- (close_row data q (16 * S q)) by lia.
    replace (16 * q + 16 - 16 * S q)%nat with 0%nat by lia. cbn [replicate cat]. by rewrite !string_app_assoc.
  - by rewrite andb_false_r.
Qed.


Lemma partial_S data n b :
  data !! n = Some b →
  (if (n mod 16 =? 0)%nat then rows data (n / 16) +:+ "   " else partial data n) +:+ " " +:+ hex2 b = partial data (S n).
Proof.
  intros Hb. unfold partial at 2. pose proof (Nat.div_mod n 16 ltac:(lia)) as Hd.
  destruct (n mod 16 =? 0)%nat eqn:E.
  - apply Nat.eqb_eq in E. rewrite E in Hd. unfold hexes.
    replace (S n - 16 * (n / 16))%nat with 1%nat by lia. replace (16 * (n / 16))%nat with n by lia.
    rewrite (drop_S _ b) by done. cbn [take fmap list_fmap cat]. by rewrite string_app_nil, string_app_assoc.
  - apply Nat.eqb_neq in E. destruct n as [|m]; [done|]. unfold partial.
    assert (m / 16 = S m / 16)%nat as ->.
    { symmetry. apply (Nat.div_unique _ _ _ (S m mod 16 - 1)%nat); [pose proof (Nat.mod_upper_bound (S m) 16); lia|lia]. }
    rewrite (hexes_snoc _ _ _ b (Nat.Div0.mul_div_le _ _) Hb). by rewrite !string_app_assoc.
Qed.

Lemma PrintData_step_spec data Size n out :
  (n < Size ≤ length data)%nat →
  PrintData_step data (Z.of_nat Size) (Z.of_nat n) (out +:+ partial data n) =
  Some (out +:+ if (S n =? Size)%nat then hexdump (take Size data) else partial data (S n)).
Proof.
  intros Hn. unfold PrintData_step. rewrite open_row by lia. cbn [mbind option_bind].
  destruct (aget_is_Some data (Z.of_nat n)) as [b Hb]; [lia|]. rewrite Hb. cbn [mbind option_bind].
  rewrite aget_nat in Hb. rewrite Z.rem_mod_nonneg by lia. change 16 with (Z.of_nat 16). rewrite <- Nat2Z.inj_mod.
  assert ((if Z.of_nat (n mod 16) =? 0
           then (out +:+ (if (n mod 16 =? 0)%nat then rows data (n / 16) else partial data n)) +:+ "   "
           else out +:+ (if (n mod 16 =? 0)%nat then rows data (n / 16) else partial data n)) +:+ " " +:+ hex2 b =
          out +:+ partial data (S n)) as ->.
  { rewrite <- (partial_S data n b) by done.
    generalize (n mod 16)%nat. intros x. replace (Z.of_nat x =? 0) with (x =? 0)%nat by (by destruct x).
    destruct (x =? 0)%nat; by rewrite !string_app_assoc. }
  destruct (S n =? Size)%nat eqn:E.
  - apply Nat.eqb_eq in E. rewrite (proj2 (Z.eqb_eq _ _)) by lia.
    pose proof (Nat.mod_upper_bound n 16). pose proof (Nat.div_mod n 16 ltac:(lia)).
    replace (15 - Z.of_nat (n mod 16)) with (Z.of_nat (15 - n mod 16)) by lia. rewrite extra_spaces_spec. cbn [mbind option_bind].
    replace (Z.of_nat n - Z.of_nat (n mod 16)) with (Z.of_nat (16 * (n / 16))) by lia.
    replace (Z.of_nat n + 1) with (Z.of_nat (S n)) by lia. rewrite chars_spec by lia. cbn [mbind option_bind].
    rewrite <- E, hexdump_rows by lia. replace (S n - 1)%nat with n by lia.
    rewrite <- (close_row data (n / 16) (S n)) by lia. cbn [partial].
    replace (16 * (n / 16) + 16 - S n)%nat with (15 - n mod 16)%nat by lia. by rewrite !string_app_assoc.
  - apply Nat.eqb_neq in E. by rewrite (proj2 (Z.eqb_neq _ _)) by lia.
Qed.

(** [PrintData] writes the reference dump of the bytes it is given. *)
Lemma PrintData_spec data Size out :
  Size ≤ Z.of_nat (length data) → PrintData data Size out = Some (out +:+ hexdump (take (Z.to_nat Size) data)).
Proof.
  intros HS. destruct (decide (Size ≤ 0)) as [Hneg|Hpos].
  { unfold PrintData, for_up. replace (Z.to_nat (Size - 0)) with 0%nat by lia. replace (Z.to_nat Size) with 0%nat by lia.
    by rewrite string_app_nil. }
  destruct (for_up_Some (λ i o, 0 ≤ i ∧ o = out +:+
      if (Z.to_nat i =? Z.to_nat Size)%nat then hexdump (take (Z.to_nat Size) data) else partial data (Z.to_nat i))
    0 Size (PrintData_step data Size) out) as (o & E & _ & ->); [lia| | |].
  - intros i o Hi [_ ->]. rewrite (proj2 (Nat.eqb_neq _ _)) by lia. eexists. split; [|split; [lia|done]].
    replace (Z.to_nat (i + 1)) with (S (Z.to_nat i)) by lia.
    rewrite <- (PrintData_step_spec data (Z.to_nat Size)) by lia. by rewrite !Z2Nat.id by lia.
  - split; [done|]. rewrite (proj2 (Nat.eqb_neq _ _)) by lia. by rewrite string_app_nil.
  - unfold PrintData. by rewrite E, Nat.eqb_refl.
Qed.

(** *** The text of a report *)

Definition be16 (b : list Z) (i : Z) : Z := nth (Z.to_nat i) b 0 * 256 + nth (Z.to_nat (i + 1)) b 0.

(** A packet as RFC 791 lays it out: the fields of the first twenty bytes. *)
Record ip_header := IpHeader {
  version : Z; ihl : Z; tos : Z; total_length : Z; identification : Z; time_to_live : Z; ip_protocol : Z; header_checksum : Z;
  source_address : list Z; destination_address : list Z
}.

Definition decode (b : list Z) : ip_header :=
  let at_ i := nth i b 0 in
  {| version := at_ 0%nat / 16; ihl := at_ 0%nat mod 16; tos := at_ 1%nat;
     total_length := at_ 2%nat * 256 + at_ 3%nat; identification := at_ 4%nat * 256 + at_ 5%nat;
     time_to_live := at_ 8%nat; ip_protocol := at_ 9%nat; header_checksum := at_ 10%nat * 256 + at_ 11%nat;
     source_address := [at_ 12%nat; at_ 13%nat; at_ 14%nat; at_ 15%nat];
     destination_address := [at_ 16%nat; at_ 17%nat; at_ 18%nat; at_ 19%nat] |}.

Fixpoint dotted (l : list Z) : string :=
  match l with [] => EmptyString | [x] => dec x | x :: l' => dec x +:+ "." +:+ dotted l' end.

(** A line of the report: a name and what is printed for it. *)
Definition entry (x : string * string) : string := x.1 +:+ x.2 +:+ nl.

Definition ip_entries (h : ip_header) : list (string * string) :=
  [("   |-IP Version        : ", dec (version h));
   ("   |-IP Header Length  : ", dec (ihl h) +:+ " DWORDS or " +:+ dec (ihl h * 4) +:+ " Bytes");
   ("   |-Type Of Service   : ", dec (tos h));
   ("   |-IP Total Length   : ", dec (total_length h) +:+ "  Bytes(Size of Packet)");
   ("   |-Identification    : ", dec (identification h));
   ("   |-TTL      : ", dec (time_to_live h));
   ("   |-Protocol : ", dec (ip_protocol h));
   ("   |-Checksum : ", dec (header_checksum h));
   ("   |-Source IP        : ", dotted (source_address h));
   ("   |-Destination IP   : ", dotted (destination_address h))].

Definition ip_text (b : list Z) : string := nl +:+ "IP Header" +:+ nl +:+ cat (entry <$> ip_entries (decode b)).

Definition udp_text (b : list Z) (size : Z) : string :=
  let h := nth 0 b 0 mod 16 * 4 in
  nl +:+ nl +:+ "***********************UDP Packet*************************" +:+ nl +:+ ip_text b +:+
  nl +:+ "UDP Header" +:+ nl +:+
  "   |-Source Port      : " +:+ dec (be16 b h) +:+ nl +:+
  "   |-Destination Port : " +:+ dec (be16 b (h + 2)) +:+ nl +:+
  "   |-UDP Length       : " +:+ dec (be16 b (h + 4)) +:+ nl +:+
  "   |-UDP Checksum     : " +:+ dec (be16 b (h + 6)) +:+ nl +:+ nl +:+
  "IP Header" +:+ nl +:+ hexdump (take (Z.to_nat h) b) +:+
  "UDP Header" +:+ nl +:+ hexdump (take 8 (drop (Z.to_nat h) b)) +:+
  "Data Payload" +:+ nl +:+ hexdump (take (Z.to_nat (size - 8 - h)) (drop (Z.to_nat (h + 8)) b)) +:+
  nl +:+ "###########################################################".

Lemma aget_nth (b : list Z) i : 0 ≤ i < Z.of_nat (length b) → aget b i = Some (nth (Z.to_nat i) b 0).
Proof.
  intros Hi. destruct (aget_is_Some b i Hi) as [x Hx]. rewrite Hx. f_equal. apply aget_lookup in Hx.
  symmetry. by apply nth_lookup_Some.
Qed.

Lemma net16_spec b i : 0 ≤ i → i + 1 < Z.of_nat (length b) → net16 b i = Some (be16 b i).
Proof. intros ??. unfold net16. by rewrite !aget_nth by lia. Qed.

Lemma address_at b i :
  (i + 4 ≤ length b)%nat → take 4 (drop i b) = [nth i b 0; nth (i + 1) b 0; nth (i + 2) b 0; nth (i + 3) b 0].
Proof.
  intros Hl. assert (∀ k, (k < 4)%nat → drop i b !! k = Some (nth (i + k) b 0)) as H.
  { intros k Hk. rewrite lookup_drop. destruct (lookup_lt_is_Some_2 b (i + k)) as [x Hx]; [lia|]. rewrite Hx. f_equal. symmetry. by apply nth_lookup_Some. }
  pose proof (H 0%nat ltac:(lia)) as H0. pose proof (H 1%nat ltac:(lia)) as H1. pose proof (H 2%nat ltac:(lia)) as H2. pose proof (H 3%nat ltac:(lia)) as H3.
  rewrite Nat.add_0_r in H0. destruct (drop i b) as [|x0 [|x1 [|x2 [|x3 l]]]]; try done. cbn in H0, H1, H2, H3 |- *. by simplify_eq.
Qed.

(** The program prints the decoded header. *)
Lemma print_ip_header_spec b out : (20 ≤ length b)%nat → print_ip_header b out = Some (out +:+ ip_text b).
Proof.
  intros Hl. unfold ip_text, print_ip_header. rewrite !net16_spec, !aget_nth, !address_at by lia. cbn [mbind option_bind].
  unfold ip_entries, decode, be16, entry. cbn -[dec append]. by rewrite !string_app_assoc.
Qed.

Lemma print_udp_packet_spec b size out :
  (80 ≤ length b)%nat → byte (nth 0 b 0) → 0 ≤ size ≤ Z.of_nat (length b) →
  print_udp_packet b size out = Some (out +:+ udp_text b size).
Proof.
  intros Hl Hb Hs. unfold print_udp_packet. rewrite aget_nth by lia. cbn [mbind option_bind].
  change (Z.to_nat 0) with 0%nat. unfold udp_text. set (h := nth 0 b 0 mod 16 * 4).
  assert (0 ≤ h ≤ 60) as Hh by (unfold h; lia). clearbody h.
  rewrite print_ip_header_spec by lia. cbn [mbind option_bind].
  rewrite !net16_spec by lia. cbn [mbind option_bind].
  do 3 (rewrite PrintData_spec by (rewrite ?length_drop; lia); cbn [mbind option_bind]).
  change (Z.to_nat 8) with 8%nat. by rewrite !string_app_assoc.
Qed.

(** What one packet of [size] bytes in [buffer] adds to the log. *)
Definition packet_text (b : list Z) (size : Z) : string :=
  if nth 9 b 0 =? 17 then udp_text b size else ip_text b.

Lemma ProcessPacket_spec b size out :
  (80 ≤ length b)%nat → byte (nth 0 b 0) → 0 ≤ size ≤ Z.of_nat (length b) →
  ProcessPacket b size out = Some (out +:+ packet_text b size).
Proof.
  intros Hl Hb Hs. unfold ProcessPacket, packet_text. rewrite aget_nth by lia. cbn [mbind option_bind].
  change (Z.to_nat 9) with 9%nat. destruct (_ =? 17); [by apply print_udp_packet_spec|by apply print_ip_header_spec; lia].
Qed.

(** *** What the log has to do with the packets *)

Definition bytes (p : string) : list Z := (λ c, char_val c) <$> list_ascii_of_string p.

(** The buffer after the packet [p] has arrived: what it does not reach is that
    of the packets before. *)
Definition over (b : list Z) (p : string) : list Z := bytes p ++ drop (length (bytes p)) b.
Definition after (b : list Z) (ps : list string) : list Z := fold_left over ps b.

Definition report (b : list Z) (p : string) : string := packet_text (over b p) (Z.of_nat (String.length p)).

(** The packets that [recvfrom] delivers, and the texts that are logged, in the
    order of the calls. *)
Definition io_ev (c : call) (r : reply) : option (string + string) :=
  match c with
  | Recvfrom _ _ => if 0 <=? rv r then Some (inl (rdata r)) else None
  | LibCall name [] [text] => if String.eqb name "fprintf" then Some (inr text) else None
  | _ => None
  end.

(** Each packet is followed by its report. *)
Fixpoint log_of (b : list Z) (ps : list string) : list (string + string) :=
  match ps with [] => [] | p :: ps' => inl p :: inr (report b p) :: log_of (over b p) ps' end.

Lemma log_of_snoc b ps p : log_of b (ps ++ [p]) = log_of b ps ++ [inl p; inr (report (after b ps) p)].
Proof. revert b. induction ps as [|q ps IH]; intros b; [done|]. cbn. by rewrite IH. Qed.

Lemma after_snoc b ps p : after b (ps ++ [p]) = over (after b ps) p.
Proof. unfold after. by rewrite fold_left_app. Qed.

Definition buffer_ok (b : list Z) : Prop := length b = Z.to_nat 65536 ∧ Forall byte b.
Definition fits (p : string) : Prop := Z.of_nat (String.length p) ≤ 65536.

(** The events of a run whose buffer was [b0] at first and is [b] now. *)
Definition logged (b0 b : list Z) (ps : list string) (l : list (string + string)) : Prop :=
  buffer_ok b0 ∧ Forall fits ps ∧ b = after b0 ps ∧ l = log_of b0 ps.
Definition log_ok (l : list (string + string)) : Prop :=
  ∃ b0 b ps, logged b0 b ps (l) ∨ ∃ p l', fits p ∧ l = l' ++ [inl p] ∧ logged b0 b ps l'.

(** The report of a complete packet does not depend on those before it. *)
Definition complete (p : string) : Prop :=
  let h := decode (bytes p) in
  20 ≤ Z.of_nat (String.length p) ∧ (ip_protocol h = 17 → ihl h * 4 + 8 ≤ Z.of_nat (String.length p)).

Lemma length_packet p : length (bytes p) = String.length p.
Proof. unfold bytes. rewrite length_fmap. apply length_chars. Qed.

Lemma bytes_byte p : Forall byte (bytes p).
Proof. apply Forall_fmap, Forall_true. intros c. unfold byte, compose, char_val. pose proof (N_ascii_bounded c). lia. Qed.

Lemma decode_app b rest : (20 ≤ length b)%nat → decode (b ++ rest) = decode b.
Proof. intros. unfold decode. by rewrite !app_nth1 by lia. Qed.

Lemma be16_app b rest i : 0 ≤ i → i + 1 < Z.of_nat (length b) → be16 (b ++ rest) i = be16 b i.
Proof. intros. unfold be16. by rewrite !app_nth1 by lia. Qed.

Lemma report_complete b p : complete p → report b p = packet_text (bytes p) (Z.of_nat (String.length p)).
Proof.
  intros [Hl Hu]. unfold report, over. rewrite <- (length_packet p) in *.
  generalize (drop (length (bytes p)) b). intros rest. pose proof (bytes_byte p) as Hb. revert Hl Hu Hb.
  generalize (bytes p). intros d Hl Hu Hb. unfold packet_text. rewrite app_nth1 by lia. cbn in Hu.
  destruct (Z.eqb_spec (nth 9 d 0) 17) as [E|]; [specialize (Hu E)|by unfold ip_text; rewrite decode_app by lia].
  unfold udp_text. rewrite (app_nth1 d rest) by lia.
  assert (byte (nth 0 d 0)) as H0 by (apply (proj1 (Forall_nth byte 0 d)); [done|lia]).
  set (h := nth 0 d 0 mod 16 * 4) in *. assert (0 ≤ h) by (unfold h; lia). clearbody h.
  unfold ip_text. rewrite decode_app, !be16_app by lia. rewrite take_app_le, drop_app_le by lia.
  rewrite (take_app_le (drop _ _)) by (rewrite length_drop; lia). rewrite drop_app_le by lia.
  by rewrite (take_app_le (drop (Z.to_nat (h + 8)) d)) by (rewrite length_drop; lia).
Qed.

(** [malloc] and [fopen] succeed, [recvfrom] stores what it reports. *)
Definition kernel_sniff (c : call) (r : reply) : Prop :=
  kernel_reads c r ∧
  match c with LibCall name _ _ => String.eqb name "malloc" || String.eqb name "fopen" = true → rv r ≠ 0 | _ => True end.

Local Abbreviation wp_sniff := (wp (log_step io_ev) log_ok kernel_sniff False (λ _ _, True)).

Lemma wp_unlogged {A} c (k : reply → prog A) Q l :
  (∀ r, io_ev c r = None) → log_ok l → (∀ r, kernel_sniff c r → wp_sniff (k r) Q l) → wp_sniff (Call c k) Q l.
Proof. intros Hc Hl Hk r Hr. rewrite log_none by done. auto. Qed.

Lemma over_ok b p : buffer_ok b → fits p → buffer_ok (over b p).
Proof.
  unfold fits. intros [Hl Hb] Hp. unfold over. split; [rewrite length_app, length_drop, length_packet; lia|].
  apply Forall_app. split; [apply bytes_byte|by apply Forall_drop].
Qed.

Lemma after_ok b ps : buffer_ok b → Forall fits ps → buffer_ok (after b ps).
Proof. intros Hb Hp. revert b Hb. induction Hp as [|p ps Hf _ IH]; intros b Hb; [done|]. by apply IH, over_ok. Qed.

Lemma receive_over b p : buffer_ok b → fits p → receive b p = Some (over b p).
Proof.
  unfold fits. intros [Hl _] Hp. unfold receive. fold (bytes p). rewrite (proj2 (Nat.leb_le _ _)) by (rewrite length_packet; lia). done.
Qed.

Lemma logged_nil b0 : buffer_ok b0 → logged b0 b0 [] [].
Proof. intros H. split; [exact H|]. split; [constructor|]. by split. Qed.

Lemma memory_ok l : buffer_ok (bytes_of (Z.to_nat 65536) l).
Proof. split; [apply bytes_of_length|apply bytes_of_bytes]. Qed.

Lemma logged_ok b0 b ps l : logged b0 b ps l → log_ok l.
Proof. intros H. exists b0, b, ps. by left. Qed.

Lemma wp_round sock b0 b ps l :
  logged b0 b ps l →
  wp_sniff (round sock true b) (λ x l, match x with inl b' => ∃ ps', logged b0 b' ps' l | inr a => a = 1 end) l.
Proof.
  intros HL. pose proof HL as (H0 & Hps & -> & ->). pose proof (after_ok _ _ H0 Hps) as Hb.
  unfold round. apply wp_bind. intros r [[Hn Hv] _]. destruct (rv r <? 0) eqn:E.
  - assert (io_ev (Recvfrom sock 65536) r = None) as Hr by (cbn; by rewrite Z.leb_antisym, E).
    rewrite log_none by done. split; [by eapply logged_ok|]. cbn [wp]. rewrite E. by apply wp_bind, wp_unlogged; [|eapply logged_ok|].
  - assert (io_ev (Recvfrom sock 65536) r = Some (inl (rdata r))) as Hr by (cbn; by rewrite Z.leb_antisym, E).
    rewrite (log_some _ _ _ _ _ Hr). bool_hyps. assert (rv r = Z.of_nat (String.length (rdata r))) as Hrv by (destruct Hv as [|[Hv _]]; [done|rewrite Hv in E; lia]).
    split; [exists b0, (after b0 ps), ps; right; by exists (rdata r), (log_of b0 ps)|]. cbn [wp]. rewrite (proj2 (Z.ltb_ge _ _)) by lia.
    rewrite receive_over by done. cbn [need]. rewrite ret_bind. destruct (over_ok _ (rdata r) Hb Hn) as [Hlb Hbb].
    assert (byte (nth 0 (over (after b0 ps) (rdata r)) 0)) as Hh by (apply (proj1 (Forall_nth byte 0 _)); [done|lia]).
    rewrite ProcessPacket_spec by (done || lia). cbn [need]. rewrite ret_bind, Hrv. fold (report (after b0 ps) (rdata r)).
    assert (logged b0 (over (after b0 ps) (rdata r)) (ps ++ [rdata r]) ((log_of b0 ps ++ [inl (rdata r)]) ++ [inr (report (after b0 ps) (rdata r))])) as HL'.
    { split; [done|]. split; [by apply Forall_app; split; [|by apply Forall_singleton]|]. by rewrite after_snoc, log_of_snoc, <- app_assoc. }
    apply wp_bind. intros r' _. rewrite (log_some _ _ _ _ (inr (report (after b0 ps) (rdata r)))) by done.
    split; [by eapply logged_ok|]. by exists (ps ++ [rdata r]).
Qed.

Lemma wp_sniffer n :
  wp_sniff (main n) (λ x l, match x with inl b => ∃ b0 ps, logged b0 b ps l | inr a => a = 1 end) [].
Proof.
  assert (log_ok []) as H0 by exact (logged_ok _ _ _ _ (logged_nil _ (memory_ok []))).
  unfold main. apply wp_bind. unfold malloc. apply wp_bind, wp_unlogged; [done|done|]. intros r [_ Hr]. cbn [wp].
  rewrite (proj2 (Z.eqb_neq (rv r) 0)) by by apply Hr. cbn [wp mret prog_mret].
  apply wp_bind, wp_unlogged; [done|done|]. intros f [_ Hf]. cbn [wp].
  rewrite (proj2 (Z.eqb_neq (rv f) 0)) by by apply Hf. cbn [negb wp mret prog_mret].
  apply wp_bind. cbn [wp]. apply wp_bind, wp_unlogged; [done|done|]. intros p _. cbn [wp].
  apply wp_bind, wp_unlogged; [done|done|]. intros sock _. cbn [wp].
  destruct (rv sock <? 0).
  - apply wp_bind, wp_unlogged; [done|done|]. intros p' _. cbn [wp]. by apply wp_bind, wp_unlogged.
  - pose proof (memory_ok (rints r)) as Hb0. revert Hb0. generalize (bytes_of (Z.to_nat 65536) (rints r)). intros b0 Hb0. eapply wp_mono; [|apply wp_loop with (I := λ b l, ∃ ps, logged b0 b ps l)].
    + intros [b|a] l H; [by exists b0|exact H].
    + intros b l [ps Hl]. by eapply wp_round.
    + exists []. exact (logged_nil b0 Hb0).
Qed.

(** C11: The packet logger.  However long it runs and whatever packets arrive
    (short ones and forged header lengths included), it reads nothing outside
    its 65536-byte buffer and never goes wrong, and its trace is determined by
    the packets: each packet that [recvfrom] delivers is followed by one text in
    the log, its report (only the last packet may still lack it, when the run
    is cut there).  The report is that of the buffer in which the packet lies
    over the packets before it: the decoded fields of its IP header in the order
    of the program and, for UDP, the ports, the length, the checksum and the reference hex
    dumps of the IP header, of the eight bytes of the UDP header and of the
    payload, whose size is that of the packet.  A complete packet (twenty bytes,
    and for UDP the whole UDP header) is reported from its own bytes alone.  The
    program ends only with the value 1, after an error. *)
Theorem sniffer_logs n rs :
  env_ok kernel_sniff (trace_of (main n) rs) →
  (∃ b0 ps, buffer_ok b0 ∧ Forall fits ps ∧
     (select_ev io_ev (trace_of (main n) rs) = log_of b0 ps ∨
      ∃ p, fits p ∧ select_ev io_ev (trace_of (main n) rs) = log_of b0 ps ++ [inl p])) ∧
  (∀ b p, complete p → report b p = packet_text (bytes p) (Z.of_nat (String.length p))) ∧
  match outcome_of (main n) rs with
  | Done (inl b) => ∃ b0 ps, buffer_ok b ∧ b = after b0 ps ∧ select_ev io_ev (trace_of (main n) rs) = log_of b0 ps
  | Done (inr a) => a = 1
  | UB => False
  | _ => True
  end.
Proof.
  intros Henv.
  assert (log_ok []) as H0 by exact (logged_ok _ _ _ _ (logged_nil _ (memory_ok []))).
  destruct (wp_sound _ _ _ _ _ _ _ [] rs (wp_sniffer n) H0 Henv) as [Hok Ho]. rewrite fold_log in Hok, Ho. cbn [app] in Hok, Ho. split_and!.
  - destruct Hok as (b0 & b & ps & [(Hb & Hps & _ & ->)|(p & l' & Hp & -> & (Hb & Hps & _ & ->))]); exists b0, ps; (split; [done|]); (split; [done|]);
      [by left|right; by exists p].
  - intros b p. apply report_complete.
  - destruct (outcome_of (main n) rs) as [[b|a]| | |]; try done. destruct Ho as (b0 & ps & Hb & Hps & -> & E).
    exists b0, ps. split; [by apply after_ok|done].
Qed.

(** A UDP packet of 30 bytes, then an error. *)
Definition example_packet : string :=
  string_of_list_ascii ((λ n, ascii_of_N (Z.to_N n)) <$> [69; 0; 0; 30; 0; 1; 0; 0; 64; 17; 0; 0; 10; 0; 0; 1; 10; 0; 0; 2; 0; 80; 0; 90; 0; 10; 0; 0; 65; 66]).

Definition example_run : list reply :=
  [Reply 1 EmptyString [] []; ret_ 2; ret_ 0; ret_ 3; bytes_ example_packet; ret_ 0; ret_ (-1); ret_ 0].

Definition sniff_ok (t : trace) : bool :=
  forallb (λ e : event, match e.1 with
    | LibCall name _ _ => if String.eqb name "malloc" || String.eqb name "fopen" then negb (rv e.2 =? 0) else true
    | Recvfrom _ n =>
        (Z.of_nat (String.length (rdata e.2)) <=? n) &&
        ((rv e.2 =? Z.of_nat (String.length (rdata e.2))) || ((rv e.2 =? -1) && String.eqb (rdata e.2) EmptyString))
    | Recv _ _ | Read _ _ => false
    | _ => true end) t.

Lemma sniff_ok_spec t : sniff_ok t = true → env_ok kernel_sniff t.
Proof.
  intros H. apply Forall_forall. intros [c r] Hin. unfold sniff_ok in H. rewrite forallb_forall in H.
  apply list_elem_of_In in Hin. specialize (H _ Hin). unfold kernel_sniff, kernel_reads.
  destruct c; try done; cbn in H |- *; split; try done.
  - apply andb_true_iff in H as [H1 H2]. apply Z.leb_le in H1. split; [done|]. apply orb_true_iff in H2 as [H2|H2].
    + left. by apply Z.eqb_eq.
    + right. apply andb_true_iff in H2 as [H2 H3]. apply Z.eqb_eq in H2. apply String.eqb_eq in H3. done.
  - destruct (_ || _); [|done]. intros _. by apply negb_true_iff, Z.eqb_neq in H.
Qed.

(** The run logs the report of the packet, from its own bytes. *)
Lemma sniffer_logs_witness :
  outcome_of (main 5) example_run = Done (inr 1) ∧
  ∃ b0 ps, buffer_ok b0 ∧ Forall fits ps ∧
    (select_ev io_ev (trace_of (main 5) example_run) = log_of b0 ps ∨
     ∃ p, fits p ∧ select_ev io_ev (trace_of (main 5) example_run) = log_of b0 ps ++ [inl p]) ∧
    report b0 example_packet = packet_text (bytes example_packet) 30.
Proof.
  split; [by vm_compute|].
  assert (env_ok kernel_sniff (trace_of (main 5) example_run)) as He by (apply sniff_ok_spec; by vm_compute).
  destruct (sniffer_logs 5 example_run He) as ((b0 & ps & Hb & Hps & Hl) & Hc & _). exists b0, ps. split_and!; [done..|].
  apply (Hc b0 example_packet). split; [by apply Z.leb_le|]. intros _. by apply Z.leb_le.
Defined.

Example hexdump17 : PrintData (bytes_of 18 (Z.of_nat <$> seq 60 18)) 17 "" = Some (hexdump (bytes_of 17 (Z.of_nat <$> seq 60 18))).
Proof. reflexivity. Qed.

End Sniffer.
