(* ===== verification/Studio.v ===== *)
(** * The film studio of [c137261@nitwstudios]

    [script.c] asks for actors and sets and sends the request to [director.c],
    which asks [studio.c] and [actor.c] for the ports of the sets and actors,
    each of them ([set.c], [act.c]) for a permission, and passes the
    connections of those that agreed to [producer.c], which pays them. *)

From S2P Require Import Prelude CString Posix Session FdPass Packet.

#[local] Open Scope Z_scope.

(** [int a[n];] with a run-time size. *)
Definition vla (n : Z) : option (list (option Z)) :=
  if 0 <? n then Some (replicate (Z.to_nat n) None) else None.

(** A loop of [sprintf(b, "%d", a[i]); send(fd, b, 30, 0);] *)
Definition send_ints (fd : Z) (a : list (option Z)) (n : Z) (b : buf) : prog buf :=
  for_up 0 n (λ i b, v ← need (iget a i); b ← need (sprintf b (dec v)); do_ (Send fd b 30);; mret b) b.

(** ** [script.c] *)
Module Script.

(** A loop of [scanf("%d", &a[i])]. *)
Definition scan_ints (a : list (option Z)) (n : Z) : prog (list (option Z)) :=
  for_up 0 n (λ i a, v ← scan_int; match v with Some v => need (iset a i v) | None => mret a end) a.

Definition round : prog unit :=
  puts ("Enter no of actors and sets needed" +:+ nl);;
  a ← scan_int; s ← scan_int;
  actors ← need a; sets ← need s;
  actor_list ← need (vla actors);
  sets_list ← need (vla sets);
  puts ("Enter actors needed" +:+ nl);;
  sets_list ← scan_ints sets_list sets;
  puts ("Enter sets needed" +:+ nl);;
  actor_list ← scan_ints actor_list actors;
  nfd ← sysv (Socket AF_INET SOCK_STREAM 0);
  error_warn nfd "socket";;
  c ← sysv (Connect nfd (SaIn (htons 4002) INADDR_ANY));
  error_warn c "accept";;
  countbuffer ← need (sprintf (fresh 30) (dec sets));
  do_ (Send nfd countbuffer 30);;
  countbuffer ← need (sprintf countbuffer (dec actors));
  do_ (Send nfd countbuffer 30);;
  countbuffer ← send_ints nfd sets_list sets countbuffer;
  send_ints nfd actor_list actors countbuffer;;
  mret tt.

Definition main (n : nat) : prog unit := forever n (λ _, round) tt.

End Script.

(** ** [director.c] *)
Module Director.

Definition max_count : nat := 5.

Record state := State {
  actors : list (option Z);
  sets : list (option Z);
  actors_accp : list (option Z);
  sets_accp : list (option Z);
  s_a : Z;
  a_a : Z
}.

Definition init : state :=
  State (replicate max_count None) (replicate max_count None) (replicate max_count None) (replicate max_count None) 0 0.

(** Lines 107-112 and 113-119. *)
Definition recv_ints (nfd n : Z) (label_ : string) (a : list (option Z)) (buffer : buf) : prog (list (option Z) * buf) :=
  for_up 0 n (λ i '(a, buffer),
    '(_, buffer) ← recv nfd buffer 30;
    s ← str buffer;
    puts (label_ +:+ s +:+ nl);;
    v ← need (atoi s);
    a ← need (iset a i v);
    mret (a, buffer)) (a, buffer).

(** Lines 121-128. *)
Definition print_ints (a : list (option Z)) (n : Z) : prog unit :=
  for_up 0 n (λ i _, v ← need (iget a i); puts (dec v +:+ nl)) tt.

(** One round of the loops of lines 139-165 and 177-204, which differ in a
    text and in one [printf]: ask for the port of item [v], connect there and
    keep the connection if the answer is 1. *)
Definition ask (fd : Z) (actor : bool) (a : list (option Z)) (i : Z) (st : buf * list (option Z) * Z) :
    prog (buf * list (option Z) * Z) :=
  let '(b, accp, k) := st in
  v ← need (iget a i);
  b ← need (sprintf b (dec v));
  do_ (Send fd b 30);;
  '(_, b) ← recv fd b 30;
  s ← str b;
  port ← need (atoi s);
  puts (dec port +:+ nl);;
  setfd ← sysv (Socket AF_INET SOCK_STREAM 0);
  error_func setfd "socket";;
  c ← sysv (Connect setfd (SaIn (htons port) INADDR_ANY));
  error_func c (if actor then "accept" else "connect");;
  '(_, b) ← recv setfd b 30;
  s ← str b;
  perm ← need (atoi s);
  if perm =? 1 then
    accp ← need (iset accp k setfd);
    (if actor then puts ("setfd" +:+ dec setfd +:+ nl);; puts ("permission given for actor" +:+ nl)
     else puts ("permission given for set" +:+ nl));;
    mret (b, accp, k + 1)
  else
    puts (if actor then "actor is not available" +:+ nl else "set is not available" +:+ nl);;
    mret (b, accp, k).

(** Lines 130-165 with port 5000 and lines 167-204 with port 6000. *)
Definition negotiate (port : Z) (actor : bool) (count : Z) (a accp : list (option Z)) (k : Z) :
    prog (list (option Z) * Z) :=
  fd ← sysv (Socket AF_INET SOCK_STREAM 0);
  error_func fd "socket";;
  c ← sysv (Connect fd (SaIn (htons port) INADDR_ANY));
  error_func c "connect";;
  b ← need (sprintf (fresh 30) (dec count));
  s ← str b;
  puts ("new set" +:+ s +:+ nl);;
  do_ (Send fd b 30);;
  '(_, accp, k) ← for_up 0 count (ask fd actor a) (b, accp, k);
  mret (accp, k).

Definition pass_all (usfd : Z) (accp : list (option Z)) (n : Z) : prog unit :=
  for_up 0 n (λ i _, fd ← need (iget accp i); send_file_descriptor usfd fd;; mret tt) tt.

(** Lines 207-234. *)
Definition hand_over (sets_accp actors_accp : list (option Z)) (s_a a_a : Z) : prog unit :=
  usfd ← sysv (Socket AF_UNIX SOCK_STREAM 0);
  error_func usfd "socket error";;
  c ← sysv (Connect usfd (SaUn "echo_socket"));
  error_func c "connect error";;
  do_ (Send usfd (lit "From client to server") 30);;
  '(_, newbuffer) ← recv usfd (fresh 30) 30;
  s ← str newbuffer;
  puts (s +:+ nl);;
  namebuf ← need (sprintf (fresh 30) (dec s_a));
  do_ (Send usfd namebuf 30);;
  namebuf ← need (sprintf namebuf (dec a_a));
  do_ (Send usfd namebuf 30);;
  pass_all usfd sets_accp s_a;;
  pass_all usfd actors_accp a_a.

(** Lines 96-128: the numbers of actors and sets and their lists. *)
Definition receive (sfd : Z) (st : state) : prog (Z * list (option Z) * (Z * list (option Z))) :=
  nfd ← sysv (Accept sfd);
  error_func nfd "accept";;
  '(_, buffer) ← recv nfd (fresh 30) 30;
  s ← str buffer;
  actors_count ← need (atoi s);
  '(_, buffer) ← recv nfd buffer 30;
  s ← str buffer;
  set_count ← need (atoi s);
  puts ("No of Actors" +:+ dec actors_count +:+ nl);;
  puts ("No of sets" +:+ dec set_count +:+ nl);;
  '(actors, buffer) ← recv_ints nfd actors_count "buf :" (actors st) buffer;
  '(sets, _) ← recv_ints nfd set_count "buf2 :" (sets st) buffer;
  print_ints actors actors_count;;
  print_ints sets set_count;;
  mret (actors_count, actors, (set_count, sets)).

Definition round (sfd : Z) (st : state) : prog state :=
  '(actors_count, actors, (set_count, sets)) ← receive sfd st;
  '(sets_accp, s_a) ← negotiate 5000 false set_count sets (sets_accp st) (s_a st);
  '(actors_accp, a_a) ← negotiate 6000 true actors_count actors (actors_accp st) (a_a st);
  hand_over sets_accp actors_accp s_a a_a;;
  mret (State actors sets actors_accp sets_accp s_a a_a).

Definition main (n : nat) : prog state :=
  sfd ← sysv (Socket AF_INET SOCK_STREAM 0);
  error_func sfd "socket";;
  set ← sysv (Setsockopt sfd "SO_REUSEADDR");
  error_func set "calling sockpot";;
  b ← sysv (Bind sfd (SaIn (htons 4002) INADDR_ANY));
  error_func b "bindme";;
  l ← sysv (Listen sfd 5);
  error_func l "listen";;
  forever n (round sfd) init.

End Director.

(** ** [studio.c] (base 9000, port 5000) and [actor.c] (base 7000, port 6000) *)
Module Lookup.

Definition services (base : Z) : list Z := [base; base + 1; base + 2; base + 3].

Definition answer (services : list Z) (nfd : Z) (buffer : buf) : prog buf :=
  '(_, buffer) ← recv nfd buffer 30;
  s ← str buffer;
  index ← need (atoi s);
  puts (dec index +:+ nl);;
  port ← need (aget services (index - 1));
  portbuffer ← need (sprintf (fresh 30) (dec port));
  do_ (Send nfd portbuffer 30);;
  mret buffer.

Definition round (text : string) (base sfd : Z) : prog unit :=
  nfd ← sysv (Accept sfd);
  error_func nfd "accept";;
  puts (text +:+ nl);;
  '(_, buffer) ← recv nfd (fresh 30) 30;
  s ← str buffer;
  setcount ← need (atoi s);
  for_up 0 setcount (λ _ buffer, answer (services base) nfd buffer) buffer;;
  mret tt.

Definition serve (port : Z) (text : string) (base : Z) (n : nat) : prog unit :=
  sfd ← sysv (Socket AF_INET SOCK_STREAM 0);
  error_func sfd "socket";;
  set ← sysv (Setsockopt sfd "SO_REUSEADDR");
  error_func set "calling sockpot";;
  b ← sysv (Bind sfd (SaIn (htons port) INADDR_ANY));
  error_func b "bind";;
  l ← sysv (Listen sfd 5);
  error_func l "listen";;
  forever n (λ _, round text base sfd) tt.

Definition studio_main : nat → prog unit := serve 5000 "connected to studio" 9000.
Definition actor_main : nat → prog unit := serve 6000 "connected to actors" 7000.

End Lookup.

(** ** [act.c] and [set.c]: one actor or set *)
Module Permission.

(** The thread of one client, run to its end; the shared [available_count]
    is passed along. *)
Definition thread_funcmain (nfd available_count : Z) : prog Z :=
  puts ("available_count" +:+ dec available_count +:+ nl);;
  if (available_count =? 0) || (available_count =? 2) then
    let available_count := available_count + 1 in
    permbuffer ← need (sprintf (fresh 30) (dec 1));
    do_ (Send nfd permbuffer 30);;
    do_ (PthreadCreate "thread_func" "NULL");;
    '(_, newbuffer) ← read nfd (fresh 30) 30;
    s ← str newbuffer;
    puts (s +:+ nl);;
    mret available_count
  else
    let available_count := available_count + 1 in
    permbuffer ← need (sprintf (fresh 30) (dec 0));
    do_ (Send nfd permbuffer 30);;
    mret available_count.

(** The thread that waits for the producer's raw message; [inl] goes round
    again. *)
Definition thread_func_step (rsfd : Z) (st : buf * buf) : prog (buf * buf + unit) :=
  let '(buffer, buf_) := st in
  puts ("came" +:+ nl);;
  '(r, buffer) ← recvfrom rsfd buffer 1024;
  b0 ← need (b ← aget buffer 0; b);
  let iphdrlen := char_val b0 mod 16 * 4 in
  s ← need (cstr (drop (Z.to_nat iphdrlen) buffer));
  buf_ ← need (strcpy buf_ s);
  puts ("Message from producer: " +:+ s);;
  if 1 <? r then puts ("r value" +:+ dec r +:+ nl);; mret (inr tt) else mret (inl (buffer, buf_)).

Definition thread_func (n : nat) : prog (buf * buf + unit) :=
  puts ("thread created raw" +:+ nl);;
  rsfd ← sysv (Socket AF_INET SOCK_RAW 101);
  do_ (Setsockopt rsfd "IP_HDRINCL");;
  loop n (thread_func_step rsfd) (fresh 1024, fresh 1024).

(** [main] accepts clients and starts a thread for each, keeping its id in
    [threads[clients_no++]], an array of five. *)
Definition round (text : string) (sfd : Z) (clients_no : Z) : prog Z :=
  nfd ← sysv (Accept sfd);
  error_func nfd "accept";;
  puts (text +:+ nl);;
  puts (dec nfd +:+ nl);;
  need (aset (replicate 5 tt) clients_no tt);;
  do_ (PthreadCreate "thread_funcmain" "&nfd");;
  mret (clients_no + 1).

Definition main (text argv1 : string) (n : nat) : prog Z :=
  port ← need (atoi argv1);
  sfd ← sysv (Socket AF_INET SOCK_STREAM 0);
  error_func sfd "socket";;
  set ← sysv (Setsockopt sfd "SO_REUSEADDR");
  error_func set "calling sockpot";;
  b ← sysv (Bind sfd (SaIn (htons port) INADDR_ANY));
  error_func b "bind";;
  l ← sysv (Listen sfd 5);
  error_func l "listen";;
  forever n (round text sfd) 0.

Definition act_main := main "connected to actor".
Definition set_main := main "connected to set".

End Permission.

(** ** [producer.c] *)
Module Producer.

Definition max_count : nat := 5.

Definition recv_fds (nfd n : Z) (a : list (option Z)) : prog (list (option Z)) :=
  for_up 0 n (λ i a, fd ← recv_file_descriptor nfd; need (iset a i fd)) a.

(** [write(a[i], "payment done", 30)] for the first [n] descriptors. *)
Definition pay (text : string) (a : list (option Z)) (n : Z) : prog unit :=
  for_up 0 n (λ i _,
    fd ← need (iget a i);
    puts (text +:+ dec fd +:+ nl);;
    do_ (Write fd (lit "payment done") 30)) tt.

(** [buffer1] with the IP header and the message: [strcpy] of [buf] after the
    20 bytes of the header. *)
Definition raw_message (s : string) : list Z :=
  let len := Z.of_nat (String.length s) in
  let b := replicate 1024 0 in
  let b := poke 0 [69; 0] b in
  let b := poke 6 (le16 0) b in
  let b := poke 8 [8; 101] b in
  let b := poke 12 (le32 (inet_addr "127.0.1.1")) b in
  let b := poke 16 (le32 (inet_addr "127.0.0.1")) b in
  let b := poke 20 (((λ c, char_val c) <$> list_ascii_of_string s) ++ [0]) b in
  poke 2 (le16 (htons (20 + len))) b.

Definition broadcast : prog unit :=
  rsfd ← sysv (Socket AF_INET SOCK_RAW 101);
  error_func rsfd "socket";;
  do_ (Setsockopt rsfd "IP_HDRINCL");;
  puts "Enter Message:";;
  r ← sys ScanString;
  buf_ ← need (strcpy (zeroed 128) (rdata r));
  s ← str buf_;
  n ← sysv (Sendto rsfd (to_cells (raw_message s)) 1024 (SaIn 0 INADDR_ANY));
  if n <? 0 then do_ (Perror "sendto() ") else mret tt.

Definition round (sfd : Z) (st : list (option Z) * list (option Z)) : prog (list (option Z) * list (option Z)) :=
  let '(sets, actors) := st in
  nfd ← sysv (Accept sfd);
  error_func nfd "accept error";;
  '(_, buffer) ← recv nfd (fresh 30) 30;
  s ← str buffer;
  puts (s +:+ nl);;
  do_ (Send nfd (lit "hello from server") 30);;
  '(_, buffer) ← recv nfd buffer 30;
  s ← str buffer;
  set_count ← need (atoi s);
  '(_, buffer) ← recv nfd buffer 30;
  s ← str buffer;
  actor_count ← need (atoi s);
  puts ("Set count" +:+ dec set_count +:+ nl);;
  puts ("Actor count" +:+ dec actor_count +:+ nl);;
  sets ← recv_fds nfd set_count sets;
  actors ← recv_fds nfd actor_count actors;
  pay "set fd:" sets set_count;;
  pay "actor fd:" actors actor_count;;
  broadcast;;
  mret (sets, actors).

Definition main (n : nat) : prog (list (option Z) * list (option Z)) :=
  sfd ← sysv (Socket AF_UNIX SOCK_STREAM 0);
  error_func sfd "socket error";;
  do_ (Unlink "echo_socket");;
  b ← sysv (Bind sfd (SaUn "echo_socket"));
  error_func b "bind error";;
  l ← sysv (Listen sfd 5);
  error_func l "listen error";;
  forever n (round sfd) (replicate max_count None, replicate max_count None).

End Producer.

(** ** Sessions of the parts *)

Definition texts (fd : Z) (l : list Z) : list label := (λ x, Sent fd 30 (dec x)) <$> l.
Definition messages (fd : Z) (l : list Z) : list label := (λ x, Got fd 30 (dec x)) <$> l.
Definition typed (l : list Z) : list label := (λ x, Told ScanInt (ints_ [x])) <$> l.
Definition ints_ok (l : list Z) : Prop := Forall (λ x, fits_int x = true) l.

Lemma send_ints_session fd l a b :
  filled l a → length b = 30%nat →
  plays net (returns (λ b', length b' = 30%nat)) (send_ints fd a (Z.of_nat (length l)) b) (texts fd l).
Proof.
  intros Hl Hb. unfold send_ints, texts. rewrite <- concat_single.
  apply (plays_for_list net (λ _ b, length b = 30%nat) _ 0); [|done].
  intros done_ x rest b1 -> Hb1. rewrite Z.add_0_l.
  eapply plays_need; [eapply filled_get; [exact Hl|]; by rewrite lookup_app_r, Nat.sub_diag|].
  do 3 step. lia.
Qed.

Lemma scan_ints_session l a :
  (length l ≤ length a)%nat →
  plays net (returns (filled l)) (Script.scan_ints a (Z.of_nat (length l))) (typed l).
Proof.
  intros Ha. unfold Script.scan_ints, typed. rewrite <- concat_single.
  eapply plays_weaken; [apply (plays_for_list net (λ d a', filled d a' ∧ length a' = length a) _ 0)|by intros a' [? _]]; [|done].
  intros done_ x rest a1 -> [Hf Hl]. rewrite length_app in Ha. cbn in Ha.
  destruct (filled_snoc done_ a1 x) as (a2 & E & Hf2 & Hl2); [done|lia|].
  rewrite Z.add_0_l. step. cbv iota. rewrite E. apply plays_return. split; [done|lia].
Qed.

Lemma vla_Some {X} (l : list X) : l ≠ [] → vla (Z.of_nat (length l)) = Some (replicate (length l) None).
Proof. intros Hl. unfold vla. destruct l; [done|]. cbn [length]. rewrite (proj2 (Z.ltb_lt _ _)) by lia. by rewrite Nat2Z.id. Qed.

(** What the user types: the numbers of actors and sets, then as many
    numbers as there are sets (the prompt says actors), then as many as there
    are actors. *)
Definition script_session (nfd : Z) (xs ys : list Z) : list label :=
  typed [Z.of_nat (length ys); Z.of_nat (length xs)] ++ typed xs ++ typed ys ++
  [Did (Socket AF_INET SOCK_STREAM 0) nfd; Did (Connect nfd (SaIn (htons 4002) INADDR_ANY)) 0;
   Sent nfd 30 (dec (Z.of_nat (length xs))); Sent nfd 30 (dec (Z.of_nat (length ys)))] ++
  texts nfd xs ++ texts nfd ys.

Lemma script_plays nfd xs ys :
  0 ≤ nfd → xs ≠ [] → ys ≠ [] → plays net (returns (λ _, True)) Script.round (script_session nfd xs ys).
Proof.
  intros Hfd Hx Hy. unfold Script.round, script_session. cbn [typed fmap list_fmap app].
  do 5 step. rewrite (vla_Some ys), (vla_Some xs) by done. do 3 step.
  eapply plays_bind; [apply scan_ints_session; by rewrite length_replicate|]. intros sl Hsl. cbv beta. step.
  eapply plays_bind; [apply scan_ints_session; by rewrite length_replicate|]. intros al Hal. cbn [app].
  do 8 step.
  eapply plays_bind; [apply send_ints_session; [done|lia]|]. intros b3 L3. cbv beta.
  eapply plays_last; [by apply send_ints_session|]. intros b4 _. by step.
Qed.

Lemma recv_ints_session nfd l text a b :
  ints_ok l → (length l ≤ length a)%nat → length b = 30%nat →
  plays net (returns (λ '(a', b'), filled l a' ∧ length a' = length a ∧ length b' = 30%nat))
    (Director.recv_ints nfd (Z.of_nat (length l)) text a b) (messages nfd l).
Proof.
  intros Hok Ha Hb. unfold Director.recv_ints, messages. rewrite <- concat_single.
  apply (plays_for_list net (λ d '(a', b'), filled d a' ∧ length a' = length a ∧ length b' = 30%nat) _ 0); [|done].
  intros done_ x rest [a1 b1] -> (Hf & Hl & Hlb). rewrite length_app in Ha. cbn in Ha.
  apply Forall_app in Hok as [_ [Hx _]%Forall_cons].
  destruct (filled_snoc done_ a1 x) as (a2 & E & Hf2 & Hl2); [done|lia|].
  rewrite Z.add_0_l. cbv beta iota. do 6 step. split_and!; [done|lia|lia].
Qed.

(** *** Asking for sets and actors *)

(** An item of a request, the port it was found at, the descriptor of the
    connection made there and the answer. *)
Record offer := Offer { item : Z; oport : Z; ofd : Z; perm : Z }.

Definition offer_ok (o : offer) : Prop :=
  fits_int (oport o) = true ∧ fits_int (perm o) = true ∧ 0 ≤ ofd o.

Definition granted (os : list offer) : list Z := ofd <$> filter (λ o, perm o = 1) os.

Definition ask_session (fd : Z) (o : offer) : list label :=
  [Sent fd 30 (dec (item o)); Got fd 30 (dec (oport o)); Did (Socket AF_INET SOCK_STREAM 0) (ofd o);
   Did (Connect (ofd o) (SaIn (htons (oport o)) INADDR_ANY)) 0; Got (ofd o) 30 (dec (perm o))].

Definition negotiation (fd port : Z) (os : list offer) : list label :=
  [Did (Socket AF_INET SOCK_STREAM 0) fd; Did (Connect fd (SaIn (htons port) INADDR_ANY)) 0;
   Sent fd 30 (dec (Z.of_nat (length os)))] ++ concat (ask_session fd <$> os).

(** The array [accp] with its counter [k] holds the descriptors [G]. *)
Definition holds (G : list Z) (accp : list (option Z)) (k : Z) : Prop :=
  filled G accp ∧ length accp = Director.max_count ∧ k = Z.of_nat (length G).

Lemma granted_snoc os o : granted (os ++ [o]) = granted os ++ if decide (perm o = 1) then [ofd o] else [].
Proof.
  unfold granted. rewrite filter_app, fmap_app. f_equal. rewrite filter_cons, filter_nil. by destruct (decide _).
Qed.

Lemma ask_plays fd actor a G accp k o b i :
  iget a i = Some (item o) → offer_ok o → holds G accp k → length b = 30%nat →
  (perm o = 1 → (length G < Director.max_count)%nat) →
  plays net (returns (λ '(b', accp', k'), holds (G ++ if decide (perm o = 1) then [ofd o] else []) accp' k' ∧ length b' = 30%nat))
    (Director.ask fd actor a i (b, accp, k)) (ask_session fd o).
Proof.
  intros Hi (Hp & Hq & Hfd) (Hf & Hl & ->) Hb Hroom. unfold Director.ask, ask_session. do 4 step.
  do 10 step.
  destruct (decide (perm o = 1)) as [Hyes|Hno].
  - rewrite (proj2 (Z.eqb_eq _ _)) by done.
    destruct (filled_snoc G accp (ofd o)) as (accp' & E & Hf' & Hl'); [done|rewrite Hl; auto|].
    step. apply (plays_skip net (λ _, True)); [by destruct actor; repeat step|]. intros _ _.
    step. split; [|lia]. split; [done|]. split; [lia|]. rewrite length_app. cbn. lia.
  - rewrite (proj2 (Z.eqb_neq _ _)) by done. do 2 step. rewrite app_nil_r. split; [done|lia].
Qed.

Lemma granted_app os1 os2 : granted (os1 ++ os2) = granted os1 ++ granted os2.
Proof. unfold granted. by rewrite filter_app, fmap_app. Qed.

Lemma negotiate_plays fd port actor a G accp k os :
  0 ≤ fd → filled (item <$> os) a → Forall offer_ok os → holds G accp k →
  (length (G ++ granted os) ≤ Director.max_count)%nat →
  plays net (returns (λ '(accp', k'), holds (G ++ granted os) accp' k'))
    (Director.negotiate port actor (Z.of_nat (length os)) a accp k) (negotiation fd port os).
Proof.
  intros Hfd Ha Hok HG Hroom. unfold Director.negotiate, negotiation. cbn [app]. do 8 step.
  eapply plays_last; [apply (plays_for_list net (λ d '(b, accp', k'), holds (G ++ granted d) accp' k' ∧ length b = 30%nat) _ 0)|].
  - intros done_ o rest [[b1 accp1] k1] -> [HG1 Hb1]. rewrite Z.add_0_l, granted_snoc, app_assoc.
    rewrite Forall_app, Forall_cons in Hok. destruct Hok as (_ & Ho & _).
    apply ask_plays; [|done|done|done|].
    + eapply filled_get; [exact Ha|]. by rewrite fmap_app, lookup_app_r, length_fmap, Nat.sub_diag by (by rewrite length_fmap).
    + intros Hp. rewrite granted_app, app_assoc, length_app in Hroom. unfold granted at 2 in Hroom.
      rewrite filter_cons_True in Hroom by done. cbn in Hroom. lia.
  - cbn. rewrite app_nil_r. split; [done|lia].
  - intros [[b1 accp1] k1] [HG1 _]. by step.
Qed.

(** The negotiation up to the offers [os1], of those that begin with [os1]. *)
Definition negotiation_until (fd port : Z) (os os1 : list offer) : list label :=
  [Did (Socket AF_INET SOCK_STREAM 0) fd; Did (Connect fd (SaIn (htons port) INADDR_ANY)) 0;
   Sent fd 30 (dec (Z.of_nat (length os)))] ++ concat (ask_session fd <$> os1).

(** A connection that is granted when the array is full is stored behind it. *)
Lemma ask_overflows fd actor a G accp o b i :
  iget a i = Some (item o) → offer_ok o → holds G accp (Z.of_nat (length G)) → length b = 30%nat →
  perm o = 1 → length G = Director.max_count →
  plays net (eq UB) (Director.ask fd actor a i (b, accp, Z.of_nat (length G))) (ask_session fd o).
Proof.
  intros Hi (Hp & Hq & Hfd) (Hf & Hl & _) Hb Hyes HG. unfold Director.ask, ask_session. do 4 step. do 10 step.
  rewrite Hyes, Z.eqb_refl. apply plays_undef. unfold iset. apply aset_None. right. by rewrite HG, Hl.
Qed.

Lemma negotiate_overflows fd port actor a G accp k os1 o os2 :
  let os := os1 ++ o :: os2 in
  0 ≤ fd → filled (item <$> os) a → Forall offer_ok os → holds G accp k → perm o = 1 →
  length (G ++ granted os1) = Director.max_count →
  plays net (eq UB) (Director.negotiate port actor (Z.of_nat (length os)) a accp k) (negotiation_until fd port os (os1 ++ [o])).
Proof.
  intros os Hfd Ha Hok HG Hp Hroom. unfold Director.negotiate, negotiation_until. cbn [app]. do 8 step. apply plays_bind_UB.
  unfold for_up. rewrite Z.sub_0_r, Nat2Z.id. unfold os at 1. rewrite length_app, fmap_app, concat_app. cbn [fmap list_fmap concat].
  pose proof Hok as Hok'. unfold os in Hok'. apply Forall_app in Hok' as [Hok1 [Ho _]%Forall_cons].
  assert (∀ d x rest, os = d ++ x :: rest → iget a (Z.of_nat (length d)) = Some (item x)) as Hget.
  { intros d x rest E. eapply filled_get; [exact Ha|]. rewrite E. by rewrite fmap_app, lookup_app_r, length_fmap, Nat.sub_diag by (by rewrite length_fmap). }
  apply (plays_for_then net (λ d '(b, accp', k'), holds (G ++ granted d) accp' k' ∧ length b = 30%nat)).
  - intros done_ x rest [[b1 accp1] k1] E [HG1 Hb1]. rewrite Z.add_0_l, granted_snoc, app_assoc.
    rewrite E, Forall_app, Forall_cons in Hok1. destruct Hok1 as (_ & Hx & _).
    apply ask_plays; [|done|done|done|].
    + apply (Hget _ _ (rest ++ o :: os2)). unfold os. by rewrite E, <- app_assoc.
    + intros Hpx. rewrite E, granted_app, app_assoc, length_app in Hroom. unfold granted at 2 in Hroom.
      rewrite filter_cons_True in Hroom by done. cbn in Hroom. lia.
  - cbn. rewrite app_nil_r. split; [done|lia].
  - intros [[b1 accp1] k1] [HG1 Hb1]. cbn [length for_n]. apply plays_bind_UB. rewrite Z.add_0_l, app_nil_r.
    pose proof HG1 as (_ & _ & ->). apply ask_overflows; [by eapply Hget|done|done|done|done|done].
Qed.

Lemma pass_all_plays usfd G accp k :
  holds G accp k → plays net (returns (λ _, True)) (Director.pass_all usfd accp k) (passes usfd <$> G).
Proof.
  intros (Hf & _ & ->). unfold Director.pass_all. rewrite <- concat_single.
  apply (plays_for_list net (λ _ _, True) _ 0); [|done]. intros done_ x rest [] -> _. rewrite Z.add_0_l.
  eapply plays_need; [eapply filled_get; [exact Hf|]; by rewrite lookup_app_r, Nat.sub_diag|]. by do 2 step.
Qed.

(** What the producer is told: the numbers of sets and actors and their
    connections. *)
Definition handing_over (usfd : Z) (hello : string) (Gs Ga : list Z) : list label :=
  [Did (Socket AF_UNIX SOCK_STREAM 0) usfd; Did (Connect usfd (SaUn "echo_socket")) 0;
   Sent usfd 30 "From client to server"; Got usfd 30 hello;
   Sent usfd 30 (dec (Z.of_nat (length Gs))); Sent usfd 30 (dec (Z.of_nat (length Ga)))] ++
  (passes usfd <$> Gs) ++ (passes usfd <$> Ga).

Lemma hand_over_plays usfd hello Gs Ga sa aa s_a a_a :
  0 ≤ usfd → holds Gs sa s_a → holds Ga aa a_a →
  plays net (returns (λ _, True)) (Director.hand_over sa aa s_a a_a) (handing_over usfd hello Gs Ga).
Proof.
  intros Hfd Hs Ha. pose proof Hs as (_ & _ & ->). pose proof Ha as (_ & _ & ->).
  unfold Director.hand_over, handing_over. cbn [app]. do 12 step.
  eapply plays_bind; [by apply pass_all_plays|]. intros _ _. by apply pass_all_plays.
Qed.

(** *** One request *)

(** A request as the director handles it: the descriptor it arrived on, the
    offers for what it takes to be sets and actors, and the descriptors of the
    connections it makes. *)
Record request := Request {
  q_fd : Z; q_actors : list offer; q_sets : list offer; q_stud : Z; q_act : Z; q_us : Z; q_hello : string
}.

Definition request_ok (q : request) : Prop :=
  0 ≤ q_fd q ∧ 0 ≤ q_stud q ∧ 0 ≤ q_act q ∧ 0 ≤ q_us q ∧
  Forall offer_ok (q_actors q) ∧ Forall offer_ok (q_sets q) ∧
  ints_ok (item <$> q_actors q) ∧ ints_ok (item <$> q_sets q) ∧
  (length (q_actors q) ≤ Director.max_count)%nat ∧ (length (q_sets q) ≤ Director.max_count)%nat.

(** What the director reads from the script. *)
Definition incoming (q : request) : list label :=
  messages (q_fd q) [Z.of_nat (length (q_actors q)); Z.of_nat (length (q_sets q))] ++
  messages (q_fd q) (item <$> q_actors q) ++ messages (q_fd q) (item <$> q_sets q).

(** [Gs] and [Ga]: the connections granted by the earlier requests. *)
Definition director_session (sfd : Z) (Gs Ga : list Z) (q : request) : list label :=
  [Did (Accept sfd) (q_fd q)] ++ incoming q ++
  negotiation (q_stud q) 5000 (q_sets q) ++ negotiation (q_act q) 6000 (q_actors q) ++
  handing_over (q_us q) (q_hello q) (Gs ++ granted (q_sets q)) (Ga ++ granted (q_actors q)).

Definition state_ok (Gs Ga : list Z) (st : Director.state) : Prop :=
  length (Director.actors st) = Director.max_count ∧ length (Director.sets st) = Director.max_count ∧
  holds Gs (Director.sets_accp st) (Director.s_a st) ∧ holds Ga (Director.actors_accp st) (Director.a_a st).

Lemma print_ints_quiet l a :
  filled l a → plays net (returns (λ _, True)) (Director.print_ints a (Z.of_nat (length l))) [].
Proof.
  intros Hl. unfold Director.print_ints. rewrite <- (concat_quiet l).
  apply (plays_for_list net (λ _ _, True) (λ _, []) 0); [|done]. intros done_ x rest [] -> _. rewrite Z.add_0_l.
  eapply plays_need; [eapply filled_get; [exact Hl|]; by rewrite lookup_app_r, Nat.sub_diag|]. by step.
Qed.

Lemma fits_small n : (n ≤ Director.max_count)%nat → fits_int (Z.of_nat n) = true.
Proof. unfold Director.max_count, fits_int, INT_MIN, INT_MAX. intros. apply andb_true_iff. split; apply Z.leb_le; lia. Qed.

Lemma receive_plays sfd Gs Ga q st :
  state_ok Gs Ga st → request_ok q →
  plays net (returns (λ '(na, a, (ns, s)), na = Z.of_nat (length (q_actors q)) ∧ ns = Z.of_nat (length (q_sets q)) ∧
      filled (item <$> q_actors q) a ∧ filled (item <$> q_sets q) s ∧
      length a = Director.max_count ∧ length s = Director.max_count))
    (Director.receive sfd st) (Did (Accept sfd) (q_fd q) :: incoming q).
Proof.
  intros (La & Ls & _) (H1 & H2 & H3 & H4 & Oa & Os & Ia & Is & Na & Ns).
  unfold Director.receive, incoming. cbn [app messages fmap list_fmap].
  do 4 step. step; [by apply fits_small|]. do 2 step. step; [by apply fits_small|]. do 2 step.
  rewrite <- (length_fmap item (q_actors q)), <- (length_fmap item (q_sets q)).
  eapply plays_bind; [apply recv_ints_session; [done|rewrite length_fmap, La; done|lia]|]. intros [a b1] (Fa & La' & Lb1). cbv beta iota.
  eapply plays_last; [apply recv_ints_session; [done|rewrite length_fmap, Ls; done|lia]|]. intros [s b2] (Fs & Ls' & Lb2). cbv beta iota.
  eapply plays_skip; [by apply print_ints_quiet|]. intros _ _. eapply plays_skip; [by apply print_ints_quiet|]. intros _ _.
  step. split_and!; [done|done|done|done|congruence|congruence].
Qed.

Lemma director_round sfd Gs Ga q st :
  state_ok Gs Ga st → request_ok q →
  (length (Gs ++ granted (q_sets q)) ≤ Director.max_count)%nat →
  (length (Ga ++ granted (q_actors q)) ≤ Director.max_count)%nat →
  plays net (returns (state_ok (Gs ++ granted (q_sets q)) (Ga ++ granted (q_actors q))))
    (Director.round sfd st) (director_session sfd Gs Ga q).
Proof.
  intros Hst Hq Rs Ra. unfold Director.round, director_session.
  eapply (plays_bind _ _ _ _ (Did (Accept sfd) (q_fd q) :: incoming q)); [by eapply receive_plays|].
  intros [[na a] [ns s]] (-> & -> & Fa & Fs & La & Ls). cbv beta iota.
  destruct Hst as (_ & _ & Hs & Ha). destruct Hq as (H1 & H2 & H3 & H4 & Oa & Os & _).
  eapply plays_bind; [by apply negotiate_plays|]. intros [sa ks] Hsa. cbv beta iota.
  eapply plays_bind; [by apply negotiate_plays|]. intros [aa ka] Haa. cbv beta iota.
  eapply plays_last; [by apply hand_over_plays|]. intros _ _. step.
  split; [done|]. split; [done|]. by split.
Qed.

(** ** Properties *)

Fixpoint director_sessions (sfd : Z) (Gs Ga : list Z) (qs : list request) : list label :=
  match qs with
  | [] => []
  | q :: qs' =>
      director_session sfd Gs Ga q ++
      director_sessions sfd (Gs ++ granted (q_sets q)) (Ga ++ granted (q_actors q)) qs'
  end.

Definition director_setup (sfd : Z) : list label :=
  [Did (Socket AF_INET SOCK_STREAM 0) sfd; Did (Setsockopt sfd "SO_REUSEADDR") 0;
   Did (Bind sfd (SaIn (htons 4002) INADDR_ANY)) 0; Did (Listen sfd 5) 0].

Definition all_granted (f : request → list offer) (qs : list request) : list Z := concat ((λ q, granted (f q)) <$> qs).

Lemma director_rounds sfd qs m Q ls : ∀ Gs Ga st,
  state_ok Gs Ga st → Forall request_ok qs →
  (length (Gs ++ all_granted q_sets qs) ≤ Director.max_count)%nat →
  (length (Ga ++ all_granted q_actors qs) ≤ Director.max_count)%nat →
  (∀ st, state_ok (Gs ++ all_granted q_sets qs) (Ga ++ all_granted q_actors qs) st →
     plays net Q (forever m (Director.round sfd) st) ls) →
  plays net Q (forever (length qs + m) (Director.round sfd) st) (director_sessions sfd Gs Ga qs ++ ls).
Proof.
  induction qs as [|q qs IH]; intros Gs Ga st Hst Hok Rs Ra Hm; cbn [length Nat.add forever director_sessions app].
  - apply Hm. unfold all_granted. cbn. by rewrite !app_nil_r.
  - apply Forall_cons in Hok as [Hq Hok]. unfold all_granted in *. cbn [fmap list_fmap concat] in *. rewrite !app_assoc in *.
    pose proof Rs as Rs'. pose proof Ra as Ra'. rewrite !length_app in Rs, Ra. rewrite <- app_assoc.
    eapply plays_bind; [apply director_round; [done|done|rewrite length_app; lia|rewrite length_app; lia]|].
    intros st' Hst'. by apply IH.
Qed.

(** The session of a request with a grant for which there is no room: the
    grant of a set, or of an actor, after [os1]. *)
Definition sets_stopped (sfd : Z) (q : request) (os1 : list offer) (o : offer) : list label :=
  [Did (Accept sfd) (q_fd q)] ++ incoming q ++ negotiation_until (q_stud q) 5000 (q_sets q) (os1 ++ [o]).
Definition actors_stopped (sfd : Z) (q : request) (os1 : list offer) (o : offer) : list label :=
  [Did (Accept sfd) (q_fd q)] ++ incoming q ++ negotiation (q_stud q) 5000 (q_sets q) ++
  negotiation_until (q_act q) 6000 (q_actors q) (os1 ++ [o]).

Definition room (G : list Z) : Prop := (length G ≤ Director.max_count)%nat.

(** The grant [o] is the first of [os] for which there is no room behind [G]. *)
Definition sixth (G : list Z) (os os1 : list offer) (o : offer) : Prop :=
  (∃ os2, os = os1 ++ o :: os2) ∧ perm o = 1 ∧ length (G ++ granted os1) = Director.max_count.

Lemma sixth_exists G os : room G → ¬ room (G ++ granted os) → ∃ os1 o, sixth G os os1 o.
Proof.
  unfold room. intros HG. induction os as [|o os IH] using rev_ind; intros Hn; [cbn in Hn; rewrite app_nil_r in Hn; lia|].
  destruct (decide (length (G ++ granted os) ≤ Director.max_count)%nat) as [Hle|Hgt].
  - exists os, o. split; [by exists []|]. rewrite granted_snoc, app_assoc in Hn.
    destruct (decide (perm o = 1)) as [Hp|]; [|by rewrite app_nil_r in Hn]. split; [done|].
    rewrite (length_app (G ++ granted os)) in Hn. cbn in Hn. lia.
  - destruct (IH Hgt) as (os1 & o1 & (os2 & ->) & H). exists os1, o1. split; [|done]. exists (os2 ++ [o]). by rewrite <- app_assoc.
Qed.

Lemma director_stops_sets sfd Gs Ga q st os1 o :
  state_ok Gs Ga st → request_ok q → sixth Gs (q_sets q) os1 o →
  plays net (eq UB) (Director.round sfd st) (sets_stopped sfd q os1 o).
Proof.
  intros Hst Hq ((os2 & Eq) & Hp & Hr). unfold Director.round, sets_stopped. rewrite app_assoc.
  eapply (plays_bind _ _ _ _ (Did (Accept sfd) (q_fd q) :: incoming q)); [by eapply receive_plays|].
  intros [[na a] [ns s]] (-> & -> & Fa & Fs & La & Ls). cbv beta iota.
  destruct Hst as (_ & _ & Hs & Ha). destruct Hq as (H1 & H2 & H3 & H4 & Oa & Os & _).
  apply plays_bind_UB. rewrite Eq in *. by apply negotiate_overflows with (G := Gs).
Qed.

Lemma director_stops_actors sfd Gs Ga q st os1 o :
  state_ok Gs Ga st → request_ok q → room (Gs ++ granted (q_sets q)) → sixth Ga (q_actors q) os1 o →
  plays net (eq UB) (Director.round sfd st) (actors_stopped sfd q os1 o).
Proof.
  intros Hst Hq Hroom ((os2 & Eq) & Hp & Hr). unfold Director.round, actors_stopped. rewrite (app_assoc [_]).
  eapply (plays_bind _ _ _ _ (Did (Accept sfd) (q_fd q) :: incoming q)); [by eapply receive_plays|].
  intros [[na a] [ns s]] (-> & -> & Fa & Fs & La & Ls). cbv beta iota.
  destruct Hst as (_ & _ & Hs & Ha). destruct Hq as (H1 & H2 & H3 & H4 & Oa & Os & _).
  eapply plays_bind; [by apply negotiate_plays|]. intros [sa ks] Hsa. cbv beta iota.
  apply plays_bind_UB. rewrite Eq in *. by apply negotiate_overflows with (G := Ga).
Qed.

Definition within (qs : list request) : Prop := room (all_granted q_sets qs) ∧ room (all_granted q_actors qs).

(** The requests [qs], then one that stops the director, by the labels [ls]. *)
Inductive stops (sfd : Z) (qs : list request) (q : request) : list label → Prop :=
| stops_sets os1 o : sixth (all_granted q_sets qs) (q_sets q) os1 o → stops sfd qs q (sets_stopped sfd q os1 o)
| stops_actors os1 o :
    room (all_granted q_sets qs ++ granted (q_sets q)) → sixth (all_granted q_actors qs) (q_actors q) os1 o →
    stops sfd qs q (actors_stopped sfd q os1 o).

Lemma all_granted_snoc f qs q : all_granted f (qs ++ [q]) = all_granted f qs ++ granted (f q).
Proof. unfold all_granted. by rewrite fmap_app, concat_app; cbn; rewrite app_nil_r. Qed.

(** Every sequence of requests is served or stops the director. *)
Lemma within_or_stops sfd qs :
  within qs ∨ ∃ qs1 q qs2 ls, qs = qs1 ++ q :: qs2 ∧ within qs1 ∧ stops sfd qs1 q ls.
Proof.
  induction qs as [|q qs IH] using rev_ind; [left; split; unfold room, all_granted; cbn; lia|].
  destruct IH as [[Hs Ha]|(qs1 & q1 & qs2 & ls & -> & H)].
  - destruct (decide (length (all_granted q_sets qs ++ granted (q_sets q)) ≤ Director.max_count)%nat) as [Hs'|Hs'].
    + destruct (decide (length (all_granted q_actors qs ++ granted (q_actors q)) ≤ Director.max_count)%nat) as [Ha'|Ha'].
      * left. split; by rewrite all_granted_snoc.
      * right. destruct (sixth_exists _ _ Ha Ha') as (os1 & o & H). exists qs, q, [], (actors_stopped sfd q os1 o). split; [done|].
        split; [done|by apply stops_actors].
    + right. destruct (sixth_exists _ _ Hs Hs') as (os1 & o & H). exists qs, q, [], (sets_stopped sfd q os1 o). split; [done|].
      split; [done|by apply stops_sets].
  - right. exists qs1, q1, (qs2 ++ [q]), ls. by rewrite <- app_assoc.
Qed.

Lemma director_starts sfd qs m Q ls :
  0 ≤ sfd → Forall request_ok qs → within qs →
  (∀ st, state_ok (all_granted q_sets qs) (all_granted q_actors qs) st → plays net Q (forever m (Director.round sfd) st) ls) →
  plays net Q (Director.main (length qs + m)) (director_setup sfd ++ director_sessions sfd [] [] qs ++ ls).
Proof.
  intros Hfd Hok [Rs Ra] H. unfold Director.main, director_setup. cbn [app]. do 8 step.
  by apply (director_rounds sfd qs m Q ls [] []).
Qed.

(** C14: [director.c] looks up every set of a request at port 5000 and every
    actor at port 6000, connects to the port it is told, keeps the connection
    exactly when the answer is 1, and hands the producer the connections
    granted by this *and all earlier* requests, the counters never being reset.
    So it serves a sequence of requests, of at most five sets and actors each, by
    the session that they prescribe as long as at most five sets and five actors
    have been granted over all of them; the first grant beyond, in whichever request, is stored
    behind the array, which is undefined, at the moment the permission arrives;
    and every sequence is of one of these two kinds. *)
Theorem director_serves sfd qs :
  0 ≤ sfd → Forall request_ok qs →
  (within qs →
   plays net (returns (state_ok (all_granted q_sets qs) (all_granted q_actors qs)))
     (Director.main (length qs)) (director_setup sfd ++ director_sessions sfd [] [] qs)) ∧
  (∀ q n ls, within qs → request_ok q → stops sfd qs q ls →
   plays net (eq UB) (Director.main (length qs + S n)) (director_setup sfd ++ director_sessions sfd [] [] qs ++ ls)) ∧
  (within qs ∨ ∃ qs1 q qs2 ls, qs = qs1 ++ q :: qs2 ∧ within qs1 ∧ stops sfd qs1 q ls).
Proof.
  intros Hfd Hok. split_and!.
  - intros Hw. rewrite <- (app_nil_r (director_sessions _ _ _ _)), <- (Nat.add_0_r (length qs)).
    apply director_starts; [done..|]. intros st Hst. by apply plays_return.
  - intros q n ls Hw Hq Hs. apply director_starts; [done..|]. intros st Hst. cbn [forever]. apply plays_bind_UB.
    destruct Hs as [os1 o H|os1 o Hr H]; [by eapply director_stops_sets|by eapply director_stops_actors].
  - apply within_or_stops.
Qed.

(** The texts of a session, whatever the descriptors. *)
Definition sent_texts (ls : list label) : list string := omap (λ l, match l with Sent _ _ s => Some s | _ => None end) ls.
Definition got_texts (ls : list label) : list string := omap (λ l, match l with Got _ _ s => Some s | _ => None end) ls.

Lemma sent_texts_app a b : sent_texts (a ++ b) = sent_texts a ++ sent_texts b.
Proof. apply omap_app. Qed.
Lemma got_texts_app a b : got_texts (a ++ b) = got_texts a ++ got_texts b.
Proof. apply omap_app. Qed.
Lemma sent_texts_typed l : sent_texts (typed l) = [].
Proof. by induction l. Qed.
Lemma sent_texts_texts fd l : sent_texts (texts fd l) = dec <$> l.
Proof. induction l as [|x l IH]; [done|]. cbn. by f_equal. Qed.
Lemma got_texts_messages fd l : got_texts (messages fd l) = dec <$> l.
Proof. induction l as [|x l IH]; [done|]. cbn. by f_equal. Qed.

Lemma dec_inj x y : fits_int x = true → fits_int y = true → dec x = dec y → x = y.
Proof. intros Hx Hy E. apply (f_equal atoi) in E. rewrite !atoi_dec in E by done. by injection E. Qed.

Lemma decs_inj l1 l2 : ints_ok l1 → ints_ok l2 → dec <$> l1 = dec <$> l2 → l1 = l2.
Proof.
  revert l2. induction l1 as [|x l1 IH]; intros [|y l2] H1 H2 E; try done. cbn in E. injection E as E1 E2.
  apply Forall_cons in H1 as [??]. apply Forall_cons in H2 as [??]. f_equal; [by apply dec_inj|by apply IH].
Qed.

(** The script and the director disagree on the order of a request: when
    the director reads what the script sent, the numbers typed for the sets
    become the actors it looks up at port 6000, and those typed for the
    actors become the sets it looks up at port 5000. *)
Theorem script_director_swap nfd xs ys q :
  0 ≤ nfd → xs ≠ [] → ys ≠ [] → (length xs ≤ Director.max_count)%nat → (length ys ≤ Director.max_count)%nat →
  ints_ok xs → ints_ok ys → request_ok q →
  got_texts (incoming q) = sent_texts (script_session nfd xs ys) →
  plays net (returns (λ _, True)) Script.round (script_session nfd xs ys) ∧
  item <$> q_actors q = xs ∧ item <$> q_sets q = ys ∧
  sent_texts (negotiation (q_act q) 6000 (q_actors q)) = dec (Z.of_nat (length xs)) :: (dec <$> xs) ∧
  sent_texts (negotiation (q_stud q) 5000 (q_sets q)) = dec (Z.of_nat (length ys)) :: (dec <$> ys).
Proof.
  intros Hfd Hx Hy Lx Ly Ox Oy Hq E.
  assert (∀ fd port os, sent_texts (negotiation fd port os) = dec (Z.of_nat (length os)) :: (dec <$> (item <$> os))) as Hneg.
  { intros fd port os. unfold negotiation. rewrite sent_texts_app. cbn [sent_texts omap list_omap app]. f_equal.
    induction os as [|o os IH]; [done|]. cbn [fmap list_fmap concat]. rewrite sent_texts_app, IH. done. }
  rewrite !Hneg. unfold incoming, script_session in E.
  rewrite !got_texts_app, !got_texts_messages, !sent_texts_app, !sent_texts_typed, !sent_texts_texts in E.
  cbn [sent_texts omap list_omap app fmap list_fmap] in E. injection E as E1 E2 E3.
  destruct Hq as (_ & _ & _ & _ & _ & _ & Ia & Is & Na & Ns).
  apply dec_inj, Nat2Z.inj in E1; [|by apply fits_small|by apply fits_small].
  apply app_inj_1 in E3 as [E3 E4]; [|by rewrite !length_fmap].
  apply decs_inj in E3; [|done|done]. apply decs_inj in E4; [|done|done].
  split; [by apply script_plays|]. split; [done|]. split; [done|].
  by rewrite <- E3, <- E4, !length_fmap.
Qed.

(** *** The lookup services *)

Definition lookup_session (sfd nfd base : Z) (idx : list Z) : list label :=
  [Did (Accept sfd) nfd; Got nfd 30 (dec (Z.of_nat (length idx)))] ++
  concat ((λ i, [Got nfd 30 (dec i); Sent nfd 30 (dec (base + (i - 1)))]) <$> idx).

Lemma services_get base i : 1 ≤ i ≤ 4 → aget (Lookup.services base) (i - 1) = Some (base + (i - 1)).
Proof.
  intros Hi. assert (i = 1 ∨ i = 2 ∨ i = 3 ∨ i = 4) as [-> | [-> | [-> | ->]]] by lia; cbn; try done. by rewrite Z.add_0_r.
Qed.

(** [studio.c] and [actor.c] answer the index [i], for [i] from 1 to 4, with
    the port [base + i - 1], any number of times per client; any other index
    reads outside of [services]. *)
Theorem lookup_answers text base sfd nfd idx bad n :
  0 ≤ nfd → Forall (λ i, 1 ≤ i ≤ 4) idx → fits_int (Z.of_nat (length idx)) = true →
  ¬ (1 ≤ bad ≤ 4) → fits_int bad = true → 1 ≤ n → fits_int n = true →
  plays net (returns (λ _, True)) (Lookup.round text base sfd) (lookup_session sfd nfd base idx) ∧
  plays net (eq UB) (Lookup.round text base sfd) [Did (Accept sfd) nfd; Got nfd 30 (dec n); Got nfd 30 (dec bad)].
Proof.
  intros Hfd His Hlen Hbad Hfb Hn Hfn. unfold Lookup.round, lookup_session. cbn [app]. split.
  - do 6 step. eapply plays_last; [|by intros _ _; step].
    apply (plays_for_list net (λ _ b, length b = 30%nat) _ 0); [|lia].
    intros done_ i rest b1 -> Hb1. apply Forall_app in His as [_ [Hi _]%Forall_cons].
    unfold Lookup.answer. do 2 step. step; [unfold fits_int, INT_MIN, INT_MAX; lia|]. step.
    rewrite services_get by done. do 4 step. lia.
  - do 6 step. apply plays_bind_UB. rewrite for_up_first by lia. apply plays_bind_UB.
    unfold Lookup.answer. do 4 step. apply plays_undef. apply aget_None. cbn [length Lookup.services]. lia.
Qed.

(** *** Permissions *)

Definition grants (c : Z) : bool := (c =? 0) || (c =? 2).

Definition permission_session (c : nat) (client : Z * string) : list label :=
  let '(nfd, msg) := client in
  if grants (Z.of_nat c)
  then [Sent nfd 30 (dec 1); Did (PthreadCreate "thread_func" "NULL") 0; Got nfd 30 msg]
  else [Sent nfd 30 (dec 0)].

(** The clients' threads, one after the other. *)
Fixpoint handle_all (clients : list (Z * string)) (available_count : Z) : prog Z :=
  match clients with
  | [] => mret available_count
  | (nfd, _) :: clients' => Permission.thread_funcmain nfd available_count ≫= handle_all clients'
  end.

Lemma thread_funcmain_plays nfd msg c :
  plays net (returns (eq (Z.of_nat (S c)))) (Permission.thread_funcmain nfd (Z.of_nat c)) (permission_session c (nfd, msg)).
Proof.
  unfold Permission.thread_funcmain, permission_session. step. fold (grants (Z.of_nat c)).
  destruct (grants (Z.of_nat c)).
  - cbv zeta. do 7 step. lia.
  - cbv zeta. do 3 step. lia.
Qed.

(** The raw thread ends with the first datagram of two bytes or more, after
    printing the text behind the IP header. *)
Lemma thread_func_plays rsfd b0 data s :
  let d := String b0 data in
  (1 ≤ String.length data ≤ 1023)%nat →
  cstr (drop (Z.to_nat (char_val b0 mod 16 * 4)) (cells d)) = Some s →
  plays net (returns (eq (inr tt))) (Permission.thread_func 1)
    [Did (Socket AF_INET SOCK_RAW 101) rsfd; Did (Setsockopt rsfd "IP_HDRINCL") 0;
     Told (Recvfrom rsfd 1024) (bytes_ d)].
Proof.
  intros d Hl Hs. assert (String.length d = S (String.length data)) as Hld by done.
  unfold Permission.thread_func. do 3 step. cbn [loop].
  apply (plays_last _ (eq (inr tt))); [|by intros x <-; apply plays_return].
  unfold Permission.thread_func_step. step.
  eapply plays_recvfrom_told; [done|apply store_Some; unfold fresh; rewrite length_replicate, cells_length; cbn [rdata bytes_]; lia|].
  cbn [rdata rv bytes_]. change (take 0 (fresh 1024)) with (@nil cell). cbn [app].
  rewrite Hld. change (cells d) with (Some b0 :: cells data) in Hs |- *.
  eapply plays_need; [done|]. cbv zeta.
  set (off := Z.to_nat _) in *. set (rest := drop _ (fresh 1024)).
  assert (cstr (drop off ((Some b0 :: cells data) ++ rest)) = Some s) as Hc.
  { rewrite drop_app_le; [by apply cstr_app|].
    destruct (decide (off ≤ length (Some b0 :: cells data))%nat) as [|Hgt]; [done|].
    rewrite drop_ge in Hs by lia. done. }
  eapply plays_need; [exact Hc|].
  assert (String.length s < 1024)%nat as Hls.
  { apply cstr_length in Hs. rewrite length_drop in Hs. cbn [length] in Hs. rewrite cells_length in Hs. lia. }
  eapply plays_need; [apply strcpy_Some; unfold fresh; by rewrite length_replicate|]. step.
  rewrite (proj2 (Z.ltb_lt 1 _)) by lia. by do 2 step.
Qed.

(** An actor or a set agrees to its first and its third client and refuses
    every other one: the threads of the clients send 1 exactly when
    [available_count] is 0 or 2, and wait for the payment only then.  [main]
    keeps five thread ids: the sixth client is undefined behaviour.  The raw
    thread started for a payment ends with the first datagram of two bytes or
    more whose text lies behind its IP header. *)
Theorem permission_schedule clients text sfd nfd :
  0 ≤ nfd →
  plays net (returns (eq (Z.of_nat (length clients)))) (handle_all clients 0) (concat (imap permission_session clients)) ∧
  (∀ k, 0 ≤ k < 5 → plays net (returns (eq (k + 1))) (Permission.round text sfd k)
     [Did (Accept sfd) nfd; Did (PthreadCreate "thread_funcmain" "&nfd") 0]) ∧
  plays net (eq UB) (Permission.round text sfd 5) [Did (Accept sfd) nfd] ∧
  (∀ rsfd b0 data t, (1 ≤ String.length data ≤ 1023)%nat →
     cstr (drop (Z.to_nat (char_val b0 mod 16 * 4)) (cells (String b0 data))) = Some t →
     plays net (returns (eq (inr tt))) (Permission.thread_func 1)
       [Did (Socket AF_INET SOCK_RAW 101) rsfd; Did (Setsockopt rsfd "IP_HDRINCL") 0;
        Told (Recvfrom rsfd 1024) (bytes_ (String b0 data))]).
Proof.
  intros Hfd. split; [|split; [|split; [|intros; by eapply thread_func_plays]]].
  - assert (∀ cs c, plays net (returns (eq (Z.of_nat (c + length cs)))) (handle_all cs (Z.of_nat c))
      (concat (imap (λ i, permission_session (c + i)) cs))) as H; [|apply (H clients 0%nat)].
    induction cs as [|[fd msg] cs IH]; intros c; cbn [handle_all length].
    + apply plays_return. by rewrite Nat.add_0_r.
    + rewrite imap_cons. cbn [concat]. rewrite Nat.add_0_r.
      eapply plays_bind; [apply thread_funcmain_plays|]. intros c' <-.
      specialize (IH (S c)). rewrite Nat.add_succ_comm in IH.
      rewrite (imap_ext _ (λ i, permission_session (S c + i))); [exact IH|].
      intros i x _. unfold compose. by rewrite Nat.add_succ_r.
  - intros k Hk. unfold Permission.round. do 4 step.
    eapply plays_need; [apply aset_Some; cbn; lia|]. by do 2 step.
  - unfold Permission.round. do 4 step. apply plays_undef. apply aset_None. cbn. lia.
Qed.

(** *** Payments *)

Definition raw_labels (rsfd : Z) (word : string) : list label :=
  [Did (Socket AF_INET SOCK_RAW 101) rsfd; Did (Setsockopt rsfd "IP_HDRINCL") 0; Told ScanString (bytes_ word);
   Did (Sendto rsfd (to_cells (Producer.raw_message word)) 1024 (SaIn 0 INADDR_ANY)) 1024].

Definition producer_session (sfd nfd rsfd : Z) (hello word : string) (Gs Ga : list Z) : list label :=
  [Did (Accept sfd) nfd; Got nfd 30 hello; Sent nfd 30 "hello from server";
   Got nfd 30 (dec (Z.of_nat (length Gs))); Got nfd 30 (dec (Z.of_nat (length Ga)))] ++
  (installs nfd <$> Gs) ++ (installs nfd <$> Ga) ++
  ((λ fd, Sent fd 30 "payment done") <$> Gs) ++ ((λ fd, Sent fd 30 "payment done") <$> Ga) ++ raw_labels rsfd word.

Lemma recv_fds_plays nfd G a :
  (length G ≤ length a)%nat →
  plays net (returns (λ a', filled G a' ∧ length a' = length a))
    (Producer.recv_fds nfd (Z.of_nat (length G)) a) (installs nfd <$> G).
Proof.
  intros Ha. unfold Producer.recv_fds. rewrite <- concat_single.
  apply (plays_for_list net (λ d a', filled d a' ∧ length a' = length a) _ 0); [|done].
  intros done_ x rest a1 -> [Hf Hl]. rewrite length_app in Ha. cbn in Ha.
  destruct (filled_snoc done_ a1 x) as (a2 & E & Hf2 & Hl2); [done|lia|].
  rewrite Z.add_0_l. step. rewrite E. apply plays_return. split; [done|lia].
Qed.

Lemma pay_plays text G a :
  filled G a →
  plays net (returns (λ _, True)) (Producer.pay text a (Z.of_nat (length G))) ((λ fd, Sent fd 30 "payment done") <$> G).
Proof.
  intros Hf. unfold Producer.pay. rewrite <- concat_single.
  apply (plays_for_list net (λ _ _, True) _ 0); [|done]. intros done_ x rest [] -> _. rewrite Z.add_0_l.
  eapply plays_need; [eapply filled_get; [exact Hf|]; by rewrite lookup_app_r, Nat.sub_diag|]. step.
  apply plays_watched; [done|by eexists; split; [right|]|]. intros r _. by apply plays_return.
Qed.

Lemma broadcast_plays rsfd word :
  0 ≤ rsfd → nonul word = true → (String.length word < 128)%nat →
  plays net (returns (λ _, True)) Producer.broadcast (raw_labels rsfd word).
Proof.
  intros Hfd Hn Hl. unfold Producer.broadcast, raw_labels. do 5 step. change (rdata (bytes_ word)) with word.
  eapply plays_need; [apply strcpy_Some; unfold zeroed; by rewrite length_replicate|].
  unfold str. eapply plays_need; [by apply cstr_lit|]. step. change (1024 <? 0) with false. cbv iota. by step.
Qed.

(** The producer pays exactly the connections it is given: for a handover
    of the descriptors [Gs] and [Ga] (at most five of each) it writes
    "payment done" once to every one of them, in order, and then sends one raw
    message with the word that was typed.  The texts it reads are those the
    director sends when it hands over as many connections. *)
Theorem producer_pays sfd nfd rsfd usfd word Gs Ga Ps Pa st :
  0 ≤ nfd → 0 ≤ rsfd → nonul word = true → (String.length word < 128)%nat →
  length st.1 = Producer.max_count → length st.2 = Producer.max_count →
  (length Gs ≤ Producer.max_count)%nat → (length Ga ≤ Producer.max_count)%nat →
  length Gs = length Ps → length Ga = length Pa →
  plays net (returns (λ st', length st'.1 = Producer.max_count ∧ length st'.2 = Producer.max_count))
    (Producer.round sfd st) (producer_session sfd nfd rsfd "From client to server" word Gs Ga) ∧
  got_texts (producer_session sfd nfd rsfd "From client to server" word Gs Ga) =
  sent_texts (handing_over usfd "hello from server" Ps Pa).
Proof.
  intros Hn Hr Hw Hlw L1 L2 LG LA EG EA. destruct st as [s a]. cbn [fst snd] in *. split.
  - unfold Producer.round, producer_session. cbn [app].
    do 8 step. step; [by apply fits_small|]. do 2 step. step; [by apply fits_small|]. do 2 step.
    eapply plays_bind; [by apply recv_fds_plays; rewrite L1|]. intros s' [Fs Ls]. cbv beta.
    eapply plays_bind; [by apply recv_fds_plays; rewrite L2|]. intros a' [Fa La]. cbv beta.
    eapply plays_bind; [by apply pay_plays|]. intros _ _. eapply plays_bind; [by apply pay_plays|]. intros _ _.
    eapply plays_last; [by apply broadcast_plays|]. intros _ _. step. cbn. split; congruence.
  - unfold producer_session, handing_over. rewrite !got_texts_app, !sent_texts_app, EG, EA.
    cbn [got_texts sent_texts omap list_omap app]. do 3 f_equal.
    assert (∀ l, got_texts (installs nfd <$> l) = []) as H1 by (by induction l).
    assert (∀ l, got_texts ((λ fd, Sent fd 30 "payment done") <$> l) = []) as H2 by (by induction l).
    assert (∀ l, sent_texts (passes usfd <$> l) = []) as H3 by (by induction l).
    by rewrite !H1, !H2, !H3.
Qed.

(** *** Examples *)

Definition example_request : request :=
  Request 4 [Offer 1 7000 7 1] [Offer 2 9001 6 1; Offer 3 9002 8 0] 5 9 10 "hello from server".

Lemma example_request_ok : request_ok example_request.
Proof.
  unfold request_ok, ints_ok, Director.max_count. cbn.
  split_and!; try done; try lia; repeat (apply Forall_cons; split; [try done|]); by apply Forall_nil.
Qed.

(** Twice the same request; and six times a request with a set that is granted. *)
Definition one_set (o : offer) : request := Request 4 [] [o] 5 9 10 "hello from server".

Lemma one_set_ok o : offer_ok o → fits_int (item o) = true → request_ok (one_set o).
Proof.
  intros Ho Hi. unfold request_ok, ints_ok, Director.max_count. cbn.
  split_and!; try done; try lia; repeat (apply Forall_cons; split; [done|]); by apply Forall_nil.
Qed.

Lemma director_serves_witness :
  plays net (returns (state_ok [6; 6] [7; 7])) (Director.main 2)
    (director_setup 3 ++ director_sessions 3 [] [] [example_request; example_request]) ∧
  plays net (eq UB) (Director.main 6)
    (director_setup 3 ++ director_sessions 3 [] [] (replicate 5 (one_set (Offer 2 9001 6 1))) ++
     sets_stopped 3 (one_set (Offer 2 9001 6 1)) [] (Offer 2 9001 6 1)).
Proof.
  assert (request_ok (one_set (Offer 2 9001 6 1))) as H1 by (apply one_set_ok; [split_and!; [done..|cbn; lia]|done]).
  split.
  - apply (director_serves 3 [example_request; example_request]); [lia| |split; apply Nat.leb_le; by vm_compute].
    repeat (apply Forall_cons; split; [apply example_request_ok|]). by apply Forall_nil.
  - apply (director_serves 3 (replicate 5 (one_set (Offer 2 9001 6 1))) ltac:(lia) (Forall_replicate _ _ _ H1)) with (n := 0%nat) (q := one_set (Offer 2 9001 6 1));
      [split; apply Nat.leb_le; by vm_compute|done|].
    apply (stops_sets 3 _ (one_set (Offer 2 9001 6 1)) [] (Offer 2 9001 6 1)). split; [by exists []|by vm_compute].
Defined.

Lemma script_director_swap_witness :
  plays net (returns (λ _, True)) Script.round (script_session 3 [1] [2; 3]) ∧
  item <$> q_actors example_request = [1] ∧ item <$> q_sets example_request = [2; 3].
Proof.
  destruct (script_director_swap 3 [1] [2; 3] example_request) as (H1 & H2 & H3 & _);
    [lia|done|done|by apply Nat.leb_le|by apply Nat.leb_le
    |by repeat (apply Forall_cons; split; [done|])|by repeat (apply Forall_cons; split; [done|])|apply example_request_ok|by vm_compute|by split].
Defined.

Lemma lookup_answers_witness :
  plays net (returns (λ _, True)) (Lookup.round "connected to studio" 9000 3) (lookup_session 3 4 9000 [1; 4]) ∧
  plays net (eq UB) (Lookup.round "connected to studio" 9000 3)
    [Did (Accept 3) 4; Got 4 30 (dec 1); Got 4 30 (dec 0)].
Proof.
  apply (lookup_answers "connected to studio" 9000 3 4 [1; 4] 0 1);
    [lia|by repeat (apply Forall_cons; split; [lia|])|done|lia|done|lia|done].
Defined.

Lemma permission_schedule_witness :
  plays net (returns (eq 3)) (handle_all [(4, "paid"); (5, ""); (6, "paid")] 0)
    [Sent 4 30 (dec 1); Did (PthreadCreate "thread_func" "NULL") 0; Got 4 30 "paid";
     Sent 5 30 (dec 0);
     Sent 6 30 (dec 1); Did (PthreadCreate "thread_func" "NULL") 0; Got 6 30 "paid"].
Proof. apply (permission_schedule [(4, "paid"); (5, ""); (6, "paid")] "connected to actor" 3 4). lia. Defined.

Lemma producer_pays_witness :
  plays net (returns (λ st', length st'.1 = Producer.max_count ∧ length st'.2 = Producer.max_count))
    (Producer.round 3 (replicate 5 None, replicate 5 None))
    (producer_session 3 4 9 "From client to server" "hello" [5; 6] [7]).
Proof.
  apply (producer_pays 3 4 9 10 "hello" [5; 6] [7] [11; 12] [13] (replicate 5 None, replicate 5 None));
    cbn; unfold Producer.max_count; try lia; done.
Defined.
