(* ===== verification/Tickets.v ===== *)
(** * The ticket counters of [unixsockets/csemulti]

    [tc.c] takes clients and passes their connections to one of three
    counters: [c.c] with room for one client, [s.c] for two, [e.c] for three.
    A full counter passes the connection on, from [c] to [s] to [e]; when [e]
    is full it stops [tc] with a signal and exits. *)

From S2P Require Import Prelude CString Posix Session FdPass.

#[local] Open Scope Z_scope.

(** A thread started for a connection: its id goes to
    [threads[clients_no++]], an array of [max_clients]. *)
Definition start_thread (max_clients : nat) (clients_no : Z) : prog Z :=
  need (aset (replicate max_clients tt) clients_no tt);;
  do_ (PthreadCreate "func" "&fd");;
  mret (clients_no + 1).

(** The thread [func] of all three counters; they differ in the text. *)
Definition func (text : string) (nfd : Z) (n : nat) : prog buf :=
  puts ("thread started" +:+ nl);;
  forever n (λ namebuffer,
    do_ (Send nfd (lit text) 30);;
    '(_, namebuffer) ← recv nfd namebuffer 30;
    s ← str namebuffer;
    puts ("from client :" +:+ s +:+ nl);;
    do_ (Sleep 2);;
    mret namebuffer) (fresh 30).

(** ** [c.c] *)
Module C.

Definition max_clients : nat := 1.

Definition round (nfd sfd1 clients_no : Z) : prog Z :=
  fd ← recv_file_descriptor nfd;
  puts ("File descriptor" +:+ dec fd +:+ nl);;
  if Z.of_nat max_clients <=? clients_no then
    puts ("max reached of server c" +:+ nl);;
    send_file_descriptor sfd1 fd;;
    mret clients_no
  else start_thread max_clients clients_no.

Definition main (n : nat) : prog Z :=
  sfd1 ← sysv (Socket AF_UNIX SOCK_STREAM 0);
  error_puts sfd1 "socket error";;
  c ← sysv (Connect sfd1 (SaUn "echo_socket_cs"));
  error_puts c "connect error";;
  do_ (Send sfd1 (lit "From server c to server s") 30);;
  sfd ← sysv (Socket AF_UNIX SOCK_STREAM 0);
  error_puts sfd "socket error";;
  do_ (Unlink "echo_socket_c");;
  b ← sysv (Bind sfd (SaUn "echo_socket_c"));
  error_puts b "bind error";;
  l ← sysv (Listen sfd 5);
  error_puts l "listen error";;
  nfd ← sysv (Accept sfd);
  error_puts nfd "accept error";;
  '(_, buffer) ← recv nfd (fresh 30) 30;
  s ← str buffer;
  puts (s +:+ nl);;
  forever n (round nfd sfd1) 0.

End C.

(** ** [s.c] *)
Module S.

Definition max_clients : nat := 2.

(** Lines 175-186 for [nfd] and 191-202 for [nfdcs]. *)
Definition take_client (text : string) (chan sfd1 clients_no : Z) : prog Z :=
  puts (text +:+ nl);;
  fd ← recv_file_descriptor chan;
  puts ("File descriptor" +:+ dec fd +:+ nl);;
  if Z.of_nat max_clients <=? clients_no then
    puts ("max of s reached sending to e server" +:+ nl);;
    send_file_descriptor sfd1 fd;;
    do_ (Perror "send:");;
    mret clients_no
  else start_thread max_clients clients_no.

Definition round (nfd nfdcs sfd1 clients_no : Z) : prog Z :=
  r ← sys (Poll [PollFd nfd POLLRDNORM; PollFd nfdcs POLLRDNORM] 0);
  error_puts (rv r) "poll error";;
  r0 ← need (aget (rints r) 0);
  r1 ← need (aget (rints r) 1);
  if negb (Z.land POLLRDNORM r0 =? 0) then take_client "0 main selected" nfd sfd1 clients_no
  else if negb (Z.land POLLRDNORM r1 =? 0) then take_client "1 s server selected" nfdcs sfd1 clients_no
  else mret clients_no.

Definition main (n : nat) : prog Z :=
  sfdcs ← sysv (Socket AF_UNIX SOCK_STREAM 0);
  error_puts sfdcs "socket error";;
  sfd1 ← sysv (Socket AF_UNIX SOCK_STREAM 0);
  error_puts sfd1 "socket error";;
  c ← sysv (Connect sfd1 (SaUn "echo_socket_se"));
  error_puts c "connect error";;
  do_ (Send sfd1 (lit "From server s to server e") 30);;
  sfd ← sysv (Socket AF_UNIX SOCK_STREAM 0);
  error_puts sfd "socket error";;
  do_ (Unlink "echo_socket_s");;
  do_ (Unlink "echo_socket_cs");;
  b ← sysv (Bind sfd (SaUn "echo_socket_s"));
  error_puts b "bind error";;
  l ← sysv (Listen sfd 5);
  error_puts l "listen error";;
  b ← sysv (Bind sfdcs (SaUn "echo_socket_cs"));
  error_puts b "bind error";;
  l ← sysv (Listen sfdcs 5);
  error_puts l "listen error";;
  nfdcs ← sysv (Accept sfdcs);
  error_puts nfdcs "accept error";;
  '(_, buffer) ← recv nfdcs (fresh 30) 30;
  s ← str buffer;
  puts (s +:+ nl);;
  nfd ← sysv (Accept sfd);
  error_puts nfd "accept error";;
  '(_, buffer) ← recv nfd buffer 30;
  s ← str buffer;
  puts (s +:+ nl);;
  forever n (round nfd nfdcs sfd1) 0.

End S.

(** ** [e.c] *)
Module E.

Definition max_clients : nat := 3.

Definition gettspid : prog Z :=
  shmid ← sysv (Shmget 5679 4 false);
  do_ (Shmat shmid);;
  pid ← sysv (ShmLoad 0);
  puts (dec pid +:+ nl);;
  mret pid.

Definition take_client (text : string) (chan pid clients_no : Z) : prog Z :=
  puts (text +:+ nl);;
  fd ← recv_file_descriptor chan;
  puts ("File descriptor" +:+ dec fd +:+ nl);;
  if Z.of_nat max_clients <=? clients_no then
    do_ (Kill pid SIGUSR1);;
    Halt 0
  else start_thread max_clients clients_no.

Definition round (nfd nfdse pid clients_no : Z) : prog Z :=
  r ← sys (Poll [PollFd nfd POLLRDNORM; PollFd nfdse POLLRDNORM] 0);
  error_puts (rv r) "poll error";;
  r0 ← need (aget (rints r) 0);
  r1 ← need (aget (rints r) 1);
  if negb (Z.land POLLRDNORM r0 =? 0) then take_client "0 main selected" nfd pid clients_no
  else if negb (Z.land POLLRDNORM r1 =? 0) then take_client "1 s server selected" nfdse pid clients_no
  else mret clients_no.

Definition main (n : nat) : prog Z :=
  sfdse ← sysv (Socket AF_UNIX SOCK_STREAM 0);
  error_puts sfdse "socket error";;
  sfd ← sysv (Socket AF_UNIX SOCK_STREAM 0);
  error_puts sfd "socket error";;
  do_ (Unlink "echo_socket_e");;
  do_ (Unlink "echo_socket_se");;
  b ← sysv (Bind sfd (SaUn "echo_socket_e"));
  error_puts b "bind error";;
  l ← sysv (Listen sfd 5);
  error_puts l "listen error";;
  b ← sysv (Bind sfdse (SaUn "echo_socket_se"));
  error_puts b "bind error";;
  l ← sysv (Listen sfdse 5);
  error_puts l "listen error";;
  nfdse ← sysv (Accept sfdse);
  error_puts nfdse "accept error";;
  '(_, buffer) ← recv nfdse (fresh 30) 30;
  s ← str buffer;
  puts (s +:+ nl);;
  nfd ← sysv (Accept sfd);
  error_puts nfd "accept error";;
  '(_, buffer) ← recv nfd buffer 30;
  s ← str buffer;
  puts (s +:+ nl);;
  pid ← gettspid;
  forever n (round nfd nfdse pid) 0.

End E.

(** ** [tc.c] and [client.c] *)
Module Tc.

Definition handler_func : prog unit :=
  puts ("Tickets are full the server is about to shutdown" +:+ nl);;
  do_ (Sleep 2);;
  Halt 0.

Definition round (sfd sfdc sfds sfde : Z) : prog unit :=
  nfd ← sysv (Accept sfd);
  error_puts nfd "accept error";;
  '(_, buffer) ← recv nfd (fresh 30) 30;
  s ← str buffer;
  puts ("service:" +:+ s +:+ nl);;
  serv_no ← need (atoi s);
  if serv_no =? 1 then send_file_descriptor sfdc nfd;; mret tt
  else if serv_no =? 2 then send_file_descriptor sfds nfd;; mret tt
  else if serv_no =? 3 then send_file_descriptor sfde nfd;; mret tt
  else mret tt.

Definition main (n : nat) : prog unit :=
  do_ (Signal SIGUSR1 "handler_func");;
  pid ← sysv Getpid;
  puts (dec pid +:+ nl);;
  shmid ← sysv (Shmget 5679 4 true);
  do_ (Shmat shmid);;
  do_ (ShmStore 0 pid);;
  sfdc ← sysv (Socket AF_UNIX SOCK_STREAM 0);
  error_puts sfdc "socket error";;
  sfds ← sysv (Socket AF_UNIX SOCK_STREAM 0);
  error_puts sfds "socket error";;
  sfde ← sysv (Socket AF_UNIX SOCK_STREAM 0);
  error_puts sfde "socket error";;
  c ← sysv (Connect sfdc (SaUn "echo_socket_c"));
  error_puts c "connect error";;
  do_ (Send sfdc (lit "From mainserver to server c") 30);;
  c ← sysv (Connect sfds (SaUn "echo_socket_s"));
  error_puts c "connect error";;
  do_ (Perror "connect:");;
  do_ (Send sfds (lit "From mainserver to server s") 30);;
  c ← sysv (Connect sfde (SaUn "echo_socket_e"));
  error_puts c "connect error";;
  do_ (Send sfde (lit "From mainserver to server e") 30);;
  sfd ← sysv (Socket AF_UNIX SOCK_STREAM 0);
  error_puts sfd "socket error";;
  do_ (Unlink "main_echo_socket");;
  b ← sysv (Bind sfd (SaUn "main_echo_socket"));
  error_puts b "bind error";;
  l ← sysv (Listen sfd 5);
  error_puts l "listen error";;
  forever n (λ _, round sfd sfdc sfds sfde) tt.

Definition client_main (argv1 : string) (n : nat) : prog buf :=
  puts ("Service requested is " +:+ argv1 +:+ nl);;
  sfd ← sysv (Socket AF_UNIX SOCK_STREAM 0);
  error_puts sfd "socket error";;
  c ← sysv (Connect sfd (SaUn "main_echo_socket"));
  error_puts c "connect error";;
  do_ (Send sfd (lit argv1) 30);;
  forever n (λ buffer,
    '(_, buffer) ← recv sfd buffer 30;
    s ← str buffer;
    puts ("client :" +:+ s +:+ nl);;
    do_ (Send sfd (lit "from client to server") 30);;
    mret buffer) (fresh 30).

End Tc.

(** ** Sessions *)

Definition started : label := Did (PthreadCreate "func" "&fd") 0.

Lemma start_thread_plays cap k :
  (k < cap)%nat → plays net (returns (eq (Z.of_nat (S k)))) (start_thread cap (Z.of_nat k)) [started].
Proof.
  intros Hk. unfold start_thread, started. eapply plays_need; [apply aset_Some; rewrite length_replicate; lia|].
  do 2 step. lia.
Qed.

(** The [k]-th connection a counter with room for [cap] clients takes over on
    [chan]: it is served, or passed on. *)
Definition taken (cap : nat) (pass : Z → list label) (chan : Z) (k : nat) (fd : Z) : list label :=
  installs chan fd :: if (k <? cap)%nat then [started] else pass fd.

Definition c_session (nfd sfd1 : Z) : nat → Z → list label := taken C.max_clients (λ fd, [passes sfd1 fd]) nfd.

(** A connection that arrives at [s] or [e], from [tc] or from the counter
    before, and what [poll] says of the other descriptor. *)
Record arrival := Arrival { from_tc : bool; other : Z; afd : Z }.

Definition polled (nfd nfd2 : Z) (a : arrival) : label :=
  Told (Poll [PollFd nfd POLLRDNORM; PollFd nfd2 POLLRDNORM] 0)
       (Reply 1 EmptyString (if from_tc a then [POLLRDNORM; other a] else [0; POLLRDNORM]) []).

Definition chan_of (nfd nfd2 : Z) (a : arrival) : Z := if from_tc a then nfd else nfd2.

Definition s_session (nfd nfdcs sfd1 : Z) (k : nat) (a : arrival) : list label :=
  polled nfd nfdcs a :: taken S.max_clients (λ fd, [passes sfd1 fd]) (chan_of nfd nfdcs a) k (afd a).
Definition e_session (nfd nfdse pid : Z) (k : nat) (a : arrival) : list label :=
  polled nfd nfdse a :: taken E.max_clients (λ _, [Did (Kill pid SIGUSR1) 0]) (chan_of nfd nfdse a) k (afd a).

(** The state after [k] connections: the counter stops at its capacity. *)
Definition count (cap k : nat) : Z := Z.of_nat (cap `min` k).

Lemma count_full cap k : (Z.of_nat cap <=? count cap k) = negb (k <? cap)%nat.
Proof.
  unfold count. destruct (k <? cap)%nat eqn:E; cbn [negb].
  - apply Nat.ltb_lt in E. apply Z.leb_gt. lia.
  - apply Nat.ltb_ge in E. apply Z.leb_le. lia.
Qed.

Lemma count_S cap k : (k < cap)%nat → count cap (S k) = Z.of_nat (S k) ∧ count cap k = Z.of_nat k.
Proof. intros. unfold count. split; f_equal; lia. Qed.

Lemma count_stays cap k : (cap ≤ k)%nat → count cap (S k) = count cap k.
Proof. intros. unfold count. f_equal. lia. Qed.

Lemma c_round_plays nfd sfd1 k fd :
  plays net (returns (eq (count C.max_clients (S k)))) (C.round nfd sfd1 (count C.max_clients k)) (c_session nfd sfd1 k fd).
Proof.
  unfold C.round, c_session, taken. do 2 step. rewrite count_full. destruct (k <? C.max_clients)%nat eqn:E; cbn [negb].
  - apply Nat.ltb_lt in E. destruct (count_S _ _ E) as [-> ->]. by apply start_thread_plays.
  - apply Nat.ltb_ge in E. rewrite count_stays by done. by do 3 step.
Qed.

Lemma s_take_plays text chan sfd1 k fd :
  plays net (returns (eq (count S.max_clients (S k)))) (S.take_client text chan sfd1 (count S.max_clients k))
    (taken S.max_clients (λ fd, [passes sfd1 fd]) chan k fd).
Proof.
  unfold S.take_client, taken. do 3 step. rewrite count_full. destruct (k <? S.max_clients)%nat eqn:E; cbn [negb].
  - apply Nat.ltb_lt in E. destruct (count_S _ _ E) as [-> ->]. by apply start_thread_plays.
  - apply Nat.ltb_ge in E. rewrite count_stays by done. by do 4 step.
Qed.

Lemma e_take_plays text chan pid k fd :
  (k < E.max_clients)%nat →
  plays net (returns (eq (count E.max_clients (S k)))) (E.take_client text chan pid (count E.max_clients k))
    (taken E.max_clients (λ _, [Did (Kill pid SIGUSR1) 0]) chan k fd).
Proof.
  intros E. unfold E.take_client, taken. do 3 step. rewrite count_full, (proj2 (Nat.ltb_lt _ _) E). cbn [negb].
  destruct (count_S _ _ E) as [-> ->]. by apply start_thread_plays.
Qed.

(** The fourth client of [e] stops the ticket counter. *)
Lemma e_full_plays text chan pid k fd :
  (E.max_clients ≤ k)%nat →
  plays net (eq (Exited 0)) (E.take_client text chan pid (count E.max_clients k))
    (taken E.max_clients (λ _, [Did (Kill pid SIGUSR1) 0]) chan k fd).
Proof.
  intros E. unfold E.take_client, taken. do 3 step. rewrite count_full, (proj2 (Nat.ltb_ge _ _) E). cbn [negb]. by do 2 step.
Qed.

Lemma s_round_plays nfd nfdcs sfd1 k a :
  plays net (returns (eq (count S.max_clients (S k)))) (S.round nfd nfdcs sfd1 (count S.max_clients k))
    (s_session nfd nfdcs sfd1 k a).
Proof.
  unfold S.round, s_session, polled, chan_of. destruct a as [[] o fd]; cbn [from_tc other afd];
    (do 4 step); apply s_take_plays.
Qed.

Lemma e_round_plays nfd nfdse pid k a :
  (k < E.max_clients)%nat →
  plays net (returns (eq (count E.max_clients (S k)))) (E.round nfd nfdse pid (count E.max_clients k))
    (e_session nfd nfdse pid k a).
Proof.
  intros Hk. unfold E.round, e_session, polled, chan_of. destruct a as [[] o fd]; cbn [from_tc other afd];
    (do 4 step); by apply e_take_plays.
Qed.

Lemma e_full_round nfd nfdse pid k a :
  (E.max_clients ≤ k)%nat →
  plays net (eq (Exited 0)) (E.round nfd nfdse pid (count E.max_clients k)) (e_session nfd nfdse pid k a).
Proof.
  intros Hk. unfold E.round, e_session, polled, chan_of. destruct a as [[] o fd]; cbn [from_tc other afd];
    (do 4 step); by apply e_full_plays.
Qed.

(** The connections a session passes on. *)
Definition passed_of (l : label) : option Z :=
  match l with Did (Sendmsg _ _ [m]) _ => Some (cmsg_fd m) | _ => None end.

Lemma passed_taken cap chan socket k fd :
  omap passed_of (taken cap (λ fd, [passes socket fd]) chan k fd) = if (k <? cap)%nat then [] else [fd].
Proof. unfold taken. by destruct (k <? cap)%nat. Qed.

Lemma omap_concat {A B} (f : A → option B) (l : list (list A)) : omap f (concat l) = concat (map (λ x, omap f x) l).
Proof. induction l as [|x l IH]; [done|]. cbn [concat map]. by rewrite omap_app, IH. Qed.

Lemma concat_beyond {X} (cap : nat) (g : X → Z) (l : list X) (j : nat) :
  concat (imap (λ i x, if (j + i <? cap)%nat then [] else [g x]) l) = drop (cap - j) (g <$> l).
Proof.
  revert j. induction l as [|x l IH]; intros j; [by destruct (cap - j)%nat|].
  rewrite imap_cons. cbn [concat fmap list_fmap]. rewrite Nat.add_0_r.
  rewrite (imap_ext _ (λ i x, if (S j + i <? cap)%nat then [] else [g x])) by
    (intros i y _; unfold compose; by rewrite Nat.add_succ_r).
  rewrite IH. destruct (j <? cap)%nat eqn:E.
  - apply Nat.ltb_lt in E. by replace (cap - j)%nat with (S (cap - S j)) by lia.
  - apply Nat.ltb_ge in E. by replace (cap - j)%nat with 0%nat by lia; replace (cap - S j)%nat with 0%nat by lia.
Qed.

(** A counter with room for [cap] passes on all but the first [cap]. *)
Lemma passed_beyond {X} cap (lg : nat → X → list label) (g : X → Z) (l : list X) :
  (∀ k x, omap passed_of (lg k x) = if (k <? cap)%nat then [] else [g x]) →
  omap passed_of (concat (imap lg l)) = drop cap (g <$> l).
Proof.
  intros H. rewrite omap_concat. pose proof (concat_beyond cap g l 0) as E. rewrite Nat.sub_0_r in E. rewrite <- E.
  f_equal. change (map ?f ?x) with (f <$> x). rewrite fmap_imap. apply imap_ext. intros i x _. apply H.
Qed.

(** What the counters do before their loops. *)
Definition c_setup (sfd1 sfd nfd : Z) (hello : string) : list label :=
  [Did (Socket AF_UNIX SOCK_STREAM 0) sfd1; Did (Connect sfd1 (SaUn "echo_socket_cs")) 0;
   Sent sfd1 30 "From server c to server s";
   Did (Socket AF_UNIX SOCK_STREAM 0) sfd; Did (Bind sfd (SaUn "echo_socket_c")) 0; Did (Listen sfd 5) 0;
   Did (Accept sfd) nfd; Got nfd 30 hello].

Definition s_setup (sfdcs sfd1 sfd nfdcs nfd : Z) (hello1 hello2 : string) : list label :=
  [Did (Socket AF_UNIX SOCK_STREAM 0) sfdcs; Did (Socket AF_UNIX SOCK_STREAM 0) sfd1;
   Did (Connect sfd1 (SaUn "echo_socket_se")) 0; Sent sfd1 30 "From server s to server e";
   Did (Socket AF_UNIX SOCK_STREAM 0) sfd; Did (Bind sfd (SaUn "echo_socket_s")) 0; Did (Listen sfd 5) 0;
   Did (Bind sfdcs (SaUn "echo_socket_cs")) 0; Did (Listen sfdcs 5) 0;
   Did (Accept sfdcs) nfdcs; Got nfdcs 30 hello1; Did (Accept sfd) nfd; Got nfd 30 hello2].

Definition e_setup (sfdse sfd nfdse nfd shmid pid : Z) (hello1 hello2 : string) : list label :=
  [Did (Socket AF_UNIX SOCK_STREAM 0) sfdse; Did (Socket AF_UNIX SOCK_STREAM 0) sfd;
   Did (Bind sfd (SaUn "echo_socket_e")) 0; Did (Listen sfd 5) 0;
   Did (Bind sfdse (SaUn "echo_socket_se")) 0; Did (Listen sfdse 5) 0;
   Did (Accept sfdse) nfdse; Got nfdse 30 hello1; Did (Accept sfd) nfd; Got nfd 30 hello2;
   Did (Shmget 5679 4 false) shmid; Did (Shmat shmid) 0; Did (ShmLoad 0) pid].

Lemma c_main_plays sfd1 sfd nfd hello fds :
  0 ≤ sfd1 → 0 ≤ sfd → 0 ≤ nfd →
  plays net (returns (eq (count C.max_clients (length fds)))) (C.main (length fds))
    (c_setup sfd1 sfd nfd hello ++ concat (imap (c_session nfd sfd1) fds)).
Proof.
  intros. unfold C.main, c_setup. cbn [app]. repeat step.
  apply (plays_forever_imap net (λ l c, count C.max_clients (length l) = c)); [|done].
  intros d x rest s _ <-. rewrite length_app, Nat.add_1_r. apply c_round_plays.
Qed.

Lemma s_main_plays sfdcs sfd1 sfd nfdcs nfd hello1 hello2 arrivals :
  0 ≤ sfdcs → 0 ≤ sfd1 → 0 ≤ sfd → 0 ≤ nfdcs → 0 ≤ nfd →
  plays net (returns (eq (count S.max_clients (length arrivals)))) (S.main (length arrivals))
    (s_setup sfdcs sfd1 sfd nfdcs nfd hello1 hello2 ++ concat (imap (s_session nfd nfdcs sfd1) arrivals)).
Proof.
  intros. unfold S.main, s_setup. cbn [app]. repeat step.
  apply (plays_forever_imap net (λ l c, count S.max_clients (length l) = c)); [|done].
  intros d x rest s _ <-. rewrite length_app, Nat.add_1_r. apply s_round_plays.
Qed.

Lemma gettspid_plays shmid pid :
  plays net (returns (eq pid)) E.gettspid
    [Did (Shmget 5679 4 false) shmid; Did (Shmat shmid) 0; Did (ShmLoad 0) pid].
Proof. unfold E.gettspid. by repeat step. Qed.

(** [e] up to its capacity, and what it goes on with. *)
Lemma e_main_plays sfdse sfd nfdse nfd shmid pid hello1 hello2 arrivals m ls Q :
  0 ≤ sfdse → 0 ≤ sfd → 0 ≤ nfdse → 0 ≤ nfd → (length arrivals ≤ E.max_clients)%nat →
  plays net Q (forever m (E.round nfd nfdse pid) (count E.max_clients (length arrivals))) ls →
  plays net Q (E.main (length arrivals + m))
    (e_setup sfdse sfd nfdse nfd shmid pid hello1 hello2 ++ concat (imap (e_session nfd nfdse pid) arrivals) ++ ls).
Proof.
  intros ???? Hl Hm. unfold E.main, e_setup. cbn [app]. repeat step.
  apply (plays_bind _ (eq pid) E.gettspid _ [_; _; _] _ _ (gettspid_plays shmid pid)). intros ? <-.
  apply (plays_forever_then net (λ l c, count E.max_clients (length l) = c)); [|done|by intros s <-].
  intros d x rest s -> <-. rewrite !length_app in *. cbn [length] in *. rewrite Nat.add_1_r. apply e_round_plays. lia.
Qed.

(** C17: the ticket counters.  Counter [c] starts a thread for the first client
    it is passed (the thread gets the address of the variable with the
    descriptor) and passes every other one on to [s]; [s] keeps the
    first two of what arrives from [tc] or from [c] and passes the others on
    to [e]; [e] keeps three.  None ever writes outside its array of threads.
    When a fourth client arrives at [e], it signals the process whose id [tc]
    left in the shared memory and exits. *)
Theorem ticket_counters s1 s2 s3 n1 n2 shmid pid hello1 hello2 (fds : list Z) (arrivals : list arrival) :
  0 ≤ s1 → 0 ≤ s2 → 0 ≤ s3 → 0 ≤ n1 → 0 ≤ n2 →
  let c := concat (imap (c_session n1 s1) fds) in
  let s := concat (imap (s_session n2 n1 s2) arrivals) in
  let e := concat (imap (e_session n2 n1 pid) arrivals) in
  plays net (returns (eq (count C.max_clients (length fds)))) (C.main (length fds)) (c_setup s1 s2 n1 hello1 ++ c) ∧
  omap passed_of c = drop 1 fds ∧
  plays net (returns (eq (count S.max_clients (length arrivals)))) (S.main (length arrivals))
    (s_setup s1 s2 s3 n1 n2 hello1 hello2 ++ s) ∧
  omap passed_of s = drop 2 (afd <$> arrivals) ∧
  ((length arrivals ≤ 3)%nat →
   plays net (returns (eq (Z.of_nat (length arrivals)))) (E.main (length arrivals))
     (e_setup s1 s2 n1 n2 shmid pid hello1 hello2 ++ e)) ∧
  ∀ fourth, length arrivals = 3%nat →
    plays net (eq (Exited 0)) (E.main (S (length arrivals)))
      (e_setup s1 s2 n1 n2 shmid pid hello1 hello2 ++ e ++
       [polled n2 n1 fourth; installs (chan_of n2 n1 fourth) (afd fourth); Did (Kill pid SIGUSR1) 0]).
Proof.
  intros ????? c s e. split; [by apply c_main_plays|]. split.
  { rewrite <- (list_fmap_id (drop 1 fds)), fmap_drop. apply passed_beyond. intros k x. apply passed_taken. }
  split; [by apply s_main_plays|]. split.
  { apply passed_beyond. intros k x. exact (passed_taken S.max_clients (chan_of n2 n1 x) s2 k (afd x)). }
  split.
  - intros Hl. pose proof (e_main_plays s1 s2 n1 n2 shmid pid hello1 hello2 arrivals 0 []
      (returns (eq (Z.of_nat (length arrivals))))) as P. rewrite app_nil_r, Nat.add_0_r in P.
    apply P; [done..|]. cbn [forever]. apply plays_Ret. eexists; split; [done|]. unfold count, E.max_clients. f_equal. lia.
  - intros a Hl. rewrite <- Nat.add_1_r. apply e_main_plays; [done..|unfold E.max_clients; lia|].
    rewrite Hl. cbn [forever]. apply plays_bind_exit. by apply (e_full_round n2 n1 pid 3 a).
Qed.

(** *** [tc] *)

(** A client of [tc]: the connection it gets, and what it asks for. *)
Definition tc_session (sfd sfdc sfds sfde : Z) (client : Z * Z) : list label :=
  let '(nfd, service) := client in
  [Did (Accept sfd) nfd; Got nfd 30 (dec service)] ++
  (if service =? 1 then [passes sfdc nfd] else if service =? 2 then [passes sfds nfd]
   else if service =? 3 then [passes sfde nfd] else []).

Definition tc_setup (pid shmid sfdc sfds sfde sfd : Z) : list label :=
  [Did (Signal SIGUSR1 "handler_func") 0; Did Getpid pid; Did (Shmget 5679 4 true) shmid; Did (Shmat shmid) 0;
   Did (ShmStore 0 pid) 0;
   Did (Socket AF_UNIX SOCK_STREAM 0) sfdc; Did (Socket AF_UNIX SOCK_STREAM 0) sfds;
   Did (Socket AF_UNIX SOCK_STREAM 0) sfde;
   Did (Connect sfdc (SaUn "echo_socket_c")) 0; Sent sfdc 30 "From mainserver to server c";
   Did (Connect sfds (SaUn "echo_socket_s")) 0; Sent sfds 30 "From mainserver to server s";
   Did (Connect sfde (SaUn "echo_socket_e")) 0; Sent sfde 30 "From mainserver to server e";
   Did (Socket AF_UNIX SOCK_STREAM 0) sfd; Did (Bind sfd (SaUn "main_echo_socket")) 0; Did (Listen sfd 5) 0].

(** The dispatcher of the ticket counters.  [tc] publishes its process id,
    connects to the three counters, and then passes every client to exactly
    the counter whose number it sent; a client that sent any other number is
    passed to none (and its connection stays open).  The signal from [e] makes
    it exit. *)
Theorem tc_dispatches pid shmid sfdc sfds sfde sfd (clients : list (Z * Z)) :
  0 ≤ sfdc → 0 ≤ sfds → 0 ≤ sfde → 0 ≤ sfd →
  Forall (λ c, 0 ≤ c.1 ∧ fits_int c.2 = true) clients →
  plays net (returns (λ _, True)) (Tc.main (length clients))
    (tc_setup pid shmid sfdc sfds sfde sfd ++ concat (tc_session sfd sfdc sfds sfde <$> clients)) ∧
  plays net (eq (Exited 0)) Tc.handler_func [].
Proof.
  intros ???? Hc. split; [|unfold Tc.handler_func; by repeat step]. unfold Tc.main, tc_setup. cbn [app]. repeat step.
  eapply plays_weaken; [apply (plays_forever_list net (λ _ _, True)); [|done]|done].
  intros d [nfd service] rest [] -> _. apply Forall_app in Hc as [_ [[H3 Hs] _]%Forall_cons]. cbn in H3, Hs.
  unfold Tc.round, tc_session. cbn [app]. do 6 step.
  destruct (service =? 1); [by do 2 step|]. destruct (service =? 2); [by do 2 step|].
  destruct (service =? 3); [by do 2 step|]. by step.
Qed.

(** *** Concrete sessions *)

Definition three_arrivals : list arrival := [Arrival true 0 7; Arrival false 0 8; Arrival false 64 9].

Lemma ticket_counters_witness :
  let s := concat (imap (s_session 6 5 4) three_arrivals) in
  omap passed_of s = [9] ∧
  plays net (eq (Exited 0)) (E.main 4)
    (e_setup 3 4 6 5 32768 4711 "From server s to server e" "From mainserver to server e" ++
     concat (imap (e_session 5 6 4711) three_arrivals) ++
     [polled 5 6 (Arrival false 0 10); installs 6 10; Did (Kill 4711 SIGUSR1) 0]).
Proof.
  split.
  - refine (proj1 (proj2 (proj2 (proj2 (ticket_counters 3 4 5 5 6 32768 4711 "a" "b" [] three_arrivals _ _ _ _ _))))); lia.
  - refine (proj2 (proj2 (proj2 (proj2 (proj2 (ticket_counters 3 4 5 6 5 32768 4711 "From server s to server e"
      "From mainserver to server e" [] three_arrivals _ _ _ _ _))))) (Arrival false 0 10) _); (lia || done).
Defined.

Lemma tc_dispatches_witness :
  plays net (returns (λ _, True)) (Tc.main 3)
    (tc_setup 4711 32768 3 4 5 6 ++
     [Did (Accept 6) 7; Got 7 30 "1"; passes 3 7; Did (Accept 6) 8; Got 8 30 "3"; passes 5 8;
      Did (Accept 6) 9; Got 9 30 "4"]).
Proof.
  refine (proj1 (tc_dispatches 4711 32768 3 4 5 6 [(7, 1); (8, 3); (9, 4)] _ _ _ _ _)); try lia.
  repeat constructor; simpl; lia.
Defined.
