(* ===== verification/Fifo.v ===== *)
(** * Named pipes and [select]

    What the servers of [select_servers] share: making a fifo, formatted names
    that fit their buffers, lists numbered by a loop, and the sets of
    descriptors [select] watches. *)

From stdpp Require Import gmap sets.
From S2P Require Import Prelude CString Posix Session.

#[local] Open Scope Z_scope.

(** ** Making fifos *)

Definition FIFO_ERROR : string := "The following error occurred".

(** [if (call) { perror(...); exit(0); }] *)
Definition exit_if (b : bool) : prog unit := if b then do_ (Perror FIFO_ERROR);; Halt 0 else mret tt.

Definition make_fifo (name : string) : prog unit :=
  m ← sysv (Mkfifo name 511);
  exit_if (negb (m =? 0)).

(** *** Texts that fit *)

Lemma substring_all s n : (String.length s ≤ n)%nat → substring 0 n s = s.
Proof.
  revert n. induction s as [|c s IH]; intros [|n]; simpl; intros H; try done; [lia|]. by rewrite IH by lia.
Qed.

(** [snprintf] of a text that fits. *)
Lemma snprintf_fits b n t :
  nonul t = true → (String.length t < n)%nat → (n ≤ length b)%nat →
  ∃ b', snprintf b n t = Some b' ∧ cstr b' = Some t ∧ length b' = length b.
Proof.
  intros Ht Hl Hb. unfold snprintf. rewrite substring_all by lia.
  destruct (strcpy b t) as [b'|] eqn:E; [|by rewrite strcpy_Some in E by lia].
  exists b'. split; [done|]. split; [by eapply cstr_strcpy|]. unfold strcpy, strcpy_at in E. by eapply store_length.
Qed.

Lemma plays_made {B} name (f : unit → prog B) ls Q :
  plays net Q (f tt) ls → plays net Q (make_fifo name ≫= f) (Did (Mkfifo name 511) 0 :: ls).
Proof.
  intros H. change (plays net Q (make_fifo name ≫= f) ([Did (Mkfifo name 511) 0] ++ ls)).
  apply (plays_bind _ (eq tt)); [|by intros [] _]. unfold make_fifo. play. by apply plays_return.
Qed.

Lemma plays_exit_if {B} w (f : unit → prog B) ls Q : plays w Q (f tt) ls → plays w Q (exit_if false ≫= f) ls.
Proof. done. Qed.

(** ** Lists with their indexes *)

Definition numbered {A} (fs : list A) : list (Z * A) := imap (λ i f, (Z.of_nat i, f)) fs.

Lemma numbered_nth {A} (fs : list A) d x rest : numbered fs = d ++ x :: rest → x.1 = Z.of_nat (length d) ∧ fs !! length d = Some x.2.
Proof.
  intros E. assert (numbered fs !! length d = Some x) as H by (rewrite E, lookup_app_r, Nat.sub_diag by lia; done).
  unfold numbered in H. rewrite list_lookup_imap in H. destruct (fs !! length d) as [f|] eqn:Ef; [|done].
  injection H as <-. done.
Qed.


Lemma numbered_values {A} (l : list A) : (numbered l).*2 = l.
Proof.
  apply list_eq. intros i. rewrite list_lookup_fmap. unfold numbered. rewrite list_lookup_imap. by destruct (l !! i).
Qed.

(** ** The sets of [select] *)

Definition fd_set : Type := gset Z.
Definition FD_SET (f : Z) (s : fd_set) : fd_set := {[f]} ∪ s.
Definition FD_ISSET (f : Z) (s : fd_set) : bool := bool_decide (f ∈ s).

(** [select(max+1,&readset,NULL,NULL,&timeptr)] with a zero timeout: its value
    and the set it leaves. *)
Definition select (max : Z) (readset : fd_set) : prog (Z * fd_set) :=
  r ← sys (Select (max + 1) (elements readset) false);
  mret (rv r, list_to_set (rints r)).

(** [FD_SET] of all descriptors of an array, and the greatest of them. *)
Definition watch_one (fd : list (option Z)) (i : Z) (s : fd_set * Z) : prog (fd_set * Z) :=
  f ← need (iget fd i);
  mret (FD_SET f s.1, if s.2 <? f then f else s.2).

Definition watch (fd : list (option Z)) (number : Z) (s : fd_set * Z) : prog (fd_set * Z) :=
  for_up 0 number (watch_one fd) s.

Definition watched_set (fds : list Z) : fd_set := list_to_set fds.
Definition greatest (fds : list Z) : Z := foldl Z.max 0 fds.

Lemma watch_plays w a fds s :
  filled fds a →
  plays w (returns (λ x, x.1 = watched_set fds ∪ s.1 ∧ x.2 = foldl Z.max s.2 fds)) (watch a (Z.of_nat (length fds)) s) [].
Proof.
  intros Hf. unfold watch. rewrite <- (Z.add_0_l (Z.of_nat _)), <- (concat_quiet fds).
  apply (plays_for_list w (λ l x, x.1 = watched_set l ∪ s.1 ∧ x.2 = foldl Z.max s.2 l)); [|split; [set_solver|done]].
  intros d x rest t E [H1 H2]. unfold watch_one. rewrite Z.add_0_l.
  eapply plays_need; [eapply filled_get; [exact Hf|by rewrite E, list_lookup_middle]|].
  play. cbn [fst snd]. split.
  - unfold FD_SET, watched_set in *. rewrite H1, list_to_set_app_L. set_solver.
  - rewrite foldl_app, <- H2. cbn. destruct (Z.ltb_spec t.2 x); lia.
Qed.

Lemma greatest_le fds m : foldl Z.max m fds = Z.max m (foldl Z.max m fds).
Proof. revert m. induction fds as [|x l IH]; intros m; cbn; [lia|]. rewrite IH. lia. Qed.

Lemma greatest_again fds m : foldl Z.max (foldl Z.max m fds) fds = foldl Z.max m fds.
Proof.
  assert (∀ l k, (∀ x, x ∈ l → x ≤ k) → foldl Z.max k l = k) as H.
  { induction l as [|x l IH]; intros k Hk; [done|]. cbn. rewrite Z.max_l by (apply Hk; by left).
    apply IH. intros y Hy. apply Hk. by right. }
  apply H. clear H. revert m. induction fds as [|x l IH]; intros m y; cbn; [by intros ?%elem_of_nil|].
  intros [->|Hy]%elem_of_cons; [|by apply IH]. rewrite greatest_le. lia.
Qed.

(** After [select], the same descriptors are watched again. *)
Lemma rewatch_plays w a fds (ready : list Z) :
  filled fds a → (∀ x, x ∈ ready → x ∈ fds) →
  plays w (returns (eq (watched_set fds, greatest fds))) (watch a (Z.of_nat (length fds)) (list_to_set ready, greatest fds)) [].
Proof.
  intros Hf Hr. eapply plays_weaken; [by apply watch_plays|]. intros [s m] [H1 H2]. cbn in *. f_equal.
  - rewrite H1. unfold watched_set. apply set_eq. intros x. rewrite elem_of_union, !elem_of_list_to_set. naive_solver.
  - rewrite H2. unfold greatest. by rewrite greatest_again.
Qed.

Lemma first_watch_plays w a fds :
  filled fds a →
  plays w (returns (eq (watched_set fds, greatest fds))) (watch a (Z.of_nat (length fds)) (∅, 0)) [].
Proof.
  intros Hf. eapply plays_weaken; [by apply watch_plays|]. intros [s m] [H1 H2]. cbn in *. rewrite H1, H2. f_equal.
  set_solver.
Qed.

(** The descriptors that are ready, when [xs] tells what there is for each of them. *)
Definition ready_of {X} (fds : list Z) (xs : list (option X)) : list Z := omap (λ x, (λ _, x.1) <$> x.2) (zip fds xs).

Lemma ready_of_iff {X} fds (xs : list (option X)) j f x :
  NoDup fds → zip fds xs !! j = Some (f, x) → (f ∈ ready_of fds xs ↔ is_Some x).
Proof.
  intros Hn Hj. unfold ready_of. rewrite list_elem_of_omap. split.
  - intros ([f' x'] & Hin & H). cbn in H. destruct x' as [y|]; [|done]. injection H as ->.
    apply list_elem_of_lookup in Hin as [i Hi]. pose proof Hi as Hi'. apply lookup_zip_Some in Hi' as [Hi1 _].
    pose proof Hj as Hj'. apply lookup_zip_Some in Hj' as [Hj1 _].
    assert (i = j) as -> by by eapply NoDup_lookup. rewrite Hi in Hj. injection Hj as <-. by eexists.
  - intros [y ->]. exists (f, Some y). split; [by eapply list_elem_of_lookup_2|done].
Qed.

(** ** Messages of any length, read into a clear buffer *)

Lemma zeroed_holds n s :
  nonul s = true → (String.length s < n)%nat →
  ∃ b, store (zeroed n) 0 (cells s) = Some b ∧ cstr b = Some s ∧ length b = n.
Proof.
  intros Hs Hl. assert (length (zeroed n) = n) as Hz by apply length_replicate.
  rewrite store_Some by (rewrite cells_length; lia). eexists. split; [done|].
  change (take 0 (zeroed n)) with (@nil cell). cbn [app]. rewrite cells_length. split.
  - replace (drop (0 + String.length s) (zeroed n)) with (Some NUL :: zeroed (n - String.length s - 1)).
    + rewrite (cons_middle (Some NUL)), app_assoc. unfold cells. by apply cstr_lit.
    + unfold zeroed. rewrite drop_replicate. destruct (n - (0 + String.length s))%nat as [|k] eqn:E; [lia|].
      cbn [replicate]. do 2 f_equal. lia.
  - rewrite length_app, cells_length, length_drop. lia.
Qed.

Definition text_ok (t : string) : Prop := nonul t = true ∧ (String.length t < 100)%nat.

(** What is written in its own length is read as it is. *)
Lemma delivers_exact b s data :
  cstr b = Some s → delivers b (Z.of_nat (String.length s)) data → data = s.
Proof.
  intros (_ & rest & ->)%cstr_inv [Hl Hd]. apply Nat2Z.inj in Hl.
  rewrite <- (string_of_list_ascii_of_string data), <- (string_of_list_ascii_of_string s). f_equal.
  apply list_eq_same_length with (String.length s); [by rewrite length_chars|by rewrite length_chars|].
  intros i x y Hi Hx Hy. rewrite (Hd i y) in Hx; [by injection Hx| |lia].
  unfold lit. by rewrite lookup_app_l, lookup_app_l, list_lookup_fmap, Hy by
    (rewrite ?length_app, ?length_fmap, ?length_chars; cbn; lia).
Qed.

(** A text that the other side wrote in one piece. *)
Lemma plays_text_in {B} w fd size n s (f : Z * buf → prog B) ls Q :
  w (Read fd n) = true → nonul s = true → (String.length s < size)%nat →
  (∀ b, cstr b = Some s → plays w Q (f (Z.of_nat (String.length s), b)) ls) →
  plays w Q (read fd (zeroed size) n ≫= f) (Told (Read fd n) (bytes_ s) :: ls).
Proof.
  intros Hw Hn Hl Hf. destruct (zeroed_holds size s) as (b & Hb & Hc & _); [done..|].
  eapply plays_read_told; [done|exact Hb|]. by apply Hf.
Qed.

Lemma plays_text {B} w fd s (f : Z * buf → prog B) ls Q :
  w (Read fd 100) = true → nonul s = true → (String.length s < 100)%nat →
  (∀ b, cstr b = Some s → plays w Q (f (Z.of_nat (String.length s), b)) ls) →
  plays w Q (read fd (zeroed 100) 100 ≫= f) (Told (Read fd 100) (bytes_ s) :: ls).
Proof. apply plays_text_in. Qed.

(** A server that comes back to the same state in every round. *)
Lemma plays_rounds {X S} w (P : X → Prop) (lg : X → list label) (items : list X) (body : S → prog S) s :
  Forall P items → (∀ x, P x → plays w (returns (eq s)) (body s) (lg x)) →
  plays w (returns (eq s)) (forever (length items) body s) (concat (lg <$> items)).
Proof.
  intros Hi Hb. apply (plays_forever_list w (λ _, eq s)); [|done].
  intros d x rest t -> <-. apply Hb. by apply Forall_app in Hi as [_ [? _]%Forall_cons].
Qed.
