(* ===== verification/MidServices.v ===== *)
(** * Servers that start services: [mid/tss], [mid/mss], [mid/ss], [mid/inetd], [mid/superserver]

    [Starter]: [mid/tss/server.c] starts a service the first time it is asked
    for and tells every client its port.  [Workers]: the services of [mid/tss]
    and [mid/mss], which start a thread per client, and their clients.
    [ThreePorts]: [mid/ss/server.c].  [Inetd]: the super servers, which hand
    the connection to a program as its standard input and output. *)

From stdpp Require Import gmap sets.
From S2P Require Import Prelude CString Posix Session Converse FdPass Echo Handoff Fifo.

#[local] Open Scope Z_scope.

(** [error_func] of [mid/tss]: it prints without a line end and exits. *)
Definition error_quit (val : Z) (message : string) : prog unit :=
  if val <? 0 then puts message;; Halt 1 else mret tt.

Lemma plays_quit {B} w v m (f : unit → prog B) ls Q :
  0 ≤ v → plays w Q (f tt) ls → plays w Q (error_quit v m ≫= f) ls.
Proof. intros. unfold error_quit. by rewrite (proj2 (Z.ltb_ge _ _)). Qed.

Ltac serve :=
  lazymatch goal with
  | |- plays _ _ (error_quit _ _ ≫= _) _ => apply plays_quit; [first [assumption|lia]|]; cbv beta iota
  | |- _ => step
  end.

(** ** [mid/tss/server.c] *)
Module Starter.

(** The field [name], a pointer to a buffer that is gone when [server_init]
    returns, is not used. *)
Record service := Service { port : Z; started : Z }.

Definition server_init : option (list service) :=
  for_up (M := option) 0 3 (λ i services, aset services i (Service (9000 + i) 0)) (replicate 3 (Service 0 0)).

(** Lines 76-114: a client on [sfd].  [execve] returns only when it fails; then
    the child goes on like its parent. *)
Definition serve_client (sfd : Z) (services : list service) : prog (list service) :=
  nsfd ← sysv (Accept sfd);
  error_quit nsfd "error in accept";;
  '(_, servbufer) ← recv nsfd (fresh 30) 30;
  text ← str servbufer;
  service_index ← need (atoi text);
  puts ("The service requested is" +:+ dec service_index +:+ nl);;
  e ← need (aget services service_index);
  services ← (if started e =? 0 then
    servnamebuffer ← need (sprintf (fresh 30) ("service" +:+ dec (service_index + 1)));
    name ← str servnamebuffer;
    puts ("servname: " +:+ name +:+ nl);;
    c ← sysv Fork;
    if c =? 0 then
      puts ("forked child" +:+ nl);;
      do_ (Exec name []);;
      mret services
    else
      do_ (Sleep 5);;
      need (aset services service_index (Service (port e) 1))
  else mret services);
  puts ("reached" +:+ nl);;
  e ← need (aget services service_index);
  writebuf ← need (sprintf (fresh 30) (dec (port e)));
  do_ (Send nsfd writebuf 30);;
  puts ("reached1" +:+ nl);;
  mret services.

Definition look (sfd : Z) (tempset : fd_set) (_ : Z) (services : list service) : prog (list service) :=
  if FD_ISSET sfd tempset then serve_client sfd services else mret services.

(** [select] without a timeout on the set of [sfd]. *)
Definition round (sfd : Z) (services : list service) : prog (list service) :=
  r ← sys (Select (sfd + 1) (elements (FD_SET sfd ∅)) true);
  error_quit (rv r) "error in select";;
  for_up 0 (sfd + 1) (look sfd (list_to_set (rints r))) services.

Definition start : prog (Z * list service) :=
  services ← need server_init;
  sfd ← sysv (Socket AF_INET SOCK_STREAM 0);
  error_quit sfd "error in socket call";;
  set ← sysv (Setsockopt sfd "SO_REUSEADDR");
  error_quit set "calling sockpot";;
  b ← sysv (Bind sfd (any_addr 8000));
  error_quit b "error in bind";;
  l ← sysv (Listen sfd 3);
  error_quit l "error in listening";;
  mret (sfd, services).

Definition main (n : nat) : prog (list service) := s ← start; forever n (round s.1) s.2.

(** *** Sessions *)

(** A client: its connection, the service it asks for, and the process that is
    forked if that is not running. *)
Record client := Client { cfd : Z; asked : nat; pid : Z }.

Definition good (x : client) : Prop := 0 ≤ cfd x ∧ (asked x < 3)%nat ∧ pid x ≠ 0.

Definition running (services : list service) (i : nat) : bool :=
  match services !! i with Some e => negb (started e =? 0) | None => false end.

Definition session (sfd : Z) (services : list service) (x : client) : list label :=
  [Did (Accept sfd) (cfd x); Got (cfd x) 30 (dec (Z.of_nat (asked x)))] ++
  (if running services (asked x) then [] else [Did Fork (pid x)]) ++
  [Sent (cfd x) 30 (dec (9000 + Z.of_nat (asked x)))].

Definition start_for (services : list service) (x : client) : list service :=
  <[asked x := Service (9000 + Z.of_nat (asked x)) 1]> services.

(** The table: every service with its port, running or not. *)
Definition table (services : list service) : Prop :=
  length services = 3%nat ∧ ∀ i e, services !! i = Some e → port e = 9000 + Z.of_nat i ∧ (started e = 0 ∨ started e = 1).

Fixpoint batch (sfd : Z) (services : list service) (l : list client) : list label :=
  match l with [] => [] | x :: l => session sfd services x ++ batch sfd (start_for services x) l end.

Definition after (services : list service) (l : list client) : list service := foldl start_for services l.

Lemma table_start services x : table services → good x → table (start_for services x).
Proof.
  intros [Hl Ht] (_ & Hx & _). split; [by unfold start_for; rewrite length_insert|]. intros i e He.
  unfold start_for in He. apply list_lookup_insert_Some in He as [(-> & <- & _)|[_ He]]; [split; [done|by right]|by apply Ht].
Qed.

Lemma running_same services x :
  table services → running services (asked x) = true → start_for services x = services.
Proof.
  intros [Hl Ht]. unfold running, start_for. destruct (services !! asked x) as [e|] eqn:E; [|done]. intros Hs.
  apply list_insert_id. rewrite E. destruct (Ht _ _ E) as [Ep [Es|Es]]; [by rewrite Es in Hs|]. f_equal. destruct e; cbn in *; by subst.
Qed.

Lemma dec_fits i : (i < 10)%nat → fits_int (Z.of_nat i) = true.
Proof. intros. unfold fits_int, INT_MIN, INT_MAX. apply andb_true_iff. split; apply Z.leb_le; lia. Qed.

Lemma serve_plays sfd services x :
  table services → good x → plays net (returns (eq (start_for services x))) (serve_client sfd services) (session sfd services x).
Proof.
  intros Ht Hg. pose proof Ht as [Hl Hs]. destruct Hg as (Hf & Hx & Hp). unfold serve_client, session. cbn [app].
  do 4 serve. serve; [apply dec_fits; lia|]. serve.
  destruct (lookup_lt_is_Some_2 services (asked x)) as [e He]; [lia|]. destruct (Hs _ _ He) as [Ep Es].
  eapply plays_need; [by rewrite aget_nat|].
  apply (plays_bind _ (eq (start_for services x))).
  - unfold running. rewrite He. destruct (Z.eqb_spec (started e) 0) as [E0|E0]; cbn [negb].
    + destruct (sprintf_fits (fresh 30) ("service" +:+ dec (Z.of_nat (asked x) + 1))) as (b & Eb & Hc & _).
      { by rewrite nonul_app, dec_nonul. }
      { pose proof (dec_length (Z.of_nat (asked x) + 1)). rewrite string_length_app, length_fresh. cbn. lia. }
      eapply plays_need; [exact Eb|]. do 3 serve. rewrite (proj2 (Z.eqb_neq _ _)) by done. serve.
      rewrite aset_Some by lia. rewrite Nat2Z.id. apply plays_return. unfold start_for. by rewrite Ep.
    + apply plays_return. apply running_same; [done|]. unfold running. rewrite He. by apply negb_true_iff, Z.eqb_neq.
  - intros ? <-. serve. assert (start_for services x !! asked x = Some (Service (9000 + Z.of_nat (asked x)) 1)) as He'.
    { unfold start_for. apply list_lookup_insert_eq. lia. }
    eapply plays_need; [by rewrite aget_nat|]. cbn [port]. repeat serve. done.
Qed.

Lemma table_after services l : table services → Forall good l → table (after services l).
Proof.
  intros Ht Hl. unfold after. revert services Ht. induction Hl as [|x l Hx _ IH]; intros services Ht; [done|]. cbn.
  by apply IH, table_start.
Qed.

Definition ready (sfd : Z) : label := Told (Select (sfd + 1) (elements (FD_SET sfd ∅)) true) (ints_ [sfd]).

Lemma is_set (f : Z) : FD_ISSET f (list_to_set [f]) = true.
Proof. apply bool_decide_eq_true_2. set_solver. Qed.

Lemma looks_play sfd services l lo :
  table services → Forall good l →
  plays net (returns (eq (after services l))) (for_n (length l) lo (look sfd (list_to_set [sfd])) services) (batch sfd services l).
Proof.
  intros Ht Hl. revert services lo Ht. induction Hl as [|x l Hx _ IH]; intros services lo Ht; cbn [length for_n batch].
  - by apply plays_return.
  - apply (plays_bind _ (eq (start_for services x))); [|intros ? <-; by apply IH, table_start].
    unfold look. rewrite is_set. by apply serve_plays.
Qed.

Lemma starter_round_plays sfd services l :
  table services → Forall good l → Z.of_nat (length l) = sfd + 1 →
  plays net (returns (eq (after services l))) (round sfd services) (ready sfd :: batch sfd services l).
Proof.
  intros Ht Hl Hn. unfold round, ready. serve. cbn [rints ints_ rv length]. serve. unfold for_up.
  replace (Z.to_nat (sfd + 1 - 0)) with (length l) by lia. by apply looks_play.
Qed.

Fixpoint sessions (sfd : Z) (services : list service) (ls : list (list client)) : list label :=
  match ls with
  | [] => []
  | l :: ls => (ready sfd :: batch sfd services l) ++ sessions sfd (after services l) ls
  end.

Definition init : list service := [Service 9000 0; Service 9001 0; Service 9002 0].

Lemma init_table : table init.
Proof. split; [done|]. intros [|[|[|i]]] e [= <-]; (split; [done|by left]). Qed.

Lemma rounds_play sfd services ls :
  table services → Forall (λ l, Forall good l ∧ Z.of_nat (length l) = sfd + 1) ls →
  plays net (returns (eq (after services (concat ls)))) (forever (length ls) (round sfd) services) (sessions sfd services ls).
Proof.
  intros Ht Hls. revert services Ht. induction Hls as [|l ls [Hl Hn] _ IH]; intros services Ht; cbn [length forever sessions concat].
  - by apply plays_return.
  - eapply plays_bind; [by apply starter_round_plays|]. intros ? <-. eapply plays_weaken; [apply IH; by apply table_after|].
    intros s <-. unfold after. by rewrite foldl_app.
Qed.

(** The processes forked in a session. *)
Definition forks (ls : list label) : list Z := omap (λ l, match l with Did Fork v => Some v | _ => None end) ls.
Definition stopped (services : list service) : nat := length (filter (λ e, started e = 0) services).

Lemma forks_app l1 l2 : forks (l1 ++ l2) = forks l1 ++ forks l2.
Proof. apply omap_app. Qed.

Lemma stopped_insert services i e e' :
  services !! i = Some e → started e = 0 → started e' ≠ 0 → (stopped (<[i := e']> services) + 1 = stopped services)%nat.
Proof.
  unfold stopped. revert i. induction services as [|y l IH]; intros [|i] He H0 H1; [done..| |].
  - injection He as ->. change (<[0%nat:=e']> (e :: l)) with (e' :: l). rewrite filter_cons_False, filter_cons_True by done. cbn. lia.
  - change (<[S i:=e']> (y :: l)) with (y :: <[i:=e']> l). rewrite !filter_cons. specialize (IH i He H0 H1). case_decide; cbn; lia.
Qed.

Lemma session_forks sfd services x :
  table services → good x → (length (forks (session sfd services x)) + stopped (start_for services x) = stopped services)%nat.
Proof.
  intros Ht Hg. pose proof Ht as [Hl Hs]. destruct Hg as (_ & Hx & _). unfold session. rewrite !forks_app. cbn [forks omap list_omap app].
  destruct (running services (asked x)) eqn:E.
  - by rewrite (running_same _ _ Ht E).
  - destruct (lookup_lt_is_Some_2 services (asked x)) as [e He]; [lia|]. unfold running in E. rewrite He in E.
    apply negb_false_iff, Z.eqb_eq in E. cbn. unfold start_for.
    rewrite <- (stopped_insert services (asked x) e (Service (9000 + Z.of_nat (asked x)) 1)) by done. lia.
Qed.

Lemma batch_forks sfd services l :
  table services → Forall good l → (length (forks (batch sfd services l)) + stopped (after services l) = stopped services)%nat.
Proof.
  intros Ht Hl. revert services Ht. induction Hl as [|x l Hx _ IH]; intros services Ht; cbn [batch]; [done|].
  rewrite forks_app, length_app. specialize (IH (start_for services x) (table_start _ _ Ht Hx)).
  pose proof (session_forks sfd services x Ht Hx). unfold after in *. cbn [foldl]. lia.
Qed.

Lemma sessions_forks sfd services ls :
  table services → Forall (λ l, Forall good l ∧ Z.of_nat (length l) = sfd + 1) ls →
  (length (forks (sessions sfd services ls)) ≤ stopped services)%nat.
Proof.
  intros Ht Hls. revert services Ht. induction Hls as [|l ls [Hl Hn] _ IH]; intros services Ht; cbn [sessions]; [cbn; lia|].
  rewrite forks_app, length_app. specialize (IH _ (table_after _ _ Ht Hl)).
  pose proof (batch_forks sfd services l Ht Hl). unfold ready. cbn [forks omap list_omap app]. unfold forks in *. lia.
Qed.

Definition opening (sfd : Z) : list label :=
  [Did (Socket AF_INET SOCK_STREAM 0) sfd; Did (Setsockopt sfd "SO_REUSEADDR") 0; Did (Bind sfd (any_addr 8000)) 0; Did (Listen sfd 3) 0].

Lemma starter_main_plays sfd ls :
  0 ≤ sfd → Forall (λ l, Forall good l ∧ Z.of_nat (length l) = sfd + 1) ls →
  plays net (returns (eq (after init (concat ls)))) (main (length ls)) (opening sfd ++ sessions sfd init ls).
Proof.
  intros Hs Hls. unfold main. eapply (plays_bind _ (eq (sfd, init))).
  - unfold start, opening. eapply plays_need; [reflexivity|]. repeat serve. done.
  - intros ? <-. cbn [fst snd]. apply rounds_play; [apply init_table|done].
Qed.

(** A number that no service has. *)
Lemma serve_bad sfd services nfd k :
  table services → 0 ≤ nfd → fits_int k = true → ¬ 0 ≤ k < 3 →
  plays net (eq UB) (serve_client sfd services) [Did (Accept sfd) nfd; Got nfd 30 (dec k)].
Proof.
  intros [Hl _] Hf Hfit Hk. unfold serve_client. do 4 serve. serve. serve. apply plays_undef, aget_None. lia.
Qed.

(** The child, when [execve] fails: it answers the client as well. *)
Lemma serve_child sfd services x :
  table services → 0 ≤ cfd x → (asked x < 3)%nat → running services (asked x) = false →
  plays net (returns (eq services)) (serve_client sfd services)
    [Did (Accept sfd) (cfd x); Got (cfd x) 30 (dec (Z.of_nat (asked x))); Did Fork 0;
     Did (Exec ("service" +:+ dec (Z.of_nat (asked x) + 1)) []) (-1); Sent (cfd x) 30 (dec (9000 + Z.of_nat (asked x)))].
Proof.
  intros [Hl Ht] Hf Hx Hr. unfold serve_client. do 4 serve. serve; [apply dec_fits; lia|]. serve.
  destruct (lookup_lt_is_Some_2 services (asked x)) as [e He]; [lia|]. destruct (Ht _ _ He) as [Ep _].
  eapply plays_need; [by rewrite aget_nat|]. unfold running in Hr. rewrite He in Hr. apply negb_false_iff in Hr. rewrite Hr.
  apply (plays_bind _ (eq services) _ _ [Did Fork 0; Did (Exec ("service" +:+ dec (Z.of_nat (asked x) + 1)) []) (-1)]).
  - destruct (sprintf_fits (fresh 30) ("service" +:+ dec (Z.of_nat (asked x) + 1))) as (b & Eb & Hc & _).
    { by rewrite nonul_app, dec_nonul. }
    { pose proof (dec_length (Z.of_nat (asked x) + 1)). rewrite string_length_app, length_fresh. cbn. lia. }
    eapply plays_need; [exact Eb|]. do 3 serve. rewrite Z.eqb_refl. repeat serve. done.
  - intros ? <-. serve. eapply plays_need; [by rewrite aget_nat|]. rewrite Ep. repeat serve. done.
Qed.
End Starter.

(** ** The services and their clients *)
Module Workers.

(** The thread of [service<k>.c] and of [server<k>.c]. *)
Definition text (k : Z) : string := "sending from server" +:+ dec k.

Definition func_start : prog buf := puts ("thread started" +:+ nl);; mret (fresh 30).

Definition func_round (k nfd : Z) (namebuffer : buf) : prog buf :=
  '(_, namebuffer) ← recv nfd namebuffer 30;
  s ← str namebuffer;
  puts ("got from client" +:+ s +:+ nl);;
  do_ (Send nfd (lit (text k)) 30);;
  mret namebuffer.

(** [mid/tss/service<k>.c]: the third client is turned away.  [service1.c] says
    that it was started, and [service2.c] prints the port of the client. *)
Definition max_clients : nat := 3.

Definition service_start (k : Z) : prog Z :=
  sfd ← sysv (Socket AF_INET SOCK_STREAM 0);
  error_quit sfd "error in socket call";;
  set ← sysv (Setsockopt sfd "SO_REUSEADDR");
  error_quit set "calling sockpot";;
  b ← sysv (Bind sfd (any_addr (8999 + k)));
  error_quit b "error in bind";;
  l ← sysv (Listen sfd 3);
  error_quit l "error in listening";;
  (if k =? 1 then puts ("server1 forked" +:+ nl) else mret tt);;
  mret sfd.

Definition print_port (nfd : Z) : prog unit :=
  r ← sys (LibCall "getpeername" [nfd] []);
  p ← need (head (rints r));
  puts ("the client port is" +:+ dec p +:+ nl).

Definition service_round (k sfd clients_no : Z) : prog Z :=
  nfd ← sysv (Accept sfd);
  error_quit nfd "error in accept";;
  if 2 <=? clients_no then
    puts ("max clients reached : Disconnectinf" +:+ (if k =? 2 then dec clients_no else "") +:+ nl);;
    do_ (Close nfd);;
    mret clients_no
  else
    puts ("client accepted" +:+ nl);;
    (if k =? 2 then print_port nfd else mret tt);;
    need (aset (replicate max_clients tt) clients_no tt);;
    do_ (PthreadCreate "func" "&nfd");;
    mret (clients_no + 1).

Definition service_main (k : Z) (n : nat) : prog Z := sfd ← service_start k; forever n (service_round k sfd) 0.

(** [mid/mss/server<k>.c]: it registers its port; [server1.c] also reports the
    name of its socket. *)
Definition server_start (k : Z) : prog Z :=
  nfd ← sysv (Socket AF_INET SOCK_STREAM 0);
  error_note nfd "socket call";;
  c ← sysv (Connect nfd (any_addr 8000));
  error_note c "connect call";;
  do_ (Perror "connect :");;
  do_ (Send nfd (lit (dec (8000 + k))) 10);;
  (if k =? 1 then
     r ← sys (LibCall "getsockname" [nfd] []);
     p ← need (head (rints r));
     puts ("The port is" +:+ dec p +:+ nl);;
     puts ("Peer IP address: " +:+ rdata r +:+ nl)
   else mret tt);;
  nfd ← sysv (Socket AF_INET SOCK_STREAM 0);
  error_note nfd "socket call";;
  set ← sysv (Setsockopt nfd (if k =? 1 then "SO_REUSEPORT" else "SO_REUSEADDR"));
  error_note set "calling sockpot";;
  b ← sysv (Bind nfd (any_addr (8000 + k)));
  error_note b "bind error";;
  l ← sysv (Listen nfd 5);
  error_note l "listen error";;
  mret nfd.

Definition server_round (nfd noofclients : Z) : prog Z :=
  nsfd ← sysv (Accept nfd);
  error_note nsfd "accept call";;
  do_ (Perror "accept:");;
  need (aset (replicate max_clients tt) noofclients tt);;
  do_ (PthreadCreate "func" "&nsfd");;
  mret (noofclients + 1).

Definition server_main (k : Z) (n : nat) : prog Z := nfd ← server_start k; forever n (server_round nfd) 0.

(** The six programs. *)
Definition service1 : nat → prog Z := service_main 1.
Definition service2 : nat → prog Z := service_main 2.
Definition service3 : nat → prog Z := service_main 3.
Definition server1 : nat → prog Z := server_main 1.
Definition server2 : nat → prog Z := server_main 2.
Definition server3 : nat → prog Z := server_main 3.

(** The client asks the registry for the port of the service [argv1], connects
    to it and converses.  [mid/tss/client.c] asks on port 8000, that of [mid/mss]
    on port 9000; they print different things. *)
Definition client_start (mss : bool) (argv1 : string) : prog Z :=
  sfd ← sysv (Socket AF_INET SOCK_STREAM 0);
  do_ (Connect sfd (any_addr (if mss then 9000 else 8000)));;
  do_ (Send sfd (lit argv1) 8);;
  '(_, portbuffer) ← recv sfd (fresh 10) 10;
  text ← str portbuffer;
  port ← need (atoi text);
  puts (dec port +:+ nl);;
  csfd ← sysv (Socket AF_INET SOCK_STREAM 0);
  do_ (Connect csfd (any_addr port));;
  (if mss then do_ (Perror "commect :");; puts (dec csfd +:+ nl) else mret tt);;
  mret csfd.

Definition trace (mss : bool) (s : string) : prog unit := if mss then mret tt else puts (s +:+ nl).

Definition client_round (mss : bool) (csfd : Z) : prog Z :=
  trace mss "connection9";;
  s ← sysv (Send csfd (lit "from client to server") 30);
  error_print s "sending error";;
  trace mss "connection3";;
  do_ (Sleep 3);;
  trace mss "connection4";;
  '(v, printbuffer) ← recv csfd (fresh 30) 30;
  error_print v "recv error";;
  trace mss "connection5";;
  t ← str printbuffer;
  puts (t +:+ nl);;
  trace mss "connection2";;
  mret csfd.

Definition client (mss : bool) (argv1 : string) (n : nat) : prog Z :=
  csfd ← client_start mss argv1; forever n (client_round mss) csfd.

Definition tss_client : string → nat → prog Z := client false.
Definition mss_client : string → nat → prog Z := client true.

(** *** Sessions *)

Definition service_opening (k sfd : Z) : list label :=
  [Did (Socket AF_INET SOCK_STREAM 0) sfd; Did (Setsockopt sfd "SO_REUSEADDR") 0; Did (Bind sfd (any_addr (8999 + k))) 0; Did (Listen sfd 3) 0].

(** The first two clients get a thread, the others are disconnected; [peer] is
    the port of a client. *)
Definition taken (k sfd : Z) (peer : Z → Z) (i : nat) (fd : Z) : list label :=
  [Did (Accept sfd) fd] ++
  (if (i <? 2)%nat then
     (if k =? 2 then [Told (LibCall "getpeername" [fd] []) (Reply 0 "" [peer fd] [])] else []) ++ [Did (PthreadCreate "func" "&nfd") 0]
   else [Did (Close fd) 0]).

Lemma worker_starts k sfd :
  0 ≤ sfd → plays net (returns (eq sfd)) (service_start k) (service_opening k sfd).
Proof. intros Hs. unfold service_start, service_opening. repeat serve. destruct (k =? 1); repeat serve; done. Qed.

Lemma service_round_plays k sfd peer i fd :
  0 ≤ fd →
  plays net (returns (eq (Z.of_nat (S i `min` 2)))) (service_round k sfd (Z.of_nat (i `min` 2))) (taken k sfd peer i fd).
Proof.
  intros Hfd. unfold service_round, taken. cbn [app]. do 2 serve. destruct (Nat.ltb_spec i 2) as [Hl|Hl].
  - rewrite (proj2 (Z.leb_gt _ _)) by lia. serve. apply (plays_bind net (λ _, True)).
    { destruct (k =? 2); [|by serve]. unfold print_port. serve. cbn [head rints]. by repeat serve. }
    intros _ _. eapply plays_need; [apply aset_Some; rewrite length_replicate; unfold max_clients; lia|].
    serve. serve. lia.
  - rewrite (proj2 (Z.leb_le _ _)) by lia. serve. serve. serve. lia.
Qed.

Lemma service_plays k sfd peer fds :
  0 ≤ sfd → Forall (Z.le 0) fds →
  plays net (returns (eq (Z.of_nat (length fds `min` 2)))) (service_main k (length fds))
    (service_opening k sfd ++ concat (imap (taken k sfd peer) fds)).
Proof.
  intros Hs Hfds. unfold service_main. eapply plays_bind; [by apply worker_starts|].
  intros ? <-. apply (plays_forever_imap net (λ l i, Z.of_nat (length l `min` 2) = i) (taken k sfd peer) fds); [|done].
  intros done_ fd rest i E <-. rewrite length_app, Nat.add_1_r. apply service_round_plays.
  rewrite Forall_lookup in Hfds. apply (Hfds (length done_)). rewrite E. by apply list_lookup_middle.
Qed.

Definition server_opening (k fd nfd peer : Z) (address : string) : list label :=
  [Did (Socket AF_INET SOCK_STREAM 0) fd; Did (Connect fd (any_addr 8000)) 0; Sent fd 10 (dec (8000 + k))] ++
  (if k =? 1 then [Told (LibCall "getsockname" [fd] []) (Reply 0 address [peer] [])] else []) ++
  [Did (Socket AF_INET SOCK_STREAM 0) nfd; Did (Setsockopt nfd (if k =? 1 then "SO_REUSEPORT" else "SO_REUSEADDR")) 0;
   Did (Bind nfd (any_addr (8000 + k))) 0; Did (Listen nfd 5) 0].
Definition served (nfd fd : Z) : list label := [Did (Accept nfd) fd; Did (PthreadCreate "func" "&nsfd") 0].

Lemma lit_text s : nonul s = true → cstr (lit s) = Some s.
Proof. intros. rewrite <- (app_nil_r (lit s)). by apply cstr_lit. Qed.

Lemma server_starts k fd nfd peer address :
  0 ≤ fd → 0 ≤ nfd →
  plays net (returns (eq nfd)) (server_start k) (server_opening k fd nfd peer address).
Proof.
  intros Hf Hn. unfold server_start, server_opening. cbn [app]. do 5 step.
  eapply plays_send; [done|apply lit_text, dec_nonul|].
  apply (plays_bind net (λ _, True)).
  - destruct (k =? 1); [|by step]. step. cbn [head rints rdata]. by repeat step.
  - intros _ _. repeat step. done.
Qed.

Lemma worker_round_plays nfd k fd :
  0 ≤ fd → (k < max_clients)%nat →
  plays net (returns (eq (Z.of_nat (S k)))) (server_round nfd (Z.of_nat k)) (served nfd fd).
Proof.
  intros Hfd Hk. unfold server_round, served. do 3 step.
  eapply plays_need; [apply aset_Some; rewrite length_replicate; lia|]. step. step. lia.
Qed.

Lemma server_overrun nfd fd :
  0 ≤ fd → plays net (eq UB) (server_round nfd (Z.of_nat max_clients)) [Did (Accept nfd) fd].
Proof. intros Hfd. unfold server_round. do 3 step. by apply plays_undef. Qed.

(** The client up to its connection with the service. *)
Lemma worker_client_starts mss sfd csfd argv1 port :
  nonul argv1 = true → fits_int port = true →
  plays net (returns (eq csfd)) (client_start mss argv1)
    [Did (Socket AF_INET SOCK_STREAM 0) sfd; Did (Connect sfd (any_addr (if mss then 9000 else 8000))) 0; Sent sfd 8 argv1; Got sfd 10 (dec port);
     Did (Socket AF_INET SOCK_STREAM 0) csfd; Did (Connect csfd (any_addr port)) 0].
Proof.
  intros Ha Hp. unfold client_start. do 2 step. eapply plays_send; [done|by apply lit_text|]. repeat step.
  apply (plays_bind net (λ _, True) _ _ [] []); [destruct mss; by repeat step|]. intros _ _. by step.
Qed.

(** *** The conversation of a client and the thread of its service *)

Lemma plays_printing {B} v m (f : unit → prog B) ls Q : plays net Q (f tt) ls → plays net Q (error_print v m ≫= f) ls.
Proof. intros H. unfold error_print. destruct (v <? 0); [by step|done]. Qed.

Lemma plays_tracing {B} mss t (f : unit → prog B) ls Q : plays net Q (f tt) ls → plays net Q (trace mss t ≫= f) ls.
Proof. intros H. unfold trace. destruct mss; [done|by step]. Qed.

Lemma client_part mss fd k :
  part (worker fd (client_round mss)) (eq fd) (mret fd) [] [Out 30 "from client to server"; In 30 (text k)].
Proof.
  split; [apply fixed_total|exists []; split; [by apply List.Forall_nil|]; split; [by apply plays_return|done]|].
  split; [done|]. intros s <-. exists [Sent fd 30 "from client to server"; Got fd 30 (text k)].
  split; [all_told|]. split; [|by eval_items]. unfold client_round. apply plays_tracing.
  apply plays_watched; [done|eexists; split; [by left|reflexivity]|]. intros r _. apply plays_printing, plays_tracing. step.
  apply plays_tracing. step. apply plays_printing, plays_tracing. do 2 step. apply plays_tracing. by step.
Qed.

Lemma text_nonul k : nonul (text k) = true.
Proof. unfold text. rewrite nonul_app. by rewrite dec_nonul. Qed.

Lemma worker_func_part nfd k :
  part (worker nfd (func_round k nfd)) (at_buffer 30) func_start [] (flip <$> [Out 30 "from client to server"; In 30 (text k)]).
Proof.
  split; [apply fixed_total|exists []; split; [by apply List.Forall_nil|]; split; [|done]|].
  { unfold func_start. step. step. apply length_fresh. }
  split; [done|]. intros b Hb. unfold at_buffer in Hb. exists [Got nfd 30 "from client to server"; Sent nfd 30 (text k)].
  split; [all_told|]. split; [|by eval_items]. unfold func_round. step. do 2 step. eapply plays_send; [done|by apply lit_text, text_nonul|].
  step. unfold at_buffer. by rewrite <- Hb.
Qed.
End Workers.

(** ** [mid/ss/server.c] *)
Module ThreePorts.

Definition services_count : Z := 3.

(** The descriptors of the services.  The names point to the buffer of
    [server_init], which is gone: reading one is undefined. *)
Definition service_name : option string := None.

Definition open_one (i : Z) (s : list (option Z) * Z) : prog (list (option Z) * Z) :=
  sfd ← sysv (Socket AF_INET SOCK_STREAM 0);
  fdp ← need (iset s.1 i sfd);
  let maxfd := if s.2 <? sfd then sfd else s.2 in
  set ← sysv (Setsockopt sfd "SO_REUSEADDR");
  error_puts set "calling sockpot";;
  error_puts sfd "socket call error";;
  b ← sysv (Bind sfd (SaIn (9000 + i) INADDR_ANY));
  error_puts b "bind call error";;
  l ← sysv (Listen sfd 3);
  error_puts l "listen call error";;
  mret (fdp, maxfd).

Definition rep (fdp : list (option Z)) : prog fd_set :=
  puts ("called" +:+ nl);;
  for_up 0 services_count (λ i _, f ← need (iget fdp i); puts (dec f)) tt;;
  for_up 0 services_count (λ i readset, f ← need (iget fdp i); mret (FD_SET f readset)) ∅.

(** Lines 106-118, for the service [j]: it receives from the listening socket,
    not from the connection. *)
Definition visit (fdp : list (option Z)) (j : Z) (readset : fd_set) : prog fd_set :=
  puts ("loop construct" +:+ nl);;
  sfd ← need (iget fdp j);
  if FD_ISSET sfd readset then
    puts ("the velue of j: " +:+ dec j +:+ nl);;
    nfd ← sysv (Accept sfd);
    puts ("accpted client : " +:+ dec nfd +:+ nl);;
    '(_, buffer) ← recv sfd (fresh 5) 5;
    text ← str buffer;
    puts ("server :" +:+ text +:+ nl);;
    name ← need service_name;
    puts (name +:+ "got selected" +:+ nl);;
    puts ("reached me" +:+ nl);;
    do_ (Sleep 2);;
    mret (readset ∖ {[sfd]})
  else mret readset.

Definition round (s : list (option Z) * Z) : prog (list (option Z) * Z) :=
  let '(fdp, maxfd) := s in
  puts ("entered" +:+ nl);;
  readset ← rep fdp;
  r ← sys (Select (maxfd + 1) (elements readset) true);
  error_puts (rv r) "select call error";;
  for_up 0 (maxfd + 1) (λ _, for_up 0 services_count (visit fdp)) (list_to_set (rints r) : fd_set);;
  mret (fdp, maxfd).

Definition start : prog (list (option Z) * Z) :=
  s ← for_up 0 services_count open_one (replicate 3 None, -1);
  puts ("max fd is" +:+ dec s.2 +:+ nl);;
  mret s.

Definition main (n : nat) : prog (list (option Z) * Z) := s ← start; forever n round s.

(** The client of service [service_wanted]. *)
Definition client (argv1 : string) : prog unit :=
  service_wanted ← need (atoi argv1);
  puts ("service wanted" +:+ dec service_wanted +:+ nl);;
  port ← need (int_add 9000 service_wanted ≫= λ p, int_add p (-1));
  nfd ← sysv (Socket AF_INET SOCK_STREAM 0);
  error_puts nfd "socket call error";;
  c ← sysv (Connect nfd (SaIn (u16 port) INADDR_ANY));
  error_puts c "connect call error";;
  do_ (Sleep 3);;
  do_ (Send nfd (lit "cool") 5);;
  mret tt.

Definition opening (fds : list Z) : list label :=
  concat (imap (λ i fd, [Did (Socket AF_INET SOCK_STREAM 0) fd; Did (Setsockopt fd "SO_REUSEADDR") 0;
                         Did (Bind fd (SaIn (9000 + Z.of_nat i) INADDR_ANY)) 0; Did (Listen fd 3) 0]) fds).

Definition maxfd (fds : list Z) : Z := foldl Z.max (-1) fds.


Section session.
Variables (a b c : Z).
Hypothesis (Ha : 0 ≤ a) (Hb : 0 ≤ b) (Hc : 0 ≤ c) (Hab : a ≠ b) (Hac : a ≠ c) (Hbc : b ≠ c).
Let fds : list Z := [a; b; c].
Let fdp : list (option Z) := Some <$> fds.
Definition all_fds : fd_set := FD_SET c (FD_SET b (FD_SET a ∅)).

Lemma ports_start_plays : plays net (returns (eq (Some <$> fds, maxfd fds))) start (opening fds).
Proof.
  unfold start. rewrite <- (app_nil_r (opening fds)). eapply plays_bind; [|intros s Hs; step; step; exact Hs].
  unfold for_up, opening, maxfd, fds. cbn [Z.to_nat services_count Z.sub Z.add Z.opp Pos.to_nat Pos.iter_op Nat.add for_n imap concat app foldl].
  unfold compose. cbn [concat imap app].
  eapply (plays_bind net (eq ([Some a; None; None], Z.max (-1) a)) _ _ (_ :: _ :: _ :: _ :: [])); [|intros ? <-].
  { unfold open_one. cbn [fst snd]. step. apply (plays_need _ _ [Some a; None; None]); [done|]. repeat step. f_equal. destruct (Z.ltb_spec (-1) a); lia. }
  eapply (plays_bind net (eq ([Some a; Some b; None], Z.max (Z.max (-1) a) b)) _ _ (_ :: _ :: _ :: _ :: [])); [|intros ? <-].
  { unfold open_one. cbn [fst snd]. step. apply (plays_need _ _ [Some a; Some b; None]); [done|]. repeat step. f_equal.
    destruct (Z.ltb_spec (Z.max (-1) a) b); lia. }
  eapply (plays_bind net (eq ([Some a; Some b; Some c], Z.max (Z.max (Z.max (-1) a) b) c)) _ _ (_ :: _ :: _ :: _ :: []) []);
    [|intros ? <-; by apply plays_return].
  unfold open_one. cbn [fst snd]. step. apply (plays_need _ _ [Some a; Some b; Some c]); [done|]. repeat step. f_equal.
  destruct (Z.ltb_spec (Z.max (Z.max (-1) a) b) c); lia.
Qed.

Lemma rep_plays : plays net (returns (eq all_fds)) (rep fdp) [].
Proof.
  unfold rep. step. apply (plays_skip net (eq tt)).
  - unfold for_up. cbn. repeat first [play | apply plays_silent; [done|]; intros ?; cbn]. done.
  - intros ? _. by apply plays_return.
Qed.

(** Services that are not ready are passed over. *)
Lemma visit_other j f ready :
  iget fdp j = Some f → f ≠ ready → plays net (returns (eq (list_to_set [ready]))) (visit fdp j (list_to_set [ready])) [].
Proof.
  intros Hj Hf. unfold visit. step. rewrite Hj. cbn [need mbind prog_mbind prog_bind].
  assert (FD_ISSET f (list_to_set [ready]) = false) as -> by (apply bool_decide_eq_false_2; set_solver). by step.
Qed.

Lemma visit_ready j f nfd r :
  iget fdp j = Some f → rdata r = EmptyString →
  plays net (eq UB) (visit fdp j (list_to_set [f])) [Did (Accept f) nfd; Told (Recv f 5) r].
Proof.
  intros Hj Hr. unfold visit. step. rewrite Hj. cbn [need mbind prog_mbind prog_bind].
  assert (FD_ISSET f (list_to_set [f]) = true) as -> by (apply bool_decide_eq_true_2; set_solver). do 3 step.
  eapply plays_recv_told; [done|rewrite Hr; reflexivity|]. by apply plays_undef.
Qed.

Lemma round_undefined ready nfd r :
  ready ∈ fds → rdata r = EmptyString →
  plays net (eq UB) (round (fdp, maxfd fds))
    [Told (Select (maxfd fds + 1) (elements all_fds) true) (ints_ [ready]); Did (Accept ready) nfd; Told (Recv ready 5) r].
Proof.
  intros Hin Hr. unfold round. step. apply (plays_skip net (eq all_fds)); [exact rep_plays|intros ? <-]. step. cbn [rv ints_ rints length]. step.
  apply plays_bind_UB. rewrite for_up_first by (unfold maxfd, fds; cbn; lia). apply plays_bind_UB.
  unfold for_up. cbn [Z.to_nat services_count Z.sub Z.add Z.opp Pos.to_nat Pos.iter_op Nat.add for_n].
  assert (∀ j f, iget fdp j = Some f → f ≠ ready → ∀ (g : fd_set → prog fd_set) ls, plays net (eq UB) (g (list_to_set [ready] : fd_set)) ls →
    plays net (eq UB) (visit fdp j (list_to_set [ready]) ≫= g) ls) as Hskip.
  { intros j f Hj Hf g ls Hg. eapply plays_skip; [by eapply visit_other|]. by intros ? <-. }
  unfold fds in Hin. rewrite !elem_of_cons, elem_of_nil in Hin. destruct Hin as [->|[->|[->|[]]]].
  - apply plays_bind_UB. by apply visit_ready.
  - eapply Hskip; [reflexivity|done|]. apply plays_bind_UB. by apply visit_ready.
  - eapply Hskip; [reflexivity|done|]. eapply Hskip; [reflexivity|done|]. apply plays_bind_UB. by apply visit_ready.
Qed.
End session.
End ThreePorts.

(** ** [mid/inetd/server.c] and [mid/superserver/server.c] *)
Module Inetd.

Definition FD_SETSIZE : Z := 1024.

(** The round of the loop over the three sockets; the child uses the variable
    [i] of the loop to close them, and goes on with the loop if [execve]
    fails. *)
Definition visit (sfd : list (option Z)) (tempset : fd_set) (i : Z) : prog (Z + unit) :=
  if i <? 3 then
    f ← need (iget sfd i);
    if FD_ISSET f tempset then
      nfd ← sysv (Accept f);
      servnamebuffer ← need (sprintf (fresh 30) ("server" +:+ dec (i + 1)));
      name ← str servnamebuffer;
      puts ("servnamebuffer " +:+ name +:+ nl);;
      c ← sysv Fork;
      if c =? 0 then
        puts ("child process entered" +:+ nl);;
        for_up 0 3 (λ i _, f ← need (iget sfd i); do_ (Close f)) tt;;
        do_ (Dup2 nfd 0);;
        do_ (Dup2 nfd 1);;
        do_ (Exec name []);;
        mret (inl (3 + 1))
      else
        do_ (Close nfd);;
        mret (inl (i + 1))
    else mret (inl (i + 1))
  else mret (inr tt).

Definition round (readset : fd_set) (sfd : list (option Z)) : prog (list (option Z)) :=
  r ← sys (Select FD_SETSIZE (elements readset) true);
  loop 4 (visit sfd (list_to_set (rints r))) 0;;
  mret sfd.

Definition open_one (i : Z) (s : list (option Z) * fd_set) : prog (list (option Z) * fd_set) :=
  f ← sysv (Socket AF_INET SOCK_STREAM 0);
  sfd ← need (iset s.1 i f);
  result ← sysv (Setsockopt f "SO_REUSEADDR");
  (if result <? 0 then puts ("sock" +:+ nl +:+ nl) else mret tt);;
  do_ (Bind f (any_addr (8000 + i)));;
  do_ (Listen f 3);;
  mret (sfd, FD_SET f s.2).

Definition start : prog (list (option Z) * fd_set) := for_up 0 3 open_one (replicate 3 None, ∅).

Definition main (n : nat) : prog (list (option Z)) := s ← start; forever n (round s.2) s.1.

(** *** Sessions *)

(** The service [i] is asked for: the connection and the process forked. *)
Definition asked (i : nat) (f : Z) (x : option (Z * Z)) : list label :=
  match x with
  | Some (nfd, pid) => [Did (Accept f) nfd; Did Fork pid; Did (Close nfd) 0]
  | None => []
  end.

Definition ready_fds (l : list (Z * option (Z * Z))) : list Z := omap (λ x, (λ _, x.1) <$> x.2) l.

(** What the child of service [i] does. *)
Definition becomes (fds : list Z) (i : nat) (f nfd : Z) : list label :=
  [Did (Accept f) nfd; Did Fork 0] ++ ((λ f, Did (Close f) 0) <$> fds) ++
  [Did (Dup2 nfd 0) 0; Did (Dup2 nfd 1) 1; Did (Exec ("server" +:+ dec (Z.of_nat i + 1)) []) (-1)].

Section session.
Variables (l : list (Z * option (Z * Z))).
Hypothesis (Hlen : length l = 3%nat) (Hdup : NoDup l.*1).
Hypothesis Hpid : ∀ x y, x ∈ l → x.2 = Some y → y.2 ≠ 0.

Let sfd : list (option Z) := Some <$> l.*1.
Let tempset : fd_set := list_to_set (ready_fds l).

Lemma sfd_get i x : l !! i = Some x → iget sfd (Z.of_nat i) = Some x.1.
Proof. intros H. unfold iget, sfd. rewrite aget_nat, !list_lookup_fmap, H. done. Qed.

Lemma is_ready i x : l !! i = Some x → FD_ISSET x.1 tempset = bool_decide (is_Some x.2).
Proof.
  intros H. unfold FD_ISSET, tempset, ready_fds. apply bool_decide_ext. rewrite elem_of_list_to_set, list_elem_of_omap. split.
  - intros (y & Hy & E). destruct y as [f o]. cbn in E. destruct o as [z|]; [|done]. injection E as ->.
    apply list_elem_of_lookup in Hy as [j Hj]. assert (i = j) as <-.
    { eapply NoDup_lookup; [exact Hdup| |]; rewrite list_lookup_fmap; [by rewrite H|by rewrite Hj]. }
    rewrite H in Hj. injection Hj as ->. by exists z.
  - intros [z Hz]. exists x. split; [by eapply list_elem_of_lookup_2|]. by rewrite Hz.
Qed.

Lemma visit_plays i x :
  l !! i = Some x → plays net (returns (eq (inl (Z.of_nat (S i))))) (visit sfd tempset (Z.of_nat i)) (asked i x.1 x.2).
Proof.
  intros H. pose proof (lookup_lt_Some _ _ _ H) as Hi. unfold visit. rewrite (proj2 (Z.ltb_lt _ _)) by lia.
  rewrite (sfd_get _ _ H). cbn [need mbind prog_mbind prog_bind]. rewrite (is_ready _ _ H).
  destruct x as [f [[nfd pid]|]]; cbn [fst snd asked].
  - rewrite bool_decide_eq_true_2 by by eexists. step.
    destruct (sprintf_fits (fresh 30) ("server" +:+ dec (Z.of_nat i + 1))) as (b & Eb & Hc & _).
    { by rewrite nonul_app, dec_nonul. }
    { pose proof (dec_length (Z.of_nat i + 1)). rewrite string_length_app, length_fresh. cbn. lia. }
    eapply plays_need; [exact Eb|]. do 3 step. rewrite (proj2 (Z.eqb_neq _ _)).
    + do 2 step. f_equal. lia.
    + apply (Hpid (f, Some (nfd, pid)) (nfd, pid)); [by eapply list_elem_of_lookup_2|done].
  - rewrite bool_decide_eq_false_2 by (by intros [? ?]). step. f_equal. lia.
Qed.

(** The parent: every service that was asked for gets a process, in order. *)
Lemma visits_play k n rest :
  (k + length rest = 3)%nat → rest = drop k l → (length rest < n)%nat →
  plays net (returns (eq (inr tt))) (loop n (visit sfd tempset) (Z.of_nat k)) (concat (imap (λ i x, asked (k + i) x.1 x.2) rest)).
Proof.
  revert k n. induction rest as [|x rest IH]; intros k [|n] Hk E Hn; [lia..| |lia|].
  - cbn in Hk. rewrite Nat.add_0_r in Hk. subst k. cbn [loop imap concat]. unfold visit at 2. change (Z.of_nat 3 <? 3) with false. cbv iota. by repeat step.
  - cbn [loop]. assert (l !! k = Some x) as Hx by (rewrite <- (Nat.add_0_r k), <- lookup_drop, <- E; done).
    rewrite imap_cons. cbn [concat]. rewrite Nat.add_0_r. eapply plays_bind; [by apply visit_plays|]. intros ? <-.
    rewrite (imap_ext _ (λ i x, asked (S k + i) x.1 x.2)) by (intros; unfold compose; f_equal; lia).
    apply IH; [cbn in Hk; lia| |cbn in Hn; lia]. replace (S k) with (k + 1)%nat by lia. by rewrite <- drop_drop, <- E.
Qed.

Lemma inetd_round_plays readset :
  plays net (returns (eq sfd)) (round readset sfd)
    (Told (Select FD_SETSIZE (elements readset) true) (ints_ (ready_fds l)) :: concat (imap (λ i x, asked i x.1 x.2) l)).
Proof.
  unfold round. step. cbn [rints ints_]. eapply plays_last; [|intros ? _; by step]. apply (visits_play 0 4 l); [done|done|lia].
Qed.

(** The child of the first service that is asked for executes its program with
    the connection as standard input and output. *)
Lemma inetd_child_plays i f nfd pid :
  l !! i = Some (f, Some (nfd, pid)) →
  plays net (returns (eq (inl 4))) (visit sfd tempset (Z.of_nat i)) (becomes l.*1 i f nfd).
Proof.
  intros H. pose proof (lookup_lt_Some _ _ _ H) as Hi. unfold visit, becomes. rewrite (proj2 (Z.ltb_lt _ _)) by lia.
  rewrite (sfd_get _ _ H). cbn [need mbind prog_mbind prog_bind fst]. pose proof (is_ready _ _ H) as E. cbn [fst snd] in E. rewrite E.
  rewrite bool_decide_eq_true_2 by by eexists. cbn [app]. step.
  destruct (sprintf_fits (fresh 30) ("server" +:+ dec (Z.of_nat i + 1))) as (b & Eb & Hc & _).
  { by rewrite nonul_app, dec_nonul. }
  { pose proof (dec_length (Z.of_nat i + 1)). rewrite string_length_app, length_fresh. cbn. lia. }
  eapply plays_need; [exact Eb|]. do 3 step. change (0 =? 0) with true. cbv iota. step.
  apply (plays_bind net (λ _, True)); [|intros ? _; by repeat step].
  rewrite <- concat_single, <- (Z.add_0_l 3). replace 3 with (Z.of_nat (length l.*1)) by (rewrite length_fmap, Hlen; done).
  apply (plays_for_list net (λ _ _, True)); [|done]. intros done_ g rest s Eg _. rewrite Z.add_0_l.
  assert (iget sfd (Z.of_nat (length done_)) = Some g) as ->.
  { unfold iget, sfd. rewrite aget_nat, list_lookup_fmap, Eg, list_lookup_middle; done. }
  cbn [need mbind prog_mbind prog_bind]. apply plays_watched; [done|done|]. intros. by apply plays_return.
Qed.
End session.
End Inetd.

(** [mid/superserver/server.c]: one service, and the parent waits for it. *)
Module Superserver.

Definition start : prog Z :=
  sfd ← sysv (Socket AF_INET SOCK_STREAM 0);
  do_ (Bind sfd (any_addr 8002));;
  do_ (Listen sfd 3);;
  mret sfd.

Definition round (sfd : Z) : prog Z :=
  puts ("camehere" +:+ nl);;
  r ← sys (Select (sfd + 1) (elements (FD_SET sfd ∅)) true);
  puts ("camehere1" +:+ nl);;
  if FD_ISSET sfd (list_to_set (rints r)) then
    puts ("camehere2" +:+ nl);;
    nsfd ← sysv (Accept sfd);
    c ← sysv Fork;
    if c =? 0 then
      puts ("from childprocess" +:+ nl);;
      do_ (Close sfd);;
      do_ (Dup2 nsfd 0);;
      do_ (Dup2 nsfd 1);;
      do_ (Exec "server1" []);;
      mret sfd
    else
      do_ Wait;;
      do_ (Close nsfd);;
      mret sfd
  else mret sfd.

Definition main (n : nat) : prog Z := sfd ← start; forever n round sfd.

Definition selected (sfd : Z) : label := Told (Select (sfd + 1) (elements (FD_SET sfd ∅)) true) (ints_ [sfd]).
Definition client (sfd : Z) (x : Z * Z) : list label :=
  [selected sfd; Did (Accept sfd) x.1; Did Fork x.2; Did Wait 0; Did (Close x.1) 0].

Lemma super_main_plays sfd l :
  Forall (λ x, x.2 ≠ 0) l →
  plays net (returns (eq sfd)) (main (length l))
    ([Did (Socket AF_INET SOCK_STREAM 0) sfd; Did (Bind sfd (any_addr 8002)) 0; Did (Listen sfd 3) 0] ++ concat (client sfd <$> l)).
Proof.
  intros Hl. unfold main. apply (plays_bind net (eq sfd)); [unfold start; by repeat step|]. intros ? <-.
  apply (plays_forever_list net (λ _, eq sfd)); [|done]. intros done_ x rest ? E <-.
  rewrite Forall_forall in Hl. assert (x.2 ≠ 0) as Hx by (apply Hl; rewrite E; apply elem_of_app; right; by left).
  unfold round, client, selected. do 3 step. cbn [rints ints_]. rewrite Starter.is_set. do 3 step. rewrite (proj2 (Z.eqb_neq _ _)) by done.
  by repeat step.
Qed.

Lemma super_child_plays sfd nfd :
  plays net (returns (eq sfd)) (round sfd)
    [selected sfd; Did (Accept sfd) nfd; Did Fork 0; Did (Close sfd) 0; Did (Dup2 nfd 0) 0; Did (Dup2 nfd 1) 1; Did (Exec "server1" []) (-1)].
Proof.
  unfold round, selected. do 3 step. cbn [rints ints_]. rewrite Starter.is_set. do 3 step. change (0 =? 0) with true. cbv iota. by repeat step.
Qed.
End Superserver.

(** ** The theorems *)

(** C20: [mid/tss]: whatever clients ask, in whatever rounds, each is told the
    port of the service it asked for, and the process of a service is forked
    when the first client asks for it and never again, so at most three are.  A
    round ends only after [max_fd + 1] clients, for the loop over the
    descriptors does not look at its index.  A number that no service has reads
    outside of the table, and a child whose [execve] fails goes on as a second
    server and answers the client, too. *)
Theorem starter_serves sfd ls :
  0 ≤ sfd → Forall (λ l, Forall Starter.good l ∧ Z.of_nat (length l) = sfd + 1) ls →
  plays net (returns (eq (Starter.after Starter.init (concat ls)))) (Starter.main (length ls))
    (Starter.opening sfd ++ Starter.sessions sfd Starter.init ls) ∧
  Starter.table (Starter.after Starter.init (concat ls)) ∧
  (length (Starter.forks (Starter.sessions sfd Starter.init ls)) ≤ 3)%nat ∧
  (∀ services nfd k, Starter.table services → 0 ≤ nfd → fits_int k = true → ¬ 0 ≤ k < 3 →
     plays net (eq UB) (Starter.serve_client sfd services) [Did (Accept sfd) nfd; Got nfd 30 (dec k)]) ∧
  (∀ services nfd i, Starter.table services → 0 ≤ nfd → (i < 3)%nat → Starter.running services i = false →
     plays net (returns (eq services)) (Starter.serve_client sfd services)
       [Did (Accept sfd) nfd; Got nfd 30 (dec (Z.of_nat i)); Did Fork 0; Did (Exec ("service" +:+ dec (Z.of_nat i + 1)) []) (-1);
        Sent nfd 30 (dec (9000 + Z.of_nat i))]).
Proof.
  intros Hs Hls. split_and!.
  - by apply Starter.starter_main_plays.
  - apply Starter.table_after; [apply Starter.init_table|]. apply Forall_concat. eapply Forall_impl; [exact Hls|]. by intros l [? _].
  - by apply (Starter.sessions_forks sfd Starter.init ls Starter.init_table).
  - intros. by apply Starter.serve_bad.
  - intros services nfd i Ht Hf Hi Hr. by apply (Starter.serve_child sfd services (Starter.Client nfd i 0)).
Qed.

(** Service 1 is asked for twice and started once. *)
Lemma starter_serves_witness :
  plays net (returns (eq (Starter.after Starter.init
      [Starter.Client 4 1 77; Starter.Client 5 1 78; Starter.Client 6 0 79; Starter.Client 7 1 80]))) (Starter.main 1)
    (Starter.opening 3 ++
     [Starter.ready 3; Did (Accept 3) 4; Got 4 30 "1"; Did Fork 77; Sent 4 30 "9001"; Did (Accept 3) 5; Got 5 30 "1"; Sent 5 30 "9001";
      Did (Accept 3) 6; Got 6 30 "0"; Did Fork 79; Sent 6 30 "9000"; Did (Accept 3) 7; Got 7 30 "1"; Sent 7 30 "9001"]).
Proof.
  refine (proj1 (starter_serves 3 [[Starter.Client 4 1 77; Starter.Client 5 1 78; Starter.Client 6 0 79; Starter.Client 7 1 80]] _ _)); [lia|].
  apply List.Forall_cons; [|apply List.Forall_nil]. split; [|done].
  repeat (apply List.Forall_cons; [unfold Starter.good; cbn; split_and!; lia|]). apply List.Forall_nil.
Defined.

(** The services of [mid/tss] and [mid/mss] and their client.  A service of
    [tss] starts a thread for two clients and disconnects all later ones; one
    of [mss] registers its port, starts a thread for three clients, and for the
    fourth writes behind the array.  The client asks the registry for the port
    and connects to it, and its conversation with the thread of any of the six
    services follows the script in every interleaving. *)
Theorem services_converse k sfd fd nfd peer address fds x :
  1 ≤ k ≤ 3 → 0 ≤ sfd → 0 ≤ fd → 0 ≤ nfd → Forall (Z.le 0) fds → 0 ≤ x →
  (∀ peer, plays net (returns (eq (Z.of_nat (length fds `min` 2)))) (Workers.service_main k (length fds))
    (Workers.service_opening k sfd ++ concat (imap (Workers.taken k sfd peer) fds))) ∧
  (((length fds ≤ 3)%nat →
    plays net (returns (eq (Z.of_nat (length fds)))) (Workers.server_main k (length fds))
      (Workers.server_opening k fd nfd peer address ++ concat (Workers.served nfd <$> fds))) ∧
   (length fds = 3%nat → ∀ n,
    plays net (eq UB) (Workers.server_main k (length fds + S n))
      (Workers.server_opening k fd nfd peer address ++ concat (Workers.served nfd <$> fds) ++ [Did (Accept nfd) x]))) ∧
  (∀ mss argv1 csfd port, nonul argv1 = true → fits_int port = true →
   plays net (returns (eq csfd)) (Workers.client_start mss argv1)
     [Did (Socket AF_INET SOCK_STREAM 0) sfd; Did (Connect sfd (any_addr (if mss then 9000 else 8000))) 0; Sent sfd 8 argv1;
      Got sfd 10 (dec port); Did (Socket AF_INET SOCK_STREAM 0) csfd; Did (Connect csfd (any_addr port)) 0]) ∧
  (∀ mss, converse (worker fd (Workers.client_round mss)) (worker nfd (Workers.func_round k nfd)) (mret fd) Workers.func_start
    (stream [] [Out 30 "from client to server"; In 30 (Workers.text k)])).
Proof.
  intros Hk Hs Hf Hn Hfds Hx. split; [|split; [|split]].
  - intros. by apply Workers.service_plays.
  - apply (rounds_then_UB (Workers.server_start k) (eq nfd) Workers.server_round 3 _ (Workers.served nfd)
      (λ fd, [Did (Accept nfd) fd])); [by apply Workers.server_starts| | |done..]; intros ? ?; [intros ? <-|intros <-];
      [apply Workers.worker_round_plays|apply Workers.server_overrun].
  - intros. by apply Workers.worker_client_starts.
  - intros mss. eapply parts_converse; [apply Workers.client_part|by apply Workers.worker_func_part|].
    assert (k = 1 ∨ k = 2 ∨ k = 3) as [->|[->| ->]] by lia;
      [change (Workers.text 1) with "sending from server1"|change (Workers.text 2) with "sending from server2"
      |change (Workers.text 3) with "sending from server3"]; proper_texts.
Qed.

Lemma services_converse_witness :
  plays net (returns (eq 2)) (Workers.service1 3)
    (Workers.service_opening 1 3 ++
     [Did (Accept 3) 4; Did (PthreadCreate "func" "&nfd") 0; Did (Accept 3) 5; Did (PthreadCreate "func" "&nfd") 0;
      Did (Accept 3) 6; Did (Close 6) 0]).
Proof.
  refine (proj1 (services_converse 1 3 3 4 40000 "127.0.0.1" [4; 5; 6] 7 _ _ _ _ _ _) (λ _, 0));
    first [lia|by repeat constructor].
Defined.

(** The super servers.  In a round of [mid/inetd], for every service whose
    socket is ready, in order, the connection is accepted, a process is forked
    and the parent closes its copy; the child closes the three listening
    sockets, takes the connection as its standard input and output and executes
    the program of the service.  [mid/superserver] does the same for its one
    service and waits for each child before it accepts the next client. *)
Theorem super_servers l readset i f nfd pid sfd clients :
  length l = 3%nat → NoDup l.*1 → (∀ x y, x ∈ l → x.2 = Some y → y.2 ≠ 0) → l !! i = Some (f, Some (nfd, pid)) →
  Forall (λ x, x.2 ≠ 0) clients →
  plays net (returns (eq (Some <$> l.*1))) (Inetd.round readset (Some <$> l.*1))
    (Told (Select Inetd.FD_SETSIZE (elements readset) true) (ints_ (Inetd.ready_fds l)) ::
     concat (imap (λ i x, Inetd.asked i x.1 x.2) l)) ∧
  plays net (returns (eq (inl 4))) (Inetd.visit (Some <$> l.*1) (list_to_set (Inetd.ready_fds l)) (Z.of_nat i))
    (Inetd.becomes l.*1 i f nfd) ∧
  plays net (returns (eq sfd)) (Superserver.main (length clients))
    ([Did (Socket AF_INET SOCK_STREAM 0) sfd; Did (Bind sfd (any_addr 8002)) 0; Did (Listen sfd 3) 0] ++
     concat (Superserver.client sfd <$> clients)) ∧
  plays net (returns (eq sfd)) (Superserver.round sfd)
    [Superserver.selected sfd; Did (Accept sfd) nfd; Did Fork 0; Did (Close sfd) 0; Did (Dup2 nfd 0) 0; Did (Dup2 nfd 1) 1;
     Did (Exec "server1" []) (-1)].
Proof.
  intros Hl Hd Hp Hi Hc. split_and!.
  - by apply Inetd.inetd_round_plays.
  - by eapply Inetd.inetd_child_plays.
  - by apply Superserver.super_main_plays.
  - apply Superserver.super_child_plays.
Qed.

(** Services 1 and 3 are asked for in the same round. *)
Lemma super_servers_witness :
  plays net (returns (eq [Some 3; Some 4; Some 5])) (Inetd.round {[3; 4; 5]} [Some 3; Some 4; Some 5])
    [Told (Select 1024 (elements ({[3; 4; 5]} : fd_set)) true) (ints_ [3; 5]);
     Did (Accept 3) 6; Did Fork 77; Did (Close 6) 0; Did (Accept 5) 6; Did Fork 78; Did (Close 6) 0].
Proof.
  refine (proj1 (super_servers [(3, Some (6, 77)); (4, None); (5, Some (6, 78))] {[3; 4; 5]} 0 3 6 77 3 [] _ _ _ _ _)); try done.
  - apply (bool_decide_unpack _). by vm_compute.
  - intros x y Hx Hy. rewrite !elem_of_cons, elem_of_nil in Hx. destruct Hx as [->|[->|[->|[]]]]; cbn in Hy; simplify_eq; cbn; lia.
Defined.
