(* ===== verification/Transfers.v ===== *)
(** * Datagrams and file transfers ([mid/udp], [end/udp], [ftp])

    [mid/udp]: a server that returns every datagram in capital letters but for
    its last byte, to the address it came from.  [ftp/passive] and [ftp/active]: a control connection
    on which a port and a file name are exchanged, and a data connection on
    which the server sends the words of the file, 255 bytes for each.  The
    server reads the file with [while(!feof(fp)) fscanf(fp,"%s",buf)]: [fscanf]
    is modelled on the content of the file, with its end-of-file indicator. *)

From S2P Require Import Prelude CString Posix Session FdPass Packet Echo.

(** ** [mid/udp] *)
Module Udp.

Definition server_addr : sockaddr := SaIn (htons 7891) (inet_addr "127.0.0.1").

Definition server_start : prog Z :=
  udpSocket ← sysv (Socket AF_INET SOCK_DGRAM 0);
  do_ (Bind udpSocket server_addr);;
  mret udpSocket.

(** [for(i=0;i<nBytes-1;i++) buffer[i] = toupper(buffer[i]);] *)
Definition upcase (nBytes : Z) (buffer : buf) : option buf :=
  for_up (M := option) 0 (nBytes - 1) (λ i b, c ← aget b i ≫= id; aset b i (Some (toupper c))) buffer.

(** [recvfrom] stores the address of the sender in [serverStorage]. *)
Definition server_round (udpSocket : Z) (s : buf * sockaddr) : prog (buf * sockaddr) :=
  let '(buffer, serverStorage) := s in
  puts ("d1" +:+ nl);;
  r ← sys (Recvfrom udpSocket 1024);
  buffer ← received buffer r;
  let serverStorage := match rints r with [port; host] => SaIn port host | _ => serverStorage end in
  puts ("d2" +:+ nl);;
  buffer ← need (upcase (rv r) buffer);
  do_ (Sendto udpSocket buffer (rv r) serverStorage);;
  mret (buffer, serverStorage).

Definition server (storage : sockaddr) (n : nat) : prog (buf * sockaddr) :=
  udpSocket ← server_start; forever n (server_round udpSocket) (fresh 1024, storage).

Definition client_round (clientSocket : Z) (buffer : buf) : prog buf :=
  puts ("Type a sentence to send to server:" +:+ nl);;
  r ← sys (Fgets 1024);
  buffer ← (if rv r =? 0 then mret buffer else received buffer r);
  s ← str buffer;
  puts ("You typed: " +:+ s);;
  nBytes ← need (strlen buffer);
  do_ (Sendto clientSocket buffer (nBytes + 1) server_addr);;
  '(_, buffer) ← recvfrom clientSocket buffer 1024;
  t ← str buffer;
  puts ("Received from server: " +:+ t +:+ nl);;
  mret buffer.

Definition client (n : nat) : prog buf :=
  clientSocket ← sysv (Socket AF_INET SOCK_DGRAM 0); forever n (client_round clientSocket) (fresh 1024).

End Udp.

(** ** [end/udp]: one message each way *)
Module Udp1.

(** The last address is that [recvfrom] stored. *)
Definition server (client_addr : sockaddr) : prog unit :=
  usfd ← sysv (Socket AF_INET SOCK_DGRAM 0);
  error_warn usfd "socket";;
  b ← sysv (Bind usfd (any_addr 8000));
  error_warn b "bind";;
  puts ("check1" +:+ nl);;
  r ← sys (Recvfrom usfd 30);
  buffer ← received (fresh 30) r;
  let client_addr := match rints r with [port; host] => SaIn port host | _ => client_addr end in
  s ← str buffer;
  puts (s +:+ nl);;
  do_ (Sendto usfd (lit "hai from server") 30 client_addr).

(** [client_addr.sin_addr.s_addr] is printed as an [int]. *)
Definition i32 (z : Z) : Z := u32 (z + 2147483648) - 2147483648.

Definition client (s_addr : Z) : prog unit :=
  usfd ← sysv (Socket AF_INET SOCK_DGRAM 0);
  error_warn usfd "socket";;
  do_ (Sendto usfd (lit "hai from client") 30 (any_addr 8000));;
  r ← sys (Recvfrom usfd 30);
  buffer ← received (fresh 30) r;
  let s_addr := match rints r with [_; host] => host | _ => s_addr end in
  s ← str buffer;
  puts (s +:+ nl);;
  puts (dec (i32 s_addr) +:+ nl).

End Udp1.

(** ** Reading words from a file *)

(** What is left to read, and the end-of-file indicator. *)
Record file := File_ { unread : string; feof : bool }.

(** The characters before the first white space, and what is left. *)
Fixpoint word (s : string) : string * string :=
  match s with
  | EmptyString => (EmptyString, EmptyString)
  | String c s' => if is_space c then (EmptyString, s) else let '(w, r) := word s' in (String c w, r)
  end.

(** [fscanf(fp, "%s", b)]: at the end of the file it stores nothing; the
    indicator is set when it had to look behind the last character. *)
Definition fscanf_s (fp : file) (b : buf) : option (buf * file) :=
  match skip_space (unread fp) with
  | EmptyString => Some (b, File_ EmptyString true)
  | s => let '(w, r) := word s in b' ← strcpy b w; Some (b', File_ r (String.eqb r EmptyString))
  end.

(** [while(!feof(fp)) { fscanf(fp,"%s",buf); sleep(1); send(newnfd,buf,255,0); }],
    for at most [n] rounds. *)
Fixpoint send_file (n : nat) (newnfd : Z) (fp : file) (b : buf) : prog unit :=
  if feof fp then mret tt
  else match n with
    | O => Undef
    | S n' =>
        '(b, fp) ← need (fscanf_s fp b);
        do_ (Sleep 1);;
        do_ (Send newnfd b 255);;
        send_file n' newnfd fp b
    end.

(** From [fopen] on; every round of the loop reads a character or is the last. *)
Definition serve_file (name : string) (newnfd : Z) : prog unit :=
  r ← sys (Open name "r+");
  if rv r =? 0 then Undef
  else send_file (S (String.length (rdata r))) newnfd (File_ (rdata r) false) (fresh 255).

(** ** [ftp/passive] *)
Module Passive.

(** A socket that listens on [port]. *)
Definition server : prog unit :=
  sfd ← sysv (Socket AF_INET SOCK_STREAM 0);
  error_warn sfd "socket";;
  set ← sysv (Setsockopt sfd "SO_REUSEADDR");
  error_warn set "calling sockpot";;
  b ← sysv (Bind sfd (any_addr 8000));
  error_warn b "bind";;
  l ← sysv (Listen sfd 5);
  error_warn l "listen";;
  nfd ← sysv (Accept sfd);
  error_warn nfd "accept";;
  buffer ← need (sprintf (fresh 30) (dec 8050));
  do_ (Send nfd buffer 30);;
  '(_, buffer) ← recv nfd buffer 30;
  name ← str buffer;
  puts ("File Name:" +:+ name +:+ nl);;
  do_ (Close nfd);;
  do_ (Close sfd);;
  newsfd ← sysv (Socket AF_INET SOCK_STREAM 0);
  set ← sysv (Setsockopt newsfd "SO_REUSEADDR");
  error_warn set "calling sockpot";;
  b ← sysv (Bind newsfd (any_addr 8050));
  error_warn b "bind";;
  l ← sysv (Listen newsfd 5);
  error_warn l "listen";;
  newnfd ← sysv (Accept newsfd);
  error_warn newnfd "accept";;
  serve_file name newnfd.

Definition client_start : prog Z :=
  nfd ← sysv (Socket AF_INET SOCK_STREAM 0);
  c ← sysv (Connect nfd (any_addr 8000));
  error_warn c "connect";;
  '(_, portbuf) ← recv nfd (fresh 30) 30;
  t ← str portbuf;
  port ← need (atoi t);
  puts ("PORT:" +:+ dec port +:+ nl);;
  buffer ← need (sprintf (fresh 30) "sample.txt");
  do_ (Send nfd buffer 30);;
  do_ (Close nfd);;
  do_ (Sleep 2);;
  newnfd ← sysv (Socket AF_INET SOCK_STREAM 0);
  c ← sysv (Connect newnfd (any_addr port));
  error_warn c "connect";;
  mret newnfd.

(** The loop of all three clients. *)
Definition client_round (newnfd : Z) : prog Z :=
  '(_, b) ← recv newnfd (fresh 255) 255;
  s ← str b;
  puts (s +:+ nl);;
  mret newnfd.

Definition client (n : nat) : prog Z := newnfd ← client_start; forever n client_round newnfd.

End Passive.

(** ** [ftp/active] *)
Module Active.

Definition server : prog unit :=
  sfd ← sysv (Socket AF_INET SOCK_STREAM 0);
  error_warn sfd "socket";;
  set ← sysv (Setsockopt sfd "SO_REUSEADDR");
  error_warn set "calling sockpot";;
  b ← sysv (Bind sfd (any_addr 8000));
  error_warn b "bind";;
  l ← sysv (Listen sfd 5);
  error_warn l "listen";;
  nfd ← sysv (Accept sfd);
  error_warn nfd "accept";;
  '(_, buffer) ← recv nfd (fresh 30) 30;
  t ← str buffer;
  port ← need (atoi t);
  puts ("PORT:" +:+ dec port +:+ nl);;
  '(_, buffer) ← recv nfd buffer 30;
  name ← str buffer;
  puts ("File Name:" +:+ name +:+ nl);;
  do_ (Close nfd);;
  newfd ← sysv (Socket AF_INET SOCK_STREAM 0);
  c ← sysv (Connect newfd (any_addr port));
  error_warn c "connect";;
  serve_file name newfd.

(** [ftp/active/client.c] ([ftp]) and its copy [end/sockets/client.c], which
    does not close the control connection and stores the port without [htons]. *)
Definition data_addr (ftp : bool) : sockaddr := if ftp then any_addr 8040 else SaIn 8040 INADDR_ANY.

Definition client_start (ftp : bool) : prog Z :=
  nfd ← sysv (Socket AF_INET SOCK_STREAM 0);
  c ← sysv (Connect nfd (any_addr 8000));
  error_warn c "connect";;
  namebuf ← need (sprintf (fresh 30) (dec 8040));
  do_ (Send nfd namebuf 30);;
  buffer ← need (sprintf (fresh 30) "sample.txt");
  do_ (Send nfd buffer 30);;
  (if ftp then do_ (Close nfd) else mret tt);;
  newsfd ← sysv (Socket AF_INET SOCK_STREAM 0);
  error_warn newsfd "socket";;
  set ← sysv (Setsockopt newsfd "SO_REUSEADDR");
  error_warn set "calling sockpot";;
  b ← sysv (Bind newsfd (data_addr ftp));
  error_warn b "bind";;
  l ← sysv (Listen newsfd 5);
  error_warn l "listen";;
  nfd ← sysv (Accept newsfd);
  error_warn nfd "accept";;
  puts ("FILE contents:" +:+ nl);;
  mret nfd.

Definition client (ftp : bool) (n : nat) : prog Z := nfd ← client_start ftp; forever n Passive.client_round nfd.
Definition sockets_client : nat → prog Z := client false.

End Active.

(** ** The capital letters *)

Lemma chars_smap f s : list_ascii_of_string (smap f s) = f <$> list_ascii_of_string s.
Proof. induction s as [|c s IH]; [done|]. cbn. by rewrite IH. Qed.

Lemma length_smap f s : String.length (smap f s) = String.length s.
Proof. induction s as [|c s IH]; [done|]. cbn. by rewrite IH. Qed.

Lemma toupper_nonul c : Ascii.eqb (toupper c) NUL = Ascii.eqb c NUL.
Proof. destruct c as [[] [] [] [] [] [] [] []]; reflexivity. Qed.

Lemma nonul_smap s : nonul (smap toupper s) = nonul s.
Proof. induction s as [|c s IH]; [done|]. cbn [smap nonul]. by rewrite IH, toupper_nonul. Qed.

(** What the loop is to make of a datagram: capitals of all bytes but the last. *)
Definition shouted (d : list ascii) : list ascii := (toupper <$> take (length d - 1) d) ++ drop (length d - 1) d.

Lemma length_shouted d : length (shouted d) = length d.
Proof. unfold shouted. rewrite length_app, length_fmap, length_take, length_drop. lia. Qed.

(** The last byte of a text is its end, so nothing of the text is left out. *)
Lemma shouted_text s : shouted (list_ascii_of_string s ++ [NUL]) = list_ascii_of_string (smap toupper s) ++ [NUL].
Proof.
  unfold shouted. rewrite length_app, Nat.add_sub. rewrite take_app_length, drop_app_length. by rewrite chars_smap.
Qed.

Lemma shouted_last d c : shouted (d ++ [c]) = (toupper <$> d) ++ [c].
Proof. unfold shouted. by rewrite length_app, Nat.add_sub, take_app_length, drop_app_length. Qed.

(** The loop replaces the bytes by their capitals and leaves the rest of the
    buffer. *)
Lemma upcase_loop cs junk :
  for_up (M := option) 0 (Z.of_nat (length cs)) (λ i b, c ← aget b i ≫= id; aset b i (Some (toupper c))) ((Some <$> cs) ++ junk)
    = Some ((Some <$> (toupper <$> cs)) ++ junk).
Proof.
  destruct (for_up_Some (λ i b, b = (Some <$> ((toupper <$> take (Z.to_nat i) cs) ++ drop (Z.to_nat i) cs)) ++ junk)
    0 (Z.of_nat (length cs)) (λ i b, c ← aget b i ≫= id; aset b i (Some (toupper c))) ((Some <$> cs) ++ junk)) as (b & E & Hb).
  - lia.
  - intros i b Hi ->. destruct (lookup_lt_is_Some_2 cs (Z.to_nat i)) as [c Hc]; [lia|].
    assert (i = Z.of_nat (Z.to_nat i)) as Ei by lia. set (k := Z.to_nat i) in *.
    set (l := (toupper <$> take k cs) ++ drop k cs).
    assert (l !! k = Some c) as Hk.
    { unfold l. rewrite lookup_app_r; rewrite length_fmap, length_take, Nat.min_l by lia; [|done].
      by rewrite lookup_drop, Nat.sub_diag, Nat.add_0_r. }
    assert (((Some <$> l) ++ junk) !! k = Some (Some c)) as Hg.
    { rewrite lookup_app_l, list_lookup_fmap, Hk; [done|]. rewrite length_fmap. by eapply lookup_lt_Some. }
    exists (<[k:=Some (toupper c)]> ((Some <$> l) ++ junk)). split.
    + apply lookup_lt_Some in Hg as Hlt. rewrite Ei, aget_nat, Hg. cbn [mbind option_bind id]. rewrite aset_Some, Nat2Z.id by lia. done.
    + replace (Z.to_nat (i + 1)) with (S k) by lia. rewrite insert_app_l by (rewrite length_fmap; by eapply lookup_lt_Some).
      f_equal. rewrite <- list_fmap_insert. f_equal. unfold l.
      rewrite insert_app_r_alt; rewrite length_fmap, length_take, Nat.min_l by lia; [|done].
      rewrite Nat.sub_diag, (drop_S _ c) by done. cbn. by rewrite (take_S_r _ _ c), fmap_app, <- app_assoc by done.
  - done.
  - etrans; [exact E|]. subst b. by rewrite Nat2Z.id, firstn_all2, skipn_all2, app_nil_r by lia.
Qed.

Lemma upcase_bytes d junk : Udp.upcase (Z.of_nat (length d)) ((Some <$> d) ++ junk) = Some ((Some <$> shouted d) ++ junk).
Proof.
  unfold Udp.upcase. destruct d as [|c d _] using rev_ind; [done|]. rewrite shouted_last, length_app, !fmap_app, <- !app_assoc.
  replace (Z.of_nat (length d + length [c]) - 1) with (Z.of_nat (length d)) by (cbn; lia). apply upcase_loop.
Qed.

(** ** What the loop reads *)

(** The words of a text: the pieces between white space that are not empty. *)
Fixpoint pieces (s : string) : list string :=
  match s with
  | EmptyString => [EmptyString]
  | String c s' =>
      if is_space c then EmptyString :: pieces s'
      else match pieces s' with w :: ws => String c w :: ws | [] => [String c EmptyString] end
  end.
Definition words (s : string) : list string := filter (λ w, w ≠ EmptyString) (pieces s).

(** Nothing, or white space at the end. *)
Fixpoint ends_blank (s : string) : bool :=
  match s with
  | EmptyString => true
  | String c EmptyString => is_space c
  | String c s' => ends_blank s'
  end.

(** What is sent when the buffer holds [prev]: the words, and the last one
    again when the file ends in white space. *)
Definition sent_words (prev s : string) : list string :=
  words s ++ (if ends_blank s then [default prev (last (words s))] else []).

Lemma skip_space_head s c s' : skip_space s = String c s' → is_space c = false.
Proof. induction s as [|d s IH]; [done|]. cbn. destruct (is_space d) eqn:E; [done|]. by intros [= <- <-]. Qed.

Lemma skip_space_length s : (String.length (skip_space s) ≤ String.length s)%nat.
Proof. induction s as [|c s IH]; [done|]. cbn. destruct (is_space c); cbn; lia. Qed.

Lemma skip_space_nonul s : nonul s = true → nonul (skip_space s) = true.
Proof.
  induction s as [|c s IH]; [done|]. cbn [skip_space]. destruct (is_space c); [|done].
  cbn. intros [_ H]%andb_true_iff. auto.
Qed.

Lemma words_skip_space s : words (skip_space s) = words s.
Proof. induction s as [|c s IH]; [done|]. cbn [skip_space]. unfold words in *. cbn. by destruct (is_space c) eqn:E; cbn; rewrite ?E. Qed.

Lemma words_no_words s : skip_space s = EmptyString → words s = [].
Proof. intros E. by rewrite <- words_skip_space, E. Qed.

Lemma ends_blank_cons c s : ends_blank (String c s) = match s with EmptyString => is_space c | _ => ends_blank s end.
Proof. by destruct s. Qed.

Lemma ends_blank_skip s : ends_blank (skip_space s) = ends_blank s.
Proof.
  induction s as [|c s IH]; [done|]. cbn [skip_space]. destruct (is_space c) eqn:E; [|done].
  rewrite IH, ends_blank_cons. destruct s; [by rewrite E|done].
Qed.

Lemma ends_blank_app w r : r ≠ EmptyString → ends_blank (w +:+ r) = ends_blank r.
Proof.
  intros Hr. induction w as [|c w IH]; [done|]. change (String c w +:+ r) with (String c (w +:+ r)). rewrite ends_blank_cons, IH.
  destruct w; [by destruct r|done].
Qed.

(** The first word and what follows it. *)
Lemma word_spec s :
  let '(w, r) := word s in
  s = w +:+ r ∧ (w ≠ EmptyString → ends_blank w = false) ∧ (∀ c r', r = String c r' → is_space c = true) ∧
  pieces s = match pieces r with p :: ps => (w +:+ p) :: ps | [] => [w] end.
Proof.
  induction s as [|c s IH]; [done|]. cbn [word pieces]. destruct (is_space c) eqn:E.
  - split; [done|]. split; [done|]. split; [by intros ? ? [= <- <-]|]. cbn. by rewrite E.
  - destruct (word s) as [w r]. destruct IH as (-> & Hw & Hr & Hp). split; [done|]. split; [|split; [done|]].
    + intros _. rewrite ends_blank_cons. destruct w; [done|by apply Hw].
    + rewrite Hp. by destruct (pieces r).
Qed.

Lemma words_word c s w r :
  is_space c = false → word (String c s) = (w, r) →
  String c s = w +:+ r ∧ w ≠ EmptyString ∧ words (String c s) = w :: words r ∧
  ends_blank (String c s) = (if String.eqb r EmptyString then false else ends_blank r).
Proof.
  intros Hc E. pose proof (word_spec (String c s)) as H. rewrite E in H. destruct H as (Es & Hb & Hr & Hp).
  assert (w ≠ EmptyString) as Hw. { cbn in E. rewrite Hc in E. destruct (word s). by simplify_eq. }
  split; [done|]. split; [done|]. split.
  - unfold words. rewrite Hp. destruct r as [|d r]; cbn.
    + rewrite string_app_nil. by rewrite decide_True.
    + rewrite (Hr d r eq_refl). cbn. rewrite string_app_nil. by rewrite decide_True.
  - rewrite Es. destruct r as [|d r]; cbn [String.eqb]; [rewrite string_app_nil; by apply Hb|by apply ends_blank_app].
Qed.

(** One call of [fscanf]. *)
Lemma fscanf_word s b c t w r :
  skip_space s = String c t → word (String c t) = (w, r) → (String.length w < length b)%nat →
  fscanf_s (File_ s false) b = Some (lit w ++ drop (S (String.length w)) b, File_ r (String.eqb r EmptyString)).
Proof. intros E Ew Hl. unfold fscanf_s. cbn [unread]. rewrite E, Ew, strcpy_Some by done. done. Qed.

Lemma fscanf_long s b c t w r :
  skip_space s = String c t → word (String c t) = (w, r) → (length b ≤ String.length w)%nat → fscanf_s (File_ s false) b = None.
Proof.
  intros E Ew Hl. unfold fscanf_s. cbn [unread]. rewrite E, Ew. unfold strcpy, strcpy_at, store.
  rewrite length_lit, decide_False by lia. done.
Qed.

Lemma fscanf_end s b : skip_space s = EmptyString → fscanf_s (File_ s false) b = Some (b, File_ EmptyString true).
Proof. intros E. unfold fscanf_s. cbn [unread]. by rewrite E. Qed.

Definition short (w : string) : Prop := (String.length w < 255)%nat.

Section reading.
Variable (newnfd : Z).

Definition data (w : string) : label := Sent newnfd 255 w.

(** The head of the loop. *)
Lemma send_file_step n s b Q ls b' fp :
  fscanf_s (File_ s false) b = Some (b', fp) →
  (plays net Q (do_ (Send newnfd b' 255) ≫= λ _, send_file n newnfd fp b') ls) →
  plays net Q (send_file (S n) newnfd (File_ s false) b) ls.
Proof. intros E H. cbn [send_file feof]. eapply plays_need; [exact E|]. cbv beta iota. apply plays_quiet; [done|exact H]. Qed.

Lemma send_file_done n fp b Q : feof fp = true → Q (Done tt) → plays net Q (send_file n newnfd fp b) [].
Proof. intros E H. destruct n; cbn [send_file]; rewrite E; by apply plays_Ret. Qed.

(** What the loop has sent when it has come to the end, or to a word that does
    not fit. *)
Lemma send_file_plays n s b prev :
  (String.length s < n)%nat → nonul s = true → length b = 255%nat → Forall short (words s) →
  (words s = [] → cstr b = Some prev) →
  plays net (returns (λ _, True)) (send_file n newnfd (File_ s false) b) (data <$> sent_words prev s).
Proof.
  revert s b prev. induction n as [|n IH]; intros s b prev Hn Hs Hb Hw Hp; [lia|].
  unfold sent_words. rewrite <- (words_skip_space s), <- (ends_blank_skip s) in *.
  destruct (skip_space s) as [|c t] eqn:E.
  - eapply send_file_step; [by apply fscanf_end|]. change (data <$> _) with [data prev].
    eapply plays_send; [done|by apply Hp|].
    apply send_file_done; [done|]. by exists tt.
  - destruct (word (String c t)) as [w r] eqn:Ew.
    destruct (words_word c t w r) as (Es & Hne & Ews & Eb); [by eapply skip_space_head|done|].
    rewrite Ews, Eb. rewrite Ews in Hw. apply List.Forall_cons_iff in Hw as [Hl Hw].
    pose proof (skip_space_nonul s Hs) as Hns. rewrite E, Es, nonul_app in Hns. apply andb_true_iff in Hns as [Hnw Hnr].
    eapply send_file_step; [eapply fscanf_word; [done|done|by rewrite Hb]|]. cbn [app fmap list_fmap].
    eapply plays_send; [done|by apply cstr_lit|]. destruct r as [|d r]; cbn [String.eqb].
    + change (data <$> _) with (@nil label). apply send_file_done; [done|]. by exists tt.
    + specialize (IH (String d r) (lit w ++ drop (S (String.length w)) b) w). unfold sent_words in IH.
      replace (default prev (last (w :: words (String d r)))) with (default w (last (words (String d r))))
        by (destruct (words (String d r)) as [|x l]; [done|]; rewrite last_cons_cons; destruct (last (x :: l)) eqn:El; [done|by apply last_None in El]).
      apply IH; [|done| |done|intros _; by apply cstr_lit].
      * pose proof (skip_space_length s) as Hsl. rewrite E, Es, string_length_app in Hsl. destruct w; [done|]. cbn [String.length] in *. lia.
      * rewrite length_app, length_lit, length_drop. unfold short in Hl. lia.
Qed.

(** A word that does not fit is written behind the buffer. *)
Lemma send_file_long n s b ws w rest :
  (String.length s < n)%nat → nonul s = true → length b = 255%nat → words s = ws ++ w :: rest → Forall short ws → ¬ short w →
  plays net (eq UB) (send_file n newnfd (File_ s false) b) (data <$> ws).
Proof.
  revert s b ws. induction n as [|n IH]; intros s b ws Hn Hs Hb Ews Hws Hw; [lia|].
  rewrite <- (words_skip_space s) in Ews. destruct (skip_space s) as [|c t] eqn:E; [by destruct ws|].
  destruct (word (String c t)) as [v r] eqn:Ew.
  destruct (words_word c t v r) as (Es & Hne & Ev & _); [by eapply skip_space_head|done|].
  rewrite Ev in Ews. destruct ws as [|v' ws]; cbn [app] in Ews; injection Ews as <- Ews.
  - cbn [send_file feof fmap list_fmap]. apply plays_undef. eapply fscanf_long; [done|done|]. unfold short in Hw. lia.
  - apply List.Forall_cons_iff in Hws as [Hl Hws].
    pose proof (skip_space_nonul s Hs) as Hns. rewrite E, Es, nonul_app in Hns. apply andb_true_iff in Hns as [Hnw Hnr].
    eapply send_file_step; [eapply fscanf_word; [done|done|by rewrite Hb]|]. cbn [fmap list_fmap].
    eapply plays_send; [done|by apply cstr_lit|]. destruct r as [|d r]; [by destruct ws|]. cbn [String.eqb].
    apply IH; [|done| |done|done|done].
    + pose proof (skip_space_length s) as Hsl. rewrite E, Es, string_length_app in Hsl. destruct v; [done|]. cbn [String.length] in *. lia.
    + rewrite length_app, length_lit, length_drop. unfold short in Hl. lia.
Qed.

(** A file without words: the buffer is sent as it is. *)
Lemma send_file_blank n s b :
  words s = [] → plays net (returns (λ _, True)) (send_file (S n) newnfd (File_ s false) b) [Did (Send newnfd b 255) 0].
Proof.
  intros Hw. rewrite <- (words_skip_space s) in Hw. destruct (skip_space s) as [|c t] eqn:E.
  - eapply send_file_step; [by apply fscanf_end|]. apply plays_do; [done|]. apply send_file_done; [done|]. by exists tt.
  - destruct (word (String c t)) as [v r] eqn:Ew.
    destruct (words_word c t v r) as (_ & _ & Ev & _); [by eapply skip_space_head|done|]. by rewrite Ev in Hw.
Qed.
End reading.

(** ** The transfer *)

Section transfer.
Variables (sfd nfd newsfd newnfd : Z) (content : string).
Hypothesis (Hs : 0 ≤ sfd) (Hn : 0 ≤ nfd) (Hns : 0 ≤ newsfd) (Hnn : 0 ≤ newnfd).

Definition listens (fd : Z) (a : sockaddr) : list label :=
  [Did (Socket AF_INET SOCK_STREAM 0) fd; Did (Setsockopt fd "SO_REUSEADDR") 0; Did (Bind fd a) 0; Did (Listen fd 5) 0].
Definition connects_to (fd : Z) (a : sockaddr) : list label := [Did (Socket AF_INET SOCK_STREAM 0) fd; Did (Connect fd a) 0].
Definition opened (name : string) : label := Told (Open name "r+") (Reply 1 content [] []).

Definition passive_control : list label :=
  listens sfd (any_addr 8000) ++ [Did (Accept sfd) nfd; Sent nfd 30 "8050"; Got nfd 30 "sample.txt"; Did (Close nfd) 0; Did (Close sfd) 0] ++
  listens newsfd (any_addr 8050) ++ [Did (Accept newsfd) newnfd].
Definition active_control (port : Z) : list label :=
  listens sfd (any_addr 8000) ++ [Did (Accept sfd) nfd; Got nfd 30 (dec port); Got nfd 30 "sample.txt"; Did (Close nfd) 0] ++
  connects_to newsfd (any_addr port).

(** Whatever follows the control connection. *)
Lemma passive_server Q ls :
  plays net Q (serve_file "sample.txt" newnfd) ls → plays net Q Passive.server (passive_control ++ ls).
Proof.
  intros H. unfold Passive.server, passive_control, listens. cbn [app]. repeat step. exact H.
Qed.

Lemma active_server port Q ls :
  fits_int port = true → plays net Q (serve_file "sample.txt" newsfd) ls → plays net Q Active.server (active_control port ++ ls).
Proof. intros Hp H. unfold Active.server, active_control, listens, connects_to. cbn [app]. repeat step. exact H. Qed.

Lemma serve_file_opened fd Q ls :
  plays net Q (send_file (S (String.length content)) fd (File_ content false) (fresh 255)) ls →
  plays net Q (serve_file "sample.txt" fd) (opened "sample.txt" :: ls).
Proof. intros H. unfold serve_file, opened. step. exact H. Qed.

(** The clients: what they print is watched too. *)
Definition arrives (fd : Z) (w : string) : list label := [Got fd 255 w; prints w].

Lemma client_round_prints fd w : plays loud (returns (eq fd)) (Passive.client_round fd) (arrives fd w).
Proof. unfold Passive.client_round, arrives, prints. step. unfold puts. repeat step. done. Qed.

Lemma client_rounds fd ws :
  plays loud (returns (eq fd)) (forever (length ws) Passive.client_round fd) (concat (arrives fd <$> ws)).
Proof. apply (plays_forever_list loud (λ _, eq fd)); [|done]. intros ? w ? ? _ <-. apply client_round_prints. Qed.

Definition passive_request (port : Z) : list label :=
  connects_to nfd (any_addr 8000) ++ [Got nfd 30 (dec port); prints ("PORT:" +:+ dec port); Sent nfd 30 "sample.txt"; Did (Close nfd) 0] ++
  connects_to newnfd (any_addr port).
Definition active_request (ftp : bool) : list label :=
  connects_to sfd (any_addr 8000) ++ [Sent sfd 30 "8040"; Sent sfd 30 "sample.txt"] ++ (if ftp then [Did (Close sfd) 0] else []) ++
  listens newsfd (Active.data_addr ftp) ++ [Did (Accept newsfd) newnfd; prints "FILE contents:"].

Lemma passive_client port ws :
  fits_int port = true →
  plays loud (returns (eq newnfd)) (Passive.client (length ws)) (passive_request port ++ concat (arrives newnfd <$> ws)).
Proof.
  intros Hp. unfold Passive.client. apply (plays_bind loud (eq newnfd)); [|intros ? <-; apply client_rounds].
  unfold Passive.client_start, passive_request, connects_to, prints. cbn [app]. repeat step. unfold puts.
  step.
  destruct (sprintf_fits (fresh 30) "sample.txt") as (b & Eb & Hb & Hl); [done|rewrite length_fresh; cbn; lia|].
  eapply plays_need; [exact Eb|]. cbv beta iota. eapply plays_send; [done|exact Hb|]. repeat step. done.
Qed.

Lemma active_client ftp ws :
  plays loud (returns (eq newnfd)) (Active.client ftp (length ws)) (active_request ftp ++ concat (arrives newnfd <$> ws)).
Proof.
  unfold Active.client. apply (plays_bind loud (eq newnfd)); [|intros ? <-; apply client_rounds].
  unfold Active.client_start, active_request, connects_to, listens, prints. cbn [app]. repeat step.
  destruct (sprintf_fits (fresh 30) "sample.txt") as (name & En & Hname & Hlen'); [done|rewrite length_fresh; cbn; lia|].
  eapply plays_need; [exact En|]. cbv beta iota. eapply plays_send; [done|exact Hname|].
  unfold puts. destruct ftp; cbn [app]; repeat step; done.
Qed.
End transfer.

(** ** The datagrams *)

(** A loop whose labels depend on the state it has come to. *)
Lemma plays_forever_some {X Y S} w (I : S → Prop) (R : X → Y → Prop) (lg : Y → list label) (items : list X) (body : S → prog S) s :
  (∀ x s, x ∈ items → I s → ∃ y s', R x y ∧ I s' ∧ plays w (returns (eq s')) (body s) (lg y)) → I s →
  ∃ ys, Forall2 R items ys ∧ plays w (returns I) (forever (length items) body s) (concat (lg <$> ys)).
Proof.
  intros Hb. revert s. induction items as [|x items IH]; intros s Hs.
  - exists []. split; [by constructor|]. by apply plays_return.
  - destruct (Hb x s) as (y & s' & Hy & Hs' & Hp); [by left|done|].
    destruct (IH (λ x' s Hx, Hb x' s (list_elem_of_further _ _ _ Hx)) s' Hs') as (ys & Hys & Hps).
    exists (y :: ys). split; [by constructor|]. cbn [length forever fmap list_fmap concat].
    eapply plays_bind; [exact Hp|]. by intros ? <-.
Qed.

(** The buffer [b] after the text [s] was stored in it. *)
Definition over (b : buf) (s : string) : buf := lit s ++ drop (S (String.length s)) b.

Definition size (s : string) : Z := Z.of_nat (String.length s) + 1.

Definition sentence (s : string) : Prop := nonul s = true ∧ (String.length s < 1024)%nat.

Lemma cells_datagram s : cells (s +:+ String NUL "") = lit s.
Proof. induction s as [|c s IH]; [done|]. change (String c s +:+ String NUL "") with (String c (s +:+ String NUL "")). cbn. by f_equal. Qed.

Lemma store_text b s : (String.length s < length b)%nat → store b 0 (cells (s +:+ String NUL "")) = Some (over b s).
Proof. intros. rewrite cells_datagram. by apply strcpy_Some. Qed.

Lemma length_over s b : (String.length s < length b)%nat → length (over b s) = length b.
Proof. intros. unfold over. rewrite length_app, length_lit, length_drop. lia. Qed.

Lemma cstr_over b s : nonul s = true → cstr (over b s) = Some s.
Proof. apply cstr_lit. Qed.

(** *** The server *)

(** A datagram with the address of its sender, and the server's buffer when the
    answer is sent: the answer is what the buffer starts with. *)
Record served := Served { payload : string; from_port : Z; from_host : Z; answer : buf }.

Definition shouts (q : string * (Z * Z)) (x : served) : Prop :=
  payload x = q.1 ∧ from_port x = q.2.1 ∧ from_host x = q.2.2 ∧
  take (String.length (payload x)) (answer x) = Some <$> shouted (list_ascii_of_string (payload x)).

Definition answers (ssock : Z) (x : served) : list label :=
  let n := Z.of_nat (String.length (payload x)) in
  [Told (Recvfrom ssock 1024) (Reply n (payload x) [from_port x; from_host x] []);
   Did (Sendto ssock (answer x) n (SaIn (from_port x) (from_host x))) n].

(** One datagram, with any old contents of the buffer. *)
Lemma udp_server_round ssock storage b port host d :
  (String.length d ≤ 1024)%nat → length b = 1024%nat →
  let b' := (Some <$> shouted (list_ascii_of_string d)) ++ drop (String.length d) b in
  plays net (returns (eq (b', SaIn port host))) (Udp.server_round ssock (b, storage)) (answers ssock (Served d port host b')).
Proof.
  intros Hl Hb b'. unfold Udp.server_round, answers. cbn [payload from_port from_host answer]. do 2 step.
  unfold received. cbn [rdata rints rv]. rewrite store_Some by (rewrite cells_length; lia). do 2 step.
  rewrite cells_length. cbn [take app Nat.add]. unfold cells. rewrite <- (length_chars d).
  eapply plays_need; [apply upcase_bytes|]. cbv beta iota. rewrite length_chars. step. by step.
Qed.

Lemma length_answer d b : (String.length d ≤ length b)%nat →
  length ((Some <$> shouted (list_ascii_of_string d)) ++ drop (String.length d) b) = length b.
Proof. intros. rewrite length_app, length_fmap, length_shouted, length_chars, length_drop. lia. Qed.

Lemma udp_server_shouts sock storage (requests : list (string * (Z * Z))) :
  Forall (λ q, String.length q.1 ≤ 1024)%nat requests →
  ∃ xs, Forall2 shouts requests xs ∧
    plays net (returns (λ s, length s.1 = 1024%nat)) (Udp.server storage (length requests))
      ([Did (Socket AF_INET SOCK_DGRAM 0) sock; Did (Bind sock Udp.server_addr) 0] ++ concat (answers sock <$> xs)).
Proof.
  rewrite List.Forall_forall. intros Hr.
  destruct (plays_forever_some net (λ s, length s.1 = 1024%nat) shouts (answers sock) requests
    (Udp.server_round sock) (fresh 1024, storage)) as (xs & Hxs & Hp); [|apply length_fresh|].
  - intros [d [port host]] [b st] Hin%list_elem_of_In%Hr Hb. cbn in Hin, Hb. eexists _, (_, SaIn port host).
    split; [|split; [|by apply udp_server_round]]; [|cbn; rewrite length_answer; lia]. split_and!; [done..|]. cbn [payload answer].
    rewrite take_app_length'; [done|]. by rewrite length_fmap, length_shouted, length_chars.
  - exists xs. split; [done|]. apply (plays_bind net (eq sock)); [unfold Udp.server_start; by repeat step|].
    intros ? <-. exact Hp.
Qed.

(** *** The client *)

(** A line, the text that comes back, and the client's buffer when the line is
    sent, which starts with it. *)
Record asked := Asked { line : string; reply_text : string; request : buf }.

Definition sends_line (q : string * string) (x : asked) : Prop :=
  line x = q.1 ∧ reply_text x = q.2 ∧ ∃ b, request x = over b (line x).

Definition asks_for (csock : Z) (x : asked) : list label :=
  [prints "Type a sentence to send to server:"; Told (Fgets 1024) (Reply 1 (line x +:+ String NUL "") [] []);
   Did (Puts ("You typed: " +:+ line x)) 0; Did (Sendto csock (request x) (size (line x)) Udp.server_addr) (size (line x));
   Told (Recvfrom csock 1024) (Reply (size (reply_text x)) (reply_text x +:+ String NUL "") [] []);
   prints ("Received from server: " +:+ reply_text x)].

Lemma udp_client_round csock b s t :
  sentence s → sentence t → length b = 1024%nat →
  plays loud (returns (eq (over (over b s) t))) (Udp.client_round csock b) (asks_for csock (Asked s t (over b s))).
Proof.
  intros [Hs Hl] [Ht Hl'] Hb. unfold Udp.client_round, asks_for, prints. cbn [line reply_text request]. unfold puts. do 2 step.
  cbn [rv Z.eqb]. unfold received. cbn [rdata]. rewrite store_text by lia. step.
  eapply plays_need; [by apply cstr_over|]. cbv beta iota. step.
  eapply plays_need; [unfold strlen; by rewrite cstr_over|]. cbv beta iota. step.
  eapply plays_recvfrom_told; [done|apply store_text; rewrite length_over; lia|]. cbv beta iota.
  eapply plays_need; [by apply cstr_over|]. cbv beta iota. step. by step.
Qed.

Lemma udp_client_asks sock (lines : list (string * string)) :
  Forall (λ q, sentence q.1 ∧ sentence q.2) lines →
  ∃ xs, Forall2 sends_line lines xs ∧
    plays loud (returns (λ b, length b = 1024%nat)) (Udp.client (length lines))
      (Did (Socket AF_INET SOCK_DGRAM 0) sock :: concat (asks_for sock <$> xs)).
Proof.
  rewrite List.Forall_forall. intros Hl.
  destruct (plays_forever_some loud (λ b, length b = 1024%nat) sends_line (asks_for sock) lines
    (Udp.client_round sock) (fresh 1024)) as (xs & Hxs & Hp); [|apply length_fresh|].
  - intros [s t] b [[Hs Hlt] [Ht Hlt']]%list_elem_of_In%Hl Hb. cbn in Hs, Hlt, Ht, Hlt'.
    exists (Asked s t (over b s)), (over (over b s) t). split; [split_and!; [done..|by exists b]|].
    split; [rewrite !length_over; rewrite ?length_over; lia|]. by apply udp_client_round.
  - exists xs. split; [done|]. unfold Udp.client. step. exact Hp.
Qed.

(** ** The theorems *)

(** C35: The datagrams of [mid/udp].  Whatever bytes are sent to the server, from
    whatever addresses, each datagram is answered, to the address it came from,
    with a datagram of the same size: all its bytes but the last in capital
    letters, the last as it is.  For a text with its end this is the text in
    capital letters; one that is sent without its end keeps its last letter.  A
    client sends every line that is typed with its end, and prints the text it
    gets back. *)
Theorem shouting sock storage (requests : list (string * (Z * Z))) (lines : list (string * string)) :
  Forall (λ q, String.length q.1 ≤ 1024)%nat requests → Forall (λ q, sentence q.1 ∧ sentence q.2) lines →
  (∃ xs, Forall2 shouts requests xs ∧
    plays net (returns (λ s, length s.1 = 1024%nat)) (Udp.server storage (length requests))
      ([Did (Socket AF_INET SOCK_DGRAM 0) sock; Did (Bind sock Udp.server_addr) 0] ++ concat (answers sock <$> xs))) ∧
  (∀ s, shouted (list_ascii_of_string s ++ [NUL]) = list_ascii_of_string (smap toupper s) ++ [NUL]) ∧
  (∀ d c, shouted (d ++ [c]) = (toupper <$> d) ++ [c]) ∧ shouted [] = [] ∧
  (∃ xs, Forall2 sends_line lines xs ∧
    plays loud (returns (λ b, length b = 1024%nat)) (Udp.client (length lines))
      (Did (Socket AF_INET SOCK_DGRAM 0) sock :: concat (asks_for sock <$> xs))).
Proof.
  intros Hr Hl. split_and!; [by apply udp_server_shouts|apply shouted_text|apply shouted_last|done|by apply udp_client_asks].
Qed.

(** Two clients in turn, the second of which does not send the end of its text. *)
Lemma shouting_witness :
  ∃ xs, Forall2 shouts [("hello" +:+ String NUL "", (100, 7)); ("ab", (200, 7))] xs ∧
    plays net (returns (λ s, length s.1 = 1024%nat)) (Udp.server (SaIn 0 0) 2)
      ([Did (Socket AF_INET SOCK_DGRAM 0) 3; Did (Bind 3 Udp.server_addr) 0] ++ concat (answers 3 <$> xs)).
Proof.
  refine (proj1 (shouting 3 (SaIn 0 0) [("hello" +:+ String NUL "", (100, 7)); ("ab", (200, 7))] [] _ _));
    repeat (first [apply List.Forall_cons; [by apply Nat.leb_le|]|apply List.Forall_nil]).
Defined.

(** C21: The file transfers.  When the words of the file fit into the buffer, the
    loop of the server ends, and has sent every word of the file, in order, and
    the last one again if the file ends in white space; the port and the file
    name have been exchanged before on the control connection.  A client prints
    what it is sent.  A word of 255 characters or more is written behind the
    buffer, a file without words makes the server send the buffer as it is, and
    a file that cannot be opened is dereferenced all the same. *)
Theorem file_transfer sfd nfd newsfd newnfd content :
  0 ≤ sfd → 0 ≤ nfd → 0 ≤ newsfd → 0 ≤ newnfd → nonul content = true →
  (Forall short (words content) → words content ≠ [] →
   plays net (returns (λ _, True)) Passive.server
     (passive_control sfd nfd newsfd newnfd ++ opened content "sample.txt" :: (data newnfd <$> sent_words "" content)) ∧
   (∀ port, fits_int port = true →
    plays net (returns (λ _, True)) Active.server
      (active_control sfd nfd newsfd port ++ opened content "sample.txt" :: (data newsfd <$> sent_words "" content)))) ∧
  (∀ ws,
   (∀ port, fits_int port = true →
    plays loud (returns (eq newnfd)) (Passive.client (length ws)) (passive_request nfd newnfd port ++ concat (arrives newnfd <$> ws))) ∧
   (∀ ftp, plays loud (returns (eq newnfd)) (Active.client ftp (length ws)) (active_request sfd newsfd newnfd ftp ++ concat (arrives newnfd <$> ws)))) ∧
  (∀ ws w rest, words content = ws ++ w :: rest → Forall short ws → ¬ short w →
   plays net (eq UB) Passive.server
     (passive_control sfd nfd newsfd newnfd ++ opened content "sample.txt" :: (data newnfd <$> ws))) ∧
  (words content = [] →
   plays net (returns (λ _, True)) Passive.server
     (passive_control sfd nfd newsfd newnfd ++ [opened content "sample.txt"; Did (Send newnfd (fresh 255) 255) 0])) ∧
  plays net (eq UB) Passive.server (passive_control sfd nfd newsfd newnfd ++ [Told (Open "sample.txt" "r+") (Reply 0 "" [] [])]).
Proof.
  intros Hs Hn Hns Hnn Hc. split; [|split; [|split; [|split]]].
  - intros Hw Hne. split; [apply passive_server; try done|intros port Hp; apply active_server; try done];
      apply serve_file_opened, send_file_plays; try done; lia.
  - intros ws. split; [intros port Hp; by apply passive_client|intros ftp; by apply active_client].
  - intros ws w rest E Hws Hw. apply passive_server; try done. apply serve_file_opened. eapply send_file_long; try done. lia.
  - intros E. apply passive_server; try done. by apply serve_file_opened, send_file_blank.
  - apply passive_server; try done. unfold serve_file. step. cbn. by apply plays_Undef.
Qed.

(** The last word of a file that ends with a line end is sent twice. *)
Lemma file_transfer_witness :
  plays net (returns (λ _, True)) Passive.server
    (passive_control 3 4 5 6 ++ [opened ("one two" +:+ nl) "sample.txt"; Sent 6 255 "one"; Sent 6 255 "two"; Sent 6 255 "two"]).
Proof.
  refine (proj1 (proj1 (file_transfer 3 4 5 6 ("one two" +:+ nl) _ _ _ _ _) _ _)); try lia; try reflexivity; [|discriminate].
  vm_compute. repeat (first [apply List.Forall_cons|apply List.Forall_nil]); lia.
Defined.
