(* ===== verification/Service.v ===== *)
(** * The service server of [select_servers/serviceserver]

    The main server hands out the service servers [0 .. count-1].  Two of its
    threads share the globals [gotserver], [status] and [start]: [thread_read]
    takes requests and releases from a fifo, [thread_write] answers requests.
    They are modelled as a transition system in which a step is one access to
    the shared variables or one system call, so every interleaving of the two
    threads is a run; [main] and the client are processes. *)

From S2P Require Import Prelude CString Posix Session Fifo.

#[local] Open Scope Z_scope.

(** ** The shared variables *)

Record shared := Shared { gotserver : Z; status : list Z; count : Z; start : Z }.

Definition shared_init : shared := Shared 0 (replicate 10 0) 0 0.

(** ** [main] *)

(** One round of the first loop: the fifo of server [i].  The state is the
    [fd] array of [logs], [status] and [count]. *)
Definition make_server (i : Z) (s : list (option Z) * shared) : prog (list (option Z) * shared) :=
  buf ← need (snprintf (fresh 50) 50 ("serverfifo" +:+ dec i));
  name ← str buf;
  make_fifo name;;
  f ← sysv (Open name "O_RDWR");
  fds ← need (iset s.1 i f);
  exit_if (f <? 0);;
  st ← need (aset (status s.2) i 0);
  mret (fds, Shared (gotserver s.2) st (count s.2 + 1) (start s.2)).

Definition main (argv1 : string) : prog shared :=
  puts (nl +:+ "Main Server is starting................");;
  number ← need (atoi argv1);
  s ← for_up 0 number make_server (replicate 10 None, shared_init);
  make_fifo "clientfifo";;
  make_fifo "clientfifowrite";;
  fd ← sysv (Open "clientfifo" "O_RDWR");
  writefd ← sysv (Open "clientfifowrite" "O_RDWR");
  do_ (PthreadCreate "thread_write" "NULL");;
  do_ (PthreadCreate "thread_read" "NULL");;
  do_ PthreadJoin;;
  do_ PthreadJoin;;
  do_ (Close fd);;
  do_ (Close writefd);;
  mret s.2.

(** ** The two threads *)

(** Where [thread_write] is: at the test of [gotserver], at its reset, in the
    search, and at the three statements after it. *)
Inductive wpc := AtTest | AtReset | AtSearch (j : Z) | AtFormat | AtMark | AtWrite.

Record state := State {
  sh : shared;
  pc : wpc;
  message : buf;     (** of [thread_write] *)
  rbuf : buf         (** [buf] of [thread_read] *)
}.

Definition set_sh (s : state) (x : shared) : state := State x (pc s) (message s) (rbuf s).
Definition set_pc (s : state) (p : wpc) : state := State (sh s) p (message s) (rbuf s).

(** What a step shows: a step of [thread_write] without output, an answer it
    wrote, a text [thread_read] read, or a [read] without data. *)
Inductive ev := Moved | Wrote (b : buf) | Heard (s : string) | Nothing.

Definition answer (i : Z) : string := "serverfifo" +:+ dec i +:+ "|" +:+ dec i.

Definition writer_step (s : state) : option (state * ev) :=
  let g := sh s in
  match pc s with
  | AtTest => Some (if gotserver g =? 1 then set_pc s AtReset else s, Moved)
  | AtReset => Some (State (Shared 0 (status g) (count g) (start g)) (AtSearch 0) (message s) (rbuf s), Moved)
  | AtSearch j =>
      if j <? count g then
        x ← aget (status g) j;
        Some (if x =? 0 then State (Shared (gotserver g) (status g) (count g) j) AtFormat (message s) (rbuf s)
              else set_pc s (AtSearch (j + 1)), Moved)
      else Some (set_pc s AtFormat, Moved)
  | AtFormat =>
      m ← snprintf (message s) 100 (answer (start g));
      Some (State g AtMark m (rbuf s), Moved)
  | AtMark =>
      st ← aset (status g) (start g) 1;
      Some (State (Shared (gotserver g) st (count g) (start g)) AtWrite (message s) (rbuf s), Moved)
  | AtWrite => Some (set_pc s AtTest, Wrote (message s))
  end.

(** [strcmp(buf,"server")] and what follows it; [j=atoi(buf)!=0] assigns the
    comparison. *)
Definition handle (text : string) (g : shared) : option shared :=
  if strcmp_eq text "server" then Some (Shared 1 (status g) (count g) (start g))
  else
    n ← atoi text;
    let j := if n =? 0 then 0 else 1 in
    if negb (j =? 0) then
      st ← aset (status g) (j - 1) 0;
      Some (Shared (gotserver g) st (count g) (start g))
    else Some g.

(** [thread_read] when [read(fd,buf,100)] is answered by [r]; the only access
    to shared variables of a round is the last assignment. *)
Definition reader_step (r : reply) (s : state) : option (state * ev) :=
  b ← store (rbuf s) 0 (cells (rdata r));
  let s' := State (sh s) (pc s) (message s) b in
  if 0 <? rv r then
    text ← cstr b;
    g ← handle text (sh s);
    Some (set_sh s' g, Heard text)
  else Some (s', Nothing).

Inductive step (s : state) : ev → state → Prop :=
| step_writer e s' : writer_step s = Some (s', e) → step s e s'
| step_reader r e s' : reader_step r s = Some (s', e) → step s e s'.

Inductive runs (s : state) : list ev → state → Prop :=
| runs_nil : runs s [] s
| runs_cons e s' tr s'' : step s e s' → runs s' tr s'' → runs s (e :: tr) s''.

(** The threads when [main] has started them. *)
Definition threads (number : nat) : state :=
  State (Shared 0 (replicate 10 0) (Z.of_nat number) 0) AtTest (fresh 100) (fresh 100).

(** ** The client *)

(** [strtok]: skip delimiters, then the text up to the next one, and what is
    left of the string. *)
Fixpoint skip_delim (d : ascii) (s : string) : string :=
  match s with
  | EmptyString => EmptyString
  | String c s' => if Ascii.eqb c d then skip_delim d s' else s
  end.
Fixpoint split_at (d : ascii) (s : string) : string * string :=
  match s with
  | EmptyString => (EmptyString, EmptyString)
  | String c s' => if Ascii.eqb c d then (EmptyString, s') else let '(t, r) := split_at d s' in (String c t, r)
  end.
Definition strtok (d : ascii) (s : string) : option (string * string) :=
  match skip_delim d s with
  | EmptyString => None
  | s' => Some (split_at d s')
  end.

Module Client.

Record st := St { fd : Z; writefd : Z; server_no : Z; quit : Z }.

(** One round of [while (quit == 0)] of [thread_read]. *)
Definition read_round (g : st) : prog st :=
  '(k, buftemp) ← read (writefd g) (fresh 100) 100;
  quit ← (if 0 <? k then s ← str buftemp; puts "Server: ";; puts (s +:+ nl);; mret 1 else mret (quit g));
  if quit =? 1 then
    s ← str buftemp;
    puts ("Fifo name: " +:+ s +:+ " ");;
    '(fd, rest) ←
      match strtok "|" s with
      | Some (t, rest) => puts (t +:+ nl);; fd ← sysv (Open t "O_RDWR"); mret (fd, rest)
      | None => mret (fd g, EmptyString)
      end;
    '(no, name) ←
      match strtok "," rest with
      | Some (t, _) => puts (t +:+ nl);; n ← need (atoi t); no ← need (int_add n 1); mret (no, Some t)
      | None => mret (server_no g, None)
      end;
    name ← need name;                                   (* printf("%s") of NULL *)
    buf2 ← need (snprintf (fresh 20) 20 (name +:+ "write"));
    file ← str buf2;
    writefd ← sysv (Open file "O_RDWR");
    mret (St fd writefd no quit)
  else mret (St (fd g) (writefd g) (server_no g) quit).

(** [thread_write] up to its loop; the array has room for "server". *)
Definition request (fd : Z) : prog buf :=
  puts ("Requesting for a server............." +:+ nl);;
  puts ("server" +:+ nl);;
  do_ (Write fd (lit "server") 7);;
  mret (lit "server").

(** One round of its loop, once [gotserver] is set. *)
Definition write_round (g : st) (message : buf) : prog (st * buf + st) :=
  puts ("Send a message:" +:+ nl);;
  r ← sys (Fgets 100);
  message ← received message r;
  s ← str message;
  puts (s +:+ nl);;
  if strcmp_eq s ("quit" +:+ nl) then
    fd ← sysv (Open "clientfifo" "O_RDWR");
    message ← need (snprintf message 7 (dec (server_no g)));
    do_ (Write fd message 7);;
    mret (inr (St fd (writefd g) (server_no g) 1))
  else do_ (Write (fd g) message 7);; mret (inl (g, message)).

End Client.

(** ** The invariant of the shared variables *)

(** Between the reset of [gotserver] and the write. *)
Definition busy (p : wpc) : Prop := match p with AtTest | AtReset => False | _ => True end.

Definition pc_ok (s : state) : Prop :=
  match pc s with
  | AtTest | AtFormat => True
  | AtReset => gotserver (sh s) = 1
  | AtSearch j => 0 ≤ j ≤ count (sh s)
  | AtMark | AtWrite => cstr (message s) = Some (answer (start (sh s)))
  end.

(** What is handed out: a server that exists; when there is none, 0 all the
    same. *)
Definition offered (number : nat) (i : Z) : Prop := 0 ≤ i < Z.of_nat number ∨ (number = 0%nat ∧ i = 0).

Lemma offered_range number i : offered number i → (number ≤ 10)%nat → 0 ≤ i < 10.
Proof. unfold offered. lia. Qed.

Record inv (number : nat) (s : state) : Prop := Inv {
  inv_room : (number ≤ 10)%nat;
  inv_count : count (sh s) = Z.of_nat number;
  inv_status : length (status (sh s)) = 10%nat;
  inv_values : Forall (λ x, x = 0 ∨ x = 1) (status (sh s));
  inv_got : gotserver (sh s) = 0 ∨ gotserver (sh s) = 1;
  inv_start : offered number (start (sh s));
  inv_message : length (message s) = 100%nat;
  inv_pc : pc_ok s
}.

Lemma aset_values st i x st' :
  x = 0 ∨ x = 1 → aset st i x = Some st' → Forall (λ x : Z, x = 0 ∨ x = 1) st → Forall (λ x, x = 0 ∨ x = 1) st'.
Proof. intros Hx E H. apply aset_inv in E as [_ ->]. by apply Forall_insert. Qed.

Lemma answer_nonul i : nonul (answer i) = true.
Proof. unfold answer. rewrite !nonul_app, dec_nonul. done. Qed.

Lemma answer_length i : (String.length (answer i) ≤ 33)%nat.
Proof. unfold answer. rewrite !string_length_app. pose proof (dec_length i). simpl. lia. Qed.

Lemma inv_init number : (number ≤ 10)%nat → inv number (threads number).
Proof.
  intros H. split; cbn [sh threads gotserver status count start message pc]; try done; [|by left|unfold offered; lia].
  apply Forall_replicate. by left.
Qed.

(** What a step adds to the requests and takes away from the answers. *)
Definition is_request (e : ev) : Z := match e with Heard t => if strcmp_eq t "server" then 1 else 0 | _ => 0 end.
Definition is_answer (e : ev) : Z := match e with Wrote _ => 1 | _ => 0 end.
Definition pending (s : state) : Z :=
  gotserver (sh s) + match pc s with AtTest | AtReset => 0 | _ => 1 end.

Definition good_answer (number : nat) (e : ev) : Prop :=
  match e with
  | Wrote b => ∃ i, offered number i ∧ cstr b = Some (answer i)
  | _ => True
  end.


Lemma writer_inv number s :
  inv number s → ∃ s' e, writer_step s = Some (s', e) ∧ inv number s' ∧ good_answer number e ∧
    pending s' + is_answer e = pending s.
Proof.
  intros [Hr Hc Hl Hv Hg Hs Hm Hp]. destruct s as [[g st c sta] p m rb]. cbn in *. subst c.
  pose proof (offered_range _ _ Hs Hr) as Hi.
  unfold writer_step, pending, pc_ok in *; cbn in Hp |- *. destruct p as [| |j| | |]; cbn in Hp |- *.
  - destruct Hg as [-> | ->]; cbn; eexists _, _; (split; [reflexivity|]); (split; [by split; auto|done]).
  - subst g. eexists _, _; (split; [reflexivity|]). split; [|done].
    split; cbn; auto. unfold pc_ok; cbn; lia.
  - destruct (Z.ltb_spec j (Z.of_nat number)).
    + destruct (aget_is_Some st j) as [x E]; [lia|]. rewrite E. cbn.
      destruct (x =? 0); (eexists _, _; split; [reflexivity|]; split; [|by split; [|cbn; lia]]);
        split; cbn; auto; [left; lia|unfold pc_ok; cbn; lia].
    + eexists _, _; split; [reflexivity|]. split; [by split; auto|]. split; [done|cbn; lia].
  - destruct (snprintf_fits m 100 (answer sta)) as (m' & E & Hc & Hl'); [apply answer_nonul| |lia|].
    { pose proof (answer_length sta). lia. }
    rewrite E. cbn. eexists _, _; split; [reflexivity|]. split; [|split; [done|cbn; lia]]. split; cbn; auto. lia.
  - destruct (aset st sta 1) as [st'|] eqn:E; [|rewrite aset_Some in E by lia; done]. cbn.
    eexists _, _; split; [reflexivity|]. split; [|split; [done|cbn; lia]]. split; cbn; auto.
    + apply aset_length in E. lia.
    + by eapply aset_values; [|exact E|]; auto.
  - eexists _, _; split; [reflexivity|]. split; [by split; auto|]. split; [|cbn; lia]. exists sta. by split.
Qed.

Lemma handle_inv t g g' :
  handle t g = Some g' →
  count g' = count g ∧ start g' = start g ∧
  ((t = "server"%string ∧ status g' = status g ∧ gotserver g' = 1) ∨
   (t ≠ "server"%string ∧ gotserver g' = gotserver g ∧ (status g' = status g ∨ aset (status g) 0 0 = Some (status g')))).
Proof.
  unfold handle, strcmp_eq. destruct (String.eqb_spec t "server") as [->|Ht].
  - intros [= <-]. cbn. auto 8.
  - intros H. apply bind_Some in H as (n & _ & H). destruct (n =? 0); cbn [Z.eqb negb] in H.
    + injection H as [= <-]. auto 8.
    + apply bind_Some in H as (st & E & [= <-]). cbn. auto 8.
Qed.

Lemma reader_inv number r s s' e :
  inv number s → reader_step r s = Some (s', e) →
  inv number s' ∧ pc s' = pc s ∧ start (sh s') = start (sh s) ∧ pending s' ≤ pending s + is_request e ∧ is_answer e = 0 ∧
  (gotserver (sh s) = 1 → gotserver (sh s') = 1).
Proof.
  intros [Hr Hc Hl Hv Hg Hs Hm Hp] E. unfold reader_step in E. apply bind_Some in E as (b & _ & E).
  destruct (0 <? rv r); [|injection E as <- <-; repeat (split; [by split|]); unfold pending; cbn; split; lia].
  apply bind_Some in E as (t & _ & E). apply bind_Some in E as (g & E & [= <- <-]).
  apply handle_inv in E as (E1 & E2 & E3).
  assert (gotserver g = 0 ∨ gotserver g = 1) as Hg' by (destruct E3 as [(_ & _ & ->)|(_ & -> & _)]; auto).
  assert (Forall (λ x, x = 0 ∨ x = 1) (status g) ∧ length (status g) = 10%nat) as [Hv' Hl'].
  { destruct E3 as [(_ & -> & _)|(_ & _ & [-> | E])]; [done..|].
    split; [by eapply aset_values; [|exact E|]; auto|]. apply aset_length in E. lia. }
  assert (pc_ok (set_sh (State (sh s) (pc s) (message s) b) g)) as Hp'.
  { unfold pc_ok in *. cbn. destruct (pc s); rewrite ?E1, ?E2; try done.
    destruct E3 as [(_ & _ & ->)|(_ & -> & _)]; done. }
  split; [split; cbn; rewrite ?E1, ?E2; auto|]. split; [done|]. split; [done|]. unfold pending; cbn.
  split; [|split; [done|]]; destruct E3 as [(-> & _ & ->)|(Ht & -> & _)]; try done.
  - cbn. destruct (pc s); lia.
  - unfold strcmp_eq. destruct (String.eqb_spec t "server"); [done|]. lia.
Qed.

Lemma request_nonneg e : 0 ≤ is_request e.
Proof. destruct e as [|b|t|]; cbn [is_request]; try lia. destruct (strcmp_eq t "server"); lia. Qed.

Lemma step_inv number s e s' :
  inv number s → step s e s' →
  inv number s' ∧ good_answer number e ∧ pending s' + is_answer e ≤ pending s + is_request e.
Proof.
  intros Hi [e0 s0 E|r e0 s0 E].
  - destruct (writer_inv number s Hi) as (s1 & e1 & E' & Hi' & Hg & Hp). rewrite E in E'. injection E' as <- <-.
    split; [done|]. split; [done|]. pose proof (request_nonneg e0). lia.
  - destruct (reader_inv _ _ _ _ _ Hi E) as (Hi' & _ & _ & Hp & Ha & _). split; [done|]. split; [|lia].
    by destruct e0.
Qed.

Definition requests (tr : list ev) : Z := foldr (λ e n, is_request e + n) 0 tr.
Definition answers (tr : list ev) : Z := foldr (λ e n, is_answer e + n) 0 tr.

Lemma runs_inv number s tr s' :
  runs s tr s' → inv number s →
  inv number s' ∧ Forall (good_answer number) tr ∧ pending s' + answers tr ≤ pending s + requests tr.
Proof.
  induction 1 as [s|s e s1 tr s' Hs _ IH]; intros Hi; [cbn; split; [done|]; split; [done|lia]|].
  destruct (step_inv _ _ _ _ Hi Hs) as (Hi1 & Hg & Hp). destruct (IH Hi1) as (H1 & H2 & H3).
  split; [done|]. split; [by constructor|].
  change (answers (e :: tr)) with (is_answer e + answers tr).
  change (requests (e :: tr)) with (is_request e + requests tr). lia.
Qed.

Lemma pending_nonneg number s : inv number s → 0 ≤ pending s.
Proof. intros [_ _ _ _ Hg _ _ _]. unfold pending. destruct (pc s); lia. Qed.

(** C5: the invariant of the service server.  In every state its two threads
    can reach, under every interleaving and whatever clients send, the
    variables are well formed (every status is 0 or 1, [start] names an
    existing server, the message is complete when it is written),
    [thread_write] never leaves its arrays, every answer it has written names
    an existing server and its fifo, and it has written at most as many
    answers as there were requests.  A program started without servers is the
    exception: it hands out server 0, which does not exist ([offered]). *)
Theorem service_invariant number tr s :
  (number ≤ 10)%nat → runs (threads number) tr s →
  inv number s ∧ (∃ s' e, writer_step s = Some (s', e)) ∧
  Forall (good_answer number) tr ∧ answers tr ≤ requests tr.
Proof.
  intros Hn Hr. pose proof (inv_init number Hn) as Hi. destruct (runs_inv _ _ _ _ Hr Hi) as (H1 & H2 & H3).
  split; [done|]. split; [destruct (writer_inv _ _ H1) as (s' & e & E & _); by exists s', e|].
  split; [done|]. pose proof (pending_nonneg _ _ H1). change (pending (threads number)) with 0 in H3. lia.
Qed.

(** ** Requests are answered *)

(** How far [thread_write] is from its write. *)
Definition ahead (s : state) : Z :=
  match pc s with
  | AtTest => count (sh s) + 6 | AtReset => count (sh s) + 5 | AtSearch j => count (sh s) - j + 4
  | AtFormat => 3 | AtMark => 2 | AtWrite => 1
  end.

(** A request has been seen or is being served. *)
Definition asked (s : state) : Prop := gotserver (sh s) = 1 ∨ busy (pc s).

Definition by_writer (e : ev) : Z := match e with Moved | Wrote _ => 1 | _ => 0 end.
Definition turns (tr : list ev) : Z := foldr (λ e n, by_writer e + n) 0 tr.

Lemma ahead_pos number s : inv number s → 1 ≤ ahead s.
Proof. intros [_ Hc _ _ _ _ _ Hp]. unfold ahead, pc_ok in *. destruct (pc s); lia. Qed.

Lemma writer_ahead number s s' e :
  inv number s → asked s → writer_step s = Some (s', e) →
  (∃ b, e = Wrote b) ∨ (e = Moved ∧ asked s' ∧ ahead s' ≤ ahead s - 1).
Proof.
  intros [Hr Hc Hl Hv Hg Hs Hm Hp] Ha E. destruct s as [[g st c sta] p m rb].
  unfold writer_step, ahead, asked, pc_ok in *. cbn in *. destruct p as [| |j| | |]; cbn in *.
  - destruct Ha as [->|[]]. injection E as <- <-. cbn. right. split; [done|]. split; [by left|lia].
  - injection E as <- <-. cbn. right. split; [done|]. split; [by right|lia].
  - destruct (Z.ltb_spec j c); [|injection E as <- <-; cbn; right; split; [done|]; split; [by right|lia]].
    apply bind_Some in E as (x & _ & E). right. destruct (x =? 0); injection E as <- <-; cbn;
      (split; [done|]; split; [by right|lia]).
  - apply bind_Some in E as (m' & _ & [= <- <-]). right. split; [done|]. split; [by right|cbn; lia].
  - apply bind_Some in E as (st' & _ & [= <- <-]). right. split; [done|]. split; [by right|cbn; lia].
  - injection E as <- <-. left. by eexists.
Qed.

Lemma reader_ahead number s s' e r :
  inv number s → asked s → reader_step r s = Some (s', e) → asked s' ∧ ahead s' = ahead s ∧ by_writer e = 0.
Proof.
  intros Hi Ha E. destruct (reader_inv _ _ _ _ _ Hi E) as ([_ Hc' _ _ _ _ _ _] & Hpc & _ & _ & _ & Hg).
  destruct Hi as [_ Hc _ _ _ _ _ _]. unfold asked, ahead. rewrite Hpc, Hc, Hc'. split; [|split; [done|]].
  - destruct Ha; auto.
  - unfold reader_step in E. apply bind_Some in E as (b & _ & E). destruct (0 <? rv r); [|by injection E as <- <-].
    apply bind_Some in E as (t & _ & E). by apply bind_Some in E as (g & _ & [= <- <-]).
Qed.

(** C6: requests are answered.  From every reachable state in which a request
    has been seen, every run in which [thread_write] gets [count + 6] turns
    contains an answer, whatever [thread_read] does in between; until then
    the request is not lost.  The answer names an existing server, or 0 when
    the program was started without any. *)
Theorem service_answers number tr0 s tr s' :
  (number ≤ 10)%nat → runs (threads number) tr0 s → asked s →
  runs s tr s' → Z.of_nat number + 6 ≤ turns tr →
  ∃ b i, Wrote b ∈ tr ∧ offered number i ∧ cstr b = Some (answer i).
Proof.
  intros Hn H0 Ha Hr Ht. destruct (runs_inv _ _ _ _ H0 (inv_init number Hn)) as (Hi & _ & _). clear H0.
  destruct (runs_inv _ _ _ _ Hr Hi) as (_ & Hgood & _).
  assert (ahead s ≤ turns tr) as Hl.
  { destruct Hi as [_ Hc _ _ _ _ _ Hp]. unfold ahead, pc_ok in *. destruct (pc s); lia. }
  assert (∃ b, Wrote b ∈ tr) as [b Hb].
  { clear Hn Ht Hgood. induction Hr as [s|s e s1 tr s' Hs Hr IH].
    - pose proof (ahead_pos _ _ Hi). cbn in Hl. lia.
    - destruct (step_inv _ _ _ _ Hi Hs) as (Hi1 & _ & _). change (turns (e :: tr)) with (by_writer e + turns tr) in Hl.
      destruct Hs as [e s1 E|r e s1 E].
      + destruct (writer_ahead _ _ _ _ Hi Ha E) as [[b ->]|(-> & Ha1 & Hd)]; [exists b; by left|].
        change (by_writer Moved) with 1 in Hl. destruct IH as [b Hb]; [done..|lia|]. exists b. by right.
      + destruct (reader_ahead _ _ _ _ _ Hi Ha E) as (Ha1 & Hd & Hz).
        destruct IH as [b Hb]; [done..|lia|]. exists b. by right. }
  rewrite Forall_forall in Hgood. destruct (Hgood _ Hb) as (i & Hi' & Hc). by exists b, i.
Qed.

(** ** Which server is handed out *)

(** The first free server among the first [number], or the one handed out
    last when there is none. *)
Definition choice (number : nat) (g : shared) : Z :=
  match list_find (λ x, x = 0) (take number (status g)) with Some (i, _) => Z.of_nat i | None => start g end.

(** [n] steps of [thread_write] alone. *)
Fixpoint turn (n : nat) (s : state) : option (state * list ev) :=
  match n with
  | O => Some (s, [])
  | S n' => '(s1, e) ← writer_step s; '(s2, tr) ← turn n' s1; Some (s2, e :: tr)
  end.

Lemma turn_runs n s s' tr : turn n s = Some (s', tr) → runs s tr s'.
Proof.
  revert s s' tr. induction n as [|n IH]; intros s s' tr; cbn; [intros [= <- <-]; constructor|].
  intros E. apply bind_Some in E as ([s1 e] & E1 & E). apply bind_Some in E as ([s2 tr2] & E2 & [= <- <-]).
  eapply runs_cons; [by apply step_writer|]. by apply IH.
Qed.

Lemma turn_S n s s1 s' e tr :
  writer_step s = Some (s1, e) → turn n s1 = Some (s', tr) → turn (S n) s = Some (s', e :: tr).
Proof. intros E1 E2. cbn. rewrite E1. cbn. by rewrite E2. Qed.

Lemma find_app_none {A} (P : A → Prop) `{∀ x, Decision (P x)} l1 l2 :
  list_find P l1 = None → list_find P (l1 ++ l2) = prod_map (λ i, i + length l1)%nat id <$> list_find P l2.
Proof. intros. by rewrite list_find_app_r. Qed.

(** The search, from the [j]-th server on. *)
Lemma search_turn number st g m rb sta k j :
  length st = 10%nat → (number ≤ 10)%nat → (j + k = number)%nat → list_find (λ x, x = 0) (take j st) = None →
  ∃ n, turn n (State (Shared g st (Z.of_nat number) sta) (AtSearch (Z.of_nat j)) m rb) =
    Some (State (Shared g st (Z.of_nat number) (choice number (Shared g st (Z.of_nat number) sta))) AtFormat m rb,
          replicate n Moved).
Proof.
  intros Hl Hn. revert j. induction k as [|k IH]; intros j Hj Hf.
  - assert (j = number) as -> by lia. exists 1%nat. eapply turn_S; [|done]. unfold writer_step. cbn [pc sh count].
    rewrite (proj2 (Z.ltb_ge _ _)) by lia. unfold choice, set_pc. cbn. by rewrite Hf.
  - destruct (lookup_lt_is_Some_2 st j) as [x Hx]; [lia|].
    assert (aget st (Z.of_nat j) = Some x) as Ex by by rewrite aget_nat.
    assert (take (S j) st = take j st ++ [x]) as Et by by apply take_S_r.
    destruct (decide (x = 0)) as [->|Hx0].
    + exists 1%nat. eapply turn_S; [|done]. unfold writer_step. cbn [pc sh count status].
      rewrite (proj2 (Z.ltb_lt _ _)) by lia. rewrite Ex. cbn. do 4 f_equal. unfold choice. cbn.
      replace (take number st) with (take (S j) st ++ take (number - S j) (drop (S j) st))
        by (rewrite take_take_drop; f_equal; lia).
      rewrite Et. rewrite <- app_assoc, find_app_none by done.
      cbn [app list_find]. rewrite decide_True by done. cbn. rewrite length_take. lia.
    + destruct (IH (S j)) as [n E]; [lia| |].
      { rewrite Et, find_app_none by done. cbn. by rewrite decide_False. }
      exists (S n). eapply turn_S; [|exact E]. unfold writer_step. cbn [pc sh count status].
      rewrite (proj2 (Z.ltb_lt _ _)) by lia. rewrite Ex. cbn. apply Z.eqb_neq in Hx0 as ->. unfold set_pc. cbn.
      do 4 f_equal. lia.
Qed.

Lemma choice_range number s : inv number s → offered number (choice number (sh s)).
Proof.
  intros [Hr _ Hl _ _ Hs _ _]. unfold choice. destruct (list_find _ _) as [[i x]|] eqn:E; [|done].
  apply list_find_Some in E as (E & _). apply lookup_lt_Some in E. rewrite length_take in E. left. lia.
Qed.

Lemma turn_app n1 n2 s s1 s2 tr1 tr2 :
  turn n1 s = Some (s1, tr1) → turn n2 s1 = Some (s2, tr2) → turn (n1 + n2) s = Some (s2, tr1 ++ tr2).
Proof.
  revert s tr1. induction n1 as [|n IH]; intros s tr1; cbn; [by intros [= <- <-]|].
  intros E E2. apply bind_Some in E as ([sa e] & Ea & E). apply bind_Some in E as ([sb tr] & Eb & [= <- <-]).
  rewrite Ea. cbn. by rewrite (IH _ _ Eb E2).
Qed.

(** the allocation.  When [thread_write] serves a request undisturbed, it
    hands out the first free server and marks it; when no server is free it
    hands out the last one again. *)
Theorem service_allocates number s :
  inv number s → pc s = AtTest → gotserver (sh s) = 1 →
  let i := choice number (sh s) in
  ∃ n b, turn n s =
    Some (State (Shared 0 (<[Z.to_nat i := 1]> (status (sh s))) (Z.of_nat number) i) AtTest b (rbuf s),
          replicate (n - 1) Moved ++ [Wrote b]) ∧ cstr b = Some (answer i).
Proof.
  intros Hi Hpc Hg i. pose proof (offered_range _ _ (choice_range _ _ Hi) (inv_room _ _ Hi)) as Hc. fold i in Hc.
  destruct Hi as [Hr Hct Hl _ _ _ Hm _], s as [[g st c sta] p m rb]. cbn in *. subst c g p.
  destruct (search_turn number st 0 m rb sta number 0 Hl Hr eq_refl eq_refl) as [n E].
  change (choice number (Shared 0 st (Z.of_nat number) sta)) with i in E.
  destruct (snprintf_fits m 100 (answer i)) as (b & Es & Hb & _); [apply answer_nonul| |lia|].
  { pose proof (answer_length i). lia. }
  exists (S (S (n + 3))), b. split; [|done].
  replace (S (S (n + 3)) - 1)%nat with (S (S (n + 2))) by lia. cbn [replicate app].
  eapply turn_S; [done|]. eapply turn_S; [done|]. rewrite replicate_add, <- app_assoc.
  eapply turn_app; [exact E|]. cbn [replicate app].
  eapply turn_S; [unfold writer_step; cbn [pc message sh start]; by rewrite Es|].
  eapply turn_S; [unfold writer_step; cbn [pc sh status start]; by rewrite aset_Some by lia|]. done.
Qed.

(** ** Releases *)

Lemma step_marks s e s' (k : nat) :
  (1 ≤ k)%nat → step s e s' → status (sh s) !! k = Some 1 → status (sh s') !! k = Some 1.
Proof.
  intros Hk [e0 s0 E|r e0 s0 E] H; destruct s as [[g st c sta] p m rb]; cbn in H.
  - unfold writer_step in E. cbn in E. destruct p as [| |j| | |]; cbn in E.
    + destruct (g =? 1); by injection E as <- <-.
    + by injection E as <- <-.
    + destruct (j <? c); [|by injection E as <- <-]. apply bind_Some in E as (x & _ & E).
      destruct (x =? 0); by injection E as <- <-.
    + by apply bind_Some in E as (m' & _ & [= <- <-]).
    + apply bind_Some in E as (st' & E & [= <- <-]). cbn. apply aset_inv in E as [Hr ->].
      destruct (decide (Z.to_nat sta = k)) as [<-|]; [|by rewrite list_lookup_insert_ne].
      rewrite list_lookup_insert_eq by lia. done.
    + by injection E as <- <-.
  - unfold reader_step in E. apply bind_Some in E as (b & _ & E). destruct (0 <? rv r); [|by injection E as <- <-].
    apply bind_Some in E as (t & _ & E). apply bind_Some in E as (g' & E & [= <- <-]). cbn.
    apply handle_inv in E as (_ & _ & [(_ & -> & _)|(_ & _ & [-> | E])]); [done..|].
    apply aset_inv in E as [_ ->]. rewrite list_lookup_insert_ne by lia. done.
Qed.

Lemma runs_marks s tr s' (k : nat) :
  (1 ≤ k)%nat → runs s tr s' → status (sh s) !! k = Some 1 → status (sh s') !! k = Some 1.
Proof. intros Hk. induction 1; [done|]. eauto using step_marks. Qed.

(** Finitely many indexes, for facts that are computed. *)
Lemma below_ten (P : Z → Prop) :
  P 0 → P 1 → P 2 → P 3 → P 4 → P 5 → P 6 → P 7 → P 8 → P 9 → ∀ i, 0 ≤ i < 10 → P i.
Proof.
  intros. assert (i = 0 ∨ i = 1 ∨ i = 2 ∨ i = 3 ∨ i = 4 ∨ i = 5 ∨ i = 6 ∨ i = 7 ∨ i = 8 ∨ i = 9) as Hi by lia.
  destruct Hi as [->|[->|[->|[->|[->|[->|[->|[->|[->| ->]]]]]]]]]; done.
Qed.

Lemma answer_parts i :
  0 ≤ i < 10 →
  strtok "|" (answer i) = Some ("serverfifo" +:+ dec i, dec i) ∧ strtok "," (dec i) = Some (dec i, EmptyString) ∧
  atoi (dec i) = Some i ∧ (String.length (dec i) = 1)%nat ∧ strcmp_eq (dec (i + 1)) "server" = false.
Proof. revert i. by apply below_ten. Qed.

Lemma client_plays fd0 wfd no q fd1 wfd1 i :
  0 ≤ i < 10 →
  plays net (returns (eq (Client.St fd1 wfd1 (i + 1) 1))) (Client.read_round (Client.St fd0 wfd no q))
    [Got wfd 100 (answer i); Did (Open ("serverfifo" +:+ dec i) "O_RDWR") fd1; Did (Open (dec i +:+ "write") "O_RDWR") wfd1].
Proof.
  intros Hi. destruct (answer_parts i Hi) as (E1 & E2 & E3 & E4 & _). unfold Client.read_round. cbn [Client.writefd].
  play. change (0 <? 100) with true. cbv iota.
  eapply (plays_skip _ (eq 1)); [by repeat play|intros ? <-]. change (1 =? 1) with true. cbv iota. play. play. rewrite E1.
  eapply (plays_bind _ (eq (fd1, dec i)) _ _ [_]); [by repeat play|intros ? <-]. rewrite E2.
  eapply (plays_skip _ (eq (i + 1, Some (dec i)))).
  { play. eapply plays_need; [exact E3|]. eapply plays_need; [|by repeat play]. unfold int_add. apply int_of_Some.
    unfold fits_int, INT_MIN, INT_MAX. lia. }
  intros ? <-. play.
  destruct (snprintf_fits (fresh 20) 20 (dec i +:+ "write")) as (b & E & Hb & _).
  { by rewrite nonul_app, dec_nonul. }
  { rewrite string_length_app, E4. simpl. lia. }
  { rewrite length_fresh. lia. }
  by repeat play.
Qed.

Lemma client_quits g fd2 q message b :
  0 ≤ Client.server_no g < 11 → q = "quit" +:+ nl → length message = 7%nat →
  store message 0 (cells (q +:+ String NUL "")) = Some b →
  plays net (returns (eq (inr (Client.St fd2 (Client.writefd g) (Client.server_no g) 1)))) (Client.write_round g message)
    [Told (Fgets 100) (Reply 1 (q +:+ String NUL "") [] []); Did (Open "clientfifo" "O_RDWR") fd2;
     Sent fd2 7 (dec (Client.server_no g))].
Proof.
  intros Hn -> Hm Hs. unfold Client.write_round, received. do 2 play. cbn [rdata]. do 1 play.
  assert (cstr b = Some ("quit" +:+ nl)) as Hb.
  { revert Hs. unfold store. rewrite Hm. simpl. intros [= <-]. done. }
  do 2 play. change (strcmp_eq _ _) with true. cbv iota.
  destruct (snprintf_fits b 7 (dec (Client.server_no g))) as (b2 & E & Hb2 & _).
  { apply dec_nonul. }
  { revert Hn. generalize (Client.server_no g). intros x Hx. destruct (decide (x = 10)) as [->|]; [by apply Nat.ltb_lt|].
    destruct (answer_parts x) as (_ & _ & _ & -> & _); lia. }
  { apply store_length in Hs. lia. }
  by repeat play.
Qed.

(** Releases.  The client of server [i] learns from the answer the fifo to
    write to and the number [i + 1], which it sends back when its user quits
    (it opens ["<i>write"] to read from, not a fifo of the server).  The main
    server compares where it means to subtract: whatever number it is sent, it
    frees server 0, and a server from 1 on that was handed out once is never
    free again, under any interleaving.  A line of seven characters or more
    overruns the client's message. *)
Theorem service_release number i fd0 wfd no fd1 wfd1 fd2 s tr s' (k : nat) :
  0 ≤ i < 10 → inv number s → runs s tr s' → (1 ≤ k)%nat → status (sh s) !! k = Some 1 →
  let g := Client.St fd1 wfd1 (i + 1) 1 in
  plays net (returns (eq g)) (Client.read_round (Client.St fd0 wfd no 0))
    [Got wfd 100 (answer i); Did (Open ("serverfifo" +:+ dec i) "O_RDWR") fd1; Did (Open (dec i +:+ "write") "O_RDWR") wfd1] ∧
  plays net (returns (eq (inr (Client.St fd2 wfd1 (i + 1) 1)))) (Client.write_round g (lit "server"))
    [Told (Fgets 100) (Reply 1 (("quit" +:+ nl) +:+ String NUL "") [] []); Did (Open "clientfifo" "O_RDWR") fd2;
     Sent fd2 7 (dec (i + 1))] ∧
  handle (dec (i + 1)) (sh s) = Some (Shared (gotserver (sh s)) (<[0%nat := 0]> (status (sh s))) (count (sh s)) (start (sh s))) ∧
  status (sh s') !! k = Some 1 ∧
  ∀ line, (7 ≤ String.length line)%nat →
    plays net (eq UB) (Client.write_round g (lit "server")) [Told (Fgets 100) (Reply 1 (line +:+ String NUL "") [] [])].
Proof.
  intros Hi Hinv Hr Hk Hs g. split; [by apply client_plays|]. split.
  { by eapply (client_quits g fd2 ("quit" +:+ nl) (lit "server")); [cbn; lia| | |]. }
  split.
  { unfold handle. destruct (answer_parts i Hi) as (_ & _ & _ & _ & ->). rewrite atoi_dec by (unfold fits_int, INT_MIN, INT_MAX; lia).
    cbn. destruct (i + 1 =? 0) eqn:E; [apply Z.eqb_eq in E; lia|]. cbn.
    rewrite aset_Some; [done|]. rewrite (inv_status _ _ Hinv). lia. }
  split; [by eapply runs_marks|].
  intros line Hl. unfold Client.write_round. do 2 play. apply plays_bind_UB. unfold received. cbn [rdata].
  assert (store (lit "server") 0 (cells (line +:+ String NUL "")) = None) as E; [|rewrite E; by apply plays_Undef].
  unfold store. rewrite cells_length, string_length_app, length_lit. simpl.
  by rewrite decide_False by lia.
Qed.

(** ** The start of the main server *)

Definition server_session (x : Z * Z) : list label :=
  [Did (Mkfifo ("serverfifo" +:+ dec x.1) 511) 0; Did (Open ("serverfifo" +:+ dec x.1) "O_RDWR") x.2].

Definition started (n : nat) (s : list (option Z) * shared) : Prop :=
  length s.1 = 10%nat ∧ s.2 = Shared 0 (replicate 10 0) (Z.of_nat n) 0.

Lemma name_fits b i :
  length b = 50%nat → ∃ b', snprintf b 50 ("serverfifo" +:+ dec i) = Some b' ∧ cstr b' = Some ("serverfifo" +:+ dec i).
Proof.
  intros Hb. destruct (snprintf_fits b 50 ("serverfifo" +:+ dec i)) as (b' & E & Hc & _); [| |lia|by exists b'].
  - by rewrite nonul_app, dec_nonul.
  - rewrite string_length_app. pose proof (dec_length i). simpl. lia.
Qed.

Lemma make_server_plays n f s :
  (n < 10)%nat → 0 ≤ f → started n s →
  plays net (returns (started (S n))) (make_server (Z.of_nat n) s) (server_session (Z.of_nat n, f)).
Proof.
  intros Hn Hf [Hl Hs]. destruct s as [fds g]. cbn in Hl, Hs. subst g. unfold make_server, server_session.
  destruct (name_fits (fresh 50) (Z.of_nat n)) as (b & E & Hb); [done|]. play. play.
  apply plays_made. play.
  destruct (iset_Some fds (Z.of_nat n) f) as (fds' & E' & Hl'); [lia|]. play.
  rewrite (proj2 (Z.ltb_ge f 0)) by done. apply plays_exit_if.
  cbn [snd status count gotserver start]. eapply plays_need; [apply aset_Some; cbn [length replicate]; lia|].
  play. split; [cbn; congruence|]. cbn [snd status count gotserver start]. f_equal; [|lia].
  apply list_insert_id. apply lookup_replicate. split; [done|lia].
Qed.

Definition tail_session (fd writefd : Z) : list label :=
  [Did (Mkfifo "clientfifo" 511) 0; Did (Mkfifo "clientfifowrite" 511) 0;
   Did (Open "clientfifo" "O_RDWR") fd; Did (Open "clientfifowrite" "O_RDWR") writefd;
   Did (PthreadCreate "thread_write" "NULL") 0; Did (PthreadCreate "thread_read" "NULL") 0;
   Did PthreadJoin 0; Did PthreadJoin 0; Did (Close fd) 0; Did (Close writefd) 0].

(** The start of the service server.  For up to ten servers [main] makes
    and opens one fifo each, then the fifos of the clients, and starts the
    threads in the initial state of the transition system; with more than ten
    it writes past its array of descriptors as soon as the eleventh fifo is
    open. *)
Theorem service_starts fs fd writefd :
  Forall (λ f, 0 ≤ f) fs →
  ((length fs ≤ 10)%nat →
   plays net (returns (eq (sh (threads (length fs))))) (main (dec (Z.of_nat (length fs))))
     (concat (server_session <$> numbered fs) ++ tail_session fd writefd)) ∧
  ∀ f argv1 number, length fs = 10%nat → atoi argv1 = Some number → 10 < number →
    plays net (eq UB) (main argv1) (concat (server_session <$> numbered fs) ++ server_session (10, f)).
Proof.
  intros Hf.
  assert (∀ d x rest s, (length fs ≤ 10)%nat → numbered fs = d ++ x :: rest → started (length d) s →
    plays net (returns (started (length (d ++ [x])))) (make_server (0 + Z.of_nat (length d)) s) (server_session x)) as Hb.
  { intros d [i f] rest s Hl E Hs. destruct (numbered_nth _ _ _ _ E) as [E1 E2]. cbn in E1, E2. subst i.
    rewrite length_app, Nat.add_1_r, Z.add_0_l. apply make_server_plays; [|by eapply (Forall_lookup_1 _ _ _ _ Hf)|done].
    apply (f_equal length) in E. unfold numbered in E. rewrite length_imap, length_app in E. simpl in E. lia. }
  assert (length (numbered fs) = length fs) as En by apply length_imap. split.
  - intros Hl. unfold main. play. eapply plays_need; [apply atoi_dec; unfold fits_int, INT_MIN, INT_MAX; lia|].
    eapply plays_bind.
    { rewrite <- En. apply (plays_for_list net (λ l, started (length l)) server_session 0); [|done].
      intros. by eapply Hb. }
    intros [fds g] [_ Hs]. cbn in Hs. subst g. rewrite En. unfold tail_session.
    do 2 apply plays_made. by repeat play.
  - intros f argv1 number Hl En' Hn. unfold main. play. eapply plays_need; [exact En'|]. apply plays_bind_UB.
    unfold for_up. rewrite Z.sub_0_r.
    replace (Z.to_nat number) with (length (numbered fs) + S (Z.to_nat (number - 11)))%nat by lia.
    apply (plays_for_then net (λ l, started (length l)) server_session 0); [intros; by eapply Hb; [lia|..]|done|].
    intros [fds g] [Hfds _]. rewrite En, Hl. cbn [for_n]. apply plays_bind_UB.
    unfold make_server, server_session. destruct (name_fits (fresh 50) 10) as (b & E & Hc); [done|].
    change (0 + Z.of_nat 10) with 10. play. play.
    apply plays_made. play.
    apply plays_undef. apply aset_None. cbn in Hfds |- *. lia.
Qed.

(** *** Concrete runs *)

(** The message of 100 bytes a client sends, from the text. *)
Definition packet (s : string) : reply :=
  Reply 100 (s +:+ string_of_list_ascii (replicate (100 - String.length s) NUL)) [] [].

Definition next_reader (r : reply) (s : state) : state := match reader_step r s with Some (s', _) => s' | None => s end.
Definition next_writer (n : nat) (s : state) : state := match turn n s with Some (s', _) => s' | None => s end.

(** Two servers; a request arrives, and is served. *)
Definition one_request : state := next_reader (packet "server") (threads 2).

Lemma one_request_runs : runs (threads 2) [Heard "server"] one_request.
Proof. eapply runs_cons; [apply (step_reader _ (packet "server")); by vm_compute|constructor]. Qed.

Definition served_once : state := next_writer 6 one_request.

Lemma served_once_turn : ∃ b, turn 6 one_request = Some (served_once, replicate 5 Moved ++ [Wrote b]).
Proof. eexists. vm_compute. reflexivity. Qed.

Lemma one_request_inv : inv 2 one_request.
Proof. by apply (runs_inv 2 (threads 2) [Heard "server"]), inv_init; [apply one_request_runs|lia]. Qed.

Lemma service_invariant_witness : inv 2 one_request ∧ answers [Heard "server"] ≤ requests [Heard "server"].
Proof.
  split; [exact (proj1 (service_invariant 2 _ _ ltac:(lia) one_request_runs))|].
  exact (proj2 (proj2 (proj2 (service_invariant 2 _ _ ltac:(lia) one_request_runs)))).
Defined.

(** Eight turns: two more tests after the answer. *)
Lemma service_answers_witness :
  ∃ tr b i, turns tr = 8 ∧ Wrote b ∈ tr ∧ 0 ≤ i < 2 ∧ cstr b = Some (answer i).
Proof.
  assert (∃ s' tr, turn 8 one_request = Some (s', tr)) as (s' & tr & E) by (eexists _, _; vm_compute; reflexivity).
  exists tr. assert (turns tr = 8) as Et.
  { assert (turns <$> (snd <$> turn 8 one_request) = Some 8) as H by (vm_compute; reflexivity).
    rewrite E in H. by injection H. }
  destruct (service_answers 2 [Heard "server"] one_request tr s') as (b & i & H1 & H2 & H3);
    [lia|exact one_request_runs|left; vm_compute; reflexivity|by eapply turn_runs|rewrite Et; lia|].
  exists b, i. split; [exact Et|]. split; [exact H1|]. split; [destruct H2 as [H2|[H2 _]]; [exact H2|discriminate]|exact H3].
Defined.

(** Three requests to two servers: 0, 1, and 1 again. *)
Lemma service_allocates_witness :
  choice 2 (sh one_request) = 0 ∧
  choice 2 (sh (next_reader (packet "server") served_once)) = 1 ∧
  choice 2 (sh (next_reader (packet "server") (next_writer 7 (next_reader (packet "server") served_once)))) = 1 ∧
  ∃ n b, turn n one_request = Some (State (Shared 0 (<[0%nat := 1]> (status (sh one_request))) 2 0) AtTest b (rbuf one_request),
          replicate (n - 1) Moved ++ [Wrote b]) ∧ cstr b = Some (answer 0).
Proof.
  split; [vm_compute; reflexivity|]. split; [vm_compute; reflexivity|]. split; [vm_compute; reflexivity|].
  exact (service_allocates 2 one_request one_request_inv ltac:(vm_compute; reflexivity) ltac:(vm_compute; reflexivity)).
Defined.

(** Server 1 is released, and server 0 freed. *)
Definition served_twice : state := next_writer 7 (next_reader (packet "server") served_once).

Lemma served_twice_inv : inv 2 served_twice.
Proof.
  split; try (vm_compute; done); [lia|vm_compute; repeat (apply Forall_cons; split; [auto|]); by apply Forall_nil|by left|left; vm_compute; split; done].
Qed.

Lemma released_runs : runs served_twice [Heard "2"] (next_reader (packet "2") served_twice).
Proof. eapply runs_cons; [apply (step_reader _ (packet "2")); by vm_compute|constructor]. Qed.

Lemma service_release_witness :
  status (sh served_twice) !! 1%nat = Some 1 ∧ status (sh (next_reader (packet "2") served_twice)) !! 1%nat = Some 1 ∧
  handle "2" (sh served_twice) = Some (Shared 0 (<[0%nat := 0]> (status (sh served_twice))) 2 1).
Proof.
  pose proof (service_release 2 1 3 4 0 5 6 7 served_twice [Heard "2"] (next_reader (packet "2") served_twice) 1
    ltac:(lia) served_twice_inv released_runs ltac:(lia) ltac:(vm_compute; reflexivity)) as (_ & _ & H1 & H2 & _).
  split; [vm_compute; reflexivity|]. split; [exact H2|exact H1].
Defined.

Lemma service_starts_witness :
  plays net (returns (eq (sh (threads 2)))) (main "2")
    (server_session (0, 3) ++ server_session (1, 4) ++ tail_session 5 6).
Proof.
  refine (proj1 (service_starts [3; 4] 5 6 _) _); [repeat constructor; lia|simpl; lia].
Defined.
