(* ===== verification/ChatServers.v ===== *)
(** * The chat servers

    [select_servers/chatserver/server.c] (Module [Chat]) passes what a user
    says to all others; so does [chatserver/server.c] (Module [PollChat]), on
    [poll], up to an error.  The theorem gives the sessions of both. *)

From stdpp Require Import gmap sets.
From S2P Require Import Prelude CString Posix Session Fifo.

#[local] Open Scope Z_scope.

(** ** The chat server of [select_servers/chatserver] *)
Module Chat.

Definition open_one (argv : list string) (i : Z) (s : list (option Z) * list (option Z)) :
    prog (list (option Z) * list (option Z)) :=
  name ← need (aget argv (i - 1));
  f ← sysv (Open name "O_RDWR");
  fd ← need (iset s.1 (i - 1) f);
  exit_if (f <? 0);;
  buf ← need (snprintf (fresh 50) 50 (name +:+ "write"));
  name2 ← str buf;
  w ← sysv (Open name2 "O_RDWR");
  writefd ← need (iset s.2 (i - 1) w);
  exit_if (w <? 0);;
  mret (fd, writefd).

Definition forward (writefd : list (option Z)) (j : Z) (message : buf) (k : Z) (_ : unit) : prog unit :=
  if negb (k =? j) then f ← need (iget writefd k); do_ (Write f message 200) else mret tt.

Definition serve_one (clients : Z) (fd writefd : list (option Z)) (readset : fd_set) (j : Z) (message : buf) : prog buf :=
  f ← need (iget fd j);
  if FD_ISSET f readset then
    puts ("User " +:+ dec j +:+ ": ");;
    '(k, buf) ← read f (fresh 100) 100;
    (if 0 <? k then s ← str buf; puts (s +:+ nl) else mret tt);;
    s ← str buf;
    message ← need (snprintf message 200 ("User " +:+ dec j +:+ ": " +:+ s));
    for_up 0 clients (forward writefd j message) tt;;
    mret message
  else mret message.

Definition round (clients : Z) (fd writefd : list (option Z)) (s : fd_set * Z * buf) : prog (fd_set * Z * buf) :=
  let '(readset, max, message) := s in
  '(retstatus, readset) ← select max readset;
  (if retstatus <? 0 then do_ (Perror "Error: ") else mret tt);;
  message ← (if 0 <? retstatus then
               puts ("Got message" +:+ nl);;
               for_up 0 clients (serve_one clients fd writefd readset) message
             else mret message);
  '(readset, max) ← watch fd clients (readset, max);
  mret (readset, max, message).

(** [argv] without the name of the program. *)
Definition main (argv : list string) (n : nat) : prog (fd_set * Z * buf) :=
  let argc := Z.of_nat (length argv) + 1 in
  puts (nl +:+ "Server is starting................ Clients " +:+ dec argc);;
  '(fd, writefd) ← for_up 1 argc (open_one argv) (replicate (length argv) None, replicate (length argv) None);
  '(readset, max) ← watch fd (argc - 1) (∅, 0);
  puts (nl +:+ "Poll fds are created................");;
  puts (nl +:+ "Server started..................");;
  forever n (round (argc - 1) fd writefd) (readset, max, fresh 200).

(** *** Sessions *)

(** A user: the name of the fifo, and the descriptors of it and of the fifo
    that leads back. *)
Record user := User { uname : string; ufd : Z; ureply : Z }.

Definition open_session (u : user) : list label :=
  [Did (Open (uname u) "O_RDWR") (ufd u); Did (Open (uname u +:+ "write") "O_RDWR") (ureply u)].

Definition chat_text (j : Z) (m : string) : string := "User " +:+ dec j +:+ ": " +:+ m.

(** What user [j] said, to everybody else. *)
Definition fan (j : Z) (m : string) (users : list user) : list label :=
  concat ((λ x, if x.1 =? j then [] else [Sent (ureply x.2) 200 (chat_text j m)]) <$> numbered users).

Definition serve_session (users : list user) (x : Z * (user * option string)) : list label :=
  match x.2.2 with Some m => Got (ufd x.2.1) 100 m :: fan x.1 m users | None => [] end.

(** A round in which the users with a message in [said] are heard. *)
Definition ready (users : list user) (said : list (option string)) : list Z :=
  omap (λ x, (λ _, ufd x.1) <$> x.2) (zip users said).

Definition fds (users : list user) : list Z := ufd <$> users.

Definition round_session (users : list user) (said : list (option string)) : list label :=
  Told (Select (greatest (fds users) + 1) (elements (watched_set (fds users))) false) (ints_ (ready users said)) ::
  concat (serve_session users <$> numbered (zip users said)).

Definition opened (users : list user) (fd writefd : list (option Z)) : Prop :=
  filled (ufd <$> users) fd ∧ filled (ureply <$> users) writefd.

Lemma fan_plays users writefd j m message :
  cstr message = Some (chat_text j m) → filled (ureply <$> users) writefd →
  plays net (returns (λ _, True)) (for_up 0 (Z.of_nat (length users)) (forward writefd j message) tt) (fan j m users).
Proof.
  intros Hm Hw. unfold fan. rewrite <- (Z.add_0_l (Z.of_nat _)).
  replace (length users) with (length (numbered users)) by apply length_imap.
  apply (plays_for_list net (λ _ _, True)); [|done].
  intros d [k u] rest [] E _. destruct (numbered_nth _ _ _ _ E) as [E1 E2]. cbn [fst snd] in *. subst k.
  unfold forward. rewrite Z.add_0_l. destruct (_ =? j); cbn [negb]; [by play|].
  eapply plays_need; [eapply filled_get; [exact Hw|by rewrite list_lookup_fmap, E2]|].
  apply plays_watched; [done|eexists; by split; [right|]|]. intros r _. by apply plays_return.
Qed.

Lemma ready_iff users said j u om :
  NoDup (fds users) → zip users said !! j = Some (u, om) → (ufd u ∈ ready users said ↔ is_Some om).
Proof.
  intros Hn Hj. unfold ready. rewrite list_elem_of_omap. split.
  - intros ([u' om'] & Hin & H). cbn in H. destruct om' as [m'|]; [|done]. injection H as H.
    apply list_elem_of_lookup in Hin as [i Hi].
    apply lookup_zip_Some in Hj as [Hj1 Hj2], Hi as [Hi1 Hi2].
    assert (i = j) as ->.
    { eapply (NoDup_lookup (fds users)); [done| |]; unfold fds; rewrite list_lookup_fmap;
        [by rewrite Hi1|rewrite Hj1; cbn; by rewrite H]. }
    rewrite Hi2 in Hj2. injection Hj2 as <-. by exists m'.
  - intros [m ->]. exists (u, Some m). split; [by eapply list_elem_of_lookup_2|done].
Qed.

Lemma chat_text_length j m : (String.length m < 100)%nat → (String.length (chat_text j m) < 200)%nat.
Proof. intros Hm. unfold chat_text. rewrite !string_length_app. pose proof (dec_length j). simpl. lia. Qed.

Lemma chat_serve_one_plays users said fd writefd j u om message :
  NoDup (fds users) → opened users fd writefd → zip users said !! j = Some (u, om) → length message = 200%nat →
  plays net (returns (λ b, length b = 200%nat))
    (serve_one (Z.of_nat (length users)) fd writefd (list_to_set (ready users said)) (Z.of_nat j) message)
    (serve_session users (Z.of_nat j, (u, om))).
Proof.
  intros Hn [Hf Hw] Hj Hm. unfold serve_one, serve_session. cbn [fst snd].
  pose proof (ready_iff _ _ _ _ _ Hn Hj) as Hr. pose proof Hj as Hj'. apply lookup_zip_Some in Hj' as [Hu _].
  eapply plays_need; [eapply filled_get; [exact Hf|by rewrite list_lookup_fmap, Hu]|].
  unfold FD_ISSET. destruct om as [m|].
  - rewrite bool_decide_eq_true_2 by (apply elem_of_list_to_set, Hr; by eexists). play. play.
    change (0 <? 100) with true. cbv iota. rename H into Hb, b' into buf.
    eapply (plays_skip _ (λ _, True)); [by repeat play|intros _ _]. play.
    apply cstr_inv in Hb as Hb'. destruct Hb' as [Hnul _]. apply cstr_length in Hb as Hlen'.
    destruct (snprintf_fits message 200 (chat_text (Z.of_nat j) m)) as (b & E & Hc & Hl).
    { unfold chat_text. by rewrite !nonul_app, dec_nonul, Hnul. }
    { apply chat_text_length. lia. }
    { lia. }
    eapply plays_need; [exact E|]. eapply plays_last; [by apply fan_plays|]. intros _ _. play. congruence.
  - rewrite bool_decide_eq_false_2; [by play|]. intros H%elem_of_list_to_set%Hr. by destruct H.
Qed.

Lemma ready_sub users said x : x ∈ ready users said → x ∈ fds users.
Proof.
  unfold ready. rewrite list_elem_of_omap. intros ([u om] & Hin & H). destruct om as [m|]; [|done]. injection H as <-.
  apply list_elem_of_lookup in Hin as [i Hi]. apply lookup_zip_Some in Hi as [Hi _].
  apply list_elem_of_lookup. exists i. unfold fds. by rewrite list_lookup_fmap, Hi.
Qed.

(** A round over the users, whatever is done for each of them: only those who
    said something count. *)
Section rounds.
Context (users : list user) (said : list (option string)) (lg : Z * (user * option string) → list label).

Lemma silent_round :
  (∀ j u, lg (j, (u, None)) = []) → ready users said = [] → concat (lg <$> numbered (zip users said)) = [].
Proof.
  intros Hlg Hr. apply concat_nil_Forall, Forall_fmap, Forall_forall. intros [j [u om]] Hin. cbn.
  destruct om as [m|]; [|done]. exfalso.
  apply list_elem_of_lookup in Hin as [i Hi]. unfold numbered in Hi. rewrite list_lookup_imap in Hi.
  destruct (zip users said !! i) as [p|] eqn:E; [|done]. injection Hi as _ ->.
  assert (ufd u ∈ ready users said) as H; [|rewrite Hr in H; by apply elem_of_nil in H].
  unfold ready. apply list_elem_of_omap. exists (u, Some m). split; [by eapply list_elem_of_lookup_2|done].
Qed.

Lemma served_round {w S} (I : S → Prop) (body : Z → S → prog S) s :
  length said = length users →
  (∀ j u om s, zip users said !! j = Some (u, om) → I s →
     plays w (returns I) (body (Z.of_nat j) s) (lg (Z.of_nat j, (u, om)))) →
  I s → plays w (returns I) (for_up 0 (Z.of_nat (length users)) body s) (concat (lg <$> numbered (zip users said))).
Proof.
  intros Hl Hb Hs. rewrite <- (Z.add_0_l (Z.of_nat (length users))).
  replace (length users) with (length (numbered (zip users said))) by
    (unfold numbered; rewrite length_imap, length_zip_with; lia).
  apply (plays_for_list w (λ _, I)); [|done].
  intros d [k [u om]] rest b E Hb'. destruct (numbered_nth _ _ _ _ E) as [E1 E2]. cbn [fst snd] in *. subst k.
  rewrite Z.add_0_l. by apply Hb.
Qed.
End rounds.

Definition at_rest (users : list user) (s : fd_set * Z * buf) : Prop :=
  s.1.1 = watched_set (fds users) ∧ s.1.2 = greatest (fds users) ∧ length s.2 = 200%nat.

Lemma chat_round_plays users said fd writefd s :
  NoDup (fds users) → opened users fd writefd → length said = length users → at_rest users s →
  plays net (returns (at_rest users)) (round (Z.of_nat (length users)) fd writefd s) (round_session users said).
Proof.
  intros Hn Ho Hl Hs. destruct s as [[set mx] message]. destruct Hs as (H1 & H2 & H3). cbn in H1, H2, H3. subst set mx.
  unfold round, round_session, select. cbn [fst snd].
  change ((?p ≫= ?f) ≫= ?g) with (p ≫= λ x, f x ≫= g). play. cbn [rints rv ints_ mret prog_mret mbind prog_mbind prog_bind].
  rewrite (proj2 (Z.ltb_ge _ 0)) by lia. cbn [prog_bind].
  eapply (plays_last _ (λ b, length b = 200%nat)).
  - destruct (Z.ltb_spec 0 (Z.of_nat (length (ready users said)))) as [Hp|Hp].
    + play. apply (served_round users said _ (λ b, length b = 200%nat)); [done| |done]. intros. by apply chat_serve_one_plays.
    + rewrite silent_round; [by play|done|]. destruct (ready users said); [done|cbn in Hp; lia].
  - intros b Hb. eapply plays_last.
    + replace (length users) with (length (fds users)) by apply length_fmap. apply rewatch_plays; [apply Ho|].
      apply ready_sub.
    + intros x <-. play. done.
Qed.

Definition sane (u : user) : Prop :=
  nonul (uname u) = true ∧ (String.length (uname u) ≤ 44)%nat ∧ 0 ≤ ufd u ∧ 0 ≤ ureply u.

Lemma chat_open_one_plays users d u rest s :
  Forall sane users → users = d ++ u :: rest →
  opened d s.1 s.2 ∧ length s.1 = length users ∧ length s.2 = length users →
  plays net (returns (λ s, opened (d ++ [u]) s.1 s.2 ∧ length s.1 = length users ∧ length s.2 = length users))
    (open_one (uname <$> users) (1 + Z.of_nat (length d)) s) (open_session u).
Proof.
  intros Hs E ([Ha Hb] & Hl1 & Hl2). unfold open_one, open_session.
  replace (1 + Z.of_nat (length d) - 1) with (Z.of_nat (length d)) by lia.
  assert (sane u) as (Hn & Hle & H1 & H2).
  { eapply (Forall_lookup_1 _ _ (length d)); [exact Hs|]. by rewrite E, list_lookup_middle. }
  assert (length d < length users)%nat as Hd by (rewrite E, length_app; cbn; lia).
  eapply plays_need; [by rewrite aget_nat, list_lookup_fmap, E, list_lookup_middle|]. play.
  destruct (filled_snoc (ufd <$> d) s.1 (ufd u)) as (fd' & E1 & Hf1 & Hl1'); [done|rewrite length_fmap; lia|].
  rewrite length_fmap in E1. play. rewrite (proj2 (Z.ltb_ge _ 0)) by done. apply plays_exit_if.
  destruct (snprintf_fits (fresh 50) 50 (uname u +:+ "write")) as (b & Eb & Hc & _).
  { by rewrite nonul_app, Hn. }
  { rewrite string_length_app. simpl. lia. }
  { by rewrite length_fresh. }
  play. play. play.
  destruct (filled_snoc (ureply <$> d) s.2 (ureply u)) as (w' & E2 & Hf2 & Hl2'); [done|rewrite length_fmap; lia|].
  rewrite length_fmap in E2. play. rewrite (proj2 (Z.ltb_ge _ 0)) by done. apply plays_exit_if. play.
  unfold opened. rewrite !fmap_app. cbn. split; [done|]. lia.
Qed.

Lemma chat_main_plays users (rounds : list (list (option string))) :
  Forall sane users → NoDup (fds users) → Forall (λ said, length said = length users) rounds →
  plays net (returns (at_rest users)) (main (uname <$> users) (length rounds))
    (concat (open_session <$> users) ++ concat (round_session users <$> rounds)).
Proof.
  intros Hs Hn Hr. unfold main. play. rewrite length_fmap.
  eapply (plays_bind _ (λ s, opened users s.1 s.2 ∧ length s.1 = length users ∧ length s.2 = length users)).
  { rewrite Z.add_comm.
    apply (plays_for_list net (λ d s, opened d s.1 s.2 ∧ length s.1 = length users ∧ length s.2 = length users)).
    - intros d u rest s E H. by eapply chat_open_one_plays.
    - split; [by split|]. cbn [fst snd]. by rewrite length_replicate. }
  intros [fd writefd] (Ho & _ & _). cbn [fst snd] in Ho. rewrite Z.add_simpl_r.
  eapply plays_skip.
  { replace (length users) with (length (fds users)) by apply length_fmap. apply first_watch_plays, Ho. }
  intros x <-. play. play.
  apply (plays_forever_list net (λ _, at_rest users)); [|done].
  intros d said rest s -> H. apply Forall_app in Hr as [_ [Hl _]%Forall_cons]. by apply chat_round_plays.
Qed.

End Chat.

(** ** The chat server of [chatserver], on [poll] *)
Module PollChat.

Definition error_func (val : Z) (message : string) : prog unit :=
  if val <? 0 then puts (message +:+ " " +:+ dec val +:+ nl);; Halt 1 else mret tt.

Definition open_one (argv : list string) (i : Z) (fdA : list (option Z)) : prog (list (option Z)) :=
  name ← need (aget argv i);
  m ← sysv (Mkfifo name 438);
  error_func m ("making fifo server" +:+ nl);;
  f ← sysv (Open name "O_RDONLY|O_NONBLOCK");
  fdA ← need (iset fdA i f);
  error_func f ("opening file1" +:+ nl);;
  mret fdA.

Definition watch_one (fdA : list (option Z)) (i : Z) (fdp : list pollfd) : prog (list pollfd) :=
  f ← need (iget fdA i);
  mret (fdp ++ [PollFd f POLLRDNORM]).

(** One user [j] other than the speaker [i]; [readbuf] is cleared at the end. *)
Definition forward (argv : list string) (i j : Z) (readbuf : buf) : prog buf :=
  if negb (j =? i) then
    text ← str readbuf;
    puts (text +:+ nl);;
    name ← need (aget argv j);
    file ← need (strcat (zeroed 50) name);
    file ← need (strcat file "B");
    file ← str file;
    puts (file +:+ nl);;
    fdB ← sysv (Open file "O_WRONLY");
    error_func fdB "opening file fdB";;
    do_ (Write fdB readbuf 100);;
    do_ (Close fdB);;
    mret (zeroed 100)
  else mret readbuf.

Definition serve_one (argv : list string) (fdA : list (option Z)) (revents : list Z) (i : Z) (readbuf : buf) : prog buf :=
  r ← need (aget revents i);
  if negb (Z.land r POLLRDNORM =? 0) then
    f ← need (iget fdA i);
    '(_, readbuf) ← read f readbuf 100;
    for_up 0 (Z.of_nat (length argv)) (forward argv i) readbuf
  else mret readbuf.

Definition round (argv : list string) (fdA : list (option Z)) (fdp : list pollfd) (readbuf : buf) : prog buf :=
  r ← sys (Poll fdp 100);
  error_func (rv r) "poll error";;
  for_up 0 (Z.of_nat (length argv)) (serve_one argv fdA (rints r)) readbuf.

Definition main (argv : list string) (n : nat) : prog buf :=
  puts (dec (Z.of_nat (length argv) + 1) +:+ nl);;
  fdA ← for_up 0 (Z.of_nat (length argv)) (open_one argv) (replicate 10 (Some 0));
  fdp ← for_up 0 (Z.of_nat (length argv)) (watch_one fdA) [];
  forever n (round argv fdA fdp) (zeroed 100).

(** *** Sessions *)

Definition open_session (u : Chat.user) : list label :=
  [Did (Mkfifo (Chat.uname u) 438) 0; Did (Open (Chat.uname u) "O_RDONLY|O_NONBLOCK") (Chat.ufd u)].

(** The first user other than [i], the only one who gets the text. *)
Definition first_other (i : Z) : Z := if i =? 0 then 1 else 0.

Definition told (i : Z) (m : string) (x : Z * Chat.user) : list label :=
  if x.1 =? i then []
  else [Did (Open (Chat.uname x.2 +:+ "B") "O_WRONLY") (Chat.ureply x.2);
        Sent (Chat.ureply x.2) 100 (if x.1 =? first_other i then m else EmptyString);
        Did (Close (Chat.ureply x.2)) 0].

Definition serve_session (users : list Chat.user) (x : Z * (Chat.user * option string)) : list label :=
  match x.2.2 with
  | Some m => Told (Read (Chat.ufd x.2.1) 100) (bytes_ m) :: concat (told x.1 m <$> numbered users)
  | None => []
  end.

Definition pollfds (users : list Chat.user) : list pollfd := (λ u, PollFd (Chat.ufd u) POLLRDNORM) <$> users.
Definition revents (said : list (option string)) : list Z := (λ m, match m with Some _ => POLLRDNORM | None => 0 end) <$> said.

Definition round_session (users : list Chat.user) (said : list (option string)) : list label :=
  Told (Poll (pollfds users) 100) (Reply (Z.of_nat (length said)) EmptyString (revents said) []) ::
  concat (serve_session users <$> numbered (zip users said)).

Definition texts_ok (said : option string) : Prop := match said with Some m => text_ok m | None => True end.

Definition named (u : Chat.user) : Prop :=
  nonul (Chat.uname u) = true ∧ (String.length (Chat.uname u) ≤ 48)%nat ∧ 0 ≤ Chat.ufd u ∧ 0 ≤ Chat.ureply u.

Lemma plays_poll_error {B} w v m (f : unit → prog B) ls Q :
  0 ≤ v → plays w Q (f tt) ls → plays w Q (error_func v m ≫= f) ls.
Proof. intros. unfold error_func. by rewrite (proj2 (Z.ltb_ge _ _)). Qed.

Section sessions.
Context (users : list Chat.user) (Hnamed : Forall named users).
Let argv := Chat.uname <$> users.

Definition holds (i : Z) (m : string) (d : nat) (b : buf) : Prop :=
  cstr b = Some (if Z.of_nat d <=? first_other i then m else EmptyString) ∧ (first_other i < Z.of_nat d → b = zeroed 100).

Lemma poll_forward_plays i m d u rest b :
  -1 ≤ i → users = d ++ u :: rest → holds i m (length d) b →
  plays net (returns (holds i m (S (length d)))) (forward argv i (Z.of_nat (length d)) b)
    (told i m (Z.of_nat (length d), u)).
Proof.
  intros Hi E [Hb Hz]. unfold forward, told, holds, first_other in *. cbn [fst snd].
  assert (users !! length d = Some u) as Hu by by rewrite E, list_lookup_middle.
  destruct (Forall_lookup_1 _ _ _ _ Hnamed Hu) as (Hn & Hle & _ & H2).
  destruct (Z.eqb_spec (Z.of_nat (length d)) i) as [Hd|Hd]; cbn [negb].
  { play. rewrite Hb. split.
    - f_equal. destruct (Z.eqb_spec i 0), (Z.leb_spec (Z.of_nat (length d)) 0), (Z.leb_spec (Z.of_nat (S (length d))) 0),
        (Z.leb_spec (Z.of_nat (length d)) 1), (Z.leb_spec (Z.of_nat (S (length d))) 1); done || lia.
    - intros Hs. apply Hz. destruct (Z.eqb_spec i 0); lia. }
  play. play. eapply plays_need; [unfold argv; by rewrite aget_nat, list_lookup_fmap, Hu|].
  destruct (strcat_fits (zeroed 50) EmptyString (Chat.uname u)) as (b1 & E1 & Hc1 & Hl1); [done|done|cbn; lia|].
  destruct (strcat_fits b1 (Chat.uname u) "B") as (b2 & E2 & Hc2 & _); [done|done|rewrite Hl1; cbn; lia|].
  do 5 play. apply plays_poll_error; [done|]. eapply plays_write; [done| |].
  { rewrite Hb. f_equal. destruct (Z.eqb_spec i 0).
    - destruct (Z.leb_spec (Z.of_nat (length d)) 1), (Z.eqb_spec (Z.of_nat (length d)) 1); done || lia.
    - destruct (Z.leb_spec (Z.of_nat (length d)) 0), (Z.eqb_spec (Z.of_nat (length d)) 0); done || lia. }
  do 2 play. split; [|done]. change (cstr (zeroed 100)) with (Some EmptyString). f_equal.
  destruct (Z.eqb_spec i 0), (Z.leb_spec (Z.of_nat (S (length d))) 0), (Z.leb_spec (Z.of_nat (S (length d))) 1); done || lia.
Qed.

(** The loop over all users, after which the buffer is clear; [-1] when there
    is no user who is left out. *)
Lemma told_all i m b (fw : Z → buf → prog buf) :
  (∀ j b, 0 ≤ j → fw j b = forward argv i j b) → -1 ≤ i → (2 ≤ length users)%nat → cstr b = Some m →
  plays net (returns (eq (zeroed 100))) (for_up 0 (Z.of_nat (length argv)) fw b)
    (concat (told i m <$> numbered users)).
Proof.
  intros Hfw Hi H2 Hb. unfold argv. rewrite length_fmap, <- (Z.add_0_l (Z.of_nat (length users))).
  replace (length users) with (length (numbered users)) by apply length_imap.
  eapply plays_weaken.
  - apply (plays_for_list net (λ l, holds i m (length l))).
    + intros d [k v] rest t E Ht. destruct (numbered_nth _ _ _ _ E) as [E1 E2]. cbn [fst snd] in *. subst k.
      rewrite Z.add_0_l, length_app, Nat.add_1_r, Hfw by lia.
      replace (length d) with (length (take (length d) users)) by
        (rewrite length_take; apply lookup_lt_Some in E2; lia).
      apply (poll_forward_plays _ _ _ _ (drop (S (length d)) users)); [lia| |].
      * by rewrite take_drop_middle.
      * by rewrite length_take, Nat.min_l by (apply lookup_lt_Some in E2; lia).
    + unfold holds, first_other. cbn [length]. rewrite (proj2 (Z.leb_le _ _)) by (destruct (_ =? 0); lia).
      split; [done|]. destruct (i =? 0); lia.
  - intros b2 [_ Hz]. symmetry. apply Hz. unfold numbered, first_other. rewrite length_imap. destruct (i =? 0); lia.
Qed.

(** A message is read and passed on. *)
Lemma heard_plays i u m (fw : Z → buf → prog buf) :
  (∀ j b, 0 ≤ j → fw j b = forward argv i j b) → -1 ≤ i → (2 ≤ length users)%nat → text_ok m →
  plays net (returns (eq (zeroed 100)))
    ('(_, readbuf) ← read (Chat.ufd u) (zeroed 100) 100; for_up 0 (Z.of_nat (length argv)) fw readbuf)
    (Told (Read (Chat.ufd u) 100) (bytes_ m) :: concat (told i m <$> numbered users)).
Proof. intros Hfw Hi H2 [Hn Hl]. apply plays_text; [done..|]. intros b Hb. by apply told_all. Qed.

Lemma poll_serve_one_plays j u om fdA said b :
  (2 ≤ length users)%nat → filled (Chat.fds users) fdA → zip users said !! j = Some (u, om) → Forall texts_ok said → zeroed 100 = b →
  plays net (returns (eq (zeroed 100))) (serve_one argv fdA (revents said) (Z.of_nat j) b)
    (serve_session users (Z.of_nat j, (u, om))).
Proof.
  intros H2 Hf Hj Ht <-. unfold serve_one, serve_session. cbn [fst snd]. apply lookup_zip_Some in Hj as [Hu Hs].
  eapply plays_need; [unfold revents; by rewrite aget_nat, list_lookup_fmap, Hs|].
  destruct om as [m|]; [|change (negb (Z.land 0 POLLRDNORM =? 0)) with false; cbv iota; by play].
  change (negb (Z.land POLLRDNORM POLLRDNORM =? 0)) with true. cbv iota.
  eapply plays_need; [eapply filled_get; [exact Hf|unfold Chat.fds; by rewrite list_lookup_fmap, Hu]|].
  apply heard_plays; [done|lia|done|]. by apply (Forall_lookup_1 _ _ _ _ Ht) in Hs.
Qed.

Lemma poll_round_plays fdA said b :
  (2 ≤ length users)%nat → filled (Chat.fds users) fdA → length said = length users → Forall texts_ok said → zeroed 100 = b →
  plays net (returns (eq (zeroed 100))) (round argv fdA (pollfds users) b) (round_session users said).
Proof.
  intros H2 Hf Hl Ht Hb. unfold round, round_session. play. apply plays_poll_error; [cbn; lia|].
  unfold argv at 1. rewrite length_fmap.
  apply (Chat.served_round users said _ (eq (zeroed 100))); [done| |done]. intros. by apply poll_serve_one_plays.
Qed.

Lemma poll_open_one_plays d u rest fdA :
  users = d ++ u :: rest → (length users ≤ 10)%nat → filled (Chat.fds d) fdA ∧ length fdA = 10%nat →
  plays net (returns (λ a, filled (Chat.fds (d ++ [u])) a ∧ length a = 10%nat))
    (open_one argv (0 + Z.of_nat (length d)) fdA) (open_session u).
Proof.
  intros E Hle [Hf Hl]. unfold open_one, open_session. rewrite Z.add_0_l.
  assert (users !! length d = Some u) as Hu by by rewrite E, list_lookup_middle.
  destruct (Forall_lookup_1 _ _ _ _ Hnamed Hu) as (_ & _ & H1 & _). pose proof (lookup_lt_Some _ _ _ Hu).
  eapply plays_need; [unfold argv; by rewrite aget_nat, list_lookup_fmap, Hu|]. play.
  apply plays_poll_error; [lia|]. play.
  destruct (filled_snoc (Chat.fds d) fdA (Chat.ufd u)) as (a & E1 & Hf1 & Hl1); [done|unfold Chat.fds; rewrite length_fmap; lia|].
  unfold Chat.fds in E1. rewrite length_fmap in E1. play. apply plays_poll_error; [done|]. play.
  unfold Chat.fds in *. rewrite fmap_app. split; [done|lia].
Qed.

Lemma poll_watch_plays w fdA :
  filled (Chat.fds users) fdA →
  plays w (returns (eq (pollfds users))) (for_up 0 (Z.of_nat (length argv)) (watch_one fdA) []) [].
Proof.
  intros Hf. unfold argv. rewrite length_fmap, <- (Z.add_0_l (Z.of_nat _)), <- (concat_quiet users).
  apply (plays_for_list w (λ d p, pollfds d = p)); [|done].
  intros d u rest p E <-. unfold watch_one. rewrite Z.add_0_l.
  eapply plays_need; [eapply filled_get; [exact Hf|unfold Chat.fds; by rewrite list_lookup_fmap, E, list_lookup_middle]|].
  play. unfold pollfds. by rewrite fmap_app.
Qed.

Lemma poll_opens_plays :
  (length users ≤ 10)%nat →
  plays net (returns (λ a, filled (Chat.fds users) a))
    (for_up 0 (Z.of_nat (length argv)) (open_one argv) (replicate 10 (Some 0))) (concat (open_session <$> users)).
Proof.
  intros Hle. unfold argv at 1. rewrite length_fmap, <- (Z.add_0_l (Z.of_nat (length users))).
  eapply plays_weaken; [apply (plays_for_list net (λ d a, filled (Chat.fds d) a ∧ length a = 10%nat)); [|by split]|by intros a [? _]].
  intros d u rest a E H. by eapply poll_open_one_plays.
Qed.

Lemma poll_main_plays rounds :
  (2 ≤ length users ≤ 10)%nat → Forall (λ said, length said = length users ∧ Forall texts_ok said) rounds →
  plays net (returns (eq (zeroed 100))) (main argv (length rounds))
    (concat (open_session <$> users) ++ concat (round_session users <$> rounds)).
Proof.
  intros Hle Hr. unfold main. play. eapply plays_bind; [apply poll_opens_plays; lia|]. intros fdA Hf.
  eapply plays_skip; [by apply poll_watch_plays|]. intros fdp <-.
  eapply plays_rounds; [exact Hr|]. intros said [Hl Ht]. apply poll_round_plays; [lia|done..].
Qed.
End sessions.

End PollChat.

(** C18: the chat servers.  The server on [select] opens two fifos per user and
    then, in every round, sends what each heard user said, with the user's
    number, to every other user.  The server on [poll] clears its buffer
    inside the loop over the others: only the first of them gets the text, all
    the others an empty one. *)
Theorem chat_fanout (users : list Chat.user) (rounds : list (list (option string))) :
  Forall Chat.sane users → NoDup (Chat.fds users) → Forall (λ said, length said = length users) rounds →
  plays net (returns (Chat.at_rest users)) (Chat.main (Chat.uname <$> users) (length rounds))
    (concat (Chat.open_session <$> users) ++ concat (Chat.round_session users <$> rounds)) ∧
  ((2 ≤ length users ≤ 10)%nat → Forall (Forall PollChat.texts_ok) rounds →
   plays net (returns (eq (zeroed 100))) (PollChat.main (Chat.uname <$> users) (length rounds))
     (concat (PollChat.open_session <$> users) ++ concat (PollChat.round_session users <$> rounds))).
Proof.
  intros Hs Hn Hr. split; [by apply Chat.chat_main_plays|]. intros Hl Ht. apply PollChat.poll_main_plays; [|done|].
  - eapply Forall_impl; [exact Hs|]. intros u (H1 & H2 & H3). split; [done|]. split; [lia|done].
  - apply Forall_and. by split.
Qed.

Definition three_users : list Chat.user := [Chat.User "ann" 3 4; Chat.User "bob" 5 6; Chat.User "cy" 7 8].

(** Ann says something; who gets what. *)
Lemma chat_fanout_witness :
  plays net (returns (Chat.at_rest three_users)) (Chat.main ["ann"; "bob"; "cy"] 1)
    (concat (Chat.open_session <$> three_users) ++
     [Told (Select 8 [7; 5; 3] false) (ints_ [3]); Got 3 100 "hi"; Sent 6 200 "User 0: hi"; Sent 8 200 "User 0: hi"]) ∧
  plays net (returns (eq (zeroed 100))) (PollChat.main ["ann"; "bob"; "cy"] 1)
    (concat (PollChat.open_session <$> three_users) ++
     [Told (Poll (PollChat.pollfds three_users) 100) (Reply 3 EmptyString [POLLRDNORM; 0; 0] []); Told (Read 3 100) (bytes_ "hi");
      Did (Open "bobB" "O_WRONLY") 6; Sent 6 100 "hi"; Did (Close 6) 0;
      Did (Open "cyB" "O_WRONLY") 8; Sent 8 100 EmptyString; Did (Close 8) 0]).
Proof.
  assert (Forall Chat.sane three_users) as H1.
  { repeat (apply Forall_cons; split; [unfold Chat.sane; cbn; repeat split; lia|]). by apply Forall_nil. }
  assert (NoDup (Chat.fds three_users)) as H2 by (apply (bool_decide_unpack _); by vm_compute).
  assert (Forall (λ said : list (option string), length said = length three_users) [[Some "hi"; None; None]])%string as H3
    by by repeat constructor.
  destruct (chat_fanout three_users [[Some "hi"; None; None]]%string H1 H2 H3) as [Hc Hp].
  split; [exact Hc|]. apply (Hp ltac:(cbn; lia)). by repeat constructor.
Defined.
