(* ===== verification/SumServer.v ===== *)
(** * The servers of [multiserver]

    [multiserver/client.c], [multiserver.c] and [s1.c]: a client sends what is
    typed over the fifo "fifo"; the server takes the request apart and starts
    the program [s1], which answers over the fifo "fifoserver".  Module
    [SelectSum] is the variant of the server and of [s1] in [selectservers],
    which has the same client. *)

From stdpp Require Import gmap sets.
From S2P Require Import Prelude CString Posix Session FdPass Nfs Fifo ChatServers.

#[local] Open Scope Z_scope.

Import Nfs.Client(strtok, clear, span_app, span_clear, strtok_span, clear_cons, word_cons).
Import PollChat(error_func).

(** ** The client *)
Module SumClient.

(** One round of [writer]: [writebuf] is empty whenever the loop starts. *)
Definition write_round (fdA : Z) (writebuf : buf) : prog buf :=
  r ← sys ScanString;
  writebuf ← (if 0 <? rv r then need (strcpy writebuf (rdata r)) else mret writebuf);
  n ← need (strlen writebuf);
  do_ (Write fdA writebuf n);;
  mret (zeroed 100).

Definition writer (fdA : Z) (n : nat) : prog buf := forever n (write_round fdA) (zeroed 100).

Definition read_round (fdB : Z) (readbuf : buf) : prog buf :=
  '(r, readbuf) ← read fdB readbuf 100;
  if 0 <? r then
    s ← str readbuf;
    puts (s +:+ nl);;
    mret (zeroed 100)
  else mret readbuf.

Definition reader (fdB : Z) (n : nat) : prog buf := forever n (read_round fdB) (zeroed 100).

(** The two descriptors the threads use. *)
Definition main : prog (Z * Z) :=
  m ← sysv (Mkfifo "fifoserver" 438);
  error_func m ("making fifo" +:+ nl);;
  fdB ← sysv (Open "fifoserver" "O_RDONLY|O_NONBLOCK");
  error_func fdB "opening file";;
  puts ("done first" +:+ nl);;
  fdA ← sysv (Open "fifo" "O_WRONLY");
  error_func fdA "opening file";;
  do_ (PthreadCreate "reader" EmptyString);;
  do_ (PthreadCreate "writer" EmptyString);;
  do_ PthreadJoin;;
  mret (fdA, fdB).

End SumClient.

(** ** The server *)
Module SumServer.

(** The array [argv] of ten pointers: a cell is indeterminate, NULL, or points
    to a buffer. *)
Abbreviation pointers := (list (option (option buf))).

(** One round of the loop that copies the words of the request to [argv], or
    its end, where [argv[i]] becomes NULL. *)
Definition arg_step (x : pointers * Z * option (string * string)) :
    option ((pointers * Z * option (string * string)) + pointers) :=
  let '(argv, i, token) := x in
  match token with
  | Some (t, rest) =>
      b ← sprintf (fresh 20) t;
      argv ← aset argv i (Some (Some b));
      Some (inl (argv, i + 1, strtok "|" rest))
  | None => argv ← aset argv i (Some None); Some (inr argv)
  end.

(** The strings [execv] reads from the array, up to NULL. *)
Fixpoint vector (argv : pointers) : option (list string) :=
  match argv with
  | Some (Some b) :: rest => s ← cstr b; l ← vector rest; Some (s :: l)
  | Some None :: _ => Some []
  | _ => None
  end.

(** Eleven rounds are enough: the eleventh would store outside of [argv]. *)
Definition arguments (token : option (string * string)) : option (list string) :=
  x ← loop 11 arg_step (replicate 10 None, 0, token);
  match x with inl _ => None | inr argv => vector argv end.

(** What is done with a request that was read; [readbuf] is cleared. *)
Definition serve (readbuf : buf) : prog buf :=
  s ← str readbuf;
  puts (s +:+ nl);;
  '(token, rest) ← need (strtok "|" s);
  puts (token +:+ nl);;
  (if strcmp_eq token "s1" then
     c ← sysv Fork;
     if c =? 0 then do_ (Exec "s1" []) else mret tt
   else if strcmp_eq token "s2" then
     c ← sysv Fork;
     if c =? 0 then argv ← need (arguments (Some (token, rest))); do_ (Exec "s1" argv) else mret tt
   else mret tt);;
  mret (zeroed 100).

Definition round (fd : Z) (readbuf : buf) : prog buf :=
  r ← sys (Poll [PollFd fd POLLRDNORM] 100);
  error_func (rv r) "poll error";;
  v ← need (aget (rints r) 0);
  if negb (Z.land v POLLRDNORM =? 0) then
    '(_, readbuf) ← read fd readbuf 100;
    serve readbuf
  else mret readbuf.

Definition main (n : nat) : prog buf :=
  m ← sysv (Mkfifo "fifo" 438);
  error_func m ("making fifo server" +:+ nl);;
  fd ← sysv (Open "fifo" "O_RDONLY|O_NONBLOCK");
  error_func fd ("opening file1" +:+ nl);;
  forever n (round fd) (zeroed 100).

End SumServer.

(** ** The program that adds *)
Module S1.

(** [argv] with the name of the program. *)
Definition main (argv : list string) : prog unit :=
  puts ("s1 is called" +:+ nl);;
  fd ← sysv (Open "fifoserver" "O_WRONLY");
  error_func fd "opening file";;
  s ← need (aget argv 1);
  a ← need (atoi s);
  s ← need (aget argv 2);
  b ← need (atoi s);
  a ← need (int_add a b);
  buf ← need (sprintf (fresh 30) (dec a));
  do_ (Write fd buf 30);;
  do_ (Close fd).

End S1.

(** ** The variant on [select] *)
Module SelectSum.

Definition serve (readbuf : buf) : prog buf :=
  s ← str readbuf;
  puts (s +:+ nl);;
  (if strcmp_eq s "s1" || strcmp_eq s "s2" then
     c ← sysv Fork;
     if c =? 0 then do_ (Exec "s1" []) else mret tt
   else mret tt);;
  mret (zeroed 100).

Definition round (fd : Z) (x : fd_set * buf) : prog (fd_set * buf) :=
  let '(readset, readbuf) := x in
  '(retstatus, readset) ← select fd readset;
  error_func retstatus ("select not working" +:+ nl);;
  readbuf ← (if FD_ISSET fd readset then
               '(_, readbuf) ← read fd readbuf 100; serve readbuf
             else mret readbuf);
  mret (FD_SET fd readset, readbuf).

Definition main (n : nat) : prog (fd_set * buf) :=
  m ← sysv (Mkfifo "fifo" 438);
  error_func m ("making fifo server" +:+ nl);;
  fd ← sysv (Open "fifo" "O_RDONLY|O_NONBLOCK");
  error_func fd ("opening file1" +:+ nl);;
  forever n (round fd) (FD_SET fd ∅, zeroed 100).

(** [s1.c], which does not add. *)
Definition s1_main : prog unit :=
  puts ("s1 is called" +:+ nl);;
  fd ← sysv (Open "fifoserver" "O_WRONLY");
  error_func fd "opening file";;
  do_ (Write fd (lit "sending to client") 30);;
  do_ (Close fd).

End SelectSum.

(** ** Requests *)

(** The words of a request, separated by bars. *)
Fixpoint join (ws : list string) : string :=
  match ws with
  | [] => EmptyString
  | [w] => w
  | w :: ws' => w +:+ String "|" (join ws')
  end.

(** A word: not empty, and without bars; one that fits a buffer of 20 bytes. *)
Definition argument (w : string) : Prop := w ≠ EmptyString ∧ clear "|" w ∧ nonul w = true.
Definition short (w : string) : bool := (Z.of_nat (String.length w) <? 20).

Lemma strtok_join w ws : argument w → strtok "|" (join (w :: ws)) = Some (w, join ws).
Proof.
  intros (Hne & Hc & _). destruct w as [|x w]; [done|]. apply clear_cons in Hc as Hx. destruct Hx as [Hx _].
  destruct ws as [|v ws].
  - cbn [join]. rewrite strtok_span, span_clear by done. done.
  - change (join (String x w :: v :: ws)) with (String x w +:+ String "|" (join (v :: ws))).
    change (String x w +:+ ?t) with (String x (w +:+ t)) at 1. rewrite strtok_span by done.
    change (String x (w +:+ ?t)) with (String x w +:+ t). by rewrite span_app.
Qed.

Lemma join_nonul ws : Forall argument ws → nonul (join ws) = true.
Proof.
  induction 1 as [|w ws (_ & _ & Hw) _ IH]; [done|]. destruct ws as [|v ws]; [done|].
  change (join (w :: v :: ws)) with (w +:+ String "|" (join (v :: ws))). rewrite nonul_app, Hw. exact IH.
Qed.

Lemma join_empty ws : Forall argument ws → join ws = EmptyString → ws = [].
Proof. destruct 1 as [|[|x w] [|v ws] (? & _) _]; done. Qed.

(** The first words of a request, as pointers. *)
Definition points (argv : SumServer.pointers) (ws : list string) : Prop :=
  ∃ bs, take (length ws) argv = (λ b, Some (Some b)) <$> bs ∧ Forall2 (λ b w, cstr b = Some w) bs ws.

Lemma points_snoc argv ws w b :
  points argv ws → (length ws < length argv)%nat → cstr b = Some w →
  points (<[length ws := Some (Some b)]> argv) (ws ++ [w]).
Proof.
  intros (bs & Hbs & H2) Hl Hb. exists (bs ++ [b]).
  split; [|apply Forall2_app; [done|by repeat constructor]].
  rewrite length_app, Nat.add_1_r, (take_S_r _ _ (Some (Some b))) by by apply list_lookup_insert_eq.
  by rewrite take_insert_ge, Hbs, fmap_app.
Qed.

Lemma vector_points argv ws :
  points argv ws → (length ws < length argv)%nat →
  SumServer.vector (<[length ws := Some None]> argv) = Some ws.
Proof.
  intros (bs & Hbs & H2) Hl. rewrite insert_take_drop, Hbs by done. clear Hbs Hl.
  induction H2 as [|b w bs ws Hb _ IH]; [done|]. cbn [fmap list_fmap app SumServer.vector]. rewrite Hb.
  cbn [mbind option_bind]. change (drop (S (length (w :: ws))) argv) with (drop (S (S (length ws))) argv).
  revert IH. cbn [length]. generalize (drop (S (length ws)) argv), (drop (S (S (length ws))) argv). intros l1 l2.
  assert (∀ l, SumServer.vector (((λ b, Some (Some b)) <$> bs) ++ Some None :: l) =
               SumServer.vector (((λ b, Some (Some b)) <$> bs) ++ [Some None])) as H.
  { intros l. clear. induction bs as [|c bs IH]; [done|]. cbn. by rewrite IH. }
  rewrite (H l1), (H l2). by intros ->.
Qed.

Definition fits (ws : list string) (d : nat) : bool := forallb short ws && (d + length ws <=? 9)%nat.

Lemma arg_step_end argv i :
  SumServer.arg_step (argv, i, None) = argv ← aset argv i (Some None); Some (inr argv).
Proof. done. Qed.

Lemma arg_step_word argv i t rest :
  SumServer.arg_step (argv, i, Some (t, rest)) =
  b ← sprintf (fresh 20) t; argv ← aset argv i (Some (Some b)); Some (inl (argv, i + 1, strtok "|" rest)).
Proof. done. Qed.

(** The loop over the words: the rest of the words is copied when each of them
    is short enough and a cell for NULL is left. *)
Lemma arg_loop ws done_ argv m :
  Forall argument ws → points argv done_ → length argv = 10%nat → (11 ≤ m + length done_)%nat → (length done_ ≤ 10)%nat →
  (x ← loop m SumServer.arg_step (argv, Z.of_nat (length done_), strtok "|" (join ws));
   match x with inl _ => None | inr argv => SumServer.vector argv end) =
  if fits ws (length done_) then Some (done_ ++ ws) else None.
Proof.
  intros Hws. revert done_ argv m. induction Hws as [|w ws Hw Hws IH]; intros done_ argv m Hp Hl Hm Hd;
    (destruct m as [|m]; [lia|]); cbn [loop].
  - change (strtok "|" (join [])) with (@None (string * string)). rewrite arg_step_end. unfold fits. cbn [forallb andb length]. rewrite Nat.add_0_r.
    destruct (Nat.leb_spec (length done_) 9) as [Hle|Hgt].
    + rewrite aset_Some by lia. cbn [mbind option_bind mret option_ret]. rewrite Nat2Z.id. rewrite vector_points by (done || lia).
      by rewrite app_nil_r.
    + by rewrite aset_None by lia.
  - rewrite strtok_join, arg_step_word by done. unfold fits, short. cbn [forallb length].
    destruct Hw as (Hne & Hc & Hn). unfold sprintf. pose proof (strcpy_spec (fresh 20) w Hn) as Hs. rewrite length_fresh in Hs.
    destruct (Z.ltb_spec (Z.of_nat (String.length w)) 20) as [H20|H20].
    + rewrite decide_True in Hs by lia. destruct Hs as (b & -> & Hb & _). cbn [mbind option_bind].
      destruct (decide (length done_ < 10)%nat) as [H10|H10].
      * rewrite aset_Some by lia. cbn [mbind option_bind]. rewrite Nat2Z.id.
        specialize (IH (done_ ++ [w]) (<[length done_ := Some (Some b)]> argv) m).
        rewrite length_app, Nat.add_1_r, Nat2Z.inj_succ, <- Z.add_1_r in IH. rewrite IH; clear IH.
        -- unfold fits. cbn [andb]. rewrite <- (app_assoc done_ [w] ws). cbn [app]. by rewrite Nat.add_succ_r.
        -- apply points_snoc; [done|lia|done].
        -- by rewrite length_insert.
        -- lia.
        -- lia.
      * rewrite aset_None by lia. cbn [mbind option_bind]. rewrite (proj2 (Nat.leb_gt _ _)) by lia. by rewrite andb_false_r.
    + rewrite decide_False in Hs by lia. by rewrite Hs.
Qed.

Lemma arguments_join w ws :
  Forall argument (w :: ws) →
  SumServer.arguments (Some (w, join ws)) = if fits (w :: ws) 0 then Some (w :: ws) else None.
Proof.
  intros H. assert (argument w) as Hw by by apply Forall_cons in H as [? _].
  rewrite <- (strtok_join w ws Hw). change 0 with (Z.of_nat (length (@nil string))).
  apply (arg_loop (w :: ws) [] (replicate 10 None) 11); [done| |done|cbn; lia|cbn; lia]. by exists [].
Qed.

(** *** Sessions *)

(** A round of the server: nothing has come, or a request with the words [ws],
    for which [pid] is what [fork] gives. *)
Record request := Request { words_of : list string; pid : Z }.

Definition starts (ws : list string) : bool :=
  match ws with w :: _ => strcmp_eq w "s1" || strcmp_eq w "s2" | [] => false end.

Definition polled_request (fd : Z) (text : string) : list label :=
  [Told (Poll [PollFd fd POLLRDNORM] 100) (Reply 1 EmptyString [POLLRDNORM] []); Told (Read fd 100) (bytes_ text)].

Definition parent_session (fd : Z) (x : option request) : list label :=
  match x with
  | Some q => polled_request fd (join (words_of q)) ++ if starts (words_of q) then [Did Fork (pid q)] else []
  | None => [Told (Poll [PollFd fd POLLRDNORM] 100) (Reply 0 EmptyString [0] [])]
  end.

Definition well_formed (ws : list string) : Prop :=
  ws ≠ [] ∧ Forall argument ws ∧ (String.length (join ws) < 100)%nat.

Definition served (x : option request) : Prop :=
  match x with Some q => well_formed (words_of q) ∧ pid q ≠ 0 | None => True end.

Definition opening (fd : Z) : list label := [Did (Mkfifo "fifo" 438) 0; Did (Open "fifo" "O_RDONLY|O_NONBLOCK") fd].

(** A round in which a text arrives that has a word. *)
Lemma sum_round_plays fd w ws ls Q :
  well_formed (w :: ws) →
  (∀ b, cstr b = Some (join (w :: ws)) →
   plays net Q
     ((if strcmp_eq w "s1" then c ← sysv Fork; if c =? 0 then do_ (Exec "s1" []) else mret tt
       else if strcmp_eq w "s2" then
         c ← sysv Fork;
         if c =? 0 then argv ← need (SumServer.arguments (Some (w, join ws))); do_ (Exec "s1" argv) else mret tt
       else mret tt);; mret (zeroed 100)) ls) →
  plays net Q (SumServer.round fd (zeroed 100)) (polled_request fd (join (w :: ws)) ++ ls).
Proof.
  intros (_ & Hws & Hl) Hf. unfold SumServer.round, polled_request. cbn [app]. play. apply PollChat.plays_poll_error; [done|].
  play. change (negb (Z.land POLLRDNORM POLLRDNORM =? 0)) with true. cbv iota.
  apply plays_text; [done|by apply join_nonul|done|]. intros b Hb. unfold SumServer.serve. do 2 play.
  eapply plays_need; [apply strtok_join; by apply Forall_cons in Hws as [? _]|]. cbv beta iota. play. by eapply Hf.
Qed.

Lemma sum_parent fd x :
  served x → plays net (returns (eq (zeroed 100))) (SumServer.round fd (zeroed 100)) (parent_session fd x).
Proof.
  destruct x as [[[|w ws] p]|]; cbn [served parent_session words_of pid starts]; [by intros [[? _] _]| |].
  - intros [Hw Hp%Z.eqb_neq]. apply sum_round_plays; [done|]. intros b _.
    destruct (strcmp_eq w "s1"); [|destruct (strcmp_eq w "s2")]; cbn [orb]; cbv iota; [| |by do 2 play];
      (inner; play; rewrite Hp; cbv iota; play; play; done).
  - intros _. unfold SumServer.round. play. apply PollChat.plays_poll_error; [done|]. play. change (negb (Z.land 0 POLLRDNORM =? 0)) with false.
    cbv iota. by play.
Qed.

(** What the child does with a request. *)
Lemma sum_child fd w ws :
  well_formed (w :: ws) →
  (w = "s1" → plays net (returns (eq (zeroed 100))) (SumServer.round fd (zeroed 100))
     (polled_request fd (join (w :: ws)) ++ [Did Fork 0; Did (Exec "s1" []) (-1)])) ∧
  (w = "s2" →
   if fits (w :: ws) 0 then
     plays net (returns (eq (zeroed 100))) (SumServer.round fd (zeroed 100))
       (polled_request fd (join (w :: ws)) ++ [Did Fork 0; Did (Exec "s1" (w :: ws)) (-1)])
   else plays net (eq UB) (SumServer.round fd (zeroed 100)) (polled_request fd (join (w :: ws)) ++ [Did Fork 0])).
Proof.
  intros Hw. split.
  - intros ->. apply sum_round_plays; [done|]. intros b _. change (strcmp_eq "s1" "s1") with true. cbv iota.
    inner. play. change (0 =? 0) with true. cbv iota. inner. by repeat play.
  - intros ->. pose proof (arguments_join "s2" ws (proj1 (proj2 Hw))) as Ha. destruct (fits _ _).
    + apply sum_round_plays; [done|]. intros b _. change (strcmp_eq "s2" "s1") with false.
      change (strcmp_eq "s2" "s2") with true. cbv iota. rewrite Ha.
      inner. play. change (0 =? 0) with true. cbv iota. inner. by repeat play.
    + apply sum_round_plays; [done|]. intros b _. change (strcmp_eq "s2" "s1") with false.
      change (strcmp_eq "s2" "s2") with true. cbv iota. rewrite Ha.
      apply plays_bind_UB. play. by apply plays_undef.
Qed.

(** What [s1] does with two numbers. *)
Definition s1_session (wfd : Z) (text : string) : list label :=
  [Did (Open "fifoserver" "O_WRONLY") wfd; Sent wfd 30 text; Did (Close wfd) 0].

Lemma s1_adds name w1 w2 more a b wfd :
  atoi w1 = Some a → atoi w2 = Some b → fits_int (a + b) = true → 0 ≤ wfd →
  plays net (returns (λ _, True)) (S1.main (name :: w1 :: w2 :: more)) (s1_session wfd (dec (a + b))).
Proof.
  intros Ha Hb Hs Hw. unfold S1.main, s1_session. do 2 play. apply PollChat.plays_poll_error; [done|].
  do 4 play. eapply plays_need; [by apply int_of_Some|]. cbv beta. step. play.
  apply plays_watched; [done|done|]. intros r _. by apply plays_return.
Qed.

Lemma s1_fails argv wfd :
  0 ≤ wfd → (length argv < 3)%nat → plays net (eq UB) (S1.main argv) [Did (Open "fifoserver" "O_WRONLY") wfd].
Proof.
  intros Hw Ha. unfold S1.main. do 2 play. apply PollChat.plays_poll_error; [done|].
  destruct argv as [|n [|x [|y argv]]]; [by apply plays_undef..| |cbn in Ha; lia].
  play. destruct (atoi x); [play|]; by apply plays_undef.
Qed.

(** *** The client *)

Definition client_session (fdA fdB : Z) : list label :=
  [Did (Mkfifo "fifoserver" 438) 0; Did (Open "fifoserver" "O_RDONLY|O_NONBLOCK") fdB; Did (Open "fifo" "O_WRONLY") fdA;
   Did (PthreadCreate "reader" EmptyString) 0; Did (PthreadCreate "writer" EmptyString) 0; Did PthreadJoin 0].

Lemma sum_client_starts fdA fdB :
  0 ≤ fdA → 0 ≤ fdB → plays net (returns (eq (fdA, fdB))) SumClient.main (client_session fdA fdB).
Proof.
  intros HA HB. unfold SumClient.main, client_session. play. apply PollChat.plays_poll_error; [done|].
  play. apply PollChat.plays_poll_error; [done|]. do 2 play. apply PollChat.plays_poll_error; [done|]. by do 4 play.
Qed.

(** A word that is typed, and the request that is written. *)
Definition typed (fdA : Z) (text : string) : list label :=
  [Told ScanString (Reply 1 text [] []); Sent fdA (Z.of_nat (String.length text)) text].

Lemma client_writes fdA (texts : list string) :
  Forall text_ok texts →
  plays net (returns (eq (zeroed 100))) (SumClient.writer fdA (length texts)) (concat (typed fdA <$> texts)).
Proof.
  intros Ht. eapply plays_rounds; [exact Ht|]. intros t [Hn Hl].
  unfold SumClient.write_round, typed. play. change (0 <? 1) with true. cbv iota.
  destruct (sprintf_fits (zeroed 100) t Hn) as (b & Hb & Hc & _); [by unfold zeroed; rewrite length_replicate|].
  eapply plays_need; [exact Hb|]. eapply plays_need; [unfold strlen; by rewrite Hc|]. cbv beta. play. by play.
Qed.

(** What the reader prints of the bytes that have come, and of no bytes. *)
Definition shown (fdB : Z) (data s : string) : list label := [Told (Read fdB 100) (bytes_ data); prints s].

Lemma client_prints fdB data s :
  (0 < String.length data ≤ 100)%nat → cstr (cells data) = Some s →
  plays loud (returns (eq (zeroed 100))) (SumClient.read_round fdB (zeroed 100)) (shown fdB data s).
Proof.
  intros Hl Hs. unfold SumClient.read_round, shown, prints, bytes_.
  eapply plays_read_told; [done|apply store_Some; cbn [rdata]; unfold zeroed; rewrite cells_length, length_replicate; lia|].
  cbn [rdata rv]. rewrite (proj2 (Z.ltb_lt _ _)) by lia. cbv iota.
  eapply plays_need; [by apply (cstr_app (cells data))|]. cbv beta. unfold puts. play. by play.
Qed.

(** A text that comes without a NUL. *)
Lemma client_shows fdB t :
  text_ok t → t ≠ EmptyString →
  plays loud (returns (eq (zeroed 100))) (SumClient.read_round fdB (zeroed 100)) (shown fdB t t).
Proof.
  intros [Hn Hl] Hne. unfold SumClient.read_round, shown, prints. apply plays_text; [done..|]. intros b Hb.
  rewrite (proj2 (Z.ltb_lt _ _)) by (destruct t; cbn; [done|lia]). cbv iota. play. unfold puts. play. by play.
Qed.

(** ** The theorems *)

Section theorems.
Context (fd wfd fdA fdB : Z) (Hfd : 0 ≤ fd) (Hwfd : 0 ≤ wfd).

Lemma sum_main_plays (rounds : list (option request)) :
  Forall served rounds →
  plays net (returns (eq (zeroed 100))) (SumServer.main (length rounds)) (opening fd ++ concat (parent_session fd <$> rounds)).
Proof.
  intros Hr. unfold SumServer.main, opening. cbn [app]. play. apply PollChat.plays_poll_error; [done|].
  play. apply PollChat.plays_poll_error; [done|].
  eapply plays_rounds; [exact Hr|apply sum_parent].
Qed.

(** C22: The sum server.  Whatever sequence of requests arrives, the server starts a
    process for each that begins with "s1" or "s2" and goes on with an empty
    buffer.  A request "s2|w1|w2|..." of at most nine words shorter than 20
    characters, typed at a client, reaches the server as it was typed; the new
    process executes [s1] with exactly its words; [s1] adds the first two numbers; and
    the client prints the sum. *)
Theorem sum_request (rounds : list (option request)) w1 w2 more a b :
  let ws := "s2" :: w1 :: w2 :: more in
  Forall served rounds → well_formed ws → fits ws 0 = true →
  atoi w1 = Some a → atoi w2 = Some b → fits_int (a + b) = true →
  plays net (returns (eq (zeroed 100))) (SumServer.main (length rounds))
    (opening fd ++ concat (parent_session fd <$> rounds)) ∧
  plays net (returns (eq (zeroed 100))) (SumClient.writer fdA 1) (typed fdA (join ws)) ∧
  (∀ sent data, cstr sent = Some (join ws) → delivers sent (Z.of_nat (String.length (join ws))) data →
   plays net (returns (eq (zeroed 100))) (SumServer.round fd (zeroed 100))
     (polled_request fd data ++ [Did Fork 0; Did (Exec "s1" ws) (-1)])) ∧
  plays net (returns (λ _, True)) (S1.main ws) (s1_session wfd (dec (a + b))) ∧
  (∀ sent data, cstr sent = Some (dec (a + b)) → delivers sent 30 data →
   plays loud (returns (eq (zeroed 100))) (SumClient.read_round fdB (zeroed 100)) (shown fdB data (dec (a + b)))).
Proof.
  intros ws Hr Hw Hf Ha Hb Hs. split_and!.
  - by apply sum_main_plays.
  - pose proof (client_writes fdA [join ws]) as H. cbn [fmap list_fmap concat length] in H. rewrite app_nil_r in H.
    apply H, Forall_singleton. destruct Hw as (_ & Hw & Hl). split; [by apply join_nonul|done].
  - intros sent data Hc Hd. rewrite (delivers_exact _ _ _ Hc Hd).
    pose proof (proj2 (sum_child fd "s2" (w1 :: w2 :: more) Hw) eq_refl) as H. fold ws in H. by rewrite Hf in H.
  - by apply s1_adds.
  - intros sent data Hc Hd. destruct (number_arrives _ _ _ Hc Hs Hd) as [(Hl & Hcs & _) _].
    apply client_prints; [lia|done].
Qed.

(** Where the sum server goes wrong.  A request that begins with "s1" executes
    [s1] without arguments, which reads outside of its argument vector; so does
    "s2" with less than two words.  A line without a word makes the server
    compare the NULL of [strtok].  A tenth word or one of 20 characters is
    stored outside of its buffer.  Of two answers that arrive together only the
    first is printed. *)
Theorem sum_errors bars ws more d1 d2 s1 s2 :
  strtok "|" bars = None → nonul bars = true → (String.length bars < 100)%nat →
  well_formed ("s1" :: ws) → well_formed ("s2" :: more) → fits ("s2" :: more) 0 = false →
  reads 30 d1 s1 → reads 30 d2 s2 →
  plays net (returns (eq (zeroed 100))) (SumServer.round fd (zeroed 100))
    (polled_request fd (join ("s1" :: ws)) ++ [Did Fork 0; Did (Exec "s1" []) (-1)]) ∧
  (∀ argv, (length argv < 3)%nat → plays net (eq UB) (S1.main argv) [Did (Open "fifoserver" "O_WRONLY") wfd]) ∧
  plays net (eq UB) (SumServer.round fd (zeroed 100)) (polled_request fd bars) ∧
  plays net (eq UB) (SumServer.round fd (zeroed 100)) (polled_request fd (join ("s2" :: more)) ++ [Did Fork 0]) ∧
  plays loud (returns (eq (zeroed 100))) (SumClient.read_round fdB (zeroed 100)) (shown fdB (d1 +:+ d2) s1).
Proof.
  intros Hb Hn Hl H1 H2 Hf (Hl1 & Hc1 & _) (Hl2 & _). split_and!.
  - by apply sum_child.
  - intros argv Ha. by apply s1_fails.
  - unfold SumServer.round, polled_request. play. apply PollChat.plays_poll_error; [done|]. play.
    change (negb (Z.land POLLRDNORM POLLRDNORM =? 0)) with true. cbv iota. apply plays_text; [done..|].
    intros b Hs. unfold SumServer.serve. do 2 play. by apply plays_undef.
  - pose proof (proj2 (sum_child fd "s2" more H2) eq_refl) as H. by rewrite Hf in H.
  - apply client_prints; [rewrite string_length_app; lia|]. rewrite cells_app. by apply cstr_app.
Qed.
End theorems.

(** *** The variant on [select] *)

Definition first_set (fd : Z) : fd_set := FD_SET fd ∅.

(** What has come, and the process that [fork] gives. *)
Definition select_session (fd : Z) (x : option (string * Z)) : list label :=
  match x with
  | Some (t, p) =>
      [Told (Select (fd + 1) (elements (first_set fd)) false) (ints_ [fd]); Told (Read fd 100) (bytes_ t)] ++
      (if starts [t] then Did Fork p :: if p =? 0 then [Did (Exec "s1" []) (-1)] else [] else [])
  | None => [Told (Select (fd + 1) (elements (first_set fd)) false) (ints_ [])]
  end.

Lemma select_serve_plays t p b :
  cstr b = Some t →
  plays net (returns (eq (zeroed 100))) (SelectSum.serve b)
    (if starts [t] then Did Fork p :: if p =? 0 then [Did (Exec "s1" []) (-1)] else [] else []).
Proof.
  intros Hb. unfold SelectSum.serve. do 2 play. change (starts [t]) with (strcmp_eq t "s1" || strcmp_eq t "s2").
  destruct (_ || _); [|by do 2 play]. inner. play. by destruct (p =? 0); do 2 play.
Qed.

Lemma select_sum_round fd x :
  match x with Some (t, _) => text_ok t | None => True end →
  plays net (returns (eq (first_set fd, zeroed 100))) (SelectSum.round fd (first_set fd, zeroed 100)) (select_session fd x).
Proof.
  assert (∀ s : fd_set, s ⊆ {[fd]} → FD_SET fd s = first_set fd) as Hset.
  { intros s Hs. unfold FD_SET, first_set, FD_SET. apply leibniz_equiv. set_solver. }
  unfold SelectSum.round, select, select_session. destruct x as [[t p]|]; cbn [app].
  - intros [Hn Hl]. inner. play. cbn [mret prog_mret mbind prog_mbind prog_bind].
    apply PollChat.plays_poll_error; [done|]. unfold FD_ISSET. rewrite bool_decide_eq_true_2 by set_solver.
    cbv iota. eapply (plays_last _ (eq (zeroed 100))); [apply plays_text; [done..|]; intros b Hb; by apply select_serve_plays|].
    intros _ <-. play. by rewrite Hset by set_solver.
  - intros _. inner. play. cbn [mret prog_mret mbind prog_mbind prog_bind].
    apply PollChat.plays_poll_error; [done|]. unfold FD_ISSET. rewrite bool_decide_eq_false_2 by set_solver.
    do 2 play. by rewrite Hset by set_solver.
Qed.

(** The sum server on [select].  For every request that is exactly "s1" or
    "s2" it executes [s1] without arguments (for a request with arguments
    nothing); this [s1] sends a fixed text, which the client prints. *)
Theorem fixed_answer fd wfd fdB (rounds : list (option (string * Z))) sent data :
  0 ≤ fd → 0 ≤ wfd → Forall (λ x : option (string * Z), match x with Some (t, _) => text_ok t | None => True end) rounds →
  cstr sent = Some "sending to client" → delivers sent 30 data →
  plays net (returns (eq (first_set fd, zeroed 100))) (SelectSum.main (length rounds))
    (opening fd ++ concat (select_session fd <$> rounds)) ∧
  plays net (returns (λ _, True)) SelectSum.s1_main (s1_session wfd "sending to client") ∧
  plays loud (returns (eq (zeroed 100))) (SumClient.read_round fdB (zeroed 100)) (shown fdB data "sending to client").
Proof.
  intros Hfd Hw Hr Hs Hd. split_and!.
  - unfold SelectSum.main, opening. cbn [app]. play. apply PollChat.plays_poll_error; [done|].
    play. apply PollChat.plays_poll_error; [done|].
    eapply plays_rounds; [exact Hr|]. intros x. apply select_sum_round.
  - unfold SelectSum.s1_main, s1_session. do 2 play. apply PollChat.plays_poll_error; [done|]. play.
    apply plays_watched; [done|done|]. intros r _. by apply plays_return.
  - destruct (delivers_reads sent "sending to client" 30 data Hs ltac:(cbn; lia) Hd) as (Hl & Hc & _). apply client_prints; [clear - Hl; lia|done].
Qed.

(** *** Witnesses *)

Lemma words_ok ws : ws ≠ [] → forallb (λ w, negb (String.eqb w "") && nonul w && forallb (λ c, negb (Nfs.Client.mem c "|")) (list_ascii_of_string w)) ws = true →
  (String.length (join ws) < 100)%nat → well_formed ws.
Proof.
  intros Hne H Hl. split_and!; [done| |done]. apply Forall_forall. intros w Hw.
  rewrite forallb_forall in H. apply list_elem_of_In, H in Hw. apply andb_true_iff in Hw as [[Hw Hn]%andb_true_iff Hm].
  split_and!; [|rewrite forallb_forall in Hm; intros c Hc; apply Hm in Hc; by destruct (Nfs.Client.mem c "|")|done].
  by destruct w.
Qed.

(** "s2|3|4" is answered with 7; of the two requests "s2|1|2" and "s2|3|4" that
    arrive together, only the first is answered. *)
Lemma sum_request_witness :
  let rounds := [None; Some (Request ["s2"; "3"; "4"] 71); Some (Request ["s2"; "1"; "2s2"; "3"; "4"] 72)] in
  let data := "7" +:+ String NUL "............................" in
  join ["s2"; "1"; "2s2"; "3"; "4"] = "s2|1|2" +:+ "s2|3|4" ∧
  plays net (returns (eq (zeroed 100))) (SumServer.main 3) (opening 3 ++ concat (parent_session 3 <$> rounds)) ∧
  plays net (returns (λ _, True)) (S1.main ["s2"; "3"; "4"]) (s1_session 4 "7") ∧
  plays net (returns (λ _, True)) (S1.main ["s2"; "1"; "2s2"; "3"; "4"]) (s1_session 4 "3") ∧
  plays loud (returns (eq (zeroed 100))) (SumClient.read_round 5 (zeroed 100)) (shown 5 data "7").
Proof.
  intros rounds data.
  assert (well_formed ["s2"; "3"; "4"]) as H1 by (apply words_ok; [done|done|by apply Nat.ltb_lt]).
  assert (well_formed ["s2"; "1"; "2s2"; "3"; "4"]) as H2 by (apply words_ok; [done|done|by apply Nat.ltb_lt]).
  assert (Forall served rounds) as Hr by (repeat (apply List.Forall_cons; [done|]); done).
  destruct (sum_request 3 4 6 5 ltac:(done) ltac:(done) rounds "3" "4" [] 3 4 Hr H1 eq_refl eq_refl eq_refl eq_refl)
    as (Hm & _ & _ & Hs & Hc).
  destruct (sum_request 3 4 6 5 ltac:(done) ltac:(done) rounds "1" "2s2" ["3"; "4"] 1 2 Hr H2 eq_refl eq_refl eq_refl eq_refl)
    as (_ & _ & _ & Hs' & _).
  split_and!; [done|exact Hm|exact Hs|exact Hs'|].
  apply (Hc (cells data) data); [done|]. split; [done|]. intros i c Hi _. unfold cells in Hi.
  rewrite list_lookup_fmap in Hi. by destruct (list_ascii_of_string data !! i); [injection Hi as ->|].
Defined.

Lemma sum_errors_witness :
  let d s := s +:+ String NUL "............................" in
  plays net (eq UB) (SumServer.round 3 (zeroed 100)) (polled_request 3 "|||") ∧
  plays net (returns (eq (zeroed 100))) (SumServer.round 3 (zeroed 100))
    (polled_request 3 "s1|3|4" ++ [Did Fork 0; Did (Exec "s1" []) (-1)]) ∧
  plays net (eq UB) (SumServer.round 3 (zeroed 100)) (polled_request 3 "s2|10000000000000000000|4" ++ [Did Fork 0]) ∧
  plays loud (returns (eq (zeroed 100))) (SumClient.read_round 5 (zeroed 100)) (shown 5 (d "7" +:+ d "3") "7").
Proof.
  intros d.
  assert (well_formed ["s1"; "3"; "4"]) as H1 by (apply words_ok; [done|done|by apply Nat.ltb_lt]).
  assert (well_formed ["s2"; "10000000000000000000"; "4"]) as H2 by (apply words_ok; [done|done|by apply Nat.ltb_lt]).
  destruct (sum_errors 3 4 5 ltac:(done) "|||" ["3"; "4"] ["10000000000000000000"; "4"] (d "7") (d "3") "7" "3"
    eq_refl eq_refl ltac:(cbn; lia) H1 H2 eq_refl) as (Ha & _ & Hb & Hc & Hd); [by split_and!..|].
  split_and!; [exact Hb|exact Ha|exact Hc|exact Hd].
Defined.

Lemma fixed_answer_witness :
  plays net (returns (eq (first_set 3, zeroed 100))) (SelectSum.main 3)
    (opening 3 ++ concat (select_session 3 <$> [None; Some ("s2", 71); Some ("s2|3|4", 0)])) ∧
  plays net (returns (λ _, True)) SelectSum.s1_main (s1_session 4 "sending to client") ∧
  plays loud (returns (eq (zeroed 100))) (SumClient.read_round 5 (zeroed 100))
    (shown 5 ("sending to client" +:+ String NUL "............") "sending to client").
Proof.
  apply (fixed_answer 3 4 5 [None; Some ("s2", 71); Some ("s2|3|4", 0)] (cells ("sending to client" +:+ String NUL "............")));
    [done|done| |done|].
  - repeat (apply List.Forall_cons; [first [exact I|split; [done|by apply Nat.ltb_lt]]|]). by apply List.Forall_nil.
  - split; [done|]. intros i c Hi _. unfold cells in Hi.
    rewrite list_lookup_fmap in Hi. by destruct (list_ascii_of_string _ !! i); [injection Hi as ->|].
Defined.
