(* ===== verification/FifoChat.v ===== *)
(** * Earlier chat and log servers on fifos

    The directories [chatserver], [logserver] and [selectservers]: the
    terminals of the users ([chatserver/client.c] and [logserver/client.c];
    their threads are those of [SumServer]), the server that passes
    everything on to everybody ([logserver/server.c], copied to
    [multiserver/server.c] and [selectservers]), the log server behind it
    ([logserver/logserver.c]), and the chat server on [select]
    ([selectservers/chatserver/server.c]).  The loops that open and watch
    fifos and the one that passes a message on are those of
    [ChatServers.PollChat]. *)

From stdpp Require Import gmap sets.
From S2P Require Import Prelude CString Posix Session FdPass Fifo ChatServers SumServer.

#[local] Open Scope Z_scope.

Import PollChat(error_func, open_one, watch_one, forward, told, pollfds, revents, texts_ok, named).

(** ** The terminals *)
Module Terminal.

(** [argv1] is the array [argv[1]] points into.  The name of the second fifo
    is made in place. *)
Definition chat_main (argv1 : buf) : prog (Z * Z) :=
  name ← str argv1;
  fdA ← sysv (Open name "O_WRONLY");
  error_func fdA "opening file";;
  puts (name +:+ nl);;
  argv1 ← need (strcat argv1 "B");
  name ← str argv1;
  m ← sysv (Mkfifo name 438);
  error_func m ("making fifo" +:+ nl);;
  fdB ← sysv (Open name "O_RDONLY|O_NONBLOCK");
  error_func fdB "opening file";;
  puts ("done first" +:+ nl);;
  do_ (PthreadCreate "reader" EmptyString);;
  do_ (PthreadCreate "writer" EmptyString);;
  do_ PthreadJoin;;
  do_ PthreadJoin;;
  mret (fdA, fdB).

(** The terminal of [logserver] never opens [fdB], a global variable. *)
Definition log_main (argv1 : buf) : prog (Z * Z) :=
  name ← str argv1;
  fdA ← sysv (Open name "O_WRONLY");
  error_func fdA "opening file";;
  puts (name +:+ nl);;
  puts ("done first" +:+ nl);;
  do_ (PthreadCreate "reader" EmptyString);;
  do_ (PthreadCreate "writer" EmptyString);;
  do_ PthreadJoin;;
  do_ PthreadJoin;;
  mret (fdA, 0).

End Terminal.

(** ** The server that passes on to everybody *)
Module GroupServer.

Definition forward (argv : list string) (j : Z) (readbuf : buf) : prog buf :=
  text ← str readbuf;
  puts (text +:+ nl);;
  name ← need (aget argv j);
  file ← need (strcat (zeroed 50) name);
  file ← need (strcat file "B");
  file ← str file;
  puts (file +:+ nl);;
  fdB ← sysv (Open file "O_WRONLY");
  error_func fdB "opening file fdB";;
  do_ (Write fdB readbuf 100);;
  do_ (Close fdB);;
  mret (zeroed 100).

Definition serve_one (argv : list string) (fdA : list (option Z)) (revents : list Z) (i : Z) (readbuf : buf) : prog buf :=
  r ← need (aget revents i);
  if negb (Z.land r POLLRDNORM =? 0) then
    f ← need (iget fdA i);
    '(_, readbuf) ← read f readbuf 100;
    for_up 0 (Z.of_nat (length argv)) (forward argv) readbuf
  else mret readbuf.

Definition round (argv : list string) (fdA : list (option Z)) (fdp : list pollfd) (readbuf : buf) : prog buf :=
  r ← sys (Poll fdp 100);
  error_func (rv r) "poll error";;
  for_up 0 (Z.of_nat (length argv)) (serve_one argv fdA (rints r)) readbuf.

Definition main (argv : list string) (n : nat) : prog buf :=
  puts (dec (Z.of_nat (length argv) + 1) +:+ nl);;
  fdA ← for_up 0 (Z.of_nat (length argv)) (open_one argv) (replicate 10 (Some 0));
  fdp ← for_up 0 (Z.of_nat (length argv)) (watch_one fdA) [];
  forever n (round argv fdA fdp) (zeroed 100).

End GroupServer.

(** ** The log server *)
Module FirstLog.

Definition open_one (argv : list string) (i : Z) (fdA : list (option Z)) : prog (list (option Z)) :=
  name ← need (aget argv i);
  file ← need (strcat (zeroed 50) name);
  file ← need (strcat file "B");
  file ← str file;
  m ← sysv (Mkfifo file 438);
  error_func m ("making fifo server" +:+ nl);;
  f ← sysv (Open file "O_RDONLY|O_NONBLOCK");
  fdA ← need (iset fdA i f);
  error_func f ("opening file1" +:+ nl);;
  mret fdA.

Definition serve_one (fdA : list (option Z)) (revents : list Z) (i : Z) (readbuf : buf) : prog buf :=
  r ← need (aget revents i);
  if negb (Z.land r POLLRDNORM =? 0) then
    f ← need (iget fdA i);
    '(_, readbuf) ← read f readbuf 100;
    text ← str readbuf;
    puts (text +:+ nl);;
    mret (zeroed 100)
  else mret readbuf.

Definition round (argv : list string) (fdA : list (option Z)) (fdp : list pollfd) (readbuf : buf) : prog buf :=
  r ← sys (Poll fdp 100);
  error_func (rv r) "poll error";;
  for_up 0 (Z.of_nat (length argv)) (serve_one fdA (rints r)) readbuf.

Definition main (argv : list string) (n : nat) : prog buf :=
  puts (dec (Z.of_nat (length argv) + 1) +:+ nl);;
  fdA ← for_up 0 (Z.of_nat (length argv)) (open_one argv) (replicate 10 (Some 0));
  fdp ← for_up 0 (Z.of_nat (length argv)) (watch_one fdA) [];
  forever n (round argv fdA fdp) (zeroed 100).

End FirstLog.

(** ** The chat server on [select] *)
Module SelectChat.

Definition serve_one (argv : list string) (fdA : list (option Z)) (readset : fd_set) (i : Z) (readbuf : buf) : prog buf :=
  f ← need (iget fdA i);
  if FD_ISSET f readset then
    '(_, readbuf) ← read f readbuf 100;
    for_up 0 (Z.of_nat (length argv)) (forward argv i) readbuf
  else mret readbuf.

Definition round (argv : list string) (fdA : list (option Z)) (x : fd_set * Z * buf) : prog (fd_set * Z * buf) :=
  let '(readset, max, readbuf) := x in
  '(retstatus, readset) ← select max readset;
  error_func retstatus ("select not working" +:+ nl);;
  readbuf ← for_up 0 (Z.of_nat (length argv)) (serve_one argv fdA readset) readbuf;
  '(readset, max) ← watch fdA (Z.of_nat (length argv)) (readset, max);
  mret (readset, max, readbuf).

Definition main (argv : list string) (n : nat) : prog (fd_set * Z * buf) :=
  puts (dec (Z.of_nat (length argv) + 1) +:+ nl);;
  fdA ← for_up 0 (Z.of_nat (length argv)) (open_one argv) (replicate 10 (Some 0));
  '(readset, max) ← watch fdA (Z.of_nat (length argv)) (∅, 0);
  forever n (round argv fdA) (readset, max, zeroed 100).

End SelectChat.

(** ** Sessions *)

(** What is read from a user, and what is done with it. *)
Definition group_session (users : list Chat.user) (x : Z * (Chat.user * option string)) : list label :=
  match x.2.2 with
  | Some m => Told (Read (Chat.ufd x.2.1) 100) (bytes_ m) :: concat (told (-1) m <$> numbered users)
  | None => []
  end.
Definition log_session (x : Z * (Chat.user * option string)) : list label :=
  match x.2.2 with Some m => [Got (Chat.ufd x.2.1) 100 m; prints m] | None => [] end.

Definition polled_users (users : list Chat.user) (said : list (option string)) : label :=
  Told (Poll (pollfds users) 100) (Reply (Z.of_nat (length said)) EmptyString (revents said) []).
Definition selected_users (users : list Chat.user) (said : list (option string)) : label :=
  Told (Select (greatest (Chat.fds users) + 1) (elements (watched_set (Chat.fds users))) false) (ints_ (Chat.ready users said)).

(** A round: how the server learns who has said something, and what it does
    for each of them. *)
Definition round_of (look : list Chat.user → list (option string) → label) (each : Z * (Chat.user * option string) → list label)
    (users : list Chat.user) (said : list (option string)) : list label :=
  look users said :: concat (each <$> numbered (zip users said)).

Definition fifo_session (u : Chat.user) : list label :=
  [Did (Mkfifo (Chat.uname u +:+ "B") 438) 0; Did (Open (Chat.uname u +:+ "B") "O_RDONLY|O_NONBLOCK") (Chat.ufd u)].

Definition round_ok (users : list Chat.user) (said : list (option string)) : Prop :=
  length said = length users ∧ Forall texts_ok said.

Section sessions.
Context (users : list Chat.user) (Hnamed : Forall named users).
Let argv := Chat.uname <$> users.

(** The server for everybody is the chat server without a speaker. *)
Lemma forward_all j b : 0 ≤ j → GroupServer.forward argv j b = forward argv (-1) j b.
Proof. intros Hj. unfold forward, GroupServer.forward. by rewrite (proj2 (Z.eqb_neq _ _)) by lia. Qed.

(** A round of a server on [poll]. *)
Lemma polled_round {w} said (body : list Z → Z → buf → prog buf) (each : Z * (Chat.user * option string) → list label) :
  w (Poll (pollfds users) 100) = true → round_ok users said →
  (∀ j u om, zip users said !! j = Some (u, om) → texts_ok om → revents said !! j = Some (match om with Some _ => POLLRDNORM | None => 0 end) →
   plays w (returns (eq (zeroed 100))) (body (revents said) (Z.of_nat j) (zeroed 100)) (each (Z.of_nat j, (u, om)))) →
  plays w (returns (eq (zeroed 100)))
    (r ← sys (Poll (pollfds users) 100); error_func (rv r) "poll error";; for_up 0 (Z.of_nat (length argv)) (body (rints r)) (zeroed 100))
    (round_of polled_users each users said).
Proof.
  intros Hw [Hl Ht] Hb. unfold round_of, polled_users. apply plays_told; [done|].
  apply PollChat.plays_poll_error; [cbn; lia|]. unfold argv. rewrite length_fmap.
  apply (Chat.served_round users said _ (eq (zeroed 100))); [done| |done]. intros j u om b Hj <-. apply Hb; [done| |].
  - apply lookup_zip_Some in Hj as [_ Hs]. by apply (Forall_lookup_1 _ _ _ _ Ht) in Hs.
  - apply lookup_zip_Some in Hj as [_ Hs]. unfold revents. rewrite list_lookup_fmap, Hs. by destruct om.
Qed.

Lemma group_round_plays fdA said :
  (2 ≤ length users)%nat → filled (Chat.fds users) fdA → round_ok users said →
  plays net (returns (eq (zeroed 100))) (GroupServer.round argv fdA (pollfds users) (zeroed 100))
    (round_of polled_users (group_session users) users said).
Proof.
  intros H2 Hf Hr. unfold GroupServer.round. apply (polled_round _ (GroupServer.serve_one argv fdA)); [done|done|]. intros j u om Hj Hm Hv.
  apply lookup_zip_Some in Hj as [Hu _]. unfold GroupServer.serve_one, group_session. cbn [fst snd rints].
  eapply plays_need; [by rewrite aget_nat|]. destruct om as [m|]; cbv beta.
  - change (negb (Z.land POLLRDNORM POLLRDNORM =? 0)) with true. cbv iota.
    eapply plays_need; [eapply filled_get; [exact Hf|unfold Chat.fds; by rewrite list_lookup_fmap, Hu]|].
    apply PollChat.heard_plays; [done|apply forward_all|lia|done|done].
  - change (negb (Z.land 0 POLLRDNORM =? 0)) with false. cbv iota. by play.
Qed.

Lemma first_log_round_plays fdA said :
  filled (Chat.fds users) fdA → round_ok users said →
  plays loud (returns (eq (zeroed 100))) (FirstLog.round argv fdA (pollfds users) (zeroed 100))
    (round_of polled_users log_session users said).
Proof.
  intros Hf Hr. unfold FirstLog.round. apply (polled_round _ (FirstLog.serve_one fdA)); [done|done|]. intros j u om Hj Hm Hv.
  apply lookup_zip_Some in Hj as [Hu _]. unfold FirstLog.serve_one, log_session, prints. cbn [fst snd rints].
  eapply plays_need; [by rewrite aget_nat|]. destruct om as [m|]; cbv beta.
  - change (negb (Z.land POLLRDNORM POLLRDNORM =? 0)) with true. cbv iota.
    eapply plays_need; [eapply filled_get; [exact Hf|unfold Chat.fds; by rewrite list_lookup_fmap, Hu]|].
    cbv beta. apply plays_read; [done|done|]. intros b Hb _. cbv beta iota. unfold puts. do 2 play. by play.
  - change (negb (Z.land 0 POLLRDNORM =? 0)) with false. cbv iota. by play.
Qed.

Lemma group_main_plays rounds :
  (2 ≤ length users ≤ 10)%nat → Forall (round_ok users) rounds →
  plays net (returns (eq (zeroed 100))) (GroupServer.main argv (length rounds))
    (concat (PollChat.open_session <$> users) ++ concat (round_of polled_users (group_session users) users <$> rounds)).
Proof.
  intros Hl Hr. unfold GroupServer.main. play. eapply plays_bind; [apply PollChat.poll_opens_plays; [done|lia]|]. intros fdA Hf.
  eapply plays_skip; [by apply PollChat.poll_watch_plays|]. intros fdp <-.
  eapply plays_rounds; [exact Hr|]. intros said. apply group_round_plays; [lia|done].
Qed.

(** *** The log server *)

Lemma first_log_open_plays d u rest fdA :
  users = d ++ u :: rest → (length users ≤ 10)%nat → filled (Chat.fds d) fdA ∧ length fdA = 10%nat →
  plays loud (returns (λ a, filled (Chat.fds (d ++ [u])) a ∧ length a = 10%nat))
    (FirstLog.open_one argv (0 + Z.of_nat (length d)) fdA) (fifo_session u).
Proof.
  intros E Hle [Hf Hl]. unfold FirstLog.open_one, fifo_session. rewrite Z.add_0_l.
  assert (users !! length d = Some u) as Hu by by rewrite E, list_lookup_middle.
  destruct (Forall_lookup_1 _ _ _ _ Hnamed Hu) as (Hn & Hlen & H1 & _). pose proof (lookup_lt_Some _ _ _ Hu).
  eapply plays_need; [unfold argv; by rewrite aget_nat, list_lookup_fmap, Hu|].
  destruct (strcat_fits (zeroed 50) EmptyString (Chat.uname u)) as (b1 & E1 & Hc1 & Hl1); [done|done|cbn; lia|].
  destruct (strcat_fits b1 (Chat.uname u) "B") as (b2 & E2 & Hc2 & _); [done|done|rewrite Hl1; cbn; lia|].
  do 4 play. apply PollChat.plays_poll_error; [lia|]. play.
  destruct (filled_snoc (Chat.fds d) fdA (Chat.ufd u)) as (a & E3 & Hf1 & Hl3); [done|unfold Chat.fds; rewrite length_fmap; lia|].
  unfold Chat.fds in E3. rewrite length_fmap in E3. play. apply PollChat.plays_poll_error; [done|]. play.
  unfold Chat.fds in *. rewrite fmap_app. split; [done|lia].
Qed.

Lemma first_log_main_plays rounds :
  (length users ≤ 10)%nat → Forall (round_ok users) rounds →
  plays loud (returns (eq (zeroed 100))) (FirstLog.main argv (length rounds))
    (prints (dec (Z.of_nat (length users) + 1)) :: concat (fifo_session <$> users) ++
     concat (round_of polled_users log_session users <$> rounds)).
Proof.
  intros Hl Hr. unfold FirstLog.main, prints, puts.
  assert (length argv = length users) as -> by apply length_fmap. play.
  eapply (plays_bind _ (λ a, filled (Chat.fds users) a ∧ length a = 10%nat)).
  - rewrite <- (Z.add_0_l (Z.of_nat (length users))).
    apply (plays_for_list loud (λ d a, filled (Chat.fds d) a ∧ length a = 10%nat)); [|by split].
    intros d u rest a E H. by eapply first_log_open_plays.
  - intros fdA [Hf _]. rewrite <- (length_fmap Chat.uname users).
    eapply plays_skip; [by apply PollChat.poll_watch_plays|]. intros fdp <-.
    eapply plays_rounds; [exact Hr|]. intros said. by apply first_log_round_plays.
Qed.

(** *** The chat server on [select] *)

Definition resting : fd_set * Z * buf := (watched_set (Chat.fds users), greatest (Chat.fds users), zeroed 100).

Lemma select_round_plays fdA said :
  NoDup (Chat.fds users) → (2 ≤ length users)%nat → filled (Chat.fds users) fdA → round_ok users said →
  plays net (returns (eq resting)) (SelectChat.round argv fdA resting)
    (round_of selected_users (PollChat.serve_session users) users said).
Proof.
  intros Hn H2 Hf [Hl Ht]. unfold SelectChat.round, round_of, selected_users, select, resting. inner. play.
  cbn [mret prog_mret mbind prog_mbind prog_bind]. apply PollChat.plays_poll_error; [cbn; lia|].
  eapply (plays_last _ (eq (zeroed 100))).
  - unfold argv. rewrite length_fmap. apply (Chat.served_round users said _ (eq (zeroed 100))); [done| |done].
    intros j u om b Hj <-. pose proof (Chat.ready_iff _ _ _ _ _ Hn Hj) as Hr. apply lookup_zip_Some in Hj as [Hu Hs].
    unfold SelectChat.serve_one, PollChat.serve_session. cbn [fst snd].
    eapply plays_need; [eapply filled_get; [exact Hf|unfold Chat.fds; by rewrite list_lookup_fmap, Hu]|].
    unfold FD_ISSET. destruct om as [m|].
    + rewrite bool_decide_eq_true_2 by (apply elem_of_list_to_set, Hr; by eexists).
      apply PollChat.heard_plays; [done|done|lia|done|]. by apply (Forall_lookup_1 _ _ _ _ Ht) in Hs.
    + rewrite bool_decide_eq_false_2; [by play|]. intros H%elem_of_list_to_set%Hr. by destruct H.
  - intros _ <-. unfold argv. rewrite length_fmap. eapply plays_last.
    + replace (length users) with (length (Chat.fds users)) by apply length_fmap.
      apply rewatch_plays; [done|]. apply Chat.ready_sub.
    + intros x <-. by play.
Qed.

Lemma select_main_plays rounds :
  NoDup (Chat.fds users) → (2 ≤ length users ≤ 10)%nat → Forall (round_ok users) rounds →
  plays net (returns (eq resting)) (SelectChat.main argv (length rounds))
    (concat (PollChat.open_session <$> users) ++
     concat (round_of selected_users (PollChat.serve_session users) users <$> rounds)).
Proof.
  intros Hn Hl Hr. unfold SelectChat.main. play. eapply plays_bind; [apply PollChat.poll_opens_plays; [done|lia]|].
  intros fdA Hf. unfold argv. rewrite !length_fmap. eapply plays_skip.
  { replace (length users) with (length (Chat.fds users)) by apply length_fmap. by apply first_watch_plays. }
  intros x <-. eapply plays_rounds; [exact Hr|]. intros said. apply select_round_plays; [done|lia|done].
Qed.
End sessions.

(** *** A message on its way to the log *)

(** What the log server finds in the fifos of [n] users after one of them has
    said [m]. *)
Definition copies (n : nat) (m : string) : list string := m :: replicate (n - 1) EmptyString.

Definition written (u : Chat.user) (c : string) : list label :=
  [Did (Open (Chat.uname u +:+ "B") "O_WRONLY") (Chat.ureply u); Sent (Chat.ureply u) 100 c; Did (Close (Chat.ureply u)) 0].
Definition logged (u : Chat.user) (c : string) : list label := [Got (Chat.ufd u) 100 c; prints c].

Lemma fmap_numbered {A B} (f : Z * A → B) (g : A → B) (l : list A) k :
  (∀ i x, (k ≤ i)%nat → f (Z.of_nat i, x) = g x) → f <$> imap (λ i x, (Z.of_nat (k + i), x)) l = g <$> l.
Proof.
  revert k. induction l as [|x l IH]; intros k H; [done|]. rewrite imap_cons. cbn. rewrite H by lia. f_equal.
  rewrite <- (IH (S k)) by (intros; apply H; lia). f_equal. apply imap_ext. intros i y _. unfold compose. do 2 f_equal. lia.
Qed.

Lemma told_copies users m :
  (0 < length users)%nat → told (-1) m <$> numbered users = zip_with written users (copies (length users) m).
Proof.
  destruct users as [|u users]; [cbn; lia|]. intros _. unfold numbered. rewrite imap_cons. unfold copies. cbn [fmap list_fmap zip_with length].
  f_equal. cbn [Nat.sub]. rewrite Nat.sub_0_r, zip_with_replicate_r by done.
  apply (fmap_numbered _ (λ u, written u EmptyString) _ 1). intros i x Hi. unfold told, PollChat.first_other. cbn [fst snd].
  rewrite (proj2 (Z.eqb_neq _ (-1))), (proj2 (Z.eqb_neq _ _)) by (cbn; lia). done.
Qed.

Lemma log_copies users cs :
  log_session <$> numbered (zip users (Some <$> cs)) = zip_with logged users cs.
Proof.
  etrans; [by apply (fmap_numbered log_session (λ x, log_session (0, x)) _ 0)|].
  revert cs. induction users as [|u users IH]; intros [|c cs]; [done..|]. cbn. by rewrite IH.
Qed.

(** *** Terminals *)

Definition chat_terminal (name : string) (fdA fdB : Z) : list label :=
  [Did (Open name "O_WRONLY") fdA; Did (Mkfifo (name +:+ "B") 438) 0; Did (Open (name +:+ "B") "O_RDONLY|O_NONBLOCK") fdB;
   Did (PthreadCreate "reader" EmptyString) 0; Did (PthreadCreate "writer" EmptyString) 0; Did PthreadJoin 0; Did PthreadJoin 0].

Lemma chat_terminal_plays name rest fdA fdB :
  nonul name = true → 0 ≤ fdA → 0 ≤ fdB →
  if rest is [] then plays net (eq UB) (Terminal.chat_main (lit name)) [Did (Open name "O_WRONLY") fdA]
  else plays net (returns (eq (fdA, fdB))) (Terminal.chat_main (lit name ++ rest)) (chat_terminal name fdA fdB).
Proof.
  intros Hn HA HB. assert (∀ r, cstr (lit name ++ r) = Some name) as Hc by (intros; by apply cstr_lit).
  pose proof (strcat_spec (lit name ++ rest) name "B" (Hc rest) eq_refl) as Hs.
  rewrite length_app, length_lit in Hs. cbn [String.length] in Hs. destruct rest as [|c rest].
  - rewrite app_nil_r in Hs. rewrite decide_False in Hs by (cbn; lia). unfold Terminal.chat_main.
    eapply plays_need; [by rewrite <- (Hc []), app_nil_r|]. play. apply PollChat.plays_poll_error; [done|]. play. by apply plays_undef.
  - rewrite decide_True in Hs by (cbn; lia). destruct Hs as (b & Hb & Hcb & _). unfold Terminal.chat_main, chat_terminal.
    eapply plays_need; [apply Hc|]. play. apply PollChat.plays_poll_error; [done|]. play.
    eapply plays_need; [exact Hb|]. do 2 play. apply PollChat.plays_poll_error; [done|]. play.
    apply PollChat.plays_poll_error; [done|]. do 5 play. by play.
Qed.

Lemma log_terminal_plays name rest fdA :
  nonul name = true → 0 ≤ fdA →
  plays net (returns (eq (fdA, 0))) (Terminal.log_main (lit name ++ rest))
    [Did (Open name "O_WRONLY") fdA; Did (PthreadCreate "reader" EmptyString) 0; Did (PthreadCreate "writer" EmptyString) 0;
     Did PthreadJoin 0; Did PthreadJoin 0].
Proof.
  intros Hn HA. unfold Terminal.log_main. eapply plays_need; [by apply cstr_lit|]. play.
  apply PollChat.plays_poll_error; [done|]. do 6 play. by play.
Qed.

(** ** The theorems *)

(** C25: The chat servers of the two directories agree.  Over any rounds, the
    server on [select] and the one on [poll] open the same fifos and, for
    every message they read, make the same calls; only the call by which they
    learn who has spoken differs. *)
Theorem select_as_poll (users : list Chat.user) (rounds : list (list (option string))) :
  Forall named users → NoDup (Chat.fds users) → (2 ≤ length users ≤ 10)%nat → Forall (round_ok users) rounds →
  let session look := concat (PollChat.open_session <$> users) ++
                      concat (round_of look (PollChat.serve_session users) users <$> rounds) in
  plays net (returns (eq (resting users))) (SelectChat.main (Chat.uname <$> users) (length rounds)) (session selected_users) ∧
  plays net (returns (eq (zeroed 100))) (PollChat.main (Chat.uname <$> users) (length rounds)) (session polled_users).
Proof. intros Hs Hn Hl Hr. split; [by apply select_main_plays|by apply PollChat.poll_main_plays]. Qed.

(** C37: The group and its log.  The server of [logserver] passes what a user says
    on to the fifos of all users, the speaker's too, but clears its buffer in
    between, so that the first fifo gets the text and every other one an empty
    text.  The log server, which reads these fifos, prints what arrives: the
    message once, and a blank line for every other user. *)
Theorem group_log (users loggers : list Chat.user) (rounds arrivals : list (list (option string))) m :
  Forall named users → Forall named loggers → (2 ≤ length users ≤ 10)%nat → length loggers = length users →
  Forall (round_ok users) rounds → Forall (round_ok loggers) arrivals → text_ok m →
  plays net (returns (eq (zeroed 100))) (GroupServer.main (Chat.uname <$> users) (length rounds))
    (concat (PollChat.open_session <$> users) ++ concat (round_of polled_users (group_session users) users <$> rounds)) ∧
  (∀ i u, group_session users (i, (u, Some m)) =
     Told (Read (Chat.ufd u) 100) (bytes_ m) :: concat (zip_with written users (copies (length users) m))) ∧
  plays loud (returns (eq (zeroed 100))) (FirstLog.main (Chat.uname <$> loggers) (length arrivals))
    (prints (dec (Z.of_nat (length loggers) + 1)) :: concat (fifo_session <$> loggers) ++
     concat (round_of polled_users log_session loggers <$> arrivals)) ∧
  round_of polled_users log_session loggers (Some <$> copies (length users) m) =
    polled_users loggers (Some <$> copies (length users) m) ::
    concat (zip_with logged loggers (copies (length users) m)) ∧
  round_ok loggers (Some <$> copies (length users) m).
Proof.
  intros Hu Hg Hl He Hr Ha [Hm Hlen]. split_and!.
  - by apply group_main_plays.
  - intros i u. unfold group_session. cbn [fst snd]. by rewrite told_copies by lia.
  - apply first_log_main_plays; [done|lia|done].
  - unfold round_of. by rewrite log_copies.
  - split; [rewrite length_fmap; unfold copies; cbn [length]; rewrite length_replicate; lia|].
    apply Forall_fmap. constructor; [done|]. apply Forall_replicate. split; [done|cbn; lia].
Qed.

(** The terminals.  The one of [chatserver] makes the name of the second
    fifo behind the string of [argv[1]]: undefined unless the array has room
    for one more character; then it uses the two fifos.  The one of
    [logserver] does not open a second fifo: its reader reads descriptor 0 and
    shows what is typed. *)
Theorem terminals name rest fdA fdB line :
  nonul name = true → 0 ≤ fdA → 0 ≤ fdB → text_ok line → line ≠ EmptyString →
  (if rest is [] then plays net (eq UB) (Terminal.chat_main (lit name)) [Did (Open name "O_WRONLY") fdA]
   else plays net (returns (eq (fdA, fdB))) (Terminal.chat_main (lit name ++ rest)) (chat_terminal name fdA fdB)) ∧
  plays net (returns (eq (fdA, 0))) (Terminal.log_main (lit name ++ rest))
    [Did (Open name "O_WRONLY") fdA; Did (PthreadCreate "reader" EmptyString) 0; Did (PthreadCreate "writer" EmptyString) 0;
     Did PthreadJoin 0; Did PthreadJoin 0] ∧
  plays loud (returns (eq (zeroed 100))) (SumClient.reader 0 1) (shown 0 line line).
Proof.
  intros Hn HA HB Hd Hl. split_and!; [by apply chat_terminal_plays|by apply log_terminal_plays|].
  unfold SumClient.reader. cbn [forever]. eapply plays_last; [by apply client_shows|]. intros b <-. by play.
Qed.

(** *** Witnesses *)

(** Ann says something, in both servers. *)
Lemma select_as_poll_witness :
  let said := [[Some "hello"; None; None]; [None; None; None]] in
  plays net (returns (eq (resting three_users))) (SelectChat.main ["ann"; "bob"; "cy"] 2)
    (concat (PollChat.open_session <$> three_users) ++
     concat (round_of selected_users (PollChat.serve_session three_users) three_users <$> said)) ∧
  plays net (returns (eq (zeroed 100))) (PollChat.main ["ann"; "bob"; "cy"] 2)
    (concat (PollChat.open_session <$> three_users) ++
     concat (round_of polled_users (PollChat.serve_session three_users) three_users <$> said)).
Proof.
  intros said. apply (select_as_poll three_users said).
  - repeat (apply List.Forall_cons; [unfold named; cbn; repeat split; lia|]). by apply List.Forall_nil.
  - apply (bool_decide_unpack _); by vm_compute.
  - cbn. lia.
  - repeat constructor; done.
Defined.

(** Bob says something to the group: ann's fifo holds it, and the log. *)
Lemma group_log_witness :
  let loggers := [Chat.User "ann" 13 0; Chat.User "bob" 14 0; Chat.User "cy" 15 0] in
  plays net (returns (eq (zeroed 100))) (GroupServer.main ["ann"; "bob"; "cy"] 1)
    (concat (PollChat.open_session <$> three_users) ++
     [polled_users three_users [None; Some "hello"; None]; Told (Read 5 100) (bytes_ "hello");
      Did (Open "annB" "O_WRONLY") 4; Sent 4 100 "hello"; Did (Close 4) 0;
      Did (Open "bobB" "O_WRONLY") 6; Sent 6 100 EmptyString; Did (Close 6) 0;
      Did (Open "cyB" "O_WRONLY") 8; Sent 8 100 EmptyString; Did (Close 8) 0]) ∧
  plays loud (returns (eq (zeroed 100))) (FirstLog.main ["ann"; "bob"; "cy"] 1)
    (prints "4" :: concat (fifo_session <$> loggers) ++
     [polled_users loggers [Some "hello"; Some EmptyString; Some EmptyString];
      Got 13 100 "hello"; prints "hello"; Got 14 100 EmptyString; prints EmptyString; Got 15 100 EmptyString; prints EmptyString]).
Proof.
  intros loggers.
  assert (Forall named three_users) as H1.
  { repeat (apply List.Forall_cons; [unfold named; cbn; repeat split; lia|]). by apply List.Forall_nil. }
  assert (Forall named loggers) as H2.
  { repeat (apply List.Forall_cons; [unfold named; cbn; repeat split; lia|]). by apply List.Forall_nil. }
  destruct (group_log three_users loggers [[None; Some "hello"; None]] [Some <$> copies 3 "hello"] "hello" H1 H2)
    as (Hg & _ & Hl & _); [cbn; lia|done|by repeat constructor|by repeat constructor|split; [done|by apply Nat.ltb_lt]|].
  split; [exact Hg|exact Hl].
Defined.

Lemma terminals_witness :
  plays net (eq UB) (Terminal.chat_main (lit "ann")) [Did (Open "ann" "O_WRONLY") 3] ∧
  plays net (returns (eq (3, 4))) (Terminal.chat_main (lit "ann" ++ lit "SHELL=/bin/sh")) (chat_terminal "ann" 3 4) ∧
  plays loud (returns (eq (zeroed 100))) (SumClient.reader 0 1) (shown 0 ("good morning" +:+ nl) ("good morning" +:+ nl)).
Proof.
  destruct (terminals "ann" [] 3 4 ("good morning" +:+ nl)) as (Hu & _ & Hr); [done|lia|lia|split; [done|by apply Nat.ltb_lt]|done|].
  destruct (terminals "ann" (lit "SHELL=/bin/sh") 3 4 ("good morning" +:+ nl)) as (Hc & _ & _);
    [done|lia|lia|split; [done|by apply Nat.ltb_lt]|done|].
  split_and!; [exact Hu|exact Hc|exact Hr].
Defined.
