(* ===== verification/Stdio.v ===== *)
(** * Output that waits in a buffer

    A process whose standard output is a connection prints into a buffer of
    the C library, which is written when it is full or the process ends;
    [send] and [write] go past it.  [stdio] runs a process of this library
    with such a buffer, and [stdio_plays] gives its session.  The programs
    that super servers execute are of this kind: [mid/superserver/server1.c]
    (Module [Server1]) with its client, and the one of [end/dupserver] and
    [end/selectserver] (Module [DupServer]), with the two servers that
    execute it and their clients. *)

From stdpp Require Import gmap sets.
From S2P Require Import Prelude CString Posix Session FdPass Echo Fifo MidServices Transfers.

#[local] Open Scope Z_scope.

(** ** Buffered output *)

Section stdio.
(** The size of the buffer, [BUFSIZ]. *)
Context (size : nat).

(** What is written of [pending] when it has grown to or past the size of the
    buffer, block by block, and what stays. *)
Fixpoint spill (n : nat) (pending : string) : list string * string :=
  match n with
  | O => ([], pending)
  | S n' =>
      if (size <=? String.length pending)%nat then
        let '(blocks, rest) := spill n' (substring size (String.length pending - size) pending) in
        (substring 0 size pending :: blocks, rest)
      else ([], pending)
  end.

(** Write a text that is in the buffer to descriptor 1. *)
Definition flush {A} (pending : string) (p : prog A) : prog A :=
  if String.eqb pending EmptyString then p
  else Call (Write 1 (lit pending) (Z.of_nat (String.length pending))) (λ _, p).

(** A process with what it has printed and not written; no program of the
    library looks at the value of [printf]. *)
Fixpoint stdio {A} (pending : string) (p : prog A) : prog A :=
  match p with
  | Ret a => flush pending (Ret a)
  | Halt z => flush pending (Halt z)
  | Undef => Undef
  | Call (Puts text) k =>
      let '(blocks, rest) := spill (String.length (pending +:+ text)) (pending +:+ text) in
      foldr flush (stdio rest (k (ret_ 0))) blocks
  | Call c k => Call c (λ r, stdio pending (k r))
  end.

(** The session of a process whose output counts, when the output waits. *)
Fixpoint deferred (pending : string) (ls : list label) : list label :=
  match ls with
  | [] => if String.eqb pending EmptyString then [] else [Sent 1 (Z.of_nat (String.length pending)) pending]
  | Did (Puts text) _ :: ls' => deferred (pending +:+ text) ls'
  | l :: ls' => l :: deferred pending ls'
  end.

(** All that is printed, and the labels [stdio_plays] is about. *)
Fixpoint printed (ls : list label) : string :=
  match ls with
  | [] => EmptyString
  | Did (Puts text) _ :: ls' => text +:+ printed ls'
  | _ :: ls' => printed ls'
  end.

Definition plain (l : label) : Prop :=
  match l with Did (Puts _) v => v = 0 | Told (Puts _) _ => False | _ => True end.

Lemma spill_small n pending : (String.length pending < size)%nat → spill n pending = ([], pending).
Proof. destruct n; [done|]. intros H. cbn [spill]. by rewrite (proj2 (Nat.leb_gt _ _)). Qed.

Lemma stdio_Call {A} pending c (k : reply → prog A) :
  (∀ t, c ≠ Puts t) → stdio pending (Call c k) = Call c (λ r, stdio pending (k r)).
Proof. intros H. destruct c; try done. by destruct (H text). Qed.

Lemma deferred_label pending l ls c :
  (∀ t, c ≠ Puts t) → call_ok l c → deferred pending (l :: ls) = l :: deferred pending ls ∧ printed (l :: ls) = printed ls.
Proof.
  intros Hc Hl. destruct l as [| |c' v|c' v]; [done..| |done]. cbn in Hl. subst c'. destruct c; try done. by destruct (Hc text).
Qed.

Lemma put_or_not c : (∃ t, c = Puts t) ∨ (∀ t, c ≠ Puts t).
Proof. destruct c; try (right; done). left. by eexists. Qed.

(** When all that is printed fits the buffer, it is written at the end of the
    process, behind everything the process did in the meantime. *)
Theorem stdio_plays {A} (Q : outcome A → Prop) (p : prog A) ls pending :
  ¬ Q UB → plays loud Q p ls → List.Forall plain ls → nonul (pending +:+ printed ls) = true →
  (String.length (pending +:+ printed ls) < size)%nat →
  plays net Q (stdio pending p) (deferred pending ls).
Proof.
  intros HU Hp. revert pending. induction Hp as [a Ha|z Hz|H|l c k ls Hw Hc Hk IH|c k ls Hw Hk IH]; intros pending Hpl Hn Hs.
  - cbn [stdio deferred printed] in *. rewrite string_app_nil in Hn. unfold flush.
    destruct (String.eqb_spec pending EmptyString) as [->|Hne]; [by apply plays_Ret|].
    apply plays_watched; [done| |intros r _; by apply plays_Ret].
    exists (lit pending). split; [by right|]. rewrite <- (app_nil_r (lit _)). by apply cstr_lit.
  - cbn [stdio deferred printed] in *. rewrite string_app_nil in Hn. unfold flush.
    destruct (String.eqb_spec pending EmptyString) as [->|Hne]; [by apply plays_Halt|].
    apply plays_watched; [done| |intros r _; by apply plays_Halt].
    exists (lit pending). split; [by right|]. rewrite <- (app_nil_r (lit _)). by apply cstr_lit.
  - done.
  - destruct (put_or_not c) as [[t ->]|Hp].
    + apply List.Forall_cons_iff in Hpl as [Hl Hpl]. destruct l as [fd n s|fd n s|c v|c r]; cbn in Hc.
      * destruct Hc as (b & [H|H] & _); done.
      * by destruct Hc.
      * subst c. cbn in Hl. subst v. cbn [deferred printed stdio] in *. rewrite <- string_app_assoc in Hn, Hs.
        rewrite spill_small by (rewrite string_length_app in Hs; lia). cbn [foldr]. by apply IH.
      * by subst c.
    + apply List.Forall_cons_iff in Hpl as [_ Hpl]. destruct (deferred_label pending l ls c Hp Hc) as [-> E].
      rewrite E in Hn, Hs. rewrite stdio_Call by done.
      apply plays_watched; [|done|intros r Hr; by apply IH]. destruct c; try done. by destruct (Hp text).
  - rewrite stdio_Call by (intros t ->; done). apply plays_silent; [by destruct c|]. intros r. by apply IH.
Qed.
End stdio.

(** ** The program of [mid/superserver], and its client *)
Module Server1.

Definition main : prog unit :=
  puts ("server1 got forked" +:+ nl);;
  '(_, buffer) ← recv 0 (fresh 30) 30;
  s ← str buffer;
  puts (s +:+ nl);;
  do_ (Send 1 (lit "from server1 to client") 60).

Definition client : prog unit :=
  nfd ← sysv (Socket AF_INET SOCK_STREAM 0);
  do_ (Connect nfd (any_addr 8002));;
  do_ (Send nfd (lit "from client to server") 30);;
  '(_, buffer) ← recv nfd (fresh 60) 60;
  s ← str buffer;
  puts (s +:+ nl).

End Server1.

(** ** [end/dupserver] *)
Module DupServer.

Definition start : prog Z :=
  sfd ← sysv (Socket AF_INET SOCK_STREAM 0);
  error_warn sfd "socket";;
  r ← sysv (Setsockopt sfd "SO_REUSEADDR");
  (if r <? 0 then puts ("sock" +:+ nl +:+ nl) else mret tt);;
  b ← sysv (Bind sfd (any_addr 8000));
  error_warn b "bind";;
  l ← sysv (Listen sfd 4);
  error_warn l "listen";;
  mret sfd.

(** What the child does; the parent closes nothing. *)
Definition hand_over (nfd : Z) : prog unit :=
  f ← sysv Fork;
  if f =? 0 then
    do_ (Dup2 nfd 0);;
    do_ (Dup2 nfd 1);;
    do_ (Exec "server1" [])
  else mret tt.

Definition round (sfd : Z) : prog Z :=
  nfd ← sysv (Accept sfd);
  hand_over nfd;;
  mret sfd.

Definition main (n : nat) : prog Z := sfd ← start; forever n round sfd.

(** [fscanf(stdin,"%s",buffer)] on a standard input that is read in pieces of
    at most [size] bytes: the word is complete when something follows it, or
    nothing more comes. *)
Fixpoint scan (size : Z) (n : nat) (got : string) : prog (option string) :=
  let '(w, rest) := word (skip_space got) in
  if negb (String.eqb w EmptyString) && negb (String.eqb rest EmptyString) then mret (Some w)
  else match n with
       | O => Halt (-1)
       | S n' =>
           r ← sys (Read 0 size);
           if rv r <=? 0 then mret (if String.eqb w EmptyString then None else Some w) else scan size n' (got +:+ rdata r)
       end.

(** [n] bounds how often the standard input is read. *)
Definition server1 (size : Z) (n : nat) : prog unit :=
  do_ (Sleep 2);;
  puts ("came here" +:+ nl);;
  x ← scan size n EmptyString;
  buffer ← (match x with Some w => need (strcpy (fresh 30) w) | None => mret (fresh 30) end);
  s ← str buffer;
  puts (s +:+ nl);;
  puts ("hai from server1" +:+ nl).

(** The clients of the two directories differ in their message. *)
Definition client (message : string) : prog unit :=
  nfd ← sysv (Socket AF_INET SOCK_STREAM 0);
  error_warn nfd "socket";;
  c ← sysv (Connect nfd (any_addr 8000));
  error_warn c "accept";;
  do_ (Send nfd (lit message) 30);;
  '(_, buffer) ← recv nfd (fresh 30) 30;
  s ← str buffer;
  puts (s +:+ nl).

End DupServer.

(** ** [end/selectserver], which executes the same program *)
Module SelectServer.

Definition max_clients : Z := 3.

Definition open_one (i : Z) (fds : list (option Z)) : prog (list (option Z)) :=
  f ← sysv (Socket AF_INET SOCK_STREAM 0);
  fds ← need (iset fds i f);
  error_warn f "socket";;
  b ← sysv (Bind f (any_addr (8000 + i)));
  error_warn b "bind";;
  l ← sysv (Listen f 4);
  error_warn l "listen";;
  mret fds.

(** The global [fds] and [max_fd] are zero at first. *)
Definition start : prog (list (option Z)) :=
  do_ (Signal SIGUSR1 "handler_func");;
  pid ← sysv Getpid;
  puts (dec pid +:+ nl);;
  for_up 0 max_clients open_one (replicate 3 (Some 0)).

Definition serve (fds : list (option Z)) (readset : fd_set) (i : Z) (_ : unit) : prog unit :=
  f ← need (iget fds i);
  if FD_ISSET f readset then
    nfd ← sysv (Accept f);
    error_warn nfd "accpet";;
    DupServer.hand_over nfd
  else mret tt.

(** A round with [rep], which fills the set and finds the greatest
    descriptor. *)
Definition round (fds : list (option Z)) (max_fd : Z) : prog Z :=
  '(readset, max_fd) ← watch fds max_clients (∅, max_fd);
  r ← sys (Select (max_fd + 1) (elements readset) true);
  error_warn (rv r) "select";;
  for_up 0 max_clients (serve fds (list_to_set (rints r))) tt;;
  mret max_fd.

Definition main (n : nat) : prog Z := fds ← start; forever n (round fds) 0.

End SelectServer.

(** ** Sessions *)

(** *** [mid/superserver] *)

Lemma server1_plays m :
  plays loud (returns (λ _, True)) Server1.main
    [prints "server1 got forked"; Got 0 30 m; prints m; Sent 1 60 "from server1 to client"].
Proof.
  unfold Server1.main, prints, puts. do 4 step. apply plays_watched; [done|eexists; by split; [left|]|].
  intros r _. by apply plays_return.
Qed.

Lemma super_client_plays nfd t :
  plays loud (returns (λ _, True)) Server1.client
    [Did (Socket AF_INET SOCK_STREAM 0) nfd; Did (Connect nfd (any_addr 8002)) 0; Sent nfd 30 "from client to server";
     Got nfd 60 t; prints t].
Proof.
  unfold Server1.client, prints, puts. do 5 step. apply plays_watched; [done|done|]. intros r _. by apply plays_return.
Qed.

(** *** What the other [server1] prints *)

Definition report (w : string) : string := "came here" +:+ nl +:+ w +:+ nl +:+ "hai from server1" +:+ nl.

(** The standard input begins with the word [w], and something follows. *)
Definition begins (data w : string) : Prop :=
  ∃ rest, word (skip_space data) = (w, rest) ∧ w ≠ EmptyString ∧ rest ≠ EmptyString ∧
  nonul w = true ∧ (String.length w < 30)%nat.

Lemma scan_plays size n data w :
  begins data w → plays loud (returns (eq (Some w))) (DupServer.scan size (S n) EmptyString) [Told (Read 0 size) (bytes_ data)].
Proof.
  intros (rest & Hw & Hne & Hre & _). cbn [DupServer.scan skip_space word String.eqb negb andb].
  assert (data ≠ EmptyString) as Hd by (intros ->; by injection Hw as <- <-). play.
  change (rv (bytes_ data)) with (Z.of_nat (String.length data)). rewrite (proj2 (Z.leb_gt _ _)) by (destruct data; cbn; [done|lia]).
  change (EmptyString +:+ rdata (bytes_ data)) with data.
  apply String.eqb_neq in Hne, Hre. destruct n; cbn [DupServer.scan]; rewrite Hw, Hne, Hre; cbn [negb andb]; by play.
Qed.

Lemma dup_server1_plays size n data w :
  begins data w →
  plays loud (returns (λ _, True)) (DupServer.server1 size (S n))
    [prints "came here"; Told (Read 0 size) (bytes_ data); prints w; prints "hai from server1"].
Proof.
  intros Hb. pose proof Hb as (rest & _ & _ & _ & Hn & Hl). unfold DupServer.server1, prints, puts. do 2 step.
  apply (plays_bind loud (eq (Some w)) _ _ [_]); [by apply scan_plays|]. intros ? <-. cbn iota.
  destruct (sprintf_fits (fresh 30) w Hn) as (b & E & Hc & _); [by rewrite length_fresh|].
  eapply plays_need; [exact E|]. cbv beta. do 2 step. apply plays_watched; [done|done|]. intros r _. by apply plays_return.
Qed.

(** *** The servers *)

Definition opening (sfd : Z) : list label :=
  [Did (Socket AF_INET SOCK_STREAM 0) sfd; Did (Setsockopt sfd "SO_REUSEADDR") 0; Did (Bind sfd (any_addr 8000)) 0; Did (Listen sfd 4) 0].

(** A client and the process for it: nothing else is done in the parent. *)
Definition handed (nfd pid : Z) : list label :=
  Did Fork pid :: if pid =? 0 then [Did (Dup2 nfd 0) 0; Did (Dup2 nfd 1) 1; Did (Exec "server1" []) (-1)] else [].

Lemma dup_hand_over_plays nfd pid : plays net (returns (λ _, True)) (DupServer.hand_over nfd) (handed nfd pid).
Proof.
  unfold DupServer.hand_over, handed. step. destruct (pid =? 0); [|by step]. do 2 step.
  apply plays_watched; [done|done|]. intros r _. by apply plays_return.
Qed.

Lemma dup_main_plays sfd (l : list (Z * Z)) :
  0 ≤ sfd →
  plays net (returns (eq sfd)) (DupServer.main (length l))
    (opening sfd ++ concat ((λ x, Did (Accept sfd) x.1 :: handed x.1 x.2) <$> l)).
Proof.
  intros Hs. unfold DupServer.main. apply (plays_bind net (eq sfd)).
  { unfold DupServer.start, opening. do 3 step. change (0 <? 0) with false. cbv iota. by repeat step. }
  intros ? <-. apply (plays_rounds net (λ _, True)); [by apply Forall_true|]. intros [nfd pid] _. cbn [fst snd].
  unfold DupServer.round. step. eapply plays_last; [apply dup_hand_over_plays|]. intros ? _. by step.
Qed.

(** An error that is only reported. *)
Lemma plays_warned {B} w v m (f : unit → prog B) ls Q :
  w (Perror m) = false → plays w Q (f tt) ls → plays w Q (error_warn v m ≫= f) ls.
Proof. intros. unfold error_warn. destruct (v <? 0); [by apply plays_quiet|done]. Qed.

Section select.
Context (fds : list Z) (Hfds : Forall (λ f, 0 ≤ f) fds) (Hdup : NoDup fds) (H3 : length fds = 3%nat).

Definition select_opening : list label :=
  Did (Signal SIGUSR1 "handler_func") 0 :: Did Getpid 1 ::
  concat ((λ x, [Did (Socket AF_INET SOCK_STREAM 0) x.2; Did (Bind x.2 (any_addr (8000 + x.1))) 0; Did (Listen x.2 4) 0]) <$> numbered fds).

(** The client of a descriptor, if there is one. *)
Definition visited (x : Z * option (Z * Z)) : list label :=
  match x.2 with Some (nfd, pid) => Did (Accept x.1) nfd :: handed nfd pid | None => [] end.
Definition select_round (visits : list (option (Z * Z))) : list label :=
  Told (Select (greatest fds + 1) (elements (watched_set fds)) true) (ints_ (ready_of fds visits)) :: concat (visited <$> zip fds visits).

Lemma select_start_plays : plays net (returns (filled fds)) SelectServer.start select_opening.
Proof.
  unfold SelectServer.start, select_opening. do 3 step.
  replace SelectServer.max_clients with (0 + Z.of_nat (length (numbered fds))) by
    (unfold numbered; rewrite length_imap, H3; done).
  eapply plays_weaken.
  - apply (plays_for_list net (λ d a, filled (d.*2) a ∧ length a = 3%nat)); [|by split].
    intros d [k f] rest a E [Hf Hl]. destruct (numbered_nth _ _ _ _ E) as [E1 E2]. cbn [fst snd] in *. subst k.
    unfold SelectServer.open_one. step.
    assert (length d < 3)%nat as Hd by (apply lookup_lt_Some in E2; lia).
    destruct (filled_snoc (d.*2) a f Hf) as (a' & Ea & Hf' & Hl'); [rewrite length_fmap; lia|]. rewrite length_fmap in Ea.
    rewrite Z.add_0_l. eapply plays_need; [exact Ea|]. apply (Forall_lookup_1 _ _ _ _ Hfds) in E2. repeat step.
    rewrite fmap_app. split; [done|lia].
  - intros a [Hf _]. by rewrite numbered_values in Hf.
Qed.

Lemma select_round_handles fdsA visits :
  filled fds fdsA → length visits = 3%nat → ∀ m, m = 0 ∨ m = greatest fds →
  plays net (returns (eq (greatest fds))) (SelectServer.round fdsA m) (select_round visits).
Proof.
  intros Hf Hl m Hm. unfold SelectServer.round, select_round. eapply plays_skip.
  - replace SelectServer.max_clients with (Z.of_nat (length fds)) by (rewrite H3; done). by apply watch_plays.
  - intros [set max] [E1 E2]. cbn [fst snd] in *.
    assert (set = watched_set fds) as -> by (rewrite E1; set_solver).
    assert (max = greatest fds) as ->.
    { rewrite E2. destruct Hm as [->| ->]; [done|]. unfold greatest. by rewrite greatest_again. }
    step. apply plays_warned; [done|]. eapply plays_last; [|intros ? _; by step].
    replace SelectServer.max_clients with (0 + Z.of_nat (length (zip fds visits))) by
      (rewrite length_zip_with, Hl, H3; done).
    apply (plays_for_list net (λ _ _, True)); [|done]. intros d [f v] rest [] E _. rewrite Z.add_0_l.
    assert (zip fds visits !! length d = Some (f, v)) as Hj by by rewrite E, list_lookup_middle.
    pose proof (ready_of_iff _ _ _ _ _ Hdup Hj) as Hr. apply lookup_zip_Some in Hj as [Hj _].
    unfold SelectServer.serve, visited. eapply plays_need; [by eapply filled_get|]. cbn [fst snd].
    assert (0 ≤ f) as H0 by by eapply (Forall_lookup_1 _ _ _ _ Hfds).
    unfold FD_ISSET. destruct v as [[nfd pid]|].
    + rewrite bool_decide_eq_true_2 by (apply elem_of_list_to_set, Hr; by eexists). step.
      apply plays_warned; [done|]. apply dup_hand_over_plays.
    + rewrite bool_decide_eq_false_2; [by step|]. intros H%elem_of_list_to_set%Hr. by destruct H.
Qed.

Lemma select_main_handles (rounds : list (list (option (Z * Z)))) :
  Forall (λ v, length v = 3%nat) rounds →
  plays net (returns (λ _, True)) (SelectServer.main (length rounds)) (select_opening ++ concat (select_round <$> rounds)).
Proof.
  intros Hr. unfold SelectServer.main. eapply plays_bind; [apply select_start_plays|]. intros a Ha.
  eapply plays_weaken; [apply (plays_forever_list net (λ _ m, m = 0 ∨ m = greatest fds)); [|by left]|done].
  intros d v rest m -> Hm. apply Forall_app in Hr as [_ [Hv _]%Forall_cons].
  eapply plays_weaken; [by apply select_round_handles|]. intros ? <-. by right.
Qed.
End select.

(** *** The client of [end/dupserver] *)

Lemma no_nul s : nonul s = true → cstr (cells s) = None.
Proof.
  induction s as [|c s IH]; [done|]. cbn [nonul]. intros [Hc Hs]%andb_true_iff. change (cells (String c s)) with (Some c :: cells s).
  cbn [cstr]. rewrite decide_False by (apply negb_true_iff in Hc; by apply Ascii.eqb_neq). by rewrite IH.
Qed.

Lemma first_bytes n s :
  nonul s = true → (n ≤ String.length s)%nat → nonul (substring 0 n s) = true ∧ String.length (substring 0 n s) = n.
Proof.
  revert n. induction s as [|c s IH]; intros [|n] Hs Hl; cbn in *; try (done || lia).
  apply andb_true_iff in Hs as [Hc Hs]. destruct (IH n Hs) as [H1 H2]; [lia|]. by rewrite Hc, H1, H2.
Qed.

(** A buffer that is filled to the end without a NUL is not a string. *)
Lemma dup_client_plays nfd message text :
  0 ≤ nfd → nonul message = true → nonul text = true → (30 ≤ String.length text)%nat →
  plays net (eq UB) (DupServer.client message)
    [Did (Socket AF_INET SOCK_STREAM 0) nfd; Did (Connect nfd (any_addr 8000)) 0; Sent nfd 30 message;
     Told (Recv nfd 30) (bytes_ (substring 0 30 text))].
Proof.
  intros Hf Hm Ht Hl. destruct (first_bytes 30 text Ht Hl) as [Hn H30]. unfold DupServer.client. do 4 step.
  eapply plays_send; [done|rewrite <- (app_nil_r (lit _)); by apply cstr_lit|].
  eapply plays_recv_told; [done|apply store_Some; cbn [rdata bytes_]; rewrite cells_length, H30, length_fresh; lia|]. cbn [rdata bytes_].
  change (take 0 (fresh 30)) with (@nil cell). rewrite cells_length, H30. change (drop (0 + 30) (fresh 30)) with (@nil cell).
  rewrite app_nil_r. apply plays_undef. by apply no_nul.
Qed.

(** ** The theorems *)

(** What the process that [server1] has become writes: its prints last. *)
Lemma deferred_server1 m :
  deferred EmptyString [prints "server1 got forked"; Got 0 30 m; prints m; Sent 1 60 "from server1 to client"] =
  [Got 0 30 m; Sent 1 60 "from server1 to client";
   Sent 1 (Z.of_nat (String.length ("server1 got forked" +:+ nl +:+ m +:+ nl))) ("server1 got forked" +:+ nl +:+ m +:+ nl)].
Proof. reflexivity. Qed.

Lemma deferred_report insize data w :
  deferred EmptyString [prints "came here"; Told (Read 0 insize) (bytes_ data); prints w; prints "hai from server1"] =
  [Told (Read 0 insize) (bytes_ data); Sent 1 (Z.of_nat (String.length (report w))) (report w)].
Proof. unfold report. cbn [deferred prints]. by rewrite !string_app_assoc. Qed.

(** C26: The program of [mid/superserver], with its standard output on the
    connection.  It answers with [send] before what it has printed is written:
    the client gets the answer, prints it, and never reads the rest. *)
Theorem super_answer (size : nat) nfd m :
  (256 ≤ size)%nat → nonul m = true → (String.length m < 30)%nat →
  plays net (returns (λ _, True)) (stdio size EmptyString Server1.main)
    [Got 0 30 m; Sent 1 60 "from server1 to client";
     Sent 1 (Z.of_nat (String.length ("server1 got forked" +:+ nl +:+ m +:+ nl))) ("server1 got forked" +:+ nl +:+ m +:+ nl)] ∧
  (∀ data, delivers (lit "from server1 to client") 60 data → reply_ok (Got nfd 60 "from server1 to client") (Reply 60 data [] [])) ∧
  plays loud (returns (λ _, True)) Server1.client
    [Did (Socket AF_INET SOCK_STREAM 0) nfd; Did (Connect nfd (any_addr 8002)) 0; Sent nfd 30 "from client to server";
     Got nfd 60 "from server1 to client"; prints "from server1 to client"].
Proof.
  intros Hs Hm Hl. split_and!; [|intros data Hd; split; [|done]; by apply (delivers_reads (lit "from server1 to client"))|apply super_client_plays].
  rewrite <- deferred_server1. apply stdio_plays.
  - by intros (a & H & _).
  - apply server1_plays.
  - by repeat constructor.
  - cbn [printed prints]. str_nonul.
  - cbn [printed prints]. str_len.
Qed.

(** C24: [end/dupserver] and [end/selectserver].  Whatever clients come, the
    servers hand each over to a child, which makes the connection its standard
    input and output and executes [server1]; the parents close no connection.
    For a client that sends a word, [server1] writes all its lines at once, when
    it ends; they are more than 30 bytes, so the client's buffer is filled
    without a terminating NUL, which its [printf] reads past. *)
Theorem handed_clients (size : nat) insize n sfd nfd message data w (fds : list Z)
    (l : list (Z * Z)) (rounds : list (list (option (Z * Z)))) :
  0 ≤ sfd → 0 ≤ nfd → Forall (λ f, 0 ≤ f) fds → NoDup fds → length fds = 3%nat → Forall (λ v, length v = 3%nat) rounds →
  (256 ≤ size)%nat → begins data w → (2 ≤ String.length w)%nat → nonul message = true →
  plays net (returns (eq sfd)) (DupServer.main (length l))
    (opening sfd ++ concat ((λ x, Did (Accept sfd) x.1 :: handed x.1 x.2) <$> l)) ∧
  plays net (returns (λ _, True)) (SelectServer.main (length rounds))
    (select_opening fds ++ concat (select_round fds <$> rounds)) ∧
  plays net (returns (λ _, True)) (stdio size EmptyString (DupServer.server1 insize (S n)))
    [Told (Read 0 insize) (bytes_ data); Sent 1 (Z.of_nat (String.length (report w))) (report w)] ∧
  plays net (eq UB) (DupServer.client message)
    [Did (Socket AF_INET SOCK_STREAM 0) nfd; Did (Connect nfd (any_addr 8000)) 0; Sent nfd 30 message;
     Told (Recv nfd 30) (bytes_ (substring 0 30 (report w)))].
Proof.
  intros H0 Hnfd Hf Hd H3 Hr Hs Hb Hw Hm. pose proof Hb as (rest & _ & _ & _ & Hn & Hl). split_and!.
  - by apply dup_main_plays.
  - by apply select_main_handles.
  - rewrite <- deferred_report. apply stdio_plays; [by intros (a & H & _)|by apply dup_server1_plays|by repeat constructor| |];
      cbn [printed prints]; [str_nonul|str_len].
  - apply dup_client_plays; [done|done|unfold report; str_nonul|unfold report; str_len].
Qed.

(** *** Witnesses *)

Lemma super_answer_witness :
  plays net (returns (λ _, True)) (stdio 4096 EmptyString Server1.main)
    [Got 0 30 "from client to server"; Sent 1 60 "from server1 to client";
     Sent 1 41 ("server1 got forked" +:+ nl +:+ "from client to server" +:+ nl)].
Proof. apply (super_answer 4096 5 "from client to server"); [apply Nat.leb_le; reflexivity|done|by apply Nat.ltb_lt]. Defined.

(** The clients of both directories: the first 30 of 35 and of 31 bytes. *)
Lemma handed_clients_witness :
  let fds := [3; 4; 5] in
  plays net (returns (eq 3)) (DupServer.main 2)
    (opening 3 ++ [Did (Accept 3) 4; Did Fork 71; Did (Accept 3) 5; Did Fork 0; Did (Dup2 5 0) 0; Did (Dup2 5 1) 1; Did (Exec "server1" []) (-1)]) ∧
  plays net (returns (λ _, True)) (SelectServer.main 1)
    (select_opening fds ++ [Told (Select 6 (elements (watched_set fds)) true) (ints_ [4]); Did (Accept 4) 6; Did Fork 72]) ∧
  plays net (returns (λ _, True)) (stdio 4096 EmptyString (DupServer.server1 4096 1))
    [Told (Read 0 4096) (bytes_ ("iahfrom client" +:+ String NUL "...............")); Sent 1 35 (report "iahfrom")] ∧
  plays net (eq UB) (DupServer.client "hai from client")
    [Did (Socket AF_INET SOCK_STREAM 0) 6; Did (Connect 6 (any_addr 8000)) 0; Sent 6 30 "hai from client";
     Told (Recv 6 30) (bytes_ (substring 0 30 (report "hai")))].
Proof.
  intros fds.
  assert (begins ("iahfrom client" +:+ String NUL "...............") "iahfrom") as H1.
  { exists (" client" +:+ String NUL "..............."). split_and!; [done..|by apply Nat.ltb_lt]. }
  assert (begins ("hai from client" +:+ String NUL "..............") "hai") as H2.
  { exists (" from client" +:+ String NUL ".............."). split_and!; [done..|by apply Nat.ltb_lt]. }
  assert (Forall (λ f, 0 ≤ f) fds) as Hf by (repeat (apply List.Forall_cons; [lia|]); by apply List.Forall_nil).
  assert (NoDup fds) as Hd by (apply (bool_decide_unpack _); by vm_compute).
  assert (Forall (λ v : list (option (Z * Z)), length v = 3%nat) [[None; Some (6, 72); None]]) as Hr by by repeat constructor.
  assert (256 ≤ 4096)%nat as Hs by (apply Nat.leb_le; reflexivity).
  destruct (handed_clients 4096 4096 0 3 6 "hai from client" _ _ fds [(4, 71); (5, 0)] [[None; Some (6, 72); None]]
    ltac:(lia) ltac:(lia) Hf Hd eq_refl Hr Hs H1 ltac:(cbn; lia) eq_refl) as (Ha & Hb & Hc & _).
  destruct (handed_clients 4096 4096 0 3 6 "hai from client" _ _ fds [] [] 
    ltac:(lia) ltac:(lia) Hf Hd eq_refl (List.Forall_nil _) Hs H2 ltac:(cbn; lia) eq_refl) as (_ & _ & _ & Hu).
  split_and!; [exact Ha|exact Hb|exact Hc|exact Hu].
Defined.
