(* ===== verification/AllInOne.v ===== *)
(** * Servers of several sources

    Programs that wait for the keyboard, a pipe, a fifo and the output of
    other programs at once and print what arrives: [allinone/server.c] (Module
    [PollAll]; [exam/5/allinone] is a copy), [exam/3/server.c] (Module [Exam3]), the
    variant of [selectservers/allinone] on [select] (Module [SelectAll]), and
    [select_servers/allinoneserver] (Module [LogAll]) with its terminal. *)

From stdpp Require Import gmap sets.
From S2P Require Import Prelude CString Posix Session FdPass Fifo ChatServers Transfers.

#[local] Open Scope Z_scope.

Import PollChat(error_func).

(** ** [allinone] *)
Module PollAll.

Definition popenFunc (fdp : list pollfd) : prog (list pollfd) :=
  f ← sysv (Popen "./popenproc" "r");
  (if f =? 0 then Undef else mret tt);;
  fd ← sysv (Fileno f);
  need (aset fdp 3 (PollFd fd POLLRDNORM)).

Definition keyboardFunc (fdp : list pollfd) : prog (list pollfd) := need (aset fdp 0 (PollFd 0 POLLRDNORM)).

(** The child writes to the pipe and ends; the parent watches the other end. *)
Definition pipeFunc (fdp : list pollfd) : prog (list pollfd) :=
  r ← sys Pipe;
  error_func (rv r) ("Creating the pipe" +:+ nl);;
  fd0 ← need (aget (rints r) 0);
  fd1 ← need (aget (rints r) 1);
  c ← sysv Fork;
  error_func c ("forking the process" +:+ nl);;
  if c =? 0 then
    do_ (Close fd0);;
    do_ (Write fd1 (lit "From Child Pipe") 30);;
    Halt 0
  else
    do_ (Close fd1);;
    need (aset fdp 1 (PollFd fd0 POLLRDNORM)).

Definition fifoFunc (fdp : list pollfd) : prog (list pollfd) :=
  m ← sysv (Mkfifo "fifo" 438);
  error_func m ("making fifo server" +:+ nl);;
  fd ← sysv (Open "fifo" "O_RDONLY|O_NONBLOCK");
  error_func fd ("opening file" +:+ nl);;
  need (aset fdp 2 (PollFd fd POLLRDNORM)).

(** One source, with the buffer of [size] bytes that is cleared after use. *)
Definition serve_one (size : nat) (fdp : list pollfd) (revents : list Z) (i : Z) (readbuf : buf) : prog buf :=
  v ← need (aget revents i);
  if negb (Z.land v POLLRDNORM =? 0) then
    p ← need (aget fdp i);
    '(_, readbuf) ← read (pfd p) readbuf (Z.of_nat size);
    s ← str readbuf;
    puts (s +:+ nl);;
    mret (zeroed size)
  else mret readbuf.

Definition round (size : nat) (fdp : list pollfd) (readbuf : buf) : prog buf :=
  r ← sys (Poll fdp 100);
  error_func (rv r) "poll error";;
  for_up 0 (Z.of_nat (length fdp)) (serve_one size fdp (rints r)) readbuf.

Definition start (argc : Z) : prog (list pollfd) :=
  puts (dec argc +:+ nl);;
  fdp ← popenFunc (replicate 4 (PollFd 0 0));
  fdp ← keyboardFunc fdp;
  fdp ← pipeFunc fdp;
  fdp ← fifoFunc fdp;
  do_ (Signal SIGUSR1 "signalFunc");;
  mret fdp.

Definition main (argc : Z) (n : nat) : prog buf :=
  fdp ← start argc; forever n (round 100 fdp) (zeroed 100).

(** [fifoproc.c], which writes to the fifo. *)
Definition fifoproc : prog unit :=
  fd ← sysv (Open "fifo" "O_WRONLY");
  error_func fd ("cannot opne file" +:+ nl);;
  do_ (Write fd (lit ("This is from fifo" +:+ nl)) 30);;
  do_ (Close fd).

End PollAll.

(** ** [exam/3]: the output of four programs, and a pipe *)
Module Exam3.

Definition pipeFunc (fdp : list pollfd) : prog (list pollfd) :=
  r ← sys Pipe;
  error_func (rv r) ("Creating the pipe" +:+ nl);;
  fd0 ← need (aget (rints r) 0);
  fd1 ← need (aget (rints r) 1);
  c ← sysv Fork;
  error_func c ("forking the process" +:+ nl);;
  if c =? 0 then
    do_ (Close fd0);;
    do_ (Sleep 10);;
    do_ (Write fd1 (lit ("From process p1" +:+ nl)) 30);;
    Halt 0
  else
    do_ (Close fd1);;
    need (aset fdp 0 (PollFd fd0 POLLRDNORM)).

Definition popen_one (i : Z) (fdp : list pollfd) : prog (list pollfd) :=
  filenamebuffer ← need (sprintf (fresh 15) ("./popen" +:+ dec i));
  name ← str filenamebuffer;
  f ← sysv (Popen name "r");
  (if f =? 0 then Undef else mret tt);;
  fd ← sysv (Fileno f);
  need (aset fdp (i - 1) (PollFd fd POLLRDNORM)).

Definition start : prog (list pollfd) :=
  fdp ← for_up 2 6 popen_one (replicate 5 (PollFd 0 0));
  pipeFunc fdp.

(** The loop is that of [PollAll], on five sources and a buffer of 30 bytes. *)
Definition main (n : nat) : prog buf :=
  fdp ← start; forever n (PollAll.round 30 fdp) (zeroed 30).

End Exam3.

(** ** [selectservers/allinone] *)
Module SelectAll.

Definition popenFunc (fdp : list (option Z)) : prog (list (option Z)) :=
  f ← sysv (Popen "./popenproc" "r");
  (if f =? 0 then Undef else mret tt);;
  fd ← sysv (Fileno f);
  need (iset fdp 3 fd).

Definition pipeFunc (fdp : list (option Z)) : prog (list (option Z)) :=
  r ← sys Pipe;
  error_func (rv r) ("Creating the pipe" +:+ nl);;
  fd0 ← need (aget (rints r) 0);
  fd1 ← need (aget (rints r) 1);
  c ← sysv Fork;
  error_func c ("forking the process" +:+ nl);;
  if c =? 0 then
    do_ (Close fd0);;
    do_ (Write fd1 (lit "From Child Pipe") 30);;
    Halt 0
  else
    do_ (Close fd1);;
    need (iset fdp 1 fd0).

Definition fifoFunc (fdp : list (option Z)) : prog (list (option Z)) :=
  m ← sysv (Mkfifo "fifo" 438);
  error_func m ("making fifo server" +:+ nl);;
  fd ← sysv (Open "fifo" "O_RDONLY|O_NONBLOCK");
  error_func fd ("opening file" +:+ nl);;
  need (iset fdp 2 fd).

Definition serve_one (fdp : list (option Z)) (readset : fd_set) (i : Z) (readbuf : buf) : prog buf :=
  f ← need (iget fdp i);
  if FD_ISSET f readset then
    '(_, readbuf) ← read f readbuf 100;
    s ← str readbuf;
    puts (s +:+ nl);;
    mret (zeroed 100)
  else mret readbuf.

(** The sets are filled from the first [argc - 1] descriptors. *)
Definition round (argc : Z) (fdp : list (option Z)) (x : fd_set * Z * buf) : prog (fd_set * Z * buf) :=
  let '(readset, max, readbuf) := x in
  '(retstatus, readset) ← select max readset;
  error_func retstatus ("select not working" +:+ nl);;
  readbuf ← for_up 0 4 (serve_one fdp readset) readbuf;
  '(readset, max) ← watch fdp (argc - 1) (readset, max);
  mret (readset, max, readbuf).

(** The set is first filled before the descriptors are. *)
Definition main (argc : Z) (n : nat) : prog (fd_set * Z * buf) :=
  puts (dec argc +:+ nl);;
  '(readset, max) ← watch (replicate 4 (Some 0)) (argc - 1) (∅, 0);
  fdp ← popenFunc (replicate 4 (Some 0));
  fdp ← need (iset fdp 0 0);
  fdp ← pipeFunc fdp;
  fdp ← fifoFunc fdp;
  do_ (Signal SIGUSR1 "signalFunc");;
  forever n (round argc fdp) (readset, max, zeroed 100).

End SelectAll.

(** ** [select_servers/allinoneserver] *)
Module LogAll.

(** The signal handler. *)
Definition sig_usr (signo : Z) : prog unit :=
  if signo =? SIGUSR1 then
    puts (nl +:+ "received SIGUSR1" +:+ nl);;
    fd ← sysv (Open "mainfifo2" "O_RDWR");
    do_ (Write fd (lit "got this from signal") 21)
  else mret tt.

(** The child; [raise] runs the handler. *)
Definition child (pipefd1 : Z) : prog unit :=
  do_ (Write pipefd1 (lit "This is from pipe") 18);;
  do_ (Signal SIGUSR1 "sig_usr");;
  sig_usr SIGUSR1.

Definition log_one (readset : fd_set) (f : Z) : prog unit :=
  if FD_ISSET f readset then
    puts "Logged: ";;
    '(k, buf) ← read f (fresh 100) 100;
    (if 0 <? k then s ← str buf; puts (nl +:+ s +:+ nl) else mret tt)
  else mret tt.

(** [FD_SET] of the three descriptors of [logs.fd] and of the pipe. *)
Definition watch_all (fd : list (option Z)) (pipefd0 : Z) (x : fd_set * Z) : prog (fd_set * Z) :=
  '(readset, max) ← watch fd 3 x;
  mret (FD_SET pipefd0 readset, if max <? pipefd0 then pipefd0 else max).

Definition round (fd : list (option Z)) (pipefd0 : Z) (x : fd_set * Z) : prog (fd_set * Z) :=
  let '(readset, max) := x in
  '(retstatus, readset) ← select max readset;
  (if 0 <? retstatus then
     for_up 0 3 (λ j _, f ← need (iget fd j); log_one readset f) tt;;
     log_one readset pipefd0
   else mret tt);;
  watch_all fd pipefd0 (readset, max).

(** [fd0] is the cell [logs.fd[0]], to which nothing was assigned. *)
Definition main (fd0 : option Z) (n : nat) : prog (fd_set * Z) :=
  puts (nl +:+ "Main Server is starting................");;
  f0 ← need fd0;
  do_ (Dup2 f0 0);;
  f1 ← sysv (Open "mainfifo" "O_RDWR");
  exit_if (f1 <? 0);;
  make_fifo "mainfifo2";;
  f2 ← sysv (Open "mainfifo2" "O_RDWR");
  exit_if (f2 <? 0);;
  r ← sys Pipe;
  p0 ← need (aget (rints r) 0);
  p1 ← need (aget (rints r) 1);
  x ← watch_all [Some f0; Some f1; Some f2] p0 (∅, 0);
  pid ← sysv Fork;
  if pid <? 0 then puts "Error for fork";; Halt 0
  else if 0 <? pid then
    puts (nl +:+ "Client fds are created................");;
    puts (nl +:+ "Server started..................");;
    forever n (round [Some f0; Some f1; Some f2] p0) x
  else child p1;; Halt 0.

(** [client.c]: the lines that are typed. *)
Definition client_round (fd : Z) (message : buf) : prog buf :=
  puts "User: ";;
  r ← sys (Fgets 100);
  message ← (if rv r =? 0 then mret message else received message r);
  s ← str message;
  puts (s +:+ nl);;
  do_ (Write fd message 100);;
  mret message.

Definition client (n : nat) : prog buf :=
  make_fifo "mainfifo";;
  fd ← sysv (Open "mainfifo" "O_RDWR");
  puts (nl +:+ "Keep typing message" +:+ nl);;
  forever n (client_round fd) (fresh 100).

End LogAll.

(** ** Sessions *)

(** The bytes [data], read into a clear buffer of [size] bytes, are the text
    [s]. *)
Definition reads_as (size : nat) (data s : string) : Prop :=
  ∃ b, store (zeroed size) 0 (cells data) = Some b ∧ cstr b = Some s.

Lemma reads_as_text size s : nonul s = true → (String.length s < size)%nat → reads_as size s s.
Proof. intros Hs Hl. destruct (zeroed_holds size s Hs Hl) as (b & Hb & Hc & _). by exists b. Qed.

Lemma reads_as_message (size : nat) n data s : reads n data s → n ≤ Z.of_nat size → reads_as size data s.
Proof.
  intros Hr Hn. destruct (received_reads _ _ _ (zeroed size) Hr) as (b & Hb & Hc & _).
  - unfold zeroed. by rewrite length_replicate.
  - by exists b.
Qed.

(** What has come on a source in a round: bytes, and the text they are. *)
Abbreviation arrival := (option (string * string)).

Definition from_source (size : nat) (x : Z * arrival) : list label :=
  match x.2 with Some (data, s) => [Told (Read x.1 (Z.of_nat size)) (bytes_ data); prints s] | None => [] end.
Definition come (size : nat) (a : arrival) : Prop := match a with Some (data, s) => reads_as size data s | None => True end.
Definition events (l : list arrival) : list Z := (λ a, match a with Some _ => POLLRDNORM | None => 0 end) <$> l.

Definition watching (fds : list Z) : list pollfd := (λ f, PollFd f POLLRDNORM) <$> fds.
Definition poll_session (size : nat) (fds : list Z) (l : list arrival) : list label :=
  Told (Poll (watching fds) 100) (Reply (Z.of_nat (length l)) EmptyString (events l) []) :: concat (from_source size <$> zip fds l).

Definition whole (size : nat) (fds : list Z) (l : list arrival) : Prop := length l = length fds ∧ Forall (come size) l.

(** Reading one source, for all the servers of this file. *)
Lemma source_plays size f data s (Q : outcome buf → Prop) ls :
  reads_as size data s → Q (Done (zeroed size)) → ls = [] →
  plays loud Q ('(_, readbuf) ← read f (zeroed size) (Z.of_nat size); t ← str readbuf; puts (t +:+ nl);; mret (zeroed size))
    (Told (Read f (Z.of_nat size)) (bytes_ data) :: prints s :: ls).
Proof.
  intros (b & Hb & Hc) HQ ->. eapply plays_read_told; [done|exact Hb|]. cbv beta iota. eapply plays_need; [exact Hc|].
  unfold prints, puts. cbv beta. play. by apply plays_Ret.
Qed.

Lemma poll_all_round size fds l :
  whole size fds l →
  plays loud (returns (eq (zeroed size))) (PollAll.round size (watching fds) (zeroed size)) (poll_session size fds l).
Proof.
  intros [Hl Hc]. unfold PollAll.round, poll_session. play. apply PollChat.plays_poll_error; [cbn; lia|].
  replace (Z.of_nat (length (watching fds))) with (0 + Z.of_nat (length (zip fds l))) by
    (unfold watching; rewrite length_fmap, length_zip_with; lia).
  apply (plays_for_list loud (λ _, eq (zeroed size))); [|done]. intros d [f a] rest b E <-. rewrite Z.add_0_l.
  assert (zip fds l !! length d = Some (f, a)) as Hj by by rewrite E, list_lookup_middle.
  apply lookup_zip_Some in Hj as [Hf Ha]. unfold PollAll.serve_one, from_source. cbn [fst snd rints].
  eapply plays_need; [unfold events; by rewrite aget_nat, list_lookup_fmap, Ha|]. cbv beta.
  apply (Forall_lookup_1 _ _ _ _ Hc) in Ha. destruct a as [[data s]|].
  - change (negb (Z.land POLLRDNORM POLLRDNORM =? 0)) with true. cbv iota.
    eapply plays_need; [unfold watching; by rewrite aget_nat, list_lookup_fmap, Hf|]. cbv beta. cbn [pfd].
    apply source_plays; [done|by eexists|done].
  - change (negb (Z.land 0 POLLRDNORM =? 0)) with false. cbv iota. by play.
Qed.

(** *** The starts *)

Definition poll_opening (argc f r w pid fd2 fd3 : Z) : list label :=
  [prints (dec argc); Did (Popen "./popenproc" "r") f; Did (Fileno f) fd3; Told Pipe (Reply 0 EmptyString [r; w] []); Did Fork pid;
   Did (Close w) 0; Did (Mkfifo "fifo" 438) 0; Did (Open "fifo" "O_RDONLY|O_NONBLOCK") fd2; Did (Signal SIGUSR1 "signalFunc") 0].

Lemma poll_all_start argc f r w pid fd2 fd3 :
  f ≠ 0 → 0 < pid → 0 ≤ fd2 →
  plays loud (returns (eq (watching [0; r; fd2; fd3]))) (PollAll.start argc) (poll_opening argc f r w pid fd2 fd3).
Proof.
  intros Hf Hp H2. unfold PollAll.start, poll_opening, prints, puts. play.
  apply (plays_bind loud (eq [PollFd 0 0; PollFd 0 0; PollFd 0 0; PollFd fd3 POLLRDNORM]) _ _ [_; _]).
  { unfold PollAll.popenFunc. play. rewrite (proj2 (Z.eqb_neq _ _)) by done. cbv iota. play. play. by apply plays_return. }
  intros ? <-. apply (plays_bind loud (eq [PollFd 0 POLLRDNORM; PollFd 0 0; PollFd 0 0; PollFd fd3 POLLRDNORM]) _ _ []).
  { by apply plays_return. }
  intros ? <-. apply (plays_bind loud (eq [PollFd 0 POLLRDNORM; PollFd r POLLRDNORM; PollFd 0 0; PollFd fd3 POLLRDNORM]) _ _ [_; _; _]).
  { unfold PollAll.pipeFunc. play. apply PollChat.plays_poll_error; [done|]. do 3 play.
    apply PollChat.plays_poll_error; [lia|]. rewrite (proj2 (Z.eqb_neq _ _)) by lia. play. by apply plays_return. }
  intros ? <-. apply (plays_bind loud (eq (watching [0; r; fd2; fd3])) _ _ [_; _]); [|intros ? <-; by do 2 play].
  unfold PollAll.fifoFunc. play. apply PollChat.plays_poll_error; [done|]. play. apply PollChat.plays_poll_error; [done|].
  by apply plays_return.
Qed.

(** The programs [popen2] to [popen5]: the streams and their descriptors. *)
Definition popened (x : Z * (Z * Z)) : list label :=
  [Did (Popen ("./popen" +:+ dec (2 + x.1)) "r") x.2.1; Did (Fileno x.2.1) x.2.2].
Definition exam_opening (l : list (Z * Z)) (r w pid : Z) : list label :=
  concat (popened <$> numbered l) ++ [Told Pipe (Reply 0 EmptyString [r; w] []); Did Fork pid; Did (Close w) 0].

Lemma insert_next {A} (h x y : A) l m :
  <[S (length l) := x]> (h :: l ++ replicate (S m) y) = h :: (l ++ [x]) ++ replicate m y.
Proof. change (h :: l ++ ?r) with ((h :: l) ++ r) at 1. rewrite (insert_app_r_alt (h :: l)), <- app_assoc by done. cbn [length]. by rewrite Nat.sub_diag. Qed.

Lemma popens_plays (l : list (Z * Z)) :
  length l = 4%nat → Forall (λ x, x.1 ≠ 0) l →
  plays loud (returns (eq (PollFd 0 0 :: watching (l.*2)))) (for_up 2 6 Exam3.popen_one (replicate 5 (PollFd 0 0)))
    (concat (popened <$> numbered l)).
Proof.
  intros Hl Hf. replace 6 with (2 + Z.of_nat (length (numbered l))) by (unfold numbered; rewrite length_imap, Hl; done).
  eapply plays_weaken.
  - apply (plays_for_list loud (λ d a, a = PollFd 0 0 :: watching (d.*2.*2) ++ replicate (4 - length d) (PollFd 0 0))); [|done].
    intros d [k [f fd]] rest a E ->. destruct (numbered_nth _ _ _ _ E) as [E1 E2]. cbn [fst snd] in *. subst k.
    apply (Forall_lookup_1 _ _ _ _ Hf) in E2 as Hne. apply lookup_lt_Some in E2. cbn [fst] in Hne.
    unfold Exam3.popen_one, popened. cbn [fst snd]. pose proof (dec_length (2 + Z.of_nat (length d))).
    assert (String.length ("./popen" +:+ dec (2 + Z.of_nat (length d))) < 15)%nat as H15.
    { assert (length d ≤ 3)%nat as H3 by lia. destruct (length d) as [|[|[|[|?]]]]; [by apply Nat.ltb_lt..|lia]. }
    destruct (sprintf_fits (fresh 15) ("./popen" +:+ dec (2 + Z.of_nat (length d)))) as (b & Eb & Hc & _);
      [by rewrite nonul_app, dec_nonul|by rewrite length_fresh|].
    eapply plays_need; [exact Eb|]. do 2 play. rewrite (proj2 (Z.eqb_neq _ _)) by done. do 2 play.
    replace (2 + Z.of_nat (length d) - 1) with (Z.of_nat (S (length (watching (d.*2.*2))))) by
      (unfold watching; rewrite !length_fmap; lia).
    rewrite aset_Some by (cbn [length]; rewrite length_app, length_replicate; unfold watching; rewrite !length_fmap; lia).
    apply plays_return. rewrite Nat2Z.id. destruct (4 - length d)%nat as [|m] eqn:Em; [lia|]. rewrite insert_next.
    unfold watching. rewrite !fmap_app, length_app. cbn [fmap list_fmap length snd]. do 3 f_equal. lia.
  - intros a ->. unfold numbered at 2. rewrite length_imap, Hl. cbn [Nat.sub replicate]. rewrite app_nil_r.
    by rewrite numbered_values.
Qed.

Lemma exam_start (l : list (Z * Z)) r w pid :
  length l = 4%nat → Forall (λ x, x.1 ≠ 0) l → 0 < pid →
  plays loud (returns (eq (watching (r :: l.*2)))) Exam3.start (exam_opening l r w pid).
Proof.
  intros Hl Hf Hp. unfold Exam3.start, exam_opening. eapply plays_bind; [by apply popens_plays|]. intros ? <-.
  unfold Exam3.pipeFunc. play. apply PollChat.plays_poll_error; [done|]. do 3 play.
  apply PollChat.plays_poll_error; [lia|]. rewrite (proj2 (Z.eqb_neq _ _)) by lia. play. by apply plays_return.
Qed.

(** *** The children *)

Lemma pipe_children r w :
  plays net (eq (Exited 0)) (PollAll.pipeFunc (replicate 4 (PollFd 0 0)))
    [Told Pipe (Reply 0 EmptyString [r; w] []); Did Fork 0; Did (Close r) 0; Sent w 30 "From Child Pipe"] ∧
  plays net (eq (Exited 0)) (Exam3.pipeFunc (replicate 5 (PollFd 0 0)))
    [Told Pipe (Reply 0 EmptyString [r; w] []); Did Fork 0; Did (Close r) 0; Sent w 30 ("From process p1" +:+ nl)].
Proof.
  split.
  - unfold PollAll.pipeFunc. play. apply PollChat.plays_poll_error; [done|]. do 3 play.
    apply PollChat.plays_poll_error; [done|]. change (0 =? 0) with true. cbv iota. do 2 play. by apply plays_Halt.
  - unfold Exam3.pipeFunc. play. apply PollChat.plays_poll_error; [done|]. do 3 play.
    apply PollChat.plays_poll_error; [done|]. change (0 =? 0) with true. cbv iota. do 3 play. by apply plays_Halt.
Qed.

(** *** [selectservers/allinone] *)

(** A round in which nothing is watched. *)
Definition blind_round : label := Told (Select 1 [] false) (ints_ []).

Definition blind_opening (f r w pid fd2 fd3 : Z) : list label :=
  [Did (Popen "./popenproc" "r") f; Did (Fileno f) fd3; Told Pipe (Reply 0 EmptyString [r; w] []); Did Fork pid;
   Did (Close w) 0; Did (Mkfifo "fifo" 438) 0; Did (Open "fifo" "O_RDONLY|O_NONBLOCK") fd2; Did (Signal SIGUSR1 "signalFunc") 0].

Lemma watch_none {w} (a : list (option Z)) x : plays w (returns (eq x)) (watch a (1 - 1) x) [].
Proof. by apply plays_return. Qed.

Lemma blind_round_plays (fdp : list Z) :
  length fdp = 4%nat →
  plays net (returns (eq (∅ : fd_set, 0, zeroed 100))) (SelectAll.round 1 (Some <$> fdp) (∅, 0, zeroed 100)) [blind_round].
Proof.
  intros Hl. unfold SelectAll.round, select, blind_round. inner. change (elements (∅ : fd_set)) with (@nil Z). play.
  cbn [mret prog_mret mbind prog_mbind prog_bind]. apply PollChat.plays_poll_error; [done|].
  eapply (plays_skip net (eq (zeroed 100))); [|intros b <-; eapply plays_skip; [apply watch_none|intros ? <-; by apply plays_return]].
  replace 4 with (0 + Z.of_nat (length fdp)) by (rewrite Hl; done). rewrite <- (concat_quiet fdp).
  apply (plays_for_list net (λ _, eq (zeroed 100))); [|done]. intros d f rest b E <-. unfold SelectAll.serve_one.
  rewrite Z.add_0_l. eapply plays_need; [unfold iget; by rewrite aget_nat, list_lookup_fmap, E, list_lookup_middle|].
  unfold FD_ISSET. rewrite bool_decide_eq_false_2 by set_solver. by play.
Qed.

Lemma blind_main_plays f r w pid fd2 fd3 n :
  f ≠ 0 → 0 < pid → 0 ≤ fd2 →
  plays net (returns (eq (∅ : fd_set, 0, zeroed 100))) (SelectAll.main 1 n)
    (blind_opening f r w pid fd2 fd3 ++ replicate n blind_round).
Proof.
  intros Hf Hp H2. unfold SelectAll.main, blind_opening. play. eapply plays_skip; [apply watch_none|]. intros ? <-.
  apply (plays_bind net (eq [Some 0; Some 0; Some 0; Some fd3]) _ _ [_; _]).
  { unfold SelectAll.popenFunc. play. rewrite (proj2 (Z.eqb_neq _ _)) by done. cbv iota. play. play. by apply plays_return. }
  intros ? <-. eapply plays_need; [done|]. cbv beta.
  apply (plays_bind net (eq [Some 0; Some r; Some 0; Some fd3]) _ _ [_; _; _]).
  { unfold SelectAll.pipeFunc. play. apply PollChat.plays_poll_error; [done|]. do 3 play.
    apply PollChat.plays_poll_error; [lia|]. rewrite (proj2 (Z.eqb_neq _ _)) by lia. play. by apply plays_return. }
  intros ? <-. apply (plays_bind net (eq [Some 0; Some r; Some fd2; Some fd3]) _ _ [_; _]).
  { unfold SelectAll.fifoFunc. play. apply PollChat.plays_poll_error; [done|]. play. apply PollChat.plays_poll_error; [done|].
    by apply plays_return. }
  intros ? <-. play. clear - n. induction n as [|n IH]; [by apply plays_return|]. cbn [forever replicate].
  apply (plays_bind net _ _ _ [blind_round] _ _ (blind_round_plays [0; r; fd2; fd3] eq_refl)). by intros ? <-.
Qed.

(** *** [select_servers/allinoneserver] *)

(** The bytes [data], read into a new buffer of 100 bytes, are the text [s]. *)
Definition fills (data s : string) : Prop :=
  (0 < String.length data)%nat ∧ ∃ b, store (fresh 100) 0 (cells data) = Some b ∧ cstr b = Some s.

Definition logs (x : Z * arrival) : list label :=
  match x.2 with
  | Some (data, s) => [Did (Puts "Logged: ") 0; Told (Read x.1 100) (bytes_ data); Did (Puts (nl +:+ s +:+ nl)) 0]
  | None => []
  end.

Section log_all.
Context (f0 f1 f2 p0 : Z) (Hdup : NoDup [f0; f1; f2; p0]).
Let fds := [f0; f1; f2; p0].
Let fd := [Some f0; Some f1; Some f2].

Definition log_round_session (l : list arrival) : list label :=
  Told (Select (greatest [f0; f1; f2; p0] + 1) (elements (watched_set [f0; f1; f2; p0])) false) (ints_ (ready_of [f0; f1; f2; p0] l)) ::
  concat (logs <$> zip [f0; f1; f2; p0] l).

Lemma log_one_plays l j f a :
  zip fds l !! j = Some (f, a) → match a with Some (data, s) => fills data s | None => True end →
  plays loud (returns (λ _, True)) (LogAll.log_one (list_to_set (ready_of fds l)) f) (logs (f, a)).
Proof.
  intros Hj Ha. pose proof (ready_of_iff fds l j f a Hdup Hj) as Hr. unfold LogAll.log_one, FD_ISSET, logs. cbn [snd fst].
  destruct a as [[data s]|].
  - rewrite bool_decide_eq_true_2 by (apply elem_of_list_to_set, Hr; by eexists). unfold puts. play.
    destruct Ha as (Hl & b & Hb & Hc). eapply plays_read_told; [done|exact Hb|]. cbn [rv bytes_].
    rewrite (proj2 (Z.ltb_lt _ _)) by lia. cbv iota. eapply plays_need; [exact Hc|]. cbv beta.
    apply plays_watched; [done|done|]. intros r _. by apply plays_return.
  - rewrite bool_decide_eq_false_2; [by play|]. intros H%elem_of_list_to_set%Hr. by destruct H.
Qed.

Lemma watch_all_plays w (s : fd_set) m :
  s ⊆ watched_set fds → m = 0 ∨ m = greatest fds →
  plays w (returns (eq (watched_set fds, greatest fds))) (LogAll.watch_all fd p0 (s, m)) [].
Proof.
  intros Hs Hm. unfold LogAll.watch_all. eapply plays_skip.
  - change 3 with (Z.of_nat (length [f0; f1; f2])). by apply watch_plays.
  - intros [set mx] [E1 E2]. cbn [fst snd] in *. play. apply f_equal2.
    + rewrite E1. unfold fds, watched_set, FD_SET in *. cbn [list_to_set list_to_set] in *. apply leibniz_equiv. set_solver.
    + rewrite E2. destruct Hm as [->| ->].
      * unfold greatest, fds. cbn. destruct (Z.ltb_spec (Z.max (Z.max (Z.max 0 f0) f1) f2) p0); lia.
      * unfold greatest, fds. cbn. destruct (Z.ltb_spec (Z.max (Z.max (Z.max (Z.max (Z.max (Z.max (Z.max 0 f0) f1) f2) p0) f0) f1) f2) p0); lia.
Qed.

Lemma logs_silent l : ready_of fds l = [] → concat (logs <$> zip fds l) = [].
Proof.
  intros Hr. apply concat_nil_Forall, Forall_fmap, Forall_forall. intros [f a] Hin. cbn.
  apply list_elem_of_lookup in Hin as [j Hj]. pose proof (ready_of_iff fds l j f a Hdup Hj) as H. rewrite Hr in H.
  destruct a as [[data s]|]; [|done]. assert (f ∈ @nil Z) as Hf by (apply H; by eexists). by apply elem_of_nil in Hf.
Qed.

Lemma log_all_round l :
  length l = 4%nat → Forall (λ a, match a with Some (data, s) => fills data s | None => True end) l →
  plays loud (returns (eq (watched_set fds, greatest fds))) (LogAll.round fd p0 (watched_set fds, greatest fds)) (log_round_session l).
Proof.
  intros Hl Ha. unfold LogAll.round, log_round_session, select. fold fds. inner. play.
  cbn [mret prog_mret mbind prog_mbind prog_bind]. eapply (plays_last _ (λ _, True)).
  - change (rv (ints_ (ready_of fds l))) with (Z.of_nat (length (ready_of fds l))). cbn [rints ints_].
    destruct (Z.ltb_spec 0 (Z.of_nat (length (ready_of fds l)))) as [Hp|Hp].
    + assert (∀ j f x, zip fds l !! j = Some (f, x) →
        plays loud (returns (λ _, True)) (LogAll.log_one (list_to_set (ready_of fds l)) f) (logs (f, x))) as H.
      { intros j f x Hj. eapply log_one_plays; [exact Hj|]. apply lookup_zip_Some in Hj as [_ Hj].
        by apply (Forall_lookup_1 _ _ _ _ Ha) in Hj. }
      destruct l as [|a [|b [|c [|d [|? ?]]]]]; try done.
      replace (concat (logs <$> zip fds [a; b; c; d])) with (concat (logs <$> zip [f0; f1; f2] [a; b; c]) ++ logs (p0, d)) by
        (cbn [zip zip_with fmap list_fmap concat fds]; by rewrite !app_nil_r, !app_assoc).
      eapply (plays_bind _ (λ _, True)); [|intros ? _; by apply (H 3%nat)].
      change 3 with (0 + Z.of_nat (length (zip [f0; f1; f2] [a; b; c]))).
      apply (plays_for_list loud (λ _ _, True)); [|done]. intros d' [f x] rest [] E _. rewrite Z.add_0_l.
      assert (zip [f0; f1; f2] [a; b; c] !! length d' = Some (f, x)) as Hj by by rewrite E, list_lookup_middle.
      destruct (length d') as [|[|[|?]]] eqn:Ed; [..|done]; (injection Hj as <- <-);
        (eapply plays_need; [reflexivity|]); cbv beta; [by apply (H 0%nat)|by apply (H 1%nat)|by apply (H 2%nat)].
    + rewrite logs_silent; [by play|]. destruct (ready_of fds l); [done|cbn in Hp; lia].
  - intros _ _. apply watch_all_plays; [|by right]. intros x Hx. apply elem_of_list_to_set in Hx.
    apply elem_of_list_to_set. unfold ready_of in Hx. apply list_elem_of_omap in Hx as ([f a] & Hin & E).
    destruct a; [|done]. injection E as <-. by apply elem_of_zip_l in Hin.
Qed.

Definition log_opening (r1 : Z) : list label :=
  [Did (Puts (nl +:+ "Main Server is starting................")) 0; Did (Dup2 f0 0) 0; Did (Open "mainfifo" "O_RDWR") f1;
   Did (Mkfifo "mainfifo2" 511) 0; Did (Open "mainfifo2" "O_RDWR") f2; Told Pipe (Reply 0 EmptyString [p0; r1] [])].

Lemma log_main_plays_all p1 pid rounds :
  0 ≤ f1 → 0 ≤ f2 → 0 < pid →
  Forall (λ l, length l = 4%nat ∧ Forall (λ a, match a with Some (data, s) => fills data s | None => True end) l) rounds →
  plays loud (returns (eq (watched_set fds, greatest fds))) (LogAll.main (Some f0) (length rounds))
    (log_opening p1 ++ Did Fork pid :: Did (Puts (nl +:+ "Client fds are created................")) 0 ::
     Did (Puts (nl +:+ "Server started..................")) 0 :: concat (log_round_session <$> rounds)).
Proof.
  intros H1 H2 Hp Hr. unfold LogAll.main, log_opening, puts. do 4 play.
  rewrite (proj2 (Z.ltb_ge f1 0)) by done. apply plays_exit_if. unfold make_fifo. inner. play. apply plays_exit_if. play.
  rewrite (proj2 (Z.ltb_ge f2 0)) by done. apply plays_exit_if. do 3 play. eapply plays_skip.
  { apply (watch_all_plays loud ∅ 0); [set_solver|by left]. }
  intros x <-. play. rewrite (proj2 (Z.ltb_ge pid 0)), (proj2 (Z.ltb_lt 0 pid)) by lia. do 2 play.
  eapply plays_rounds; [exact Hr|]. intros l [Hl Ha]. by apply log_all_round.
Qed.
End log_all.

Lemma log_child_plays p1 fd :
  plays loud (returns (λ _, True)) (LogAll.child p1)
    [Sent p1 18 "This is from pipe"; Did (Signal SIGUSR1 "sig_usr") 0; prints (nl +:+ "received SIGUSR1");
     Did (Open "mainfifo2" "O_RDWR") fd; Sent fd 21 "got this from signal"].
Proof.
  unfold LogAll.child, LogAll.sig_usr, prints, puts. change (SIGUSR1 =? SIGUSR1) with true. cbv iota. do 4 play.
  apply plays_watched; [done|eexists; by split; [right|]|]. intros r _. by apply plays_return.
Qed.

(** A line that is typed, with its line end. *)
Definition sends_line (fd : Z) (line : string) : list label :=
  [Did (Puts "User: ") 0; Told (Fgets 100) (Reply 1 (line +:+ String NUL "") [] []); prints line; Sent fd 100 line].

Lemma log_client_plays fd (lines : list string) :
  Forall (λ l, nonul l = true ∧ (String.length l < 100)%nat) lines →
  plays loud (returns (λ b, length b = 100%nat)) (LogAll.client (length lines))
    (Did (Mkfifo "mainfifo" 511) 0 :: Did (Open "mainfifo" "O_RDWR") fd :: Did (Puts (nl +:+ "Keep typing message" +:+ nl)) 0 ::
     concat (sends_line fd <$> lines)).
Proof.
  intros Hl. unfold LogAll.client, make_fifo, puts. inner. play. apply plays_exit_if. do 2 play.
  apply (plays_forever_list loud (λ _ b, length b = 100%nat)); [|done].
  intros d l rest b -> Hb. apply Forall_app in Hl as [_ [[Hn Hlen] _]%Forall_cons].
  unfold LogAll.client_round, sends_line, prints, puts. do 2 play. cbn [rv Z.eqb].
  unfold received. cbn [rdata]. rewrite store_text by lia. step. eapply plays_need; [by apply cstr_over|]. cbv beta iota. step.
  eapply plays_write; [done|by apply cstr_over|]. cbv beta. step. rewrite length_over; lia.
Qed.

(** ** The theorems *)

(** The servers of several sources.  After the start, in which the child
    writes to the pipe and ends, every round prints what has come, source by
    source in the order of the table, and clears the buffer, over any sequence
    of rounds: for [allinone] and for [exam/3]. *)
Theorem all_sources argc f r w pid fd2 fd3 (progs : list (Z * Z)) (rounds rounds' : list (list arrival)) :
  f ≠ 0 → 0 < pid → 0 ≤ fd2 → length progs = 4%nat → Forall (λ x, x.1 ≠ 0) progs →
  Forall (whole 100 [0; r; fd2; fd3]) rounds → Forall (whole 30 (r :: progs.*2)) rounds' →
  plays loud (returns (eq (zeroed 100))) (PollAll.main argc (length rounds))
    (poll_opening argc f r w pid fd2 fd3 ++ concat (poll_session 100 [0; r; fd2; fd3] <$> rounds)) ∧
  plays loud (returns (eq (zeroed 30))) (Exam3.main (length rounds'))
    (exam_opening progs r w pid ++ concat (poll_session 30 (r :: progs.*2) <$> rounds')) ∧
  plays net (eq (Exited 0)) (PollAll.pipeFunc (replicate 4 (PollFd 0 0)))
    [Told Pipe (Reply 0 EmptyString [r; w] []); Did Fork 0; Did (Close r) 0; Sent w 30 "From Child Pipe"] ∧
  plays net (eq (Exited 0)) (Exam3.pipeFunc (replicate 5 (PollFd 0 0)))
    [Told Pipe (Reply 0 EmptyString [r; w] []); Did Fork 0; Did (Close r) 0; Sent w 30 ("From process p1" +:+ nl)].
Proof.
  intros Hf Hp H2 Hl Hx Hr Hr'. split_and!; [| |apply pipe_children..].
  - unfold PollAll.main. eapply plays_bind; [by apply poll_all_start|]. intros ? <-.
    eapply plays_rounds; [exact Hr|]. intros l. apply poll_all_round.
  - unfold Exam3.main. eapply plays_bind; [by apply exam_start|]. intros ? <-.
    eapply plays_rounds; [exact Hr'|]. intros l. apply poll_all_round.
Qed.

(** What ends or blinds these servers.  The signal they handle interrupts
    [poll], which the server takes for an error: it exits.  The variant on
    [select] watches [argc - 1] descriptors: started without arguments it
    watches none, in all rounds, and reads nothing; with five or more it reads
    outside of its array. *)
Theorem deaf_server f r w pid fd2 fd3 n argc fdp :
  f ≠ 0 → 0 < pid → 0 ≤ fd2 → 5 < argc →
  plays loud (eq (Exited 1)) (PollAll.round 100 fdp (zeroed 100))
    [Told (Poll fdp 100) (ret_ (-1)); Did (Puts ("poll error" +:+ " " +:+ dec (-1) +:+ nl)) 0] ∧
  plays net (returns (eq (∅ : fd_set, 0, zeroed 100))) (SelectAll.main 1 n)
    (blind_opening f r w pid fd2 fd3 ++ replicate n blind_round) ∧
  plays net (eq UB) (SelectAll.main argc n) [].
Proof.
  intros Hf Hp H2 Ha. split_and!.
  - unfold PollAll.round, puts. play. unfold error_func. change (rv (ret_ (-1)) <? 0) with true. cbv iota.
    apply plays_bind_exit. unfold puts. play. by apply plays_Halt.
  - by apply blind_main_plays.
  - unfold SelectAll.main. play. apply plays_bind_UB. unfold watch, for_up.
    destruct (Z.to_nat (argc - 1 - 0)) as [|[|[|[|[|m]]]]] eqn:E; try lia. cbn [for_n]. unfold watch_one.
    by apply plays_Undef.
Qed.

(** [select_servers/allinoneserver].  The server duplicates a descriptor from
    a cell nothing was stored in.  Were there one, it would log, source by source
    and over any rounds, what comes on the two fifos, this descriptor, and the
    pipe; the child writes to the pipe and, in its signal handler, to the
    second fifo; the terminal sends what is typed to the first. *)
Theorem log_all f0 f1 f2 p0 p1 pid fd n (rounds : list (list arrival)) (lines : list string) :
  NoDup [f0; f1; f2; p0] → 0 ≤ f1 → 0 ≤ f2 → 0 < pid →
  Forall (λ l, length l = 4%nat ∧ Forall (λ a, match a with Some (data, s) => fills data s | None => True end) l) rounds →
  Forall (λ l, nonul l = true ∧ (String.length l < 100)%nat) lines →
  plays net (eq UB) (LogAll.main None n) [] ∧
  plays loud (returns (eq (watched_set [f0; f1; f2; p0], greatest [f0; f1; f2; p0]))) (LogAll.main (Some f0) (length rounds))
    (log_opening f0 f1 f2 p0 p1 ++ Did Fork pid :: Did (Puts (nl +:+ "Client fds are created................")) 0 ::
     Did (Puts (nl +:+ "Server started..................")) 0 :: concat (log_round_session f0 f1 f2 p0 <$> rounds)) ∧
  plays loud (returns (λ _, True)) (LogAll.child p1)
    [Sent p1 18 "This is from pipe"; Did (Signal SIGUSR1 "sig_usr") 0; prints (nl +:+ "received SIGUSR1");
     Did (Open "mainfifo2" "O_RDWR") fd; Sent fd 21 "got this from signal"] ∧
  plays loud (returns (λ b, length b = 100%nat)) (LogAll.client (length lines))
    (Did (Mkfifo "mainfifo" 511) 0 :: Did (Open "mainfifo" "O_RDWR") fd :: Did (Puts (nl +:+ "Keep typing message" +:+ nl)) 0 ::
     concat (sends_line fd <$> lines)).
Proof.
  intros Hn H1 H2 Hp Hr Hl. split_and!.
  - unfold LogAll.main. play. by apply plays_undef.
  - by apply log_main_plays_all.
  - apply log_child_plays.
  - by apply log_client_plays.
Qed.

(** *** Witnesses *)

Lemma all_sources_witness :
  let pipe_text := "From Child Pipe" +:+ String NUL ".............." in
  plays loud (returns (eq (zeroed 100))) (PollAll.main 1 1)
    (poll_opening 1 9 4 5 71 6 7 ++
     [Told (Poll (watching [0; 4; 6; 7]) 100) (Reply 4 EmptyString [0; POLLRDNORM; 0; POLLRDNORM] []);
      Told (Read 4 100) (bytes_ pipe_text); prints "From Child Pipe";
      Told (Read 7 100) (bytes_ ("This if from popen" +:+ nl)); prints ("This if from popen" +:+ nl)]) ∧
  plays loud (returns (eq (zeroed 30))) (Exam3.main 1)
    (exam_opening [(11, 6); (12, 7); (13, 8); (14, 9)] 4 5 71 ++
     [Told (Poll (watching [4; 6; 7; 8; 9]) 100) (Reply 5 EmptyString [0; POLLRDNORM; 0; 0; 0] []);
      Told (Read 6 30) (bytes_ ("Information from p2" +:+ nl)); prints ("Information from p2" +:+ nl)]).
Proof.
  intros pipe_text.
  destruct (all_sources 1 9 4 5 71 6 7 [(11, 6); (12, 7); (13, 8); (14, 9)]
    [[None; Some (pipe_text, "From Child Pipe"); None; Some ("This if from popen" +:+ nl, "This if from popen" +:+ nl)]]
    [[None; Some ("Information from p2" +:+ nl, "Information from p2" +:+ nl); None; None; None]]) as (Ha & Hb & _);
    [lia|lia|lia|done| | | |split; [exact Ha|exact Hb]].
  - repeat (apply List.Forall_cons; [done|]). by apply List.Forall_nil.
  - apply List.Forall_cons; [split; [done|]|by apply List.Forall_nil].
    repeat (apply List.Forall_cons; [first [exact I|eexists; split; vm_compute; reflexivity]|]). by apply List.Forall_nil.
  - apply List.Forall_cons; [split; [done|]|by apply List.Forall_nil].
    repeat (apply List.Forall_cons; [first [exact I|eexists; split; vm_compute; reflexivity]|]). by apply List.Forall_nil.
Defined.

Lemma deaf_server_witness :
  plays loud (eq (Exited 1)) (PollAll.round 100 (watching [0; 4; 6; 7]) (zeroed 100))
    [Told (Poll (watching [0; 4; 6; 7]) 100) (ret_ (-1)); Did (Puts ("poll error -1" +:+ nl)) 0] ∧
  plays net (returns (eq (∅ : fd_set, 0, zeroed 100))) (SelectAll.main 1 2) (blind_opening 9 4 5 71 6 7 ++ [blind_round; blind_round]) ∧
  plays net (eq UB) (SelectAll.main 6 2) [].
Proof. apply (deaf_server 9 4 5 71 6 7 2 6 (watching [0; 4; 6; 7])); lia. Defined.

Lemma log_all_witness :
  plays net (eq UB) (LogAll.main None 1) [] ∧
  plays loud (returns (eq (watched_set [0; 3; 4; 5], 5))) (LogAll.main (Some 0) 1)
    (log_opening 0 3 4 5 6 ++ [Did Fork 71; Did (Puts (nl +:+ "Client fds are created................")) 0;
     Did (Puts (nl +:+ "Server started..................")) 0;
     Told (Select 6 (elements (watched_set [0; 3; 4; 5])) false) (ints_ [5]); Did (Puts "Logged: ") 0;
     Told (Read 5 100) (bytes_ ("This is from pipe" +:+ String NUL "")); Did (Puts (nl +:+ "This is from pipe" +:+ nl)) 0]).
Proof.
  destruct (log_all 0 3 4 5 6 71 9 1 [[None; None; None; Some ("This is from pipe" +:+ String NUL "", "This is from pipe")]] [])
    as (Ha & Hb & _); [apply (bool_decide_unpack _); by vm_compute|lia|lia|lia| |by apply List.Forall_nil|split; [exact Ha|exact Hb]].
  apply List.Forall_cons; [split; [done|]|by apply List.Forall_nil].
  repeat (apply List.Forall_cons; [first [exact I|split; [by apply Nat.ltb_lt|eexists; split; vm_compute; reflexivity]]|]).
  by apply List.Forall_nil.
Defined.
