(* ===== verification/Exchanges.v ===== *)
(** * Requests and answers over sockets

    Smaller systems of the repository: [sockets] (Module [OneShot]: one message
    and one answer), [programs/sockets] (Module [EchoLoop]: a server that
    echoes until the client leaves; [sockets1] is a copy),
    [programs/sockets/concurrentserver] (Module [Choice]: the first message of
    a client chooses the program that serves it), the client of
    [programs/sockets/iss] (Module [Iss]), and the programs of
    [unixsockets/printserver] (Module [PrintServer]). *)

From S2P Require Import Prelude CString Posix Session FdPass Echo Fifo Transfers.

#[local] Open Scope Z_scope.

(** Output to the standard error. *)
Definition complain (text : string) : prog unit := do_ (Perror text).

(** [gethostbyname]: the address, if there is a host of this name. *)
Definition host_address (name : string) : prog (option Z) :=
  r ← sys (LibCall "gethostbyname" [] [name]); mret (head (rints r)).

(** [fgets(buffer, n, stdin)]: at the end of the input nothing is stored. *)
Definition fgets (n : Z) (buffer : buf) : prog buf :=
  r ← sys (Fgets n); if rv r =? 0 then mret buffer else received buffer r.

(** ** [sockets] *)
Module OneShot.

Definition error (code : Z) (bad : bool) (msg : string) : prog unit :=
  if bad then do_ (Perror msg);; Halt code else mret tt.

(** [argv] without the name of the program, as for the client. *)
Definition server (argv : list string) : prog unit :=
  match argv with
  | [] => complain ("ERROR, no port provided" +:+ nl);; Halt 1
  | port :: _ =>
      sockfd ← sysv (Socket AF_INET SOCK_STREAM 0);
      error 1 (sockfd <? 0) "ERROR opening socket";;
      portno ← need (atoi port);
      b ← sysv (Bind sockfd (any_addr (u16 portno)));
      error 1 (b <? 0) "ERROR on binding";;
      do_ (Listen sockfd 5);;
      newsockfd ← sysv (Accept sockfd);
      error 1 (newsockfd <? 0) "ERROR on accept";;
      '(n, buffer) ← read newsockfd (zeroed 256) 255;
      error 1 (n <? 0) "ERROR reading from socket";;
      s ← str buffer;
      puts ("Here is the message: " +:+ s +:+ nl);;
      n ← sysv (Write newsockfd (lit "I got your message") 18);
      error 1 (n <? 0) "ERROR writing to socket";;
      do_ (Close newsockfd);;
      do_ (Close sockfd)
  end.

(** The start of the client, up to the connection; the client of
    [concurrentserver] starts in the same way. *)
Definition client_start (argv : list string) : prog Z :=
  match argv with
  | host :: port :: _ =>
      portno ← need (atoi port);
      sockfd ← sysv (Socket AF_INET SOCK_STREAM 0);
      error 0 (sockfd <? 0) "ERROR opening socket";;
      h ← host_address host;
      match h with
      | None => complain ("ERROR, no such host" +:+ nl);; Halt 0
      | Some addr =>
          c ← sysv (Connect sockfd (SaIn (htons (u16 portno)) addr));
          error 0 (c <? 0) "ERROR connecting";;
          mret sockfd
      end
  | _ => complain "usage";; Halt 0
  end.

Definition client (argv : list string) : prog unit :=
  sockfd ← client_start argv;
  puts "Please enter the message: ";;
  buffer ← fgets 255 (zeroed 256);
  n ← need (strlen buffer);
  n ← sysv (Write sockfd buffer n);
  error 0 (n <? 0) "ERROR writing to socket";;
  '(n, buffer) ← read sockfd (zeroed 256) 255;
  error 0 (n <? 0) "ERROR reading from socket";;
  s ← str buffer;
  puts (s +:+ nl);;
  do_ (Close sockfd).

End OneShot.

(** ** [programs/sockets] *)
Module EchoLoop.

Definition PORT : Z := 8888.
(** [inet_addr("127.0.0.1")]. *)
Definition LOOPBACK : Z := 16777343.
Definition server_addr : sockaddr := SaIn (htons PORT) LOOPBACK.

Definition print_error (val : Z) (msg : string) : prog unit :=
  if val <? 0 then do_ (Perror msg);; Halt val else mret tt.

(** The handler of [SIGINT] shuts both sockets down, which ends the [recv] of
    the loop. *)
Definition clean (nsfd sfd : Z) : prog unit :=
  puts ("Shutting down server." +:+ nl);;
  do_ (LibCall "shutdown" [nsfd; 2] []);;
  do_ (LibCall "shutdown" [sfd; 2] []).

Definition server_start : prog Z :=
  g ← sysv (Signal SIGINT "clean");
  (if g =? -1 then puts ("Error in catching SIGINT" +:+ nl) else mret tt);;
  sfd ← sysv (Socket AF_INET SOCK_STREAM 0);
  print_error sfd "error opening socket";;
  set ← sysv (Setsockopt sfd "SO_REUSEADDR");
  print_error set "setsockopt(SO_REUSEADDR) failed";;
  b ← sysv (Bind sfd server_addr);
  print_error b "Failed to bind.";;
  do_ (Listen sfd 3);;
  puts ("Server is listening for connections." +:+ nl);;
  nsfd ← sysv (Accept sfd);
  print_error nsfd "Failed in accepting connection";;
  a ← sysv (LibCall "inet_ntoa" [] []);
  puts ("Accepted connection from " +:+ dec a +:+ nl);;
  mret nsfd.

Definition server_round (nsfd : Z) (buffer : buf) : prog (buf + unit) :=
  '(read_size, buffer) ← recv nsfd buffer 256;
  if 0 <? read_size then
    s ← str buffer;
    puts ("Message:" +:+ s +:+ nl);;
    r ← sysv (Send nsfd buffer 256);
    print_error r "Failed to send message to client";;
    mret (inl (zeroed 256))
  else mret (inr tt).

(** [inl] when the client is still there after [n] rounds. *)
Definition server (n : nat) : prog (buf + unit) :=
  nsfd ← server_start;
  x ← loop n (server_round nsfd) (fresh 256);
  match x with
  | inl b => mret (inl b)
  | inr _ => puts ("Client disconnected" +:+ nl);; mret (inr tt)
  end.

Definition client_start : prog Z :=
  sfd ← sysv (Socket AF_INET SOCK_STREAM 0);
  print_error sfd "error opening socket";;
  c ← sysv (Connect sfd server_addr);
  print_error c "could not connect to server.";;
  puts ("connected to server" +:+ nl);;
  mret sfd.

(** [gets] stores a line of any length. *)
Definition client_round (sfd : Z) (x : buf * buf) : prog (buf * buf) :=
  let '(buffer, buffer1) := x in
  r ← sys (LibCall "gets" [] []);
  buffer ← (if rv r =? 0 then mret buffer else need (strcpy buffer (rdata r)));
  s ← str buffer;
  (if strcmp_eq s "exit" then Halt 1 else mret tt);;
  k ← sysv (Send sfd buffer 256);
  print_error k "Failed to send message to server";;
  '(r, buffer1) ← recv sfd buffer1 256;
  print_error r "Failed to receive a reply from the server";;
  t ← str buffer1;
  puts ("Server:" +:+ t +:+ nl);;
  mret (zeroed 256, zeroed 256).

Definition client (n : nat) : prog (buf * buf) :=
  sfd ← client_start; forever n (client_round sfd) (fresh 256, fresh 256).

End EchoLoop.

(** ** [programs/sockets/concurrentserver] *)
Module Choice.

Definition server_start (argv1 : string) : prog Z :=
  portno ← need (atoi argv1);
  sfd ← sysv (Socket AF_INET SOCK_STREAM 0);
  OneShot.error 1 (sfd <? 0) "Socket not initilizated";;
  b ← sysv (Bind sfd (any_addr (u16 portno)));
  OneShot.error 1 (b <? 0) "Error on binding: ";;
  do_ (Listen sfd 5);;
  mret sfd.

(** The child; when [execv] fails it goes on with the loop of the server. *)
Definition child (sfd nsfd service : Z) : prog buf :=
  do_ (Close sfd);;
  do_ (Dup2 nsfd 0);;
  do_ (Dup2 nsfd 1);;
  do_ (Close nsfd);;
  puts ("Exceing lower" +:+ nl);;
  (if service =? 1 then do_ (Exec "./lower" ["./s1"]) else do_ (Exec "./upper" ["./s2"]));;
  puts ("Failed" +:+ nl);;
  mret (zeroed 250).

(** What is read stays in [buffer] in the parent. *)
Definition server_round (sfd : Z) (buffer : buf) : prog buf :=
  nsfd ← sysv (Accept sfd);
  '(_, buffer) ← read nsfd buffer 100;
  s ← str buffer;
  service ← (if strcmp_eq s ("1" +:+ nl) then puts ("Service 1 selected" +:+ nl);; mret 1
             else if strcmp_eq s ("2" +:+ nl) then puts ("Service 2 selected" +:+ nl);; mret 2
             else puts ("Invalid choice" +:+ nl);; Halt 0);
  pid ← sysv Fork;
  if pid =? 0 then child sfd nsfd service
  else if 0 <? pid then do_ (Close nsfd);; mret buffer
  else mret buffer.

Definition server (argv1 : string) (n : nat) : prog buf :=
  sfd ← server_start argv1; forever n (server_round sfd) (zeroed 250).

(** [lower.c] and [s1.c]; [upper.c] and [s2.c] print the other text. *)
Definition service_round (text : string) (_ : unit) : prog unit :=
  r ← sys ScanString;
  (if 0 <? rv r then need (strcpy (zeroed 100) (rdata r)) else mret (zeroed 100));;
  puts (text +:+ nl).
Definition lower (n : nat) : prog unit := forever n (service_round "service 1 requested and processed") tt.
Definition upper (n : nat) : prog unit := forever n (service_round "service 2 processed") tt.

Definition client_round (sockfd : Z) (_ : unit) : prog (unit + unit) :=
  buffer ← fgets 255 (zeroed 256);
  n ← need (strlen buffer);
  n ← sysv (Write sockfd buffer n);
  OneShot.error 0 (n <? 0) "ERROR writing to socket";;
  s ← str buffer;
  if strcmp_eq s ("exit" +:+ nl) then mret (inr tt) else
  '(n, buffer) ← read sockfd (zeroed 256) 255;
  (if 0 <? n then s ← str buffer; puts (s +:+ nl) else mret tt);;
  mret (inl tt).

Definition client (argv : list string) (n : nat) : prog (unit + unit) :=
  sockfd ← OneShot.client_start argv;
  puts ("Send service number:" +:+ nl +:+ "1.Lower" +:+ nl +:+ "2.Upper" +:+ nl);;
  x ← loop n (client_round sockfd) tt;
  match x with
  | inl _ => mret (inl tt)
  | inr _ => do_ (Close sockfd);; mret (inr tt)
  end.

End Choice.

(** ** The programs of [mid/inetd] *)
Module InetdPrograms.

(** [server1.c], which takes words; [server2.c] and [server3.c] take lines. *)
Definition word_round (buffer : buf) : prog buf :=
  r ← sys ScanString;
  buffer ← (if 0 <? rv r then need (strcpy buffer (rdata r)) else mret buffer);
  s ← str buffer;
  puts (s +:+ nl);;
  do_ (Write 1 (lit "from server1 to client") 30);;
  mret buffer.
Definition server1 (n : nat) : prog buf := forever n word_round (fresh 30).

Definition line_round (answer : string) (buffer : buf) : prog buf :=
  do_ (Sleep 3);;
  buffer ← fgets 30 buffer;
  s ← str buffer;
  puts (s +:+ nl);;
  do_ (Write 1 (lit answer) 30);;
  mret buffer.
Definition server2 (n : nat) : prog buf :=
  puts ("server2 got forked" +:+ nl);; forever n (line_round "from server2 to client") (fresh 30).
Definition server3 (n : nat) : prog buf :=
  puts ("server3 got forked" +:+ nl);; forever n (line_round "from server3 to client") (fresh 30).

Definition client_round (nfd : Z) (_ : unit) : prog unit :=
  do_ (Write nfd (lit "from client to server") 30);;
  '(_, buffer) ← read nfd (fresh 30) 30;
  puts "client:";;
  s ← str buffer;
  puts (s +:+ nl).

Definition client (argv1 : string) (n : nat) : prog unit :=
  port ← need (atoi argv1);
  nfd ← sysv (Socket AF_INET SOCK_STREAM 0);
  do_ (Connect nfd (any_addr (u16 port)));;
  forever n (client_round nfd) tt.

End InetdPrograms.

(** ** The client of [programs/sockets/iss] *)
Module Iss.

(** It does not look at the value it is given. *)
Definition error (val : Z) (msg : string) : prog unit := do_ (Perror msg);; Halt 0.

Definition client_round (sockfd : Z) (_ : unit) : prog unit :=
  buff ← fgets 100 (zeroed 100);
  n ← need (strlen buff);
  n ← sysv (Write sockfd buff n);
  error n "unable to write";;
  '(n, _) ← read sockfd buff 100;
  error n "unable to read".

Definition client (argv : list string) (n : nat) : prog unit :=
  port ← need (aget argv 1);
  portno ← need (atoi port);
  sockfd ← sysv (Socket AF_INET SOCK_STREAM 0);
  error sockfd "creating socket";;
  host ← need (aget argv 0);
  h ← host_address host;
  addr ← need h;
  c ← sysv (Connect sockfd (SaIn (htons (u16 portno)) addr));
  error c "error connecting";;
  forever n (client_round sockfd) tt.

End Iss.

(** ** [unixsockets/printserver] *)
Module PrintServer.

(** [p1.c], which greets one client. *)
Definition p1 : prog unit :=
  sfd ← sysv (Socket AF_UNIX SOCK_STREAM 0);
  error_note sfd "socket error";;
  do_ (Unlink "echo_socket1");;
  b ← sysv (Bind sfd (SaUn "echo_socket1"));
  error_note b "bind error";;
  l ← sysv (Listen sfd 5);
  error_note l "listen error";;
  nfd ← sysv (Accept sfd);
  error_note nfd "accept error";;
  '(_, buffer) ← recv nfd (fresh 30) 30;
  s ← str buffer;
  puts (s +:+ nl);;
  do_ (Send nfd (lit "hello from server") 30).

(** [server.c].  [wyslij] fills a message and does not send it; [odbierz]
    reads the descriptor from a buffer into which nothing was received. *)
Definition wyslij (socket fd : Z) : prog unit := mret tt.
Definition received_fd : option Z := None.
Definition odbierz (socket : Z) : prog Z :=
  fd ← need received_fd;
  puts ("Extracted fd " +:+ dec fd +:+ nl);;
  mret fd.

(** Lines 92-93: the copy to the standard output. *)
Definition copy_round (fd : Z) (buffer : buf) : prog (buf + unit) :=
  '(nbytes, buffer) ← read fd buffer 256;
  if 0 <? nbytes then do_ (Write 1 buffer nbytes);; mret (inl buffer) else mret (inr tt).

Definition server (n : nat) : prog unit :=
  r ← sys (LibCall "socketpair" [] []);
  sv0 ← need (aget (rints r) 0);
  sv1 ← need (aget (rints r) 1);
  pid ← sysv Fork;
  if 0 <? pid then
    puts ("Parent at work" +:+ nl);;
    do_ (Close sv1);;
    fd ← sysv (Open "sample.txt" "O_RDONLY");
    (if fd <? 0 then puts ("unable to open file" +:+ nl) else mret tt);;
    wyslij sv0 fd;;
    do_ (Close fd);;
    do_ (LibCall "nanosleep" [1; 500000000] []);;
    puts ("Parent exits" +:+ nl)
  else
    puts ("Child at play" +:+ nl);;
    do_ (Close sv0);;
    do_ (LibCall "nanosleep" [0; 500000000] []);;
    fd ← odbierz sv1;
    puts ("Read " +:+ dec fd +:+ "!" +:+ nl);;
    '(_, buffer) ← read fd (fresh 256) 256;
    s ← str buffer;
    puts (s +:+ nl);;
    loop n (copy_round fd) buffer;;
    puts ("Done!" +:+ nl);;
    do_ (Close fd).

(** [server1.c]: both processes read from one open file.  [nbytes] keeps its
    value when the input is not of the form "parent bytes?5". *)
Definition read_round (who : string) (fd : Z) (x : option Z * buf) : prog (option Z * buf) :=
  let '(nbytes, buffer) := x in
  r ← sys (LibCall "scanf" [] ["parent bytes?%d"]);
  let nbytes := match rints r with k :: _ => Some k | [] => nbytes end in
  k ← need nbytes;
  '(_, buffer) ← read fd buffer k;
  s ← str buffer;
  puts (who +:+ " :" +:+ s +:+ nl);;
  do_ (Sleep 3);;
  mret (nbytes, buffer).

(** What follows the endless loops in [server1.c] is not reached. *)
Definition child1 (n : nat) : prog (option Z * buf) :=
  do_ (Sleep 5);;
  puts ("child process" +:+ nl);;
  sfd ← sysv (Socket AF_UNIX SOCK_STREAM 0);
  error_note sfd "socket error";;
  c ← sysv (Connect sfd (SaUn "echo_socket"));
  error_note c "connect error";;
  fd ← recv_file_descriptor sfd;
  puts ("fd is child: " +:+ dec fd +:+ nl);;
  forever n (read_round "child" fd) (None, fresh 30).

Definition parent1 (n : nat) : prog (option Z * buf) :=
  puts ("parent process" +:+ nl);;
  fd ← sysv (Open "sample.txt" "O_RDWR");
  puts ("fd parent:" +:+ dec fd +:+ nl);;
  sfd ← sysv (Socket AF_UNIX SOCK_STREAM 0);
  error_note sfd "socket error";;
  do_ (Unlink "echo_socket");;
  b ← sysv (Bind sfd (SaUn "echo_socket"));
  error_note b "bind error";;
  l ← sysv (Listen sfd 5);
  error_note l "listen error";;
  nfd ← sysv (Accept sfd);
  error_note nfd "accept error";;
  send_file_descriptor nfd fd;;
  forever n (read_round "parent" fd) (None, fresh 30).

Definition server1 (n : nat) : prog (option Z * buf) :=
  pid ← sysv Fork; if pid =? 0 then child1 n else parent1 n.

End PrintServer.

(** ** Sessions *)

(** *** [sockets] *)

Lemma plays_no_error {B} w code msg (f : unit → prog B) ls Q :
  plays w Q (f tt) ls → plays w Q (OneShot.error code false msg ≫= f) ls.
Proof. done. Qed.

Lemma plays_end w c v : w c = true → plays w (returns (λ _, True)) (do_ c) [Did c v].
Proof. intros. apply plays_watched; [done|done|]. intros r _. by apply plays_return. Qed.

(** The errors of a [sockets] program that do not occur. *)
Ltac no_error := rewrite (proj2 (Z.ltb_ge _ 0)) by (first [assumption|lia]); apply plays_no_error.

Definition reply_text : string := "I got your message".

Definition oneshot_server (portno sockfd newsockfd : Z) (m : string) : list label :=
  [Did (Socket AF_INET SOCK_STREAM 0) sockfd; Did (Bind sockfd (any_addr (u16 portno))) 0; Did (Listen sockfd 5) 0;
   Did (Accept sockfd) newsockfd; Told (Read newsockfd 255) (bytes_ m); Did (Puts ("Here is the message: " +:+ m +:+ nl)) 0;
   Did (Write newsockfd (lit reply_text) 18) 18; Did (Close newsockfd) 0; Did (Close sockfd) 0].

Lemma oneshot_server_plays port rest portno sockfd newsockfd m :
  atoi port = Some portno → 0 ≤ sockfd → 0 ≤ newsockfd → nonul m = true → (String.length m < 256)%nat →
  plays loud (returns (λ _, True)) (OneShot.server (port :: rest)) (oneshot_server portno sockfd newsockfd m).
Proof.
  intros Hp H1 H2 Hn Hl. unfold OneShot.server, oneshot_server, puts. play. no_error. do 2 play. no_error. do 2 play. no_error.
  apply plays_text_in; [done..|]. intros b Hb. no_error. do 3 play. no_error. play. by apply plays_end.
Qed.

Definition resolved (portno sockfd addr : Z) (host : string) : list label :=
  [Did (Socket AF_INET SOCK_STREAM 0) sockfd; Told (LibCall "gethostbyname" [] [host]) (ints_ [addr]);
   Did (Connect sockfd (SaIn (htons (u16 portno)) addr)) 0].

Lemma client_start_plays host port rest portno sockfd addr :
  atoi port = Some portno → 0 ≤ sockfd →
  plays loud (returns (eq sockfd)) (OneShot.client_start (host :: port :: rest)) (resolved portno sockfd addr host).
Proof.
  intros Hp Hs. unfold OneShot.client_start, resolved, host_address. do 2 play. no_error. inner. play.
  cbn [mret prog_mret mbind prog_mbind prog_bind head rints ints_]. play. no_error. by play.
Qed.

(** A line that is typed into a cleared buffer, with its line end. *)
Lemma plays_fgets {B} n size line (f : buf → prog B) ls Q :
  nonul line = true → (String.length line < size)%nat →
  plays loud Q (f (over (zeroed size) line)) ls →
  plays loud Q (fgets n (zeroed size) ≫= f) (Told (Fgets n) (Reply 1 (line +:+ String NUL "") [] []) :: ls).
Proof.
  intros Hn Hl Hf. unfold fgets. inner. play. unfold received. cbn [rdata].
  rewrite store_text by (unfold zeroed; by rewrite length_replicate). exact Hf.
Qed.

Definition types (n : Z) (line : string) : label := Told (Fgets n) (Reply 1 (line +:+ String NUL "") [] []).

Lemma oneshot_client_plays host port rest portno sockfd addr line answer :
  atoi port = Some portno → 0 ≤ sockfd → nonul line = true → (String.length line < 255)%nat →
  nonul answer = true → (String.length answer < 256)%nat →
  plays loud (returns (λ _, True)) (OneShot.client (host :: port :: rest))
    (resolved portno sockfd addr host ++
     [Did (Puts "Please enter the message: ") 0; types 255 line;
      Did (Write sockfd (over (zeroed 256) line) (Z.of_nat (String.length line))) (Z.of_nat (String.length line));
      Told (Read sockfd 255) (bytes_ answer); prints answer; Did (Close sockfd) 0]).
Proof.
  intros Hp Hs Hn Hl Ha Hla. unfold OneShot.client. eapply plays_bind; [by apply client_start_plays|]. intros ? <-.
  unfold types, prints, puts. play. apply plays_fgets; [done|lia|].
  eapply plays_need; [unfold strlen; by rewrite cstr_over|]. cbv beta. play. no_error.
  apply plays_text_in; [done..|]. intros b Hb. no_error. do 2 play. by apply plays_end.
Qed.

(** *** [programs/sockets/iss]: the client exits once it has a socket *)

Lemma iss_client_exits host port rest portno sockfd n :
  atoi port = Some portno →
  plays loud (eq (Exited 0)) (Iss.client (host :: port :: rest) n) [Did (Socket AF_INET SOCK_STREAM 0) sockfd].
Proof.
  intros Hp. unfold Iss.client, Iss.error. do 3 play. apply plays_bind_exit. play. by play.
Qed.

(** *** [programs/sockets] *)

Lemma plays_print_ok {B} w v msg (f : unit → prog B) ls Q :
  0 ≤ v → plays w Q (f tt) ls → plays w Q (EchoLoop.print_error v msg ≫= f) ls.
Proof. intros. unfold EchoLoop.print_error. by rewrite (proj2 (Z.ltb_ge _ _)). Qed.

(** A line that is typed, sent and answered; [b] is the client's buffer. *)
Definition talks (sfd : Z) (b : buf) (line : string) : list label :=
  [Told (LibCall "gets" [] []) (Reply 1 line [] []); Did (Send sfd (over b line) 256) 256; Got sfd 256 line;
   Did (Puts ("Server:" +:+ line +:+ nl)) 0].
Definition first_clear (i : nat) : buf := match i with O => fresh 256 | _ => zeroed 256 end.

Definition client_opening (sfd : Z) : list label :=
  [Did (Socket AF_INET SOCK_STREAM 0) sfd; Did (Connect sfd EchoLoop.server_addr) 0; prints "connected to server"].

Definition spoken (line : string) : Prop := nonul line = true ∧ (String.length line < 256)%nat ∧ line ≠ "exit".

Lemma talk_plays sfd b b1 line :
  spoken line → length b = 256%nat → length b1 = 256%nat →
  plays loud (returns (eq (zeroed 256, zeroed 256))) (EchoLoop.client_round sfd (b, b1)) (talks sfd b line).
Proof.
  intros (Hn & Hl & He) Hb Hb1. unfold EchoLoop.client_round, talks, puts. play. change (1 =? 0) with false. cbv iota.
  cbn [rdata]. eapply plays_need; [apply strcpy_Some; lia|]. fold (over b line). eapply plays_need; [by apply cstr_over|].
  unfold strcmp_eq. rewrite (proj2 (String.eqb_neq _ _)) by done. cbv iota. do 2 play. apply plays_print_ok; [lia|].
  apply plays_recv; [done|lia|]. intros b' Hc _. cbv beta iota. apply plays_print_ok; [lia|]. do 2 play. by play.
Qed.

Lemma client_talks sfd (lines : list string) m Q ls :
  0 ≤ sfd → Forall spoken lines →
  (∀ b b1, length b = 256%nat → length b1 = 256%nat → plays loud Q (forever m (EchoLoop.client_round sfd) (b, b1)) ls) →
  plays loud Q (EchoLoop.client (length lines + m)) (client_opening sfd ++ concat (imap (λ i, talks sfd (first_clear i)) lines) ++ ls).
Proof.
  intros Hs Hl HQ. unfold EchoLoop.client. eapply (plays_bind loud (eq sfd)).
  { unfold EchoLoop.client_start, client_opening, prints, puts. play. apply plays_print_ok; [done|]. play.
    apply plays_print_ok; [lia|]. play. by play. }
  intros ? <-.
  apply (plays_forever_then loud (λ d x, x = (first_clear (length d), first_clear (length d)))).
  - intros d line rest x -> ->. apply Forall_app in Hl as [_ [Hline _]%Forall_cons].
    rewrite length_app, Nat.add_1_r. eapply plays_weaken; [apply talk_plays; [done|by destruct (length d)..]|by intros ? <-].
  - done.
  - intros x ->. by apply HQ; destruct (length lines).
Qed.

(** A message of 256 bytes that the server hears and sends back. *)
Definition hears (nsfd : Z) (x : string * string) : list label :=
  [Told (Recv nsfd 256) (bytes_ x.1); Did (Puts ("Message:" +:+ x.2 +:+ nl)) 0; Did (Send nsfd (cells x.1) 256) 256].

Definition server_opening (sfd nsfd a : Z) : list label :=
  [Did (Signal SIGINT "clean") 0; Did (Socket AF_INET SOCK_STREAM 0) sfd; Did (Setsockopt sfd "SO_REUSEADDR") 0;
   Did (Bind sfd EchoLoop.server_addr) 0; Did (Listen sfd 3) 0; prints "Server is listening for connections.";
   Did (Accept sfd) nsfd; Did (LibCall "inet_ntoa" [] []) a; prints ("Accepted connection from " +:+ dec a)].

Lemma hear_plays nsfd b data line :
  reads 256 data line → length b = 256%nat →
  plays loud (returns (eq (inl (zeroed 256)))) (EchoLoop.server_round nsfd b) (hears nsfd (data, line)).
Proof.
  intros (Hl & Hc & _) Hb. unfold EchoLoop.server_round, hears, puts. cbn [fst snd].
  eapply plays_recv_told; [done|apply store_Some; cbn [rdata bytes_]; rewrite cells_length; lia|]. cbn [rv bytes_ rdata].
  change (take 0 b) with (@nil cell). rewrite cells_length, drop_ge, app_nil_r by lia. rewrite Hl.
  change (0 <? 256) with true. cbv iota. do 3 play. apply plays_print_ok; [lia|]. by play.
Qed.

Lemma server_hears nsfd b (l : list (string * string)) m :
  Forall (λ x, reads 256 x.1 x.2) l → length b = 256%nat →
  plays loud (returns (eq (inr tt))) (loop (length l + S m) (EchoLoop.server_round nsfd) b)
    (concat (hears nsfd <$> l) ++ [Told (Recv nsfd 256) (ret_ 0)]).
Proof.
  intros Hl. revert b. induction Hl as [|[data line] l Hx _ IH]; intros b Hb; cbn [length Nat.add loop fmap list_fmap concat app].
  - eapply (plays_last _ (eq (inr tt))); [|intros ? <-; by play]. unfold EchoLoop.server_round.
    eapply plays_recv_told; [done|apply store_Some; cbn [rdata ret_]; rewrite cells_length; cbn [String.length]; lia|].
    cbv beta iota. change (0 <? rv (ret_ 0)) with false. cbv iota. by play.
  - rewrite <- app_assoc. eapply plays_bind; [by apply hear_plays|]. intros ? <-. by apply IH.
Qed.

Lemma loop_server_plays sfd nsfd a (l : list (string * string)) m :
  0 ≤ sfd → 0 ≤ nsfd → Forall (λ x, reads 256 x.1 x.2) l →
  plays loud (returns (eq (inr tt))) (EchoLoop.server (length l + S m))
    (server_opening sfd nsfd a ++ concat (hears nsfd <$> l) ++ [Told (Recv nsfd 256) (ret_ 0); prints "Client disconnected"]).
Proof.
  intros Hs Hn Hl. unfold EchoLoop.server. eapply (plays_bind loud (eq nsfd)).
  - unfold EchoLoop.server_start, server_opening, prints, puts. play. change (0 =? -1) with false. cbv iota.
    do 2 play. apply plays_print_ok; [done|]. play. apply plays_print_ok; [lia|]. play. apply plays_print_ok; [lia|]. do 3 play.
    apply plays_print_ok; [done|]. do 2 play. by play.
  - intros ? <-. change [?x; prints ?t] with ([x] ++ [prints t]). rewrite app_assoc. eapply plays_bind; [by apply server_hears|].
    intros ? <-. unfold prints, puts. play. by play.
Qed.

(** *** [concurrentserver] *)

(** A client: its connection, what one [read] gets of its message (nothing when
    it has hung up), and what [fork] returns for it. *)
Record visitor := Visitor { cnsfd : Z; says : string; cpid : Z }.

(** The buffer after the bytes [d] were read into it: what they do not reach
    stays. *)
Definition laid (d : string) (b : buf) : buf := cells d ++ drop (String.length d) b.

(** The service whose number the buffer holds, the second if [true]. *)
Definition chosen (b : buf) : option bool :=
  match cstr b with
  | Some s => if String.eqb s ("1" +:+ nl) then Some false else if String.eqb s ("2" +:+ nl) then Some true else None
  | None => None
  end.

Definition digit (second : bool) : string := if second then "2" else "1".
Definition picks (sfd : Z) (v : visitor) (second : bool) : list label :=
  [Did (Accept sfd) (cnsfd v); Told (Read (cnsfd v) 100) (bytes_ (says v)); prints ("Service " +:+ digit second +:+ " selected")].
Definition served_by (sfd : Z) (v : visitor) (second : bool) : list label :=
  picks sfd v second ++ Did Fork (cpid v) :: if 0 <? cpid v then [Did (Close (cnsfd v)) 0] else [].
Definition executes (sfd : Z) (v : visitor) (second : bool) : list label :=
  picks sfd v second ++
  [Did Fork 0; Did (Close sfd) 0; Did (Dup2 (cnsfd v) 0) 0; Did (Dup2 (cnsfd v) 1) 1; Did (Close (cnsfd v)) 0; prints "Exceing lower";
   Did (if second then Exec "./upper" ["./s2"] else Exec "./lower" ["./s1"]) (-1); prints "Failed"].
Definition refuses (sfd : Z) (v : visitor) : list label :=
  [Did (Accept sfd) (cnsfd v); Told (Read (cnsfd v) 100) (bytes_ (says v)); prints "Invalid choice"].

(** The server serves the visitors one after the other: what it does, and what
    its buffer holds afterwards. *)
Inductive visits (sfd : Z) : buf → list visitor → list label → buf → Prop :=
| visits_none b : visits sfd b [] [] b
| visits_more b v vs k ls b' :
    (String.length (says v) ≤ 100)%nat → cpid v ≠ 0 → chosen (laid (says v) b) = Some k →
    visits sfd (laid (says v) b) vs ls b' → visits sfd b (v :: vs) (served_by sfd v k ++ ls) b'.

(** The buffer of the server: all of it is initialised, and [read] does not
    reach its end, so it always holds a text. *)
Definition buffered (b : buf) : Prop := length b = 250%nat ∧ Forall is_Some b ∧ drop 100 b = zeroed 150.

Lemma buffered_laid d b : (String.length d ≤ 100)%nat → buffered b → buffered (laid d b).
Proof.
  intros Hd (Hl & Hb & Hz). unfold laid. split_and!.
  - rewrite length_app, cells_length, length_drop. lia.
  - apply Forall_app. split; [|by apply Forall_drop]. unfold cells. apply Forall_fmap, Forall_true. by eexists.
  - rewrite drop_app_ge, cells_length by (rewrite cells_length; lia). rewrite drop_drop, <- Hz. f_equal. lia.
Qed.

Lemma cstr_initialised l rest : Forall is_Some l → is_Some (cstr (l ++ Some NUL :: rest)).
Proof.
  induction 1 as [|c l [a ->] _ IH]; [by exists EmptyString|]. cbn [app cstr]. case_decide; [by eexists|].
  destruct IH as [t ->]. by exists (String a t).
Qed.

Lemma buffered_text b : buffered b → ∃ t, cstr b = Some t.
Proof.
  intros (_ & Hb & Hz). rewrite <- (take_drop 100 b), Hz. apply (cstr_initialised _ (zeroed 149)). by apply Forall_take.
Qed.

Lemma buffered_store d b : (String.length d ≤ 100)%nat → buffered b → store b 0 (cells d) = Some (laid d b).
Proof. intros Hd (Hl & _). by rewrite store_Some by (rewrite cells_length; lia); rewrite cells_length. Qed.

(** What a round begins with; [f] is what it goes on with. *)
Lemma pick_plays sfd v k b (f : Z → Z → buf → prog buf) ls Q :
  buffered b → (String.length (says v) ≤ 100)%nat → chosen (laid (says v) b) = Some k →
  plays loud Q (f (cnsfd v) (if k then 2 else 1) (laid (says v) b)) ls →
  plays loud Q
    (nsfd ← sysv (Accept sfd);
     '(_, buffer) ← read nsfd b 100;
     s ← str buffer;
     service ← (if strcmp_eq s ("1" +:+ nl) then puts ("Service 1 selected" +:+ nl);; mret 1
                else if strcmp_eq s ("2" +:+ nl) then puts ("Service 2 selected" +:+ nl);; mret 2
                else puts ("Invalid choice" +:+ nl);; Halt 0);
     f nsfd service buffer) (picks sfd v k ++ ls).
Proof.
  intros Hb Hl Hc Hf. unfold picks, prints, puts. cbn [app]. play.
  eapply plays_read_told; [done|by apply buffered_store|]. cbv beta iota. unfold chosen in Hc. unfold strcmp_eq.
  destruct (cstr (laid (says v) b)) as [t|] eqn:Et; [|done]. eapply plays_need; [exact Et|]. cbv beta.
  destruct (String.eqb t ("1" +:+ nl)); [|destruct (String.eqb t ("2" +:+ nl)); [|done]]; injection Hc as <-; cbv iota;
    inner; play; by play.
Qed.

Lemma choice_parent sfd v k b :
  buffered b → (String.length (says v) ≤ 100)%nat → cpid v ≠ 0 → chosen (laid (says v) b) = Some k →
  plays loud (returns (eq (laid (says v) b))) (Choice.server_round sfd b) (served_by sfd v k).
Proof.
  intros Hb Hl Hp Hc. unfold served_by. apply (pick_plays sfd v k b (λ nsfd service buffer,
    pid ← sysv Fork;
    if pid =? 0 then Choice.child sfd nsfd service else if 0 <? pid then do_ (Close nsfd);; mret buffer else mret buffer)); [done..|].
  play. rewrite (proj2 (Z.eqb_neq _ _)) by done. destruct (0 <? cpid v); [play|]; by play.
Qed.

Lemma choice_child sfd v k b :
  buffered b → (String.length (says v) ≤ 100)%nat → chosen (laid (says v) b) = Some k →
  plays loud (returns (eq (zeroed 250))) (Choice.server_round sfd b) (executes sfd v k).
Proof.
  intros Hb Hl Hc. unfold executes. apply (pick_plays sfd v k b (λ nsfd service buffer,
    pid ← sysv Fork;
    if pid =? 0 then Choice.child sfd nsfd service else if 0 <? pid then do_ (Close nsfd);; mret buffer else mret buffer)); [done..|].
  play. change (0 =? 0) with true. cbv iota. unfold Choice.child, prints, puts. do 5 play.
  destruct k; [change (2 =? 1) with false|change (1 =? 1) with true]; cbv iota; do 2 play; by play.
Qed.

(** When the buffer does not hold a choice the server ends. *)
Lemma choice_invalid sfd v b :
  buffered b → (String.length (says v) ≤ 100)%nat → chosen (laid (says v) b) = None →
  plays loud (eq (Exited 0)) (Choice.server_round sfd b) (refuses sfd v).
Proof.
  intros Hb Hl Hc. unfold Choice.server_round, refuses, prints, puts. play.
  eapply plays_read_told; [done|by apply buffered_store|]. cbv beta iota. unfold chosen in Hc. unfold strcmp_eq.
  destruct (buffered_text _ (buffered_laid _ _ Hl Hb)) as [t Et]. rewrite Et in Hc. eapply plays_need; [exact Et|]. cbv beta.
  destruct (String.eqb t ("1" +:+ nl)); [done|]. destruct (String.eqb t ("2" +:+ nl)); [done|].
  apply plays_bind_exit. play. by apply plays_Halt.
Qed.

Lemma visits_buffered sfd b vs ls b' : visits sfd b vs ls b' → buffered b → buffered b'.
Proof. induction 1 as [|b v vs k ls b' Hl _ _ _ IH]; [done|]. intros Hb. by apply IH, buffered_laid. Qed.

Lemma choice_visits sfd b vs ls b' m rest Q :
  visits sfd b vs ls b' → buffered b →
  plays loud Q (forever m (Choice.server_round sfd) b') rest →
  plays loud Q (forever (length vs + m) (Choice.server_round sfd) b) (ls ++ rest).
Proof.
  intros Hv Hb Hr. induction Hv as [b|b v vs k ls b' Hl Hp Hc _ IH]; [exact Hr|]. rewrite <- app_assoc.
  cbn [length Nat.add forever]. eapply plays_bind; [by apply (choice_parent sfd v k b)|]. intros ? <-.
  apply IH; [by apply buffered_laid|done].
Qed.

(** After a choice, the old text shows through shorter messages. *)
Lemma chosen_shape b k : chosen b = Some k → ∃ rest, b = lit (digit k +:+ nl) ++ rest.
Proof.
  unfold chosen. destruct (cstr b) as [s|] eqn:E; [|done]. destruct (cstr_inv _ _ E) as (_ & rest & ->).
  destruct (String.eqb_spec s ("1" +:+ nl)) as [->|]; [intros [= <-]; by exists rest|].
  destruct (String.eqb_spec s ("2" +:+ nl)) as [->|]; [intros [= <-]; by exists rest|done].
Qed.

Lemma chosen_stale b k : chosen b = Some k →
  chosen (laid "" b) = Some k ∧ (∀ k', chosen (laid (digit k') b) = Some k') ∧ (∀ k', chosen (laid (digit k' +:+ nl) b) = Some k') ∧
  chosen (laid ("3" +:+ nl) b) = None.
Proof.
  intros Hk. split; [by unfold laid; rewrite drop_0|]. destruct (chosen_shape b k Hk) as [rest ->].
  by destruct k; split_and!; try intros []; reflexivity.
Qed.

(** A line typed at the client of [concurrentserver], and what is answered. *)
Definition requested (sockfd : Z) (x : string * string) : list label :=
  [types 255 x.1; Did (Write sockfd (over (zeroed 256) x.1) (Z.of_nat (String.length x.1))) (Z.of_nat (String.length x.1));
   Told (Read sockfd 255) (bytes_ x.2); prints x.2].
Definition request_ok (x : string * string) : Prop :=
  (nonul x.1 = true ∧ (String.length x.1 < 255)%nat ∧ x.1 ≠ "exit" +:+ nl) ∧
  (nonul x.2 = true ∧ (String.length x.2 < 256)%nat ∧ x.2 ≠ EmptyString).
Definition leaves (sockfd : Z) : list label :=
  [types 255 ("exit" +:+ nl); Did (Write sockfd (over (zeroed 256) ("exit" +:+ nl)) 5) 5].

Lemma choice_client_round sockfd x :
  request_ok x → plays loud (returns (eq (inl tt))) (Choice.client_round sockfd tt) (requested sockfd x).
Proof.
  intros [(Hn & Hl & He) (Ha & Hla & Hne)]. unfold Choice.client_round, requested, types, prints, puts.
  apply plays_fgets; [done|lia|]. eapply plays_need; [unfold strlen; by rewrite cstr_over|]. cbv beta. play. no_error.
  eapply plays_need; [by apply cstr_over|]. cbv beta. unfold strcmp_eq. rewrite (proj2 (String.eqb_neq _ _)) by done.
  apply plays_text_in; [done..|]. intros b Hb. rewrite (proj2 (Z.ltb_lt _ _)) by (destruct (x.2); cbn; [done|lia]).
  eapply (plays_last _ (λ _, True)); [|intros _ _; by play]. eapply plays_need; [exact Hb|]. by apply plays_end.
Qed.

Lemma choice_client_loop sockfd l m :
  Forall request_ok l →
  plays loud (returns (eq (inr tt))) (loop (length l + S m) (Choice.client_round sockfd) tt)
    (concat (requested sockfd <$> l) ++ leaves sockfd).
Proof.
  induction 1 as [|x l Hx _ IH]; cbn [length Nat.add loop fmap list_fmap concat app].
  - eapply (plays_last _ (eq (inr tt))); [|intros ? <-; by play]. unfold Choice.client_round, leaves, types.
    apply plays_fgets; [done|apply Nat.ltb_lt; done|]. eapply plays_need; [done|]. cbv beta. play. no_error.
    eapply plays_need; [by apply (cstr_over (zeroed 256) ("exit" +:+ nl))|]. cbv beta.
    change (strcmp_eq ("exit" +:+ nl) ("exit" +:+ nl)) with true. cbv iota. by play.
  - rewrite <- app_assoc. eapply plays_bind; [by apply choice_client_round|]. intros ? <-. exact IH.
Qed.

(** What a service answers to each word it scans. *)
Definition processed (text : string) (word : string) : list label := [Told ScanString (Reply 1 word [] []); prints text].

Lemma word_service_plays text words_ :
  Forall (λ w, (String.length w < 100)%nat) words_ →
  plays loud (returns (eq tt)) (forever (length words_) (Choice.service_round text) tt) (concat (processed text <$> words_)).
Proof.
  intros Hw. eapply plays_rounds; [exact Hw|]. intros w Hl. unfold Choice.service_round, processed, prints, puts. play.
  change (0 <? 1) with true. cbv iota. eapply plays_need; [apply strcpy_Some; cbn [rdata]; unfold zeroed; by rewrite length_replicate|].
  apply plays_watched; [done|done|]. intros r _. by apply plays_return.
Qed.

(** *** [mid/inetd] *)

Definition word_ok (w : string) : Prop := nonul w = true ∧ (String.length w < 30)%nat.
Definition word_answered (w : string) : list label :=
  [Told ScanString (Reply 1 w [] []); prints w; Sent 1 30 "from server1 to client"].

Lemma inetd_words ws :
  Forall word_ok ws →
  plays loud (returns (λ b, length b = 30%nat)) (InetdPrograms.server1 (length ws)) (concat (word_answered <$> ws)).
Proof.
  intros Hw. apply (plays_forever_list loud (λ _ b, length b = 30%nat)); [|done].
  intros d w rest b -> Hb. apply Forall_app in Hw as [_ [[Hn Hl] _]%Forall_cons].
  unfold InetdPrograms.word_round, word_answered, prints, puts. play. change (0 <? 1) with true. cbv iota. cbn [rdata].
  eapply plays_need; [apply strcpy_Some; lia|]. eapply plays_need; [by apply cstr_lit|]. do 2 play. play.
  rewrite length_app, length_lit, length_drop. lia.
Qed.

(** A line of at most 29 bytes, of which [s] is the text. *)
Definition line_answered (answer : string) (x : string * string) : list label :=
  [Told (Fgets 30) (Reply 1 x.1 [] []); prints x.2; Sent 1 30 answer].

Lemma inetd_lines answer (lines : list (string * string)) :
  nonul answer = true → Forall (λ x, reads 30 x.1 x.2) lines →
  plays loud (returns (λ b, length b = 30%nat)) (forever (length lines) (InetdPrograms.line_round answer) (fresh 30))
    (concat (line_answered answer <$> lines)).
Proof.
  intros Ha Hl. apply (plays_forever_list loud (λ _ b, length b = 30%nat)); [|done].
  intros d [data s] rest b -> Hb. apply Forall_app in Hl as [_ [Hr _]%Forall_cons]. cbn [fst snd] in Hr.
  destruct (received_reads _ _ _ b Hr) as (b' & Hs & Hc & Hlen); [lia|].
  unfold InetdPrograms.line_round, line_answered, prints, puts. cbn [fst snd]. play. unfold fgets. inner. play.
  change (1 =? 0) with false. cbv iota. unfold received. cbn [rdata]. play. do 2 play.
  eapply plays_write; [done|rewrite <- (app_nil_r (lit _)); by apply cstr_lit|]. play. lia.
Qed.

Definition asked (nfd : Z) (m : string) : list label :=
  [Sent nfd 30 "from client to server"; Got nfd 30 m; Did (Puts "client:") 0; prints m].

Lemma inetd_client argv1 port nfd answers :
  atoi argv1 = Some port →
  plays loud (returns (eq tt)) (InetdPrograms.client argv1 (length answers))
    (Did (Socket AF_INET SOCK_STREAM 0) nfd :: Did (Connect nfd (any_addr (u16 port))) 0 :: concat (asked nfd <$> answers)).
Proof.
  intros Hp. unfold InetdPrograms.client. do 3 play. eapply (plays_rounds loud (λ _, True)); [by apply Forall_true|].
  intros m _. unfold InetdPrograms.client_round, asked, prints, puts. do 4 play.
  apply plays_watched; [done|done|]. intros r _. by apply plays_return.
Qed.

(** *** [printserver] *)

Lemma unterminated s m : nonul s = true → cstr (cells s ++ replicate m None) = None.
Proof.
  induction s as [|c s IH]; [by destruct m|]. cbn [nonul]. intros [Hc Hs]%andb_true_iff.
  change (cells (String c s) ++ ?l) with (Some c :: cells s ++ l). cbn [cstr].
  rewrite decide_False by (apply negb_true_iff in Hc; by apply Ascii.eqb_neq). by rewrite IH.
Qed.

(** The first bytes that are read are not a string. *)
Lemma first_read who fd k data :
  nonul data = true → (String.length data ≤ 30)%nat →
  plays net (eq UB) (PrintServer.read_round who fd (None, fresh 30))
    [Told (LibCall "scanf" [] ["parent bytes?%d"]) (ints_ [k]); Told (Read fd k) (bytes_ data)].
Proof.
  intros Hn Hl. unfold PrintServer.read_round. play. cbn [rints ints_]. play.
  eapply plays_read_told; [done|apply store_Some; cbn [rdata bytes_]; rewrite cells_length, length_fresh; lia|]. cbn [rdata bytes_].
  apply plays_undef. change (take 0 (fresh 30)) with (@nil cell). cbn [app]. unfold fresh. rewrite drop_replicate. by apply unterminated.
Qed.

(** ** The theorems *)

(** [sockets].  Whatever line is typed at the client, the server prints it
    and answers with its fixed text, which the client prints; both end. *)
Theorem one_message host port rest portno sockfd newsockfd addr fd line :
  atoi port = Some portno → 0 ≤ sockfd → 0 ≤ newsockfd → 0 ≤ fd → nonul line = true → (String.length line < 255)%nat →
  plays loud (returns (λ _, True)) (OneShot.client (host :: port :: rest))
    (resolved portno fd addr host ++
     [Did (Puts "Please enter the message: ") 0; types 255 line;
      Did (Write fd (over (zeroed 256) line) (Z.of_nat (String.length line))) (Z.of_nat (String.length line));
      Told (Read fd 255) (bytes_ reply_text); prints reply_text; Did (Close fd) 0]) ∧
  (∀ data, delivers (over (zeroed 256) line) (Z.of_nat (String.length line)) data →
   plays loud (returns (λ _, True)) (OneShot.server (port :: rest)) (oneshot_server portno sockfd newsockfd data)) ∧
  (∀ data, delivers (lit reply_text) 18 data → data = reply_text).
Proof.
  intros Hp H1 H2 Hf Hn Hl. split_and!.
  - apply oneshot_client_plays; [done..|apply Nat.ltb_lt; done].
  - intros data Hd. rewrite (delivers_exact _ line data (cstr_over _ _ Hn) Hd). apply oneshot_server_plays; [done..|lia].
  - intros data Hd. by apply (delivers_exact (lit reply_text)).
Qed.

(** C29: [programs/sockets].  Every line that is typed, up to "exit", is sent to the
    server, echoed as it is, and printed by the client, over any number of
    lines; then the client exits with 1, and the server, whose [recv] gives 0,
    ends.  A line of 256 characters or more overruns the client's buffer. *)
Theorem echo_until_exit sfd nsfd csfd a (lines : list string) (messages : list (string * string)) m long b1 :
  0 ≤ sfd → 0 ≤ nsfd → 0 ≤ csfd → Forall spoken lines → Forall (λ x, reads 256 x.1 x.2) messages →
  (256 ≤ String.length long)%nat →
  plays loud (eq (Exited 1)) (EchoLoop.client (length lines + S m))
    (client_opening csfd ++ concat (imap (λ i, talks csfd (first_clear i)) lines) ++
     [Told (LibCall "gets" [] []) (Reply 1 "exit" [] [])]) ∧
  (∀ b line data, spoken line → delivers (over b line) 256 data → reads 256 data line) ∧
  plays loud (returns (eq (inr tt))) (EchoLoop.server (length messages + S m))
    (server_opening sfd nsfd a ++ concat (hears nsfd <$> messages) ++
     [Told (Recv nsfd 256) (ret_ 0); prints "Client disconnected"]) ∧
  (∀ data line data', reads 256 data line → delivers (cells data) 256 data' → reads 256 data' line) ∧
  plays loud (eq UB) (EchoLoop.client_round csfd (zeroed 256, b1)) [Told (LibCall "gets" [] []) (Reply 1 long [] [])].
Proof.
  intros H1 H2 H3 Hl Hm Hlong. split_and!.
  - apply client_talks; [done..|]. intros b b' Hb _. cbn [forever]. apply plays_bind_exit. unfold EchoLoop.client_round. play.
    change (1 =? 0) with false. cbv iota. eapply plays_need; [apply strcpy_Some; rewrite Hb; by apply Nat.ltb_lt|].
    eapply plays_need; [by apply (cstr_over b "exit")|]. by apply plays_Halt.
  - intros b line data (Hn & Hlen & _) Hd. eapply delivers_reads; [by apply cstr_over|lia|done].
  - by apply loop_server_plays.
  - intros data line data' (Hlen & Hc & _) Hd. eapply delivers_reads; [exact Hc| |done]. apply cstr_length in Hc.
    rewrite cells_length in Hc. lia.
  - unfold EchoLoop.client_round. play. change (1 =? 0) with false. cbv iota. cbn [rdata]. apply plays_undef.
    unfold strcpy, strcpy_at, store. rewrite length_lit, decide_False; [done|].
    unfold zeroed. rewrite length_replicate. lia.
Qed.

(** C28: [programs/sockets/concurrentserver].  A message is read into the buffer
    of the server, which is never cleared, and the choice is the text the buffer
    then holds.  For every visitor after whose message it is "1" or "2" the
    server starts a process, which executes the program of the choice on the
    connection, over any number of visitors; after the first message that leaves
    another text there the server ends with status 0 for all; it is never
    undefined, whatever bytes are sent.  So a number with its line end chooses
    its service; the first visitor needs the line end, but after a choice a
    number without one is a choice as well, and a visitor that hangs up is
    served like the one before.  The programs answer each word with their text;
    the client sends what is typed and prints the answers, until "exit". *)
Theorem service_choice argv1 portno sfd vs ls b host port rest cport fd addr (l : list (string * string)) (ws : list string) m :
  atoi argv1 = Some portno → 0 ≤ sfd → visits sfd (zeroed 250) vs ls b →
  atoi port = Some cport → 0 ≤ fd → Forall request_ok l → Forall (λ w, (String.length w < 100)%nat) ws →
  let opening := [Did (Socket AF_INET SOCK_STREAM 0) sfd; Did (Bind sfd (any_addr (u16 portno))) 0; Did (Listen sfd 5) 0] in
  plays loud (returns (eq b)) (Choice.server argv1 (length vs)) (opening ++ ls) ∧
  (∀ v k, (String.length (says v) ≤ 100)%nat → chosen (laid (says v) b) = Some k →
     plays loud (returns (eq (zeroed 250))) (Choice.server argv1 (length vs + 1)) (opening ++ ls ++ executes sfd v k)) ∧
  (∀ v n, (String.length (says v) ≤ 100)%nat → chosen (laid (says v) b) = None →
     plays loud (eq (Exited 0)) (Choice.server argv1 (length vs + S n)) (opening ++ ls ++ refuses sfd v)) ∧
  (∀ k b0, chosen b0 = Some k →
     chosen (laid "" b0) = Some k ∧ (∀ k', chosen (laid (digit k') b0) = Some k') ∧ (∀ k', chosen (laid (digit k' +:+ nl) b0) = Some k') ∧
     chosen (laid ("3" +:+ nl) b0) = None) ∧
  (∀ k, chosen (laid (digit k +:+ nl) (zeroed 250)) = Some k ∧ chosen (laid (digit k) (zeroed 250)) = None ∧
     chosen (laid "" (zeroed 250)) = None) ∧
  plays loud (returns (eq tt)) (Choice.lower (length ws)) (concat (processed "service 1 requested and processed" <$> ws)) ∧
  plays loud (returns (eq tt)) (Choice.upper (length ws)) (concat (processed "service 2 processed" <$> ws)) ∧
  plays loud (returns (eq (inr tt))) (Choice.client (host :: port :: rest) (length l + S m))
    (resolved cport fd addr host ++ Did (Puts ("Send service number:" +:+ nl +:+ "1.Lower" +:+ nl +:+ "2.Upper" +:+ nl)) 0 ::
     concat (requested fd <$> l) ++ leaves fd ++ [Did (Close fd) 0]).
Proof.
  intros Hp Hs Hv Hcp Hf Hr Hw opening.
  assert (buffered (zeroed 250)) as Hz by (split_and!; [done| |done]; apply Forall_replicate; by eexists).
  pose proof (visits_buffered _ _ _ _ _ Hv Hz) as Hb.
  assert (∀ n rest' Q, plays loud Q (forever n (Choice.server_round sfd) b) rest' →
            plays loud Q (Choice.server argv1 (length vs + n)) (opening ++ ls ++ rest')) as Hserver.
  { intros n rest' Q H. unfold Choice.server. eapply (plays_bind loud (eq sfd)).
    - unfold Choice.server_start, opening. do 2 play. no_error. play. no_error. play. by play.
    - intros ? <-. by eapply choice_visits. }
  split_and!.
  - rewrite <- (app_nil_r ls), <- (Nat.add_0_r (length vs)). apply Hserver. cbn [forever]. by play.
  - intros v k Hl Hc. apply Hserver. cbn [forever]. eapply (plays_last _ (eq (zeroed 250))); [by apply choice_child|]. intros ? <-. by play.
  - intros v n Hl Hc. apply Hserver. cbn [forever]. apply plays_bind_exit. by apply choice_invalid.
  - intros k b0. apply chosen_stale.
  - intros k. by destruct k.
  - by apply word_service_plays.
  - by apply word_service_plays.
  - unfold Choice.client. eapply plays_bind; [by apply client_start_plays|]. intros ? <-. unfold puts. play.
    rewrite app_assoc. eapply plays_bind; [by apply choice_client_loop|]. intros ? <-. play. by play.
Qed.

(** The programs of [mid/inetd]: over any number of rounds the servers print
    every word, or every line, and answer it with their text; the client prints
    every answer.  A message of the client is four words and a line without
    end, so it is answered more than once by [server1]. *)
Theorem inetd_programs ws (lines : list (string * string)) argv1 port nfd answers :
  Forall word_ok ws → Forall (λ x, reads 30 x.1 x.2) lines → atoi argv1 = Some port →
  plays loud (returns (λ b, length b = 30%nat)) (InetdPrograms.server1 (length ws)) (concat (word_answered <$> ws)) ∧
  plays loud (returns (λ b, length b = 30%nat)) (InetdPrograms.server2 (length lines))
    (prints "server2 got forked" :: concat (line_answered "from server2 to client" <$> lines)) ∧
  plays loud (returns (λ b, length b = 30%nat)) (InetdPrograms.server3 (length lines))
    (prints "server3 got forked" :: concat (line_answered "from server3 to client" <$> lines)) ∧
  plays loud (returns (eq tt)) (InetdPrograms.client argv1 (length answers))
    (Did (Socket AF_INET SOCK_STREAM 0) nfd :: Did (Connect nfd (any_addr (u16 port))) 0 :: concat (asked nfd <$> answers)).
Proof.
  intros Hw Hl Hp. split_and!.
  - by apply inetd_words.
  - unfold InetdPrograms.server2, prints, puts. play. by apply inetd_lines.
  - unfold InetdPrograms.server3, prints, puts. play. by apply inetd_lines.
  - by apply inetd_client.
Qed.

(** [unixsockets/printserver].  [server.c] never sends the descriptor, and its
    child uses one it never received.  In [server1.c] the descriptor of the
    parent's file reaches the child; but the first text either of them reads from the
    file is printed without a terminating NUL, and input of another form
    leaves the number of bytes indeterminate.  [p1.c] answers one client. *)
Theorem print_server sv0 sv1 pid fd sfd nfd n k who data other m :
  0 < pid → 0 ≤ sfd → 0 ≤ nfd → 0 ≤ fd → nonul data = true → (String.length data ≤ 30)%nat → rints other = [] →
  plays net (returns (λ _, True)) (PrintServer.server n)
    [Told (LibCall "socketpair" [] []) (ints_ [sv0; sv1]); Did Fork pid; Did (Close sv1) 0; Did (Open "sample.txt" "O_RDONLY") fd;
     Did (Close fd) 0; Did (LibCall "nanosleep" [1; 500000000] []) 0] ∧
  plays net (eq UB) (PrintServer.server n)
    [Told (LibCall "socketpair" [] []) (ints_ [sv0; sv1]); Did Fork 0; Did (Close sv0) 0;
     Did (LibCall "nanosleep" [0; 500000000] []) 0] ∧
  plays net (returns (eq (None, fresh 30))) (PrintServer.server1 0)
    [Did Fork pid; Did (Open "sample.txt" "O_RDWR") fd; Did (Socket AF_UNIX SOCK_STREAM 0) sfd; Did (Bind sfd (SaUn "echo_socket")) 0;
     Did (Listen sfd 5) 0; Did (Accept sfd) nfd; passes nfd fd] ∧
  plays net (returns (eq (None, fresh 30))) (PrintServer.server1 0)
    [Did Fork 0; Did (Socket AF_UNIX SOCK_STREAM 0) sfd; Did (Connect sfd (SaUn "echo_socket")) 0; installs sfd fd] ∧
  plays net (eq UB) (PrintServer.read_round who fd (None, fresh 30))
    [Told (LibCall "scanf" [] ["parent bytes?%d"]) (ints_ [k]); Told (Read fd k) (bytes_ data)] ∧
  plays net (eq UB) (PrintServer.read_round who fd (None, fresh 30)) [Told (LibCall "scanf" [] ["parent bytes?%d"]) other] ∧
  plays net (returns (λ _, True)) PrintServer.p1
    [Did (Socket AF_UNIX SOCK_STREAM 0) sfd; Did (Bind sfd (SaUn "echo_socket1")) 0; Did (Listen sfd 5) 0; Did (Accept sfd) nfd;
     Got nfd 30 m; Sent nfd 30 "hello from server"].
Proof.
  intros Hp Hs Hn Hf Hd Hl Ho. split_and!.
  - unfold PrintServer.server. do 4 play. rewrite (proj2 (Z.ltb_lt _ _)) by done. do 3 play.
    rewrite (proj2 (Z.ltb_ge _ _)) by done. unfold PrintServer.wyslij. do 3 play. by apply plays_say.
  - unfold PrintServer.server. do 4 play. change (0 <? 0) with false. cbv iota. do 3 play. apply plays_bind_UB. by apply plays_Undef.
  - unfold PrintServer.server1. play. rewrite (proj2 (Z.eqb_neq _ _)) by lia. unfold PrintServer.parent1. repeat step. by apply plays_return.
  - unfold PrintServer.server1. play. change (0 =? 0) with true. cbv iota. unfold PrintServer.child1. repeat step. by apply plays_return.
  - by apply first_read.
  - unfold PrintServer.read_round. play. rewrite Ho. by apply plays_undef.
  - unfold PrintServer.p1. repeat step. apply plays_watched; [done|eexists; by split; [left|]|]. intros r _. by apply plays_return.
Qed.

(** *** Witnesses *)

Lemma one_message_witness :
  plays loud (returns (λ _, True)) (OneShot.client ["localhost"; "8080"])
    (resolved 8080 5 EchoLoop.LOOPBACK "localhost" ++
     [Did (Puts "Please enter the message: ") 0; types 255 ("hello" +:+ nl); Did (Write 5 (over (zeroed 256) ("hello" +:+ nl)) 6) 6;
      Told (Read 5 255) (bytes_ reply_text); prints reply_text; Did (Close 5) 0]) ∧
  plays loud (returns (λ _, True)) (OneShot.server ["8080"]) (oneshot_server 8080 3 4 ("hello" +:+ nl)).
Proof.
  destruct (one_message "localhost" "8080" [] 8080 3 4 EchoLoop.LOOPBACK 5 ("hello" +:+ nl)) as (Hc & Hs & _);
    [done|lia|lia|lia|done|by apply Nat.ltb_lt|]. split; [exact Hc|].
  apply Hs. split; [done|]. intros i c Hi Hlt. change (Z.of_nat (String.length ("hello" +:+ nl))) with 6 in Hlt.
  do 6 (destruct i as [|i]; [by injection Hi as <-|]). lia.
Defined.

(** One line and "exit"; a line that is too long. *)
Lemma echo_until_exit_witness :
  plays loud (eq (Exited 1)) (EchoLoop.client 2)
    (client_opening 5 ++ talks 5 (fresh 256) "hi" ++ [Told (LibCall "gets" [] []) (Reply 1 "exit" [] [])]) ∧
  plays loud (returns (eq (inr tt))) (EchoLoop.server 1)
    (server_opening 3 4 0 ++ [Told (Recv 4 256) (ret_ 0); prints "Client disconnected"]) ∧
  plays loud (eq UB) (EchoLoop.client_round 5 (zeroed 256, zeroed 256))
    [Told (LibCall "gets" [] []) (Reply 1 (string_of_list_ascii (replicate 256 "x"%char)) [] [])].
Proof.
  destruct (echo_until_exit 3 4 5 0 ["hi"] [] 0 (string_of_list_ascii (replicate 256 "x"%char)) (zeroed 256)) as (Hc & _ & Hs & _ & Hu);
    [lia|lia|lia| |by apply List.Forall_nil|by apply Nat.leb_le|split_and!; [exact Hc|exact Hs|exact Hu]].
  apply List.Forall_cons; [|by apply List.Forall_nil]. split_and!; [done|by apply Nat.ltb_lt|done].
Defined.

(** A visitor chooses 2, the next hangs up and is served as well, and a third
    ends the server. *)
Lemma service_choice_witness :
  let b := laid "" (laid ("2" +:+ nl) (zeroed 250)) in
  plays loud (returns (eq b)) (Choice.server "8080" 2)
    ([Did (Socket AF_INET SOCK_STREAM 0) 3; Did (Bind 3 (any_addr 8080)) 0; Did (Listen 3 5) 0] ++
     served_by 3 (Visitor 4 ("2" +:+ nl) 71) true ++ served_by 3 (Visitor 5 "" 72) true ++ []) ∧
  plays loud (eq (Exited 0)) (Choice.server "8080" 3)
    ([Did (Socket AF_INET SOCK_STREAM 0) 3; Did (Bind 3 (any_addr 8080)) 0; Did (Listen 3 5) 0] ++
     (served_by 3 (Visitor 4 ("2" +:+ nl) 71) true ++ served_by 3 (Visitor 5 "" 72) true ++ []) ++ refuses 3 (Visitor 6 "hi" 0)) ∧
  plays loud (returns (eq tt)) (Choice.upper 2) (processed "service 2 processed" "good" ++ processed "service 2 processed" "morning").
Proof.
  destruct (service_choice "8080" 8080 3 [Visitor 4 ("2" +:+ nl) 71; Visitor 5 "" 72]
    (served_by 3 (Visitor 4 ("2" +:+ nl) 71) true ++ served_by 3 (Visitor 5 "" 72) true ++ [])
    (laid "" (laid ("2" +:+ nl) (zeroed 250)))
    "localhost" "8080" [] 8080 5 EchoLoop.LOOPBACK [] ["good"; "morning"] 0) as (Ha & _ & Hc & _ & _ & _ & Hd & _);
    [done|lia| |done|lia|by apply List.Forall_nil| |split_and!; [exact Ha| |exact Hd]].
  - apply (visits_more 3 _ (Visitor 4 ("2" +:+ nl) 71)); [by apply Nat.leb_le|done|done|].
    apply (visits_more 3 _ (Visitor 5 "" 72)); [by apply Nat.leb_le|done|done|]. by apply visits_none.
  - repeat (apply List.Forall_cons; [by apply Nat.ltb_lt|]). by apply List.Forall_nil.
  - apply (Hc (Visitor 6 "hi" 0) 0%nat); [by apply Nat.leb_le|done].
Defined.

Lemma inetd_programs_witness :
  plays loud (returns (λ b, length b = 30%nat)) (InetdPrograms.server1 4)
    (concat (word_answered <$> ["from"; "client"; "to"; "server"])) ∧
  plays loud (returns (eq tt)) (InetdPrograms.client "8001" 1)
    (Did (Socket AF_INET SOCK_STREAM 0) 3 :: Did (Connect 3 (any_addr 8001)) 0 :: asked 3 "from server1 to client").
Proof.
  destruct (inetd_programs ["from"; "client"; "to"; "server"] [] "8001" 8001 3 ["from server1 to client"]) as (Ha & _ & _ & Hb);
    [|by apply List.Forall_nil|done|split; [exact Ha|exact Hb]].
  repeat (apply List.Forall_cons; [split; [done|by apply Nat.ltb_lt]|]). by apply List.Forall_nil.
Defined.

Lemma print_server_witness :
  plays net (eq UB) (PrintServer.server 0)
    [Told (LibCall "socketpair" [] []) (ints_ [3; 4]); Did Fork 0; Did (Close 3) 0;
     Did (LibCall "nanosleep" [0; 500000000] []) 0] ∧
  plays net (eq UB) (PrintServer.read_round "child" 5 (None, fresh 30))
    [Told (LibCall "scanf" [] ["parent bytes?%d"]) (ints_ [5]); Told (Read 5 5) (bytes_ "hello")] ∧
  plays net (eq UB) (PrintServer.read_round "child" 5 (None, fresh 30)) [Told (LibCall "scanf" [] ["parent bytes?%d"]) (ret_ 0)].
Proof.
  destruct (print_server 3 4 71 5 3 4 0 5 "child" "hello" (ret_ 0) "hi") as (_ & Ha & _ & _ & Hb & Hc & _);
    [lia|lia|lia|lia|done|by apply Nat.leb_le|done|split_and!; [exact Ha|exact Hb|exact Hc]].
Defined.
