(* ===== verification/Terminals.v ===== *)
(** * The terminals of the servers in [select_servers]

    The programs a user or a service runs, in two threads: what is typed goes
    to a fifo, what comes from another fifo is printed.  [chatserver/client.c]
    (Module [ChatTerminal]), [logserver/client.c] (Module [LogTerminal]), the
    client and the server of [multiserver] (Module [MultiTerminal]), and
    [serviceserver/server.c] (Module [ServiceServer]). *)

From stdpp Require Import gmap sets.
From S2P Require Import Prelude CString Posix Session FdPass Fifo Transfers ChatServers Exchanges.

#[local] Open Scope Z_scope.

(** A round of [thread_read]; the clients of [multiserver] and [logserver]
    print a prefix. *)
Definition read_round (prefix : option string) (writefd : Z) (b : buf) : prog buf :=
  '(k, buf) ← read writefd b 100;
  if 0 <? k then
    match prefix with Some p => puts p | None => mret tt end;;
    s ← str buf;
    puts (s +:+ nl);;
    mret buf
  else mret buf.

(** Two fifos, one for each direction. *)
Definition make_both (argv1 : string) : prog (Z * Z) :=
  make_fifo argv1;;
  buf ← need (snprintf (fresh 50) 50 (argv1 +:+ "write"));
  name ← str buf;
  make_fifo name;;
  fd ← sysv (Open argv1 "O_RDWR");
  writefd ← sysv (Open name "O_RDWR");
  mret (fd, writefd).

(** ** [chatserver/client.c] *)
Module ChatTerminal.

Definition write_round (fd : Z) (message : buf) : prog buf :=
  puts "User: ";;
  message ← fgets 100 message;
  do_ (Write fd message 100);;
  mret message.

Definition thread_write (fd : Z) (n : nat) : prog buf :=
  puts (nl +:+ "Keep typing message" +:+ nl);; forever n (write_round fd) (fresh 100).
Definition thread_read (writefd : Z) (n : nat) : prog buf := forever n (read_round None writefd) (fresh 100).

Definition main (argv1 : string) : prog (Z * Z) :=
  '(fd, writefd) ← make_both argv1;
  do_ (PthreadCreate "thread_write" EmptyString);;
  do_ (PthreadCreate "thread_read" EmptyString);;
  do_ PthreadJoin;;
  do_ PthreadJoin;;
  do_ (Close fd);;
  do_ (Close writefd);;
  mret (fd, writefd).

End ChatTerminal.

(** ** [logserver/client.c], which does not start its reader *)
Module LogTerminal.

Definition write_round (fd : Z) (message : buf) : prog buf :=
  puts "User: ";;
  message ← fgets 100 message;
  s ← str message;
  puts (s +:+ nl);;
  do_ (Write fd message 100);;
  mret message.

Definition thread_write (fd : Z) (n : nat) : prog buf :=
  puts (nl +:+ "Keep typing message" +:+ nl);; forever n (write_round fd) (fresh 100).
Definition thread_read (writefd : Z) (n : nat) : prog buf := forever n (read_round (Some "Server: ") writefd) (fresh 100).

Definition main (argv1 : string) : prog (Z * Z) :=
  '(fd, writefd) ← make_both argv1;
  do_ (PthreadCreate "thread_write" EmptyString);;
  do_ PthreadJoin;;
  do_ (Close fd);;
  do_ (Close writefd);;
  mret (fd, writefd).

End LogTerminal.

(** ** [multiserver]: a client and the server it is sent to

    The threads never end, so what follows the joins is not reached.  [fd] and
    [writefd] are global: [connect] gives the descriptors the rounds of
    [write_round] and [read_round] use from then on. *)
Module MultiTerminal.

(** Lines 56-76: the number of the fifo is claimed from the shared memory. *)
Definition claim : prog Z :=
  shmid1 ← sysv (Shmget 300 10000 true);
  (if shmid1 =? -1 then do_ (Perror "shmget: shmget failed");; Halt 1 else mret tt);;
  do_ (Shmat shmid1);;
  number ← sysv (ShmLoad 0);
  puts ("Current Log fd number:" +:+ dec number +:+ " " +:+ nl);;
  number ← sysv (ShmLoad 0);
  left ← need (int_add number (-1));
  do_ (ShmStore 0 left);;
  sysv (ShmLoad 0).

Definition start : prog (Z * Z) :=
  logno ← claim;
  buf ← need (snprintf (fresh 100) 100 ("mainfifo" +:+ dec logno));
  name ← str buf;
  buf2 ← need (snprintf (fresh 100) 100 ("mainfifowrite" +:+ dec logno));
  name2 ← str buf2;
  fd ← sysv (Open name "O_RDWR");
  writefd ← sysv (Open name2 "O_RDWR");
  do_ (PthreadCreate "thread_write" EmptyString);;
  do_ (PthreadCreate "thread_read" EmptyString);;
  mret (fd, writefd).

(** [thread_write]: the request, and what is typed once [gotserver] is set. *)
Definition request (fd : Z) : prog buf :=
  puts ("Which server S1 or S2:" +:+ nl);;
  message ← fgets 100 (fresh 100);
  s ← str message;
  puts (s +:+ nl);;
  do_ (Write fd message 100);;
  mret message.

Definition write_round (fd : Z) (message : buf) : prog buf :=
  puts ("Send a message:" +:+ nl);;
  message ← fgets 100 message;
  s ← str message;
  puts (s +:+ nl);;
  do_ (Write fd message 100);;
  mret message.

(** [thread_read] up to its loop: the name of the server's fifo comes, and
    both descriptors are opened anew. *)
Definition connect (writefd : Z) : prog (Z * Z * buf) :=
  buf ← read_round (Some "Server: ") writefd (fresh 100);
  name ← str buf;
  puts ("Fifo name: " +:+ name +:+ " ");;
  fd ← sysv (Open name "O_RDWR");
  buf2 ← need (snprintf (fresh 20) 20 (name +:+ "write"));
  name2 ← str buf2;
  writefd ← sysv (Open name2 "O_RDWR");
  mret (fd, writefd, buf).

(** [server.c]; [thread_read] is the loop of [read_round]. *)
Definition server_start (argv1 : string) : prog (Z * Z) :=
  buf2 ← need (snprintf (fresh 100) 100 (argv1 +:+ "write"));
  fd ← sysv (Open argv1 "O_RDWR");
  name ← str buf2;
  writefd ← sysv (Open name "O_RDWR");
  puts ("Opened the fifos....servers ready" +:+ nl);;
  do_ (PthreadCreate "thread_read" EmptyString);;
  mret (fd, writefd).

Definition server_read (fd : Z) (n : nat) : prog buf := forever n (read_round (Some "User: ") fd) (fresh 100).

End MultiTerminal.

(** ** [serviceserver/server.c] *)
Module ServiceServer.

(** Both descriptors are of the same fifo. *)
Definition start (argv1 : string) : prog (Z * Z) :=
  n ← need (atoi argv1);
  buf2 ← need (snprintf (fresh 100) 100 ("serverfifo" +:+ dec n));
  name ← str buf2;
  puts (name +:+ nl);;
  fd ← sysv (Open name "O_RDWR");
  writefd ← sysv (Open name "O_RDWR");
  puts ("Opened the fifos....servers ready" +:+ nl);;
  do_ (PthreadCreate "thread_read" EmptyString);;
  mret (fd, writefd).

Definition thread_read (fd : Z) (n : nat) : prog buf := forever n (read_round (Some "User: ") fd) (fresh 100).

Definition main (argv1 : string) : prog (Z * Z) :=
  '(fd, writefd) ← start argv1;
  do_ PthreadJoin;;
  do_ (Close fd);;
  do_ (Close writefd);;
  mret (fd, writefd).

End ServiceServer.

(** ** Sessions *)

Definition says (prefix : option string) : list label := match prefix with Some p => [Did (Puts p) 0] | None => [] end.

(** A message of [n] bytes comes in one piece and is printed. *)
Definition shows_message (prefix : option string) (fd : Z) (data s : string) : list label :=
  Told (Read fd 100) (bytes_ data) :: says prefix ++ [prints s].

Lemma read_round_plays prefix fd b n data s :
  reads n data s → 0 < n ≤ 100 → length b = 100%nat →
  plays loud (returns (λ b', length b' = 100%nat ∧ cstr b' = Some s)) (read_round prefix fd b) (shows_message prefix fd data s).
Proof.
  intros Hr Hn Hb. destruct (received_reads _ _ _ b Hr) as (b' & Hs & Hc & Hl); [lia|]. destruct Hr as (Hlen & _).
  unfold read_round, shows_message, prints. eapply plays_read_told; [done|exact Hs|]. cbn [rv bytes_].
  rewrite (proj2 (Z.ltb_lt _ _)) by lia. cbv iota. eapply (plays_bind _ (λ _, True)).
  - destruct prefix as [p|]; [by apply plays_end|by play].
  - intros ? _. unfold puts. do 2 play. play. split; [lia|done].
Qed.

(** A message whose bytes go on past the buffer cannot be printed. *)
Lemma read_round_UB fd b data :
  nonul data = true → String.length data = 100%nat → length b = 100%nat →
  plays loud (eq UB) (read_round None fd b) [Told (Read fd 100) (bytes_ data)].
Proof.
  intros Hn Hl Hb. unfold read_round. eapply plays_read_told; [done|apply store_Some; cbn [rdata bytes_]; rewrite cells_length; lia|].
  cbn [rv rdata bytes_]. rewrite Hl. change (0 <? Z.of_nat 100) with true. cbv iota. play. apply plays_undef.
  change (take 0 b) with (@nil cell). rewrite cells_length, drop_ge by lia. cbn [app]. by apply (unterminated data 0).
Qed.

Lemma server_prints prefix fd (l : list (Z * (string * string))) :
  Forall (λ x, reads x.1 x.2.1 x.2.2 ∧ 0 < x.1 ≤ 100) l →
  plays loud (returns (λ b, length b = 100%nat)) (forever (length l) (read_round prefix fd) (fresh 100))
    (concat ((λ x, shows_message prefix fd x.2.1 x.2.2) <$> l)).
Proof.
  intros Hl. apply (plays_forever_list loud (λ _ b, length b = 100%nat)); [|done].
  intros d [n [data s]] rest b -> Hb. apply Forall_app in Hl as [_ [[Hr Hn] _]%Forall_cons].
  eapply plays_weaken; [by eapply read_round_plays|by intros b' [? _]].
Qed.

(** A line that is typed, with its line end, into a buffer of 100 bytes. *)
Definition line_ok (line : string) : Prop := nonul line = true ∧ (String.length line < 100)%nat.

Lemma plays_typed {B} b line (f : buf → prog B) ls Q :
  line_ok line → length b = 100%nat →
  (length (over b line) = 100%nat → cstr (over b line) = Some line → plays loud Q (f (over b line)) ls) →
  plays loud Q (fgets 100 b ≫= f) (types 100 line :: ls).
Proof.
  intros [Hn Hl] Hb Hf. unfold fgets, types. inner. play. unfold received. cbn [rdata bytes_]. rewrite store_text by lia.
  apply Hf; [rewrite length_over; lia|by apply cstr_over].
Qed.

(** *** The chat *)

Definition writes_line (fd : Z) (line : string) : list label := [Did (Puts "User: ") 0; types 100 line; Sent fd 100 line].

Lemma chat_write_plays fd lines :
  Forall line_ok lines →
  plays loud (returns (λ b, length b = 100%nat)) (ChatTerminal.thread_write fd (length lines))
    (prints (nl +:+ "Keep typing message") :: concat (writes_line fd <$> lines)).
Proof.
  intros Hl. unfold ChatTerminal.thread_write, prints, puts. play.
  apply (plays_forever_list loud (λ _ b, length b = 100%nat)); [|done].
  intros d line rest b -> Hb. apply Forall_app in Hl as [_ [Hline _]%Forall_cons].
  unfold ChatTerminal.write_round, writes_line, puts. play. apply plays_typed; [done|done|]. intros Hlen Hc. play. by play.
Qed.

Definition both_session (argv1 : string) (fd writefd : Z) : list label :=
  [Did (Mkfifo argv1 511) 0; Did (Mkfifo (argv1 +:+ "write") 511) 0; Did (Open argv1 "O_RDWR") fd;
   Did (Open (argv1 +:+ "write") "O_RDWR") writefd].

Lemma make_both_plays argv1 fd writefd :
  nonul argv1 = true → (String.length argv1 ≤ 44)%nat →
  plays loud (returns (eq (fd, writefd))) (make_both argv1) (both_session argv1 fd writefd).
Proof.
  intros Hn Hl. unfold make_both, both_session, make_fifo. inner. play. apply plays_exit_if.
  destruct (snprintf_fits (fresh 50) 50 (argv1 +:+ "write")) as (b & E & Hc & _).
  { by rewrite nonul_app, Hn. } { rewrite string_length_app. cbn. lia. } { by rewrite length_fresh. }
  eapply plays_need; [exact E|]. play. inner. play. apply plays_exit_if. do 2 play. by play.
Qed.

Lemma chat_terminal_starts argv1 fd writefd :
  nonul argv1 = true → (String.length argv1 ≤ 44)%nat →
  plays loud (returns (eq (fd, writefd))) (ChatTerminal.main argv1)
    (both_session argv1 fd writefd ++
     [Did (PthreadCreate "thread_write" EmptyString) 0; Did (PthreadCreate "thread_read" EmptyString) 0;
      Did PthreadJoin 0; Did PthreadJoin 0; Did (Close fd) 0; Did (Close writefd) 0]).
Proof.
  intros Hn Hl. unfold ChatTerminal.main. eapply plays_bind; [by apply make_both_plays|]. intros ? <-. do 6 play. by play.
Qed.

(** The first bytes of an object are delivered first. *)
Lemma delivers_first b n d1 d2 : delivers b n (d1 +:+ d2) → delivers b (Z.of_nat (String.length d1)) d1.
Proof.
  intros [Hl Hd]. split; [done|]. intros i c Hi Hlt. rewrite string_length_app in Hl. specialize (Hd i c Hi ltac:(lia)).
  rewrite chars_app, lookup_app_l in Hd; [done|]. rewrite length_chars. lia.
Qed.

Lemma delivers_start b t1 t2 d :
  cstr b = Some (t1 +:+ t2) → delivers b (Z.of_nat (String.length t1)) d → d = t1.
Proof.
  intros (_ & rest & ->)%cstr_inv [Hl Hd]. apply Nat2Z.inj in Hl.
  rewrite <- (string_of_list_ascii_of_string d), <- (string_of_list_ascii_of_string t1). f_equal.
  apply list_eq_same_length with (String.length t1); [by rewrite length_chars|by rewrite length_chars|].
  intros i x y Hi Hx Hy. rewrite (Hd i y) in Hx; [by injection Hx| |lia].
  rewrite lit_app, <- app_assoc, lookup_app_l, list_lookup_fmap, Hy by (rewrite length_fmap, length_chars; lia). done.
Qed.

Lemma string_split n t : (n ≤ String.length t)%nat → ∃ t1 t2, t = t1 +:+ t2 ∧ String.length t1 = n.
Proof.
  revert t. induction n as [|n IH]; intros t Hn; [by exists EmptyString, t|]. destruct t as [|c t]; cbn in Hn; [lia|].
  destruct (IH t) as (t1 & t2 & -> & <-); [lia|]. by exists (String c t1), t2.
Qed.

(** *** [multiserver] *)

Definition claims (shmid number logno fd writefd : Z) : list label :=
  [Did (Shmget 300 10000 true) shmid; Did (Shmat shmid) 0; Did (ShmLoad 0) number;
   Did (Puts ("Current Log fd number:" +:+ dec number +:+ " " +:+ nl)) 0; Did (ShmLoad 0) number; Did (ShmStore 0 (number - 1)) 0;
   Did (ShmLoad 0) logno; Did (Open ("mainfifo" +:+ dec logno) "O_RDWR") fd; Did (Open ("mainfifowrite" +:+ dec logno) "O_RDWR") writefd;
   Did (PthreadCreate "thread_write" EmptyString) 0; Did (PthreadCreate "thread_read" EmptyString) 0].

Lemma named_fifo p n (size : nat) :
  nonul p = true → (String.length p + 11 < size)%nat →
  ∃ b, snprintf (fresh size) size (p +:+ dec n) = Some b ∧ cstr b = Some (p +:+ dec n).
Proof.
  intros Hp Hl. destruct (snprintf_fits (fresh size) size (p +:+ dec n)) as (b & E & Hc & _).
  - by rewrite nonul_app, Hp, dec_nonul.
  - rewrite string_length_app. pose proof (dec_length n). lia.
  - by rewrite length_fresh.
  - by exists b.
Qed.

Lemma terminal_starts shmid number logno fd writefd :
  shmid ≠ -1 → fits_int (number - 1) = true →
  plays loud (returns (eq (fd, writefd))) MultiTerminal.start (claims shmid number logno fd writefd).
Proof.
  intros Hs Hn. unfold MultiTerminal.start, claims, prints.
  eapply (plays_bind loud (eq logno) _ _ [_; _; _; _; _; _; _]).
  - unfold MultiTerminal.claim, puts. play. rewrite (proj2 (Z.eqb_neq _ _)) by done. do 5 play.
    eapply plays_need; [by apply int_of_Some|]. cbv beta. play. apply plays_watched; [done|done|]. intros r Hr.
    cbn in Hr. rewrite Hr. by apply plays_return.
  - intros ? <-. destruct (named_fifo "mainfifo" logno 100) as (b1 & E1 & Hc1); [done|cbn; lia|].
    destruct (named_fifo "mainfifowrite" logno 100) as (b2 & E2 & Hc2); [done|cbn; lia|]. do 8 play. by play.
Qed.

Definition asks_line (fd : Z) (prompt line : string) : list label := [prints prompt; types 100 line; prints line; Sent fd 100 line].

Lemma multi_request fd line :
  line_ok line → plays loud (returns (λ b, length b = 100%nat)) (MultiTerminal.request fd) (asks_line fd "Which server S1 or S2:" line).
Proof.
  intros Hl. unfold MultiTerminal.request, asks_line, prints, puts. play. apply plays_typed; [done|done|]. intros Hlen Hc. do 3 play. by play.
Qed.

Lemma multi_lines fd b lines :
  Forall line_ok lines → length b = 100%nat →
  plays loud (returns (λ b, length b = 100%nat)) (forever (length lines) (MultiTerminal.write_round fd) b)
    (concat (asks_line fd "Send a message:" <$> lines)).
Proof.
  intros Hl Hb. apply (plays_forever_list loud (λ _ b, length b = 100%nat)); [|done].
  intros d line rest b' -> Hb'. apply Forall_app in Hl as [_ [Hline _]%Forall_cons].
  unfold MultiTerminal.write_round, asks_line, prints, puts. play. apply plays_typed; [done|done|]. intros Hlen Hc. do 3 play. by play.
Qed.

(** The name of a server comes, and its fifos are opened. *)
Definition is_sent_to (writefd fd2 writefd2 : Z) (data name : string) : list label :=
  shows_message (Some "Server: ") writefd data name ++
  [Did (Puts ("Fifo name: " +:+ name +:+ " ")) 0; Did (Open name "O_RDWR") fd2; Did (Open (name +:+ "write") "O_RDWR") writefd2].

Lemma multi_connects writefd fd2 writefd2 n data name :
  reads n data name → 0 < n ≤ 100 → (String.length name < 15)%nat →
  plays loud (returns (λ x, x.1 = (fd2, writefd2))) (MultiTerminal.connect writefd) (is_sent_to writefd fd2 writefd2 data name).
Proof.
  intros Hr Hn Hl. unfold MultiTerminal.connect, is_sent_to, puts.
  eapply plays_bind; [eapply read_round_plays; [exact Hr|done|apply length_fresh]|]. intros b [_ Hc]. do 3 play.
  destruct Hr as (_ & _ & Hname).
  destruct (snprintf_fits (fresh 20) 20 (name +:+ "write")) as (b2 & E & Hc2 & _).
  { by rewrite nonul_app, Hname. } { rewrite string_length_app. cbn. lia. } { by rewrite length_fresh. }
  do 3 play. by play.
Qed.

Lemma multi_server_starts argv1 fd writefd :
  nonul argv1 = true → (String.length argv1 < 95)%nat →
  plays loud (returns (eq (fd, writefd))) (MultiTerminal.server_start argv1)
    [Did (Open argv1 "O_RDWR") fd; Did (Open (argv1 +:+ "write") "O_RDWR") writefd; prints "Opened the fifos....servers ready";
     Did (PthreadCreate "thread_read" EmptyString) 0].
Proof.
  intros Hn Hl. unfold MultiTerminal.server_start, prints, puts.
  destruct (snprintf_fits (fresh 100) 100 (argv1 +:+ "write")) as (b & E & Hc & _).
  { by rewrite nonul_app, Hn. } { rewrite string_length_app. cbn. lia. } { by rewrite length_fresh. }
  eapply plays_need; [exact E|]. do 5 play. by play.
Qed.

(** *** [serviceserver/server.c] *)

Lemma service_server_plays argv1 k fd writefd :
  atoi argv1 = Some k →
  plays loud (returns (eq (fd, writefd))) (ServiceServer.main argv1)
    [prints ("serverfifo" +:+ dec k); Did (Open ("serverfifo" +:+ dec k) "O_RDWR") fd;
     Did (Open ("serverfifo" +:+ dec k) "O_RDWR") writefd; prints "Opened the fifos....servers ready";
     Did (PthreadCreate "thread_read" EmptyString) 0; Did PthreadJoin 0; Did (Close fd) 0; Did (Close writefd) 0].
Proof.
  intros Hk. unfold ServiceServer.main. eapply (plays_bind loud (eq (fd, writefd)) _ _ [_; _; _; _; _]).
  - unfold ServiceServer.start, prints, puts. play. destruct (named_fifo "serverfifo" k 100) as (b & E & Hc); [done|cbn; lia|].
    do 7 play. by play.
  - intros ? <-. do 3 play. by play.
Qed.

(** ** The theorems *)

(** C27: [select_servers/chatserver/client.c], and [logserver/client.c] in its start.
    The terminal makes its two fifos and opens them; every line that is typed
    is written as 100 bytes, in which the server reads that line.  The server's
    messages are 200 bytes long and are read 100 bytes at a time: a text of
    less than 100 bytes is printed as it is, a longer one is not terminated in
    what is read first, and printing it is undefined. *)
Theorem chat_terminals argv1 fd writefd lines message t b d1 d2 :
  nonul argv1 = true → (String.length argv1 ≤ 44)%nat → Forall line_ok lines →
  cstr message = Some t → delivers message 200 (d1 +:+ d2) → String.length d1 = 100%nat → length b = 100%nat →
  plays loud (returns (eq (fd, writefd))) (ChatTerminal.main argv1)
    (both_session argv1 fd writefd ++
     [Did (PthreadCreate "thread_write" EmptyString) 0; Did (PthreadCreate "thread_read" EmptyString) 0;
      Did PthreadJoin 0; Did PthreadJoin 0; Did (Close fd) 0; Did (Close writefd) 0]) ∧
  plays loud (returns (eq (fd, writefd))) (LogTerminal.main argv1)
    (both_session argv1 fd writefd ++
     [Did (PthreadCreate "thread_write" EmptyString) 0; Did PthreadJoin 0; Did (Close fd) 0; Did (Close writefd) 0]) ∧
  plays loud (returns (λ b, length b = 100%nat)) (ChatTerminal.thread_write fd (length lines))
    (prints (nl +:+ "Keep typing message") :: concat (writes_line fd <$> lines)) ∧
  (∀ line sent data, line_ok line → cstr sent = Some line → delivers sent 100 data → reads 100 data line) ∧
  ((String.length t < 100)%nat →
   plays loud (returns (λ b', length b' = 100%nat ∧ cstr b' = Some t)) (read_round None writefd b) (shows_message None writefd d1 t)) ∧
  ((100 ≤ String.length t)%nat →
   plays loud (eq UB) (read_round None writefd b) [Told (Read writefd 100) (bytes_ d1)]).
Proof.
  intros Hn Hl Hlines Ht Hd Hd1 Hb. pose proof (delivers_first _ _ _ _ Hd) as Hf. rewrite Hd1 in Hf. split_and!.
  - by apply chat_terminal_starts.
  - unfold LogTerminal.main. eapply plays_bind; [by apply make_both_plays|]. intros ? <-. do 4 play. by play.
  - by apply chat_write_plays.
  - intros line sent data [_ Hlen] Hs Hdel. eapply delivers_reads; [exact Hs|lia|done].
  - intros Hlen. eapply read_round_plays; [|by instantiate (1 := 100)|done]. eapply delivers_reads; [exact Ht|lia|exact Hf].
  - intros Hlen. apply cstr_inv in Ht as Hi. destruct Hi as [Hnul _]. apply read_round_UB; [|done..].
    destruct (string_split 100 t Hlen) as (t1 & t2 & -> & Ht1). rewrite nonul_app in Hnul. apply andb_true_iff in Hnul as [Hnul _].
    rewrite <- Ht1 in Hf. by rewrite (delivers_start _ _ _ _ Ht Hf).
Qed.

(** [select_servers/multiserver], [serviceserver/server.c].  The client takes the
    number of its fifos from the shared memory and asks for a server; it opens
    the fifos whose name it is sent, and writes there the lines that are typed;
    the server prints each of them, over any number of lines. *)
Theorem multi_terminals shmid number logno fd writefd fd2 writefd2 n data name ask lines argv1 sfd swritefd
    (heard : list (Z * (string * string))) k :
  shmid ≠ -1 → fits_int (number - 1) = true → line_ok ask → Forall line_ok lines → reads n data name → 0 < n ≤ 100 →
  (String.length name < 15)%nat → nonul argv1 = true → (String.length argv1 < 95)%nat → atoi argv1 = Some k →
  Forall (λ x, reads x.1 x.2.1 x.2.2 ∧ 0 < x.1 ≤ 100) heard →
  plays loud (returns (eq (fd, writefd))) MultiTerminal.start (claims shmid number logno fd writefd) ∧
  plays loud (returns (λ b, length b = 100%nat)) (MultiTerminal.request fd) (asks_line fd "Which server S1 or S2:" ask) ∧
  plays loud (returns (λ x, x.1 = (fd2, writefd2))) (MultiTerminal.connect writefd) (is_sent_to writefd fd2 writefd2 data name) ∧
  plays loud (returns (λ b, length b = 100%nat)) (forever (length lines) (MultiTerminal.write_round fd2) (fresh 100))
    (concat (asks_line fd2 "Send a message:" <$> lines)) ∧
  plays loud (returns (eq (sfd, swritefd))) (MultiTerminal.server_start argv1)
    [Did (Open argv1 "O_RDWR") sfd; Did (Open (argv1 +:+ "write") "O_RDWR") swritefd; prints "Opened the fifos....servers ready";
     Did (PthreadCreate "thread_read" EmptyString) 0] ∧
  plays loud (returns (λ b, length b = 100%nat)) (MultiTerminal.server_read sfd (length heard))
    (concat ((λ x, shows_message (Some "User: ") sfd x.2.1 x.2.2) <$> heard)) ∧
  plays loud (returns (eq (sfd, swritefd))) (ServiceServer.main argv1)
    [prints ("serverfifo" +:+ dec k); Did (Open ("serverfifo" +:+ dec k) "O_RDWR") sfd;
     Did (Open ("serverfifo" +:+ dec k) "O_RDWR") swritefd; prints "Opened the fifos....servers ready";
     Did (PthreadCreate "thread_read" EmptyString) 0; Did PthreadJoin 0; Did (Close sfd) 0; Did (Close swritefd) 0] ∧
  plays loud (returns (λ b, length b = 100%nat)) (ServiceServer.thread_read sfd (length heard))
    (concat ((λ x, shows_message (Some "User: ") sfd x.2.1 x.2.2) <$> heard)).
Proof.
  intros H1 H2 Ha Hl Hr Hn Hname Hv Hv' Hk Hh. split_and!.
  - by apply terminal_starts.
  - by apply multi_request.
  - by eapply multi_connects.
  - apply multi_lines; [done|apply length_fresh].
  - by apply multi_server_starts.
  - by apply server_prints.
  - by apply service_server_plays.
  - by apply server_prints.
Qed.

(** *** Witnesses *)

Lemma delivers_cells s n : n = Z.of_nat (String.length s) → delivers (cells s) n s.
Proof.
  intros ->. split; [done|]. intros i c Hi Hlt. unfold cells in Hi. rewrite list_lookup_fmap in Hi.
  destruct (list_ascii_of_string s !! i); [by injection Hi as ->|done].
Qed.

Definition filler (n : nat) (c : ascii) : string := string_of_list_ascii (replicate n c).

(** A short text, and one that fills the buffer. *)
Lemma chat_terminals_witness :
  plays loud (returns (λ b, length b = 100%nat)) (ChatTerminal.thread_write 3 2)
    (prints (nl +:+ "Keep typing message") :: writes_line 3 ("hello" +:+ nl) ++ writes_line 3 ("all" +:+ nl)) ∧
  plays loud (returns (λ b', length b' = 100%nat ∧ cstr b' = Some "User 1: hello")) (read_round None 4 (fresh 100))
    (shows_message None 4 ("User 1: hello" +:+ filler 87 NUL) "User 1: hello") ∧
  plays loud (eq UB) (read_round None 4 (fresh 100)) [Told (Read 4 100) (bytes_ (filler 100 "x"))].
Proof.
  assert (Forall line_ok ["hello" +:+ nl; "all" +:+ nl]) as Hl.
  { repeat (apply List.Forall_cons; [split; [done|by apply Nat.ltb_lt]|]). by apply List.Forall_nil. }
  destruct (chat_terminals "c1" 3 4 ["hello" +:+ nl; "all" +:+ nl] (cells (("User 1: hello" +:+ filler 87 NUL) +:+ filler 100 NUL))
    "User 1: hello" (fresh 100) ("User 1: hello" +:+ filler 87 NUL) (filler 100 NUL)) as (_ & _ & Hw & _ & Hs & _);
    [done|by apply Nat.leb_le|exact Hl|done|by apply delivers_cells|done|done|].
  destruct (chat_terminals "c1" 3 4 [] (cells (filler 100 "x" +:+ filler 100 NUL)) (filler 100 "x") (fresh 100)
    (filler 100 "x") (filler 100 NUL)) as (_ & _ & _ & _ & _ & Hu);
    [done|by apply Nat.leb_le|by apply List.Forall_nil|done|by apply delivers_cells|done|done|].
  split_and!; [exact Hw|apply Hs; by apply Nat.ltb_lt|apply Hu; by apply Nat.leb_le].
Defined.

Lemma multi_terminals_witness :
  plays loud (returns (eq (5, 6))) MultiTerminal.start (claims 9 4 3 5 6) ∧
  plays loud (returns (λ x, x.1 = (7, 8))) (MultiTerminal.connect 6) (is_sent_to 6 7 8 (String "s" (String "1" (String NUL ""))) "s1") ∧
  plays loud (returns (λ b, length b = 100%nat)) (forever 1 (MultiTerminal.write_round 7) (fresh 100))
    (asks_line 7 "Send a message:" ("good" +:+ nl)) ∧
  plays loud (returns (λ b, length b = 100%nat)) (ServiceServer.thread_read 3 1)
    (shows_message (Some "User: ") 3 (String "h" (String "i" (String NUL ""))) "hi").
Proof.
  destruct (multi_terminals 9 4 3 5 6 7 8 3 (String "s" (String "1" (String NUL ""))) "s1" ("S1" +:+ nl) ["good" +:+ nl]
    "12" 3 4 [(3, (String "h" (String "i" (String NUL "")), "hi"))] 12) as (H1 & _ & H2 & H3 & _ & _ & _ & H4);
    [done|done|split; [done|by apply Nat.ltb_lt]| |done|done|by apply Nat.ltb_lt|done|by apply Nat.ltb_lt|done| |
     split_and!; [exact H1|exact H2|exact H3|exact H4]].
  - apply List.Forall_cons; [split; [done|by apply Nat.ltb_lt]|by apply List.Forall_nil].
  - apply List.Forall_cons; [done|by apply List.Forall_nil].
Defined.
