(* ===== verification/RawMessages.v ===== *)
(** * Messages on raw sockets

    The smaller programs of [rawsockets]: [raw1] (Module [Raw1]: a fixed text,
    and a receiver that reports a header), [raw2] (Module [Raw2]: a text behind
    an IP header made by hand), [train] (Module [TrainRaw]), and
    [basic/print_header.c], [basic/socket_bind.c] (Module [HeaderPrinter]). *)

From S2P Require Import Prelude CString Posix Session FdPass Echo Fifo Packet Studio Exchanges.

#[local] Open Scope Z_scope.

Import EchoLoop(print_error).

(** A byte of a packet; [None] when it is indeterminate or outside. *)
Definition byte_at (m : buf) (i : Z) : option Z := c ← aget m i; c ← c; Some (char_val c).
Definition net16_at (m : buf) (i : Z) : option Z := hi ← byte_at m i; lo ← byte_at m (i + 1); Some (hi * 256 + lo).
Definition host16_at (m : buf) (i : Z) : option Z := lo ← byte_at m i; hi ← byte_at m (i + 1); Some (hi * 256 + lo).
Definition addr_at (m : buf) (i : Z) : option string :=
  a ← byte_at m i; b ← byte_at m (i + 1); c ← byte_at m (i + 2); d ← byte_at m (i + 3); Some (Sniffer.inet_ntoa [a; b; c; d]).

(** [malloc]; the programs do not test the result. *)
Definition malloc (n : nat) : prog buf :=
  p ← sysv (LibCall "malloc" [Z.of_nat n] []);
  if p =? 0 then Undef else mret (fresh n).

(** ** [rawsockets/raw1] *)
Module Raw1.

Definition start : prog Z :=
  rsfd ← sysv (Socket AF_INET SOCK_RAW 100);
  print_error rsfd "Failed to create raw socket";;
  b ← sysv (Bind rsfd (any_addr 8000));
  print_error b "Failed to bind.";;
  mret rsfd.

(** [sizeof(msg)] is the size of a pointer, 8. *)
Definition send_round (rsfd : Z) (_ : unit) : prog unit :=
  puts ("Enter" +:+ nl);;
  scan_int;;
  msg ← malloc 100;
  msg ← need (strcpy msg "Hello");
  s ← sysv (Sendto rsfd msg 8 (any_addr 8000));
  print_error s "Failed to send message".

Definition server (n : nat) : prog unit := rsfd ← start; forever n (send_round rsfd) tt.

(** [client.c]: the loop that drops the IP header, in place. *)
Definition shift (msg : buf) : option buf :=
  for_up (M := option) 0 80 (λ i msg, c ← aget msg (20 + i); aset msg i c) msg.

Definition print_ip_header (msg : buf) : prog unit :=
  b0 ← need (byte_at msg 0);
  source ← need (addr_at msg 12);
  dest ← need (addr_at msg 16);
  puts nl;;
  puts ("IP Header" +:+ nl);;
  puts ("   |-IP Version        : " +:+ dec (b0 / 16) +:+ nl);;
  puts ("   |-IP Header Length  : " +:+ dec (b0 mod 16) +:+ " DWORDS or " +:+ dec (b0 mod 16 * 4) +:+ " Bytes" +:+ nl);;
  tos ← need (byte_at msg 1);
  puts ("   |-Type Of Service   : " +:+ dec tos +:+ nl);;
  len ← need (net16_at msg 2);
  puts ("   |-IP Total Length   : " +:+ dec len +:+ "  Bytes(Size of Packet)" +:+ nl);;
  id ← need (net16_at msg 4);
  puts ("   |-Identification    : " +:+ dec id +:+ nl);;
  frag_off ← need (host16_at msg 6);
  puts ("   |-Fragment Offset  : " +:+ dec frag_off +:+ nl);;
  ttl ← need (byte_at msg 8);
  puts ("   |-TTL      : " +:+ dec ttl +:+ nl);;
  protocol ← need (byte_at msg 9);
  puts ("   |-Protocol : " +:+ dec protocol +:+ nl);;
  check ← need (net16_at msg 10);
  puts ("   |-Checksum : " +:+ dec check +:+ nl);;
  puts "   |-Source IP        :";;
  puts (source +:+ nl);;
  puts "   |-Destination IP   :";;
  puts (dest +:+ nl).

Definition receive_round (rsfd : Z) (_ : unit) : prog unit :=
  puts ("Waiting to receive message" +:+ nl);;
  '(s, msg) ← recvfrom rsfd (fresh 100) 100;
  print_error s "Failed to receive";;
  msg ← need (shift msg);
  text ← str msg;
  puts (text +:+ nl);;
  print_ip_header msg.

Definition client (n : nat) : prog unit :=
  rsfd ← sysv (Socket AF_INET SOCK_RAW 100);
  print_error rsfd "Failed to create raw socket";;
  forever n (receive_round rsfd) tt.

End Raw1.

(** ** [rawsockets/raw2], which builds the same packet as [Studio.Producer] *)
Module Raw2.

(** [error_func] of [raw2/client.c] ends the program with status 0. *)
Definition error_exit0 (val : Z) (message : string) : prog unit :=
  if val <? 0 then do_ (Perror message);; Halt 0 else mret tt.

Definition client : prog unit :=
  rsfd ← sysv (Socket AF_INET SOCK_RAW 101);
  error_exit0 rsfd "socket";;
  do_ (Setsockopt rsfd "IP_HDRINCL");;
  puts "Enter Message:";;
  r ← sys ScanString;
  buf ← (if 0 <? rv r then need (strcpy (zeroed 128) (rdata r)) else mret (zeroed 128));
  s ← str buf;
  n ← sysv (Sendto rsfd (to_cells (Producer.raw_message s)) 1024 (SaIn 0 INADDR_ANY));
  if n <? 0 then do_ (Perror "sendto() ") else mret tt.

Definition server_round (rsfd : Z) (st : buf * buf) : prog (buf * buf) :=
  let '(buffer, buf_) := st in
  '(_, buffer) ← recvfrom rsfd buffer 1024;
  b0 ← need (byte_at buffer 0);
  let iphdrlen := b0 mod 16 * 4 in
  s ← need (cstr (drop (Z.to_nat iphdrlen) buffer));
  buf_ ← need (strcpy buf_ s);
  puts (String "009" ("Message" +:+ nl +:+ " " +:+ s +:+ nl));;
  mret (buffer, buf_).

Definition server (n : nat) : prog (buf * buf) :=
  rsfd ← sysv (Socket AF_INET SOCK_RAW 101);
  do_ (Setsockopt rsfd "IP_HDRINCL");;
  forever n (server_round rsfd) (fresh 1024, fresh 1024).

End Raw2.

(** ** [rawsockets/train] *)
Module TrainRaw.

(** One of the three rounds; [to_send] keeps its value when no number is
    typed. *)
Definition send_round (x : Z * Z) : prog ((Z * Z) + unit) :=
  let '(i, to_send) := x in
  puts ("Enter 1 to send. 0 to stop" +:+ nl);;
  k ← scan_int;
  let to_send := default to_send k in
  if to_send =? 0 then mret (inr tt) else
  rsfd ← sysv (Socket AF_INET SOCK_RAW (100 + i));
  print_error rsfd "Failed to create raw socket";;
  b ← sysv (Bind rsfd (any_addr (8000 + i)));
  print_error b "Failed to bind.";;
  msg ← malloc 100;
  msg ← need (strcpy msg "Hello world.");
  s ← sysv (Sendto rsfd msg 8 (any_addr (8000 + i)));
  print_error s "Failed to send message";;
  mret (inl (i + 1, to_send)).

Definition server : prog unit := loop 3 send_round (0, 0);; mret tt.

(** Eight bytes of [msg] are cleared. *)
Definition receive_round (rsfd : Z) (msg : buf) : prog buf :=
  puts ("Waiting to receive message" +:+ nl);;
  '(s, msg) ← recvfrom rsfd msg 100;
  print_error s "Failed to receive";;
  text ← str msg;
  puts (text +:+ nl);;
  need (store msg 0 (zeroed 8)).

Definition client (n : nat) : prog buf :=
  rsfd ← sysv (Socket AF_INET SOCK_RAW 100);
  print_error rsfd "Failed to create raw socket";;
  msg ← malloc 100;
  forever n (receive_round rsfd) msg.

End TrainRaw.

(** ** [rawsockets/basic]: words behind a header, and a receiver of its own *)
Module HeaderPrinter.

(** The packet before a word is typed: 50 letters, and the header without its
    identification. *)
Definition packet : list Z :=
  let p := replicate 50 65 in
  let p := poke 0 [69; 0] p in
  let p := poke 2 (le16 (htons 40)) p in
  let p := poke 6 (le16 0) p in
  let p := poke 8 [64; 255] p in
  let p := poke 10 (le16 0) p in
  let p := poke 12 (le32 INADDR_ANY) p in
  poke 16 (le32 INADDR_ANY) p.

Definition send_round (s : Z) (packet : buf) : prog buf :=
  do_ (Sleep 1);;
  r ← sys ScanString;
  packet ← (if 0 <? rv r then need (strcpy_at packet 20 (rdata r)) else mret packet);
  k ← sysv (Sendto s packet 50 (SaIn 0 INADDR_ANY));
  OneShot.error 1 (k <? 0) "packet send error:";;
  mret packet.

(** A character to the standard error. *)
Definition show (c : ascii) : call := LibCall "fprintf" [] ["stderr"; String c EmptyString].

Definition receive_round (s : Z) (packet : buf) : prog buf :=
  do_ (Sleep 1);;
  '(k, packet) ← recvfrom s packet 50;
  OneShot.error 1 (k <? 0) "packet send error:";;
  for_up 20 50 (λ i _, c ← need (c ← aget packet i; c); do_ (show c)) tt;;
  puts nl;;
  mret packet.

(** [s0] is what [s] holds before [socket]; [print_header.c] connects,
    [socket_bind.c] does not. *)
Definition main (connects : bool) (s0 : option Z) (n : nat) : prog buf :=
  s0 ← need s0;
  do_ (Setsockopt s0 "IP_HDRINCL");;
  s ← sysv (Socket AF_INET SOCK_RAW 255);
  OneShot.error 1 (s <? 0) "error:";;
  b ← sysv (Bind s (SaIn 0 INADDR_ANY));
  OneShot.error 1 (b <? 0) "ERROR on binding";;
  (if connects then
     c ← sysv (Connect s (SaIn 0 INADDR_ANY)); OneShot.error 1 (c <? 0) "ERROR on Connect"
   else mret tt);;
  c ← sysv Fork;
  forever n (if 0 <? c then send_round s else receive_round s) (to_cells packet).

End HeaderPrinter.

(** ** Bytes *)

Abbreviation chars := list_ascii_of_string.
Definition bytes (s : string) : list Z := char_val <$> chars s.

#[export] Instance char_val_inj : Inj (=) (=) char_val.
Proof. intros c d H. unfold char_val in H. apply N2Z.inj in H. rewrite <- (ascii_N_embedding c), H. apply ascii_N_embedding. Qed.

Lemma length_bytes s : length (bytes s) = String.length s.
Proof. unfold bytes. by rewrite length_fmap, length_chars. Qed.

Lemma byte_at_cells p rest i :
  (i < String.length p)%nat → byte_at (cells p ++ rest) (Z.of_nat i) = Some (nth i (bytes p) 0).
Proof.
  intros Hi. unfold byte_at. rewrite aget_nat, lookup_app_l by (rewrite cells_length; lia).
  unfold cells, bytes. rewrite list_lookup_fmap. rewrite <- length_chars in Hi.
  destruct (lookup_lt_is_Some_2 _ _ Hi) as [c E]. rewrite E. cbn. f_equal. symmetry. apply nth_lookup_Some. by rewrite list_lookup_fmap, E.
Qed.

Lemma byte_at_fresh p n rest i :
  (String.length p ≤ i < String.length p + n)%nat → byte_at (cells p ++ fresh n ++ rest) (Z.of_nat i) = None.
Proof.
  intros Hi. unfold byte_at. rewrite aget_nat, lookup_app_r by (rewrite cells_length; lia). rewrite cells_length.
  rewrite lookup_app_l by (rewrite length_fresh; lia). unfold fresh. rewrite lookup_replicate_2 by lia. done.
Qed.

(** *** [raw1] *)

Lemma shift_drops m : length m = 100%nat → Raw1.shift m = Some (take 80 (drop 20 m) ++ drop 80 m).
Proof.
  intros Hm. unfold Raw1.shift.
  destruct (for_up_Some (λ i m', m' = take (Z.to_nat i) (drop 20 m) ++ drop (Z.to_nat i) m) 0 80
    (λ i msg, c ← aget msg (20 + i); aset msg i c) m) as (m' & -> & ->); [lia| |done|done].
  intros i ? Hi ->. destruct (Z_of_nat_complete i) as [n ->]; [lia|]. rewrite Nat2Z.id. assert (n < 80)%nat by lia.
  assert (length (take n (drop 20 m)) = n) as Hn by (rewrite length_take, length_drop; lia).
  destruct (lookup_lt_is_Some_2 m (20 + n)) as [c Hc]; [lia|]. exists (take (S n) (drop 20 m) ++ drop (S n) m).
  replace (20 + Z.of_nat n) with (Z.of_nat (20 + n)) by lia.
  rewrite aget_nat, lookup_app_r, Hn, lookup_drop by lia. replace (n + (20 + n - n))%nat with (20 + n)%nat by lia. rewrite Hc.
  cbn [mbind option_bind]. rewrite aset_Some by (rewrite length_app, Hn, length_drop; lia). rewrite Nat2Z.id.
  replace (Z.to_nat (Z.of_nat n + 1)) with (S n) by lia. split; [|done]. f_equal.
  rewrite insert_app_r_alt, Hn, Nat.sub_diag by lia. rewrite (take_S_r _ _ c) by by rewrite lookup_drop.
  rewrite <- app_assoc. f_equal. destruct (lookup_lt_is_Some_2 m n) as [d Hd]; [lia|]. by rewrite (drop_S _ d n).
Qed.

(** The header is dropped, and what nothing was received into stays behind. *)
Lemma dropped hdr p :
  String.length hdr = 20%nat → (String.length p ≤ 80)%nat →
  ∃ b rest, store (fresh 100) 0 (cells (hdr +:+ p)) = Some b ∧ Raw1.shift b = Some (cells p ++ fresh (80 - String.length p) ++ rest).
Proof.
  intros Hh Hp. exists (cells hdr ++ cells p ++ fresh (80 - String.length p)), (drop 80 (cells hdr ++ cells p ++ fresh (80 - String.length p))).
  assert (length (cells hdr) = 20%nat) as Hc by by rewrite cells_length. split.
  - rewrite store_Some by (rewrite cells_length, string_length_app, length_fresh; lia). change (take 0 (fresh 100)) with (@nil cell). cbn [app].
    rewrite cells_app, <- app_assoc. do 3 f_equal. unfold fresh. rewrite drop_replicate, length_app, !cells_length. f_equal. lia.
  - rewrite shift_drops by (rewrite !length_app, !cells_length, length_fresh; lia).
    rewrite (drop_app_length' (cells hdr)) by done. rewrite (take_ge (_ ++ fresh _)) by (rewrite length_app, cells_length, length_fresh; lia).
    by rewrite <- app_assoc.
Qed.

(** What is printed of a header, the bytes of which are [l]. *)
Definition report (l : list Z) : list label :=
  let g i := nth i l 0 in
  let net i := g i * 256 + g (S i) in
  let ip i := Sniffer.inet_ntoa [g i; g (1 + i)%nat; g (2 + i)%nat; g (3 + i)%nat] in
  [Did (Puts nl) 0; prints "IP Header"; Did (Puts ("   |-IP Version        : " +:+ dec (g 0%nat / 16) +:+ nl)) 0;
   Did (Puts ("   |-IP Header Length  : " +:+ dec (g 0%nat mod 16) +:+ " DWORDS or " +:+ dec (g 0%nat mod 16 * 4) +:+ " Bytes" +:+ nl)) 0;
   Did (Puts ("   |-Type Of Service   : " +:+ dec (g 1%nat) +:+ nl)) 0;
   Did (Puts ("   |-IP Total Length   : " +:+ dec (net 2%nat) +:+ "  Bytes(Size of Packet)" +:+ nl)) 0;
   Did (Puts ("   |-Identification    : " +:+ dec (net 4%nat) +:+ nl)) 0;
   Did (Puts ("   |-Fragment Offset  : " +:+ dec (g 7%nat * 256 + g 6%nat) +:+ nl)) 0;
   Did (Puts ("   |-TTL      : " +:+ dec (g 8%nat) +:+ nl)) 0; Did (Puts ("   |-Protocol : " +:+ dec (g 9%nat) +:+ nl)) 0;
   Did (Puts ("   |-Checksum : " +:+ dec (net 10%nat) +:+ nl)) 0; Did (Puts "   |-Source IP        :") 0; Did (Puts (ip 12%nat +:+ nl)) 0;
   Did (Puts "   |-Destination IP   :") 0; Did (Puts (ip 16%nat +:+ nl)) 0].

Lemma print_header_plays p rest :
  (20 ≤ String.length p)%nat →
  plays loud (returns (eq tt)) (Raw1.print_ip_header (cells p ++ rest)) (report (bytes p)).
Proof.
  intros Hp. set (m := cells p ++ rest). set (g i := nth i (bytes p) 0).
  assert (∀ i, (i < 20)%nat → byte_at m (Z.of_nat i) = Some (g i)) as H by (intros i Hi; apply byte_at_cells; lia).
  assert (∀ i, (i < 19)%nat → net16_at m (Z.of_nat i) = Some (g i * 256 + g (S i))) as H16.
  { intros i Hi. unfold net16_at. replace (Z.of_nat i + 1) with (Z.of_nat (S i)) by lia. by rewrite !H by lia. }
  assert (∀ i, (i < 17)%nat → addr_at m (Z.of_nat i) = Some (Sniffer.inet_ntoa [g i; g (1 + i)%nat; g (2 + i)%nat; g (3 + i)%nat])) as H32.
  { intros i Hi. unfold addr_at. replace (Z.of_nat i + 1) with (Z.of_nat (1 + i)) by lia.
    replace (Z.of_nat i + 2) with (Z.of_nat (2 + i)) by lia. replace (Z.of_nat i + 3) with (Z.of_nat (3 + i)) by lia. by rewrite !H by lia. }
  assert (host16_at m 6 = Some (g 7%nat * 256 + g 6%nat)) as Hh.
  { unfold host16_at. change (6 + 1) with (Z.of_nat 7). change 6 with (Z.of_nat 6) at 1. by rewrite !H by lia. }
  unfold Raw1.print_ip_header, report, prints, puts.
  eapply plays_need; [apply (H 0%nat); lia|]. eapply plays_need; [apply (H32 12%nat); lia|]. eapply plays_need; [apply (H32 16%nat); lia|].
  do 4 play. eapply plays_need; [apply (H 1%nat); lia|]. play. eapply plays_need; [apply (H16 2%nat); lia|]. play.
  eapply plays_need; [apply (H16 4%nat); lia|]. play. eapply plays_need; [exact Hh|]. play.
  eapply plays_need; [apply (H 8%nat); lia|]. play. eapply plays_need; [apply (H 9%nat); lia|]. play.
  eapply plays_need; [apply (H16 10%nat); lia|]. do 4 play.
  apply plays_watched; [done|done|]. intros r _. by apply plays_return.
Qed.

Lemma plays_received hdr p rsfd (Q : outcome unit → Prop) t ls :
  String.length hdr = 20%nat → (String.length p ≤ 80)%nat → cstr (cells p) = Some t →
  (∀ rest, plays loud Q (Raw1.print_ip_header (cells p ++ fresh (80 - String.length p) ++ rest)) ls) →
  plays loud Q (Raw1.receive_round rsfd tt)
    (prints "Waiting to receive message" :: Told (Recvfrom rsfd 100) (bytes_ (hdr +:+ p)) :: prints t :: ls).
Proof.
  intros Hh Hp Ht Hk. destruct (dropped hdr p Hh Hp) as (b & rest & Hs & Hd).
  unfold Raw1.receive_round, prints, puts. play. eapply plays_recvfrom_told; [done|exact Hs|]. cbn [rv bytes_].
  apply plays_print_ok; [lia|]. eapply plays_need; [exact Hd|]. eapply plays_need; [by apply cstr_app|]. play. apply Hk.
Qed.

Lemma plays_malloc {B} w n p (f : buf → prog B) ls Q :
  w (LibCall "malloc" [Z.of_nat n] []) = true → p ≠ 0 → plays w Q (f (fresh n)) ls →
  plays w Q (malloc n ≫= f) (Did (LibCall "malloc" [Z.of_nat n] []) p :: ls).
Proof. intros Hw Hp Hf. unfold malloc. inner. apply plays_callv; [done|]. by rewrite (proj2 (Z.eqb_neq _ _)). Qed.

(** [x.1] is the number that is typed, [x.2] the address from [malloc]. *)
Definition hello_sent (rsfd : Z) (x : Z * Z) : list label :=
  [prints "Enter"; Told ScanInt (ints_ [x.1]); Did (LibCall "malloc" [100] []) x.2; Did (Sendto rsfd (lit "Hello" ++ fresh 94) 8 (any_addr 8000)) 8].

Lemma raw1_sends rsfd (ks : list (Z * Z)) :
  0 ≤ rsfd → Forall (λ x, x.2 ≠ 0) ks →
  plays loud (returns (eq tt)) (Raw1.server (length ks))
    (Did (Socket AF_INET SOCK_RAW 100) rsfd :: Did (Bind rsfd (any_addr 8000)) 0 :: concat (hello_sent rsfd <$> ks)).
Proof.
  intros Hr Hk. unfold Raw1.server. eapply (plays_bind loud (eq rsfd) _ _ [_; _]).
  - unfold Raw1.start. play. apply plays_print_ok; [done|]. play. apply plays_print_ok; [done|]. by play.
  - intros ? <-. eapply plays_rounds; [exact Hk|]. intros [k p] Hp. cbn [snd] in Hp.
    unfold Raw1.send_round, hello_sent, prints, puts. cbn [fst snd]. do 2 play. apply plays_malloc; [done|done|].
    eapply plays_need; [done|]. cbv beta.
    change (strcpy_at _ _ _) with (Some (lit "Hello" ++ fresh 94)). play. unfold EchoLoop.print_error.
    change (8 <? 0) with false. cbv iota. by play.
Qed.

(** *** [raw2] *)

Lemma plays_exit0 {B} w v m (f : unit → prog B) ls Q : 0 ≤ v → plays w Q (f tt) ls → plays w Q (Raw2.error_exit0 v m ≫= f) ls.
Proof. intros. unfold Raw2.error_exit0. by rewrite (proj2 (Z.ltb_ge _ _)). Qed.

(** The kernel fills in the length, the identification and the checksum of a
    header the program made (raw(7)); the rest is delivered as it was sent. *)
Definition filled_in (i : nat) : bool := ((2 <=? i) && (i <=? 5) || (10 <=? i) && (i <=? 11))%nat.
Definition carried (sent : list Z) (data : string) : Prop :=
  length (bytes data) = length sent ∧ ∀ i z, filled_in i = false → bytes data !! i = Some z → sent !! i = Some z.

Lemma poke_in off bs h t : (off + length bs ≤ length h)%nat → poke off bs (h ++ t) = poke off bs h ++ t.
Proof.
  intros H. unfold poke. rewrite take_app_le, drop_app_le by lia. by rewrite <- !app_assoc.
Qed.

Lemma raw_message_shape w :
  (String.length w < 128)%nat →
  ∃ hdr, length hdr = 20%nat ∧ hdr !! 0%nat = Some 69 ∧ length (Producer.raw_message w) = 1024%nat ∧
         Producer.raw_message w = hdr ++ bytes w ++ replicate (1004 - String.length w) 0.
Proof.
  intros Hw. unfold Producer.raw_message. set (L := le16 (htons (20 + _))).
  assert (length L = 2%nat) as HL by done.
  change (replicate 1024 0) with (replicate 20 0 ++ replicate 1004 0).
  rewrite (poke_in 0), (poke_in 6), (poke_in 8), (poke_in 12), (poke_in 16) by (cbn; lia).
  set (h := poke 16 _ _). assert (length h = 20%nat) as Hh by reflexivity.
  rewrite (poke_at 20 h) by done. rewrite <- app_assoc, (poke_in 2) by (rewrite Hh, HL; lia).
  exists (poke 2 L h).
  assert (length (poke 2 L h) = 20%nat) as Hp by (rewrite poke_length by (rewrite Hh, HL; lia); done).
  assert ((bytes w ++ [0]) ++ drop (length (bytes w ++ [0])) (replicate 1004 0) = bytes w ++ replicate (1004 - String.length w) 0) as E.
  { rewrite drop_replicate, <- app_assoc. f_equal. rewrite length_app, length_bytes. cbn [length app].
    replace (1004 - String.length w)%nat with (S (1004 - (String.length w + 1))) by lia. done. }
  change ((λ c : ascii, char_val c) <$> chars w) with (bytes w). rewrite E. split_and!; [done|done| |done].
  rewrite length_app, Hp, length_app, length_bytes, length_replicate. lia.
Qed.

(** What lies behind the header of a packet the kernel carried. *)
Lemma carried_text w data :
  nonul w = true → (String.length w < 128)%nat → carried (Producer.raw_message w) data →
  String.length data = 1024%nat ∧ byte_at (cells data) 0 = Some 69 ∧ cstr (drop 20 (cells data)) = Some w.
Proof.
  intros Hn Hw [Hl Hc]. destruct (raw_message_shape w Hw) as (hdr & Hh & H0 & Hm & E). rewrite Hm in Hl. rewrite E in Hc.
  assert (String.length data = 1024%nat) as Hd by by rewrite <- length_bytes. split; [done|]. split.
  - change 0 with (Z.of_nat 0). rewrite <- (app_nil_r (cells data)), byte_at_cells by lia. f_equal. apply nth_lookup_Some.
    destruct (lookup_lt_is_Some_2 (bytes data) 0) as [z Hz]; [lia|]. specialize (Hc 0%nat z eq_refl Hz).
    rewrite lookup_app_l in Hc by lia. congruence.
  - assert (drop 20 (chars data) = chars w ++ replicate (1004 - String.length w) NUL) as Ht.
    { apply (inj (fmap char_val)). rewrite fmap_drop, fmap_app, fmap_replicate. change (char_val <$> chars data) with (bytes data).
      change (char_val <$> chars w) with (bytes w). change (char_val NUL) with 0.
      apply list_eq_same_length with 1004%nat; [rewrite length_app, length_bytes, length_replicate; lia|rewrite length_drop; lia|].
      intros i x y Hi Hx Hy. rewrite lookup_drop in Hx. apply Hc in Hx.
      - rewrite lookup_app_r in Hx by lia. rewrite Hh in Hx. replace (20 + i - 20)%nat with i in Hx by lia. congruence.
      - unfold filled_in. destruct i; done. }
    unfold cells. rewrite <- fmap_drop, Ht, fmap_app.
    replace (1004 - String.length w)%nat with (S (1003 - String.length w)) by lia. cbn [replicate fmap list_fmap].
    rewrite cons_middle, app_assoc. by apply cstr_lit.
Qed.

Definition word_sent (rsfd : Z) (w : string) : list label :=
  [Did (Socket AF_INET SOCK_RAW 101) rsfd; Did (Setsockopt rsfd "IP_HDRINCL") 0; Did (Puts "Enter Message:") 0;
   Told ScanString (Reply 1 w [] []); Did (Sendto rsfd (to_cells (Producer.raw_message w)) 1024 (SaIn 0 INADDR_ANY)) 1024].

Lemma raw2_sends rsfd w :
  0 ≤ rsfd → nonul w = true → (String.length w < 128)%nat →
  plays loud (returns (λ _, True)) Raw2.client (word_sent rsfd w).
Proof.
  intros Hr Hn Hw. unfold Raw2.client, word_sent, puts. step. apply plays_exit0; [done|]. do 3 step. change (0 <? 1) with true. cbv iota. cbn [rdata].
  eapply plays_need; [apply strcpy_Some; unfold zeroed; by rewrite length_replicate|]. eapply plays_need; [by apply cstr_lit|].
  play. change (1024 <? 0) with false. cbv iota. by play.
Qed.

Lemma raw2_overrun rsfd w :
  0 ≤ rsfd → (128 ≤ String.length w)%nat → plays loud (eq UB) Raw2.client (take 4 (word_sent rsfd w)).
Proof.
  intros Hr Hw. unfold Raw2.client, word_sent, puts. cbn [take]. step. apply plays_exit0; [done|]. do 3 step. change (0 <? 1) with true. cbv iota. cbn [rdata].
  apply plays_undef. unfold strcpy, strcpy_at, store. rewrite length_lit, decide_False; [done|].
  unfold zeroed. rewrite length_replicate. lia.
Qed.

Definition message_shown (rsfd : Z) (x : string * string) : list label :=
  [Told (Recvfrom rsfd 1024) (bytes_ x.1); Did (Puts (String "009" ("Message" +:+ nl +:+ " " +:+ x.2 +:+ nl))) 0].

Definition kilobytes (st : buf * buf) : Prop := length st.1 = 1024%nat ∧ length st.2 = 1024%nat.

Lemma raw2_shows rsfd (packets : list (string * string)) :
  Forall (λ x, nonul x.2 = true ∧ (String.length x.2 < 128)%nat ∧ carried (Producer.raw_message x.2) x.1) packets →
  plays loud (returns kilobytes) (Raw2.server (length packets))
    (Did (Socket AF_INET SOCK_RAW 101) rsfd :: Did (Setsockopt rsfd "IP_HDRINCL") 0 :: concat (message_shown rsfd <$> packets)).
Proof.
  intros Hp. unfold Raw2.server. do 2 play. apply (plays_forever_list loud (λ _, kilobytes)); [|done].
  intros d [data w] rest [buffer buf_] -> [H1 H2]. apply Forall_app in Hp as [_ [(Hn & Hw & Hc) _]%Forall_cons]. cbn [fst snd] in *.
  destruct (carried_text w data Hn Hw Hc) as (Hd & H0 & Ht). unfold Raw2.server_round, message_shown, puts. cbn [fst snd].
  eapply plays_recvfrom_told; [done|apply store_Some; cbn [rdata bytes_]; rewrite cells_length; lia|]. cbn [rdata bytes_].
  change (take 0 buffer) with (@nil cell). cbn [app]. rewrite (drop_ge buffer), app_nil_r by (rewrite cells_length; lia).
  eapply plays_need; [exact H0|]. cbv beta zeta. change (Z.to_nat (69 mod 16 * 4)) with 20%nat.
  eapply plays_need; [exact Ht|]. eapply plays_need; [apply strcpy_Some; lia|]. do 2 play. split; cbn [fst snd].
  - rewrite cells_length. done.
  - rewrite length_app, length_lit, length_drop. lia.
Qed.

(** *** [train] *)

(** The rounds in which a number other than 0 is typed: number, descriptor,
    address from [malloc]. *)
Fixpoint train_sends (i : Z) (l : list (Z * Z * Z)) : list label :=
  match l with
  | [] => []
  | (k, rsfd, p) :: l' =>
      [prints "Enter 1 to send. 0 to stop"; Told ScanInt (ints_ [k]); Did (Socket AF_INET SOCK_RAW (100 + i)) rsfd;
       Did (Bind rsfd (any_addr (8000 + i))) 0; Did (LibCall "malloc" [100] []) p;
       Did (Sendto rsfd (lit "Hello world." ++ fresh 87) 8 (any_addr (8000 + i))) 8] ++ train_sends (i + 1) l'
  end.
Definition train_stops (n : nat) : list label :=
  match n with O => [] | _ => [prints "Enter 1 to send. 0 to stop"; Told ScanInt (ints_ [0])] end.

Lemma train_loop l i t n :
  Forall (λ x, x.1.1 ≠ 0 ∧ 0 ≤ x.1.2 ∧ x.2 ≠ 0) l →
  plays loud (returns (λ _, True)) (loop (length l + n) TrainRaw.send_round (i, t)) (train_sends i l ++ train_stops n).
Proof.
  intros Hl. revert i t. induction Hl as [|[[k rsfd] p] l (Hk & Hr & Hp) _ IH]; intros i t; cbn [length Nat.add].
  - destruct n as [|n]; cbn [loop train_sends train_stops app]; [by apply plays_return|].
    eapply (plays_last _ (eq (inr tt))); [|intros ? <-; by play].
    unfold TrainRaw.send_round, prints, puts. do 2 play. cbn [rints ints_ head default].
    unfold id. change (0 =? 0) with true. cbv iota. by play.
  - cbn [fst snd] in *. cbn [loop train_sends]. rewrite <- app_assoc.
    eapply (plays_bind _ (eq (inl (i + 1, k)))); [|intros ? <-; apply IH].
    unfold TrainRaw.send_round, prints, puts. do 2 play. cbn [rints ints_ head default].
    unfold id. rewrite (proj2 (Z.eqb_neq k 0)) by done. play. apply plays_print_ok; [done|]. play. apply plays_print_ok; [done|].
    apply plays_malloc; [done|done|]. eapply plays_need; [done|]. cbv beta.
    change (strcpy_at _ _ _) with (Some (lit "Hello world." ++ fresh 87)). play. apply plays_print_ok; [lia|]. by play.
Qed.

(** What the receiver of [train] shows of a packet that begins as IP packets
    without options do. *)
Definition header_shown (rsfd : Z) (rest : string) : list label :=
  [prints "Waiting to receive message"; Told (Recvfrom rsfd 100) (bytes_ (String "E" (String NUL rest))); prints "E"].

Lemma train_receives rsfd p (packets : list string) :
  0 ≤ rsfd → p ≠ 0 → Forall (λ rest, (String.length rest ≤ 98)%nat) packets →
  plays loud (returns (λ b, length b = 100%nat)) (TrainRaw.client (length packets))
    (Did (Socket AF_INET SOCK_RAW 100) rsfd :: Did (LibCall "malloc" [100] []) p :: concat (header_shown rsfd <$> packets)).
Proof.
  intros Hr Hp Hl. unfold TrainRaw.client. play. apply plays_print_ok; [done|]. apply plays_malloc; [done|done|].
  apply (plays_forever_list loud (λ _ b, length b = 100%nat)); [|done].
  intros d rest l b -> Hb. apply Forall_app in Hl as [_ [Hrest _]%Forall_cons].
  unfold TrainRaw.receive_round, header_shown, prints, puts. play.
  eapply plays_recvfrom_told; [done|apply store_Some; cbn [rdata bytes_]; rewrite cells_length; cbn; lia|]. cbn [rdata bytes_ rv].
  apply plays_print_ok; [lia|]. eapply plays_need; [done|]. cbv beta. play.
  destruct (store _ 0 (zeroed 8)) as [b'|] eqn:E.
  - apply plays_return. apply store_length in E. rewrite E, !length_app, length_drop, cells_length, length_take.
    cbn [String.length]. lia.
  - rewrite store_Some in E; [done|]. rewrite !length_app, length_drop, cells_length. cbn. lia.
Qed.

(** *** [basic] *)

Definition word_over (packet : buf) (w : string) : buf := take 20 packet ++ lit w ++ drop (20 + S (String.length w)) packet.

Fixpoint typed_words (s : Z) (packet : buf) (ws : list string) : list label :=
  match ws with
  | [] => []
  | w :: ws' =>
      Told ScanString (Reply 1 w [] []) :: Did (Sendto s (word_over packet w) 50 (SaIn 0 INADDR_ANY)) 50 ::
      typed_words s (word_over packet w) ws'
  end.

Lemma strcpy_over packet w :
  length packet = 50%nat → (String.length w < 30)%nat →
  strcpy_at packet 20 w = Some (word_over packet w) ∧ length (word_over packet w) = 50%nat.
Proof.
  intros Hp Hw. unfold strcpy_at. rewrite store_Some by (rewrite length_lit; lia). unfold word_over. rewrite length_lit.
  split; [done|]. rewrite !length_app, length_take, length_drop, length_lit. lia.
Qed.

Lemma header_sends s ws packet :
  Forall (λ w, (String.length w < 30)%nat) ws → length packet = 50%nat →
  plays loud (returns (λ b, length b = 50%nat)) (forever (length ws) (HeaderPrinter.send_round s) packet) (typed_words s packet ws).
Proof.
  intros Hw. revert packet. induction Hw as [|w ws Hw _ IH]; intros packet Hp; cbn [length forever typed_words]; [by apply plays_return|].
  destruct (strcpy_over packet w Hp Hw) as [E Hl].
  eapply (plays_bind _ (eq (word_over packet w)) _ _ [_; _]); [|intros ? <-; by apply IH].
  unfold HeaderPrinter.send_round. do 2 play. change (0 <? 1) with true. cbv iota. cbn [rdata]. play. play.
  change (50 <? 0) with false. apply plays_no_error. by play.
Qed.

Definition bytes_shown (s : Z) (data : string) : list label :=
  Told (Recvfrom s 50) (bytes_ data) :: ((λ c, Did (HeaderPrinter.show c) 0) <$> drop 20 (chars data)) ++ [Did (Puts nl) 0].

Lemma header_receives s (packets : list string) packet :
  Forall (λ data, String.length data = 50%nat) packets → length packet = 50%nat →
  plays loud (returns (λ b, length b = 50%nat)) (forever (length packets) (HeaderPrinter.receive_round s) packet)
    (concat (bytes_shown s <$> packets)).
Proof.
  intros Hl Hp. apply (plays_forever_list loud (λ _ b, length b = 50%nat)); [|done].
  intros d data rest b -> Hb. apply Forall_app in Hl as [_ [Hd _]%Forall_cons].
  unfold HeaderPrinter.receive_round, bytes_shown, puts. play.
  eapply plays_recvfrom_told; [done|apply store_Some; cbn [rdata bytes_]; rewrite cells_length; lia|]. cbn [rdata bytes_ rv].
  change (take 0 b) with (@nil cell). cbn [app]. rewrite (drop_ge b), app_nil_r by (rewrite cells_length; lia).
  rewrite (proj2 (Z.ltb_ge _ 0)) by lia. apply plays_no_error.
  assert (length (drop 20 (chars data)) = 30%nat) as H30 by (rewrite length_drop, length_chars; lia).
  eapply (plays_bind _ (λ _, True)).
  - rewrite <- concat_single. change 50 with (20 + Z.of_nat 30). rewrite <- H30.
    apply (plays_for_list loud (λ _ _, True)); [|done]. intros d' c rest' [] E _.
    eapply plays_need; [|by apply plays_end]. replace (20 + Z.of_nat (length d')) with (Z.of_nat (20 + length d')) by lia.
    rewrite aget_nat. unfold cells. rewrite list_lookup_fmap, <- lookup_drop, E, list_lookup_middle by done. done.
  - intros _ _. play. play. by rewrite cells_length.
Qed.

Lemma short_header_undefined p n rest :
  (1 ≤ String.length p < 16)%nat → (String.length p + n = 80)%nat →
  plays loud (eq UB) (Raw1.print_ip_header (cells p ++ fresh n ++ rest)) [].
Proof.
  intros Hp Hn. unfold Raw1.print_ip_header. eapply plays_need; [apply (byte_at_cells p _ 0); lia|].
  apply plays_undef. unfold addr_at. change (12 + 3) with (Z.of_nat 15). rewrite byte_at_fresh by lia.
  by destruct (byte_at _ 12), (byte_at _ (12 + 1)), (byte_at _ (12 + 2)).
Qed.

(** ** The theorems *)

(** C23: [raw2], a text behind an IP header made by hand.  Whatever word of less than
    128 characters is typed, the sender sends one packet; of any packets of
    this kind that come, whatever the kernel has filled in into their headers,
    the receiver shows exactly the words.  A longer word overruns the sender's
    buffer. *)
Theorem raw_text_roundtrip rsfd w rsfd' long (packets : list (string * string)) :
  0 ≤ rsfd → nonul w = true → (String.length w < 128)%nat → (128 ≤ String.length long)%nat →
  Forall (λ x, nonul x.2 = true ∧ (String.length x.2 < 128)%nat ∧ carried (Producer.raw_message x.2) x.1) packets →
  plays loud (returns (λ _, True)) Raw2.client (word_sent rsfd w) ∧
  plays loud (returns kilobytes) (Raw2.server (length packets))
    (Did (Socket AF_INET SOCK_RAW 101) rsfd' :: Did (Setsockopt rsfd' "IP_HDRINCL") 0 :: concat (message_shown rsfd' <$> packets)) ∧
  plays loud (eq UB) Raw2.client (take 4 (word_sent rsfd long)).
Proof. intros Hr Hn Hw Hl Hp. split_and!; [by apply raw2_sends|by apply raw2_shows|by apply raw2_overrun]. Qed.

(** C40: [raw1] and [train], where headers are mistaken.  The receiver of [raw1] drops the
    header and then reports the text as if it were one; of the "Hello" it is
    sent, which is shorter than a header, it shows the text and reads
    indeterminate bytes.  [train] sends the first eight bytes of its text, which
    are no string, and its receiver shows the packet from its header on: the
    letter E for every packet that begins as an IPv4 header without options and
    service type does. *)
Theorem headers_mistaken rsfd rsfd' hdr p t sent data (ks : list (Z * Z)) (l : list (Z * Z * Z)) n q (packets : list string) :
  0 ≤ rsfd → 0 ≤ rsfd' → Forall (λ x, x.2 ≠ 0) ks → String.length hdr = 20%nat →
  (20 ≤ String.length p ≤ 80)%nat → cstr (cells p) = Some t →
  sent = lit "Hello" ++ fresh 94 → delivers sent 8 data →
  Forall (λ x, x.1.1 ≠ 0 ∧ 0 ≤ x.1.2 ∧ x.2 ≠ 0) l → (length l + n = 3)%nat →
  q ≠ 0 → Forall (λ rest, (String.length rest ≤ 98)%nat) packets →
  plays loud (returns (eq tt)) (Raw1.server (length ks))
    (Did (Socket AF_INET SOCK_RAW 100) rsfd :: Did (Bind rsfd (any_addr 8000)) 0 :: concat (hello_sent rsfd <$> ks)) ∧
  plays loud (returns (eq tt)) (Raw1.receive_round rsfd' tt)
    (prints "Waiting to receive message" :: Told (Recvfrom rsfd' 100) (bytes_ (hdr +:+ p)) :: prints t :: report (bytes p)) ∧
  plays loud (eq UB) (Raw1.receive_round rsfd' tt)
    [prints "Waiting to receive message"; Told (Recvfrom rsfd' 100) (bytes_ (hdr +:+ data)); prints "Hello"] ∧
  plays loud (returns (λ _, True)) TrainRaw.server (train_sends 0 l ++ train_stops n) ∧
  (∀ d, delivers (lit "Hello world." ++ fresh 87) 8 d → d = "Hello wo") ∧
  plays loud (returns (λ b, length b = 100%nat)) (TrainRaw.client (length packets))
    (Did (Socket AF_INET SOCK_RAW 100) rsfd' :: Did (LibCall "malloc" [100] []) q :: concat (header_shown rsfd' <$> packets)).
Proof.
  intros Hr Hr' Hk Hh Hp Ht -> Hd Hl Hn Hq Hpk. split_and!.
  - by apply raw1_sends.
  - apply plays_received; [done|lia|done|]. intros rest. apply print_header_plays. lia.
  - destruct (delivers_reads (lit "Hello" ++ fresh 94) "Hello" 8 data) as (Hlen & Hc & _); [done|by apply Z.ltb_lt|done|].
    apply plays_received; [done|lia|done|]. intros rest. apply short_header_undefined; lia.
  - unfold TrainRaw.server. rewrite <- Hn. eapply (plays_last _ (λ _, True)); [by apply train_loop|]. intros x _. by play.
  - intros d Hd'. change (lit "Hello world.") with (lit ("Hello wo" +:+ "rld.")) in Hd'.
    destruct Hd' as [H8 Hc]. rewrite <- (string_of_list_ascii_of_string d).
    transitivity (string_of_list_ascii (chars "Hello wo")); [|done]. f_equal.
    apply list_eq_same_length with 8%nat; [done|rewrite length_chars; lia|].
    intros i x y Hi Hx Hy. rewrite (Hc i y) in Hx; [by injection Hx| |lia].
    do 8 (destruct i as [|i]; [by injection Hy as <-|]). lia.
  - by apply train_receives.
Qed.

(** [basic/print_header.c] and [basic/socket_bind.c].  Both hand an
    indeterminate descriptor to the kernel.  If it holds something, the parent
    sends, for every word that is typed, the packet with the word written over
    the text; the child shows 30 bytes of every packet it receives.  A word of
    30 characters overruns the packet. *)
Theorem word_packets (connects : bool) s0 s pid n words (packets : list string) long (packet : buf) :
  0 ≤ s → 0 < pid → Forall (λ w, (String.length w < 30)%nat) words → Forall (λ data, String.length data = 50%nat) packets →
  (30 ≤ String.length long)%nat → length packet = 50%nat →
  let opening : list label := [Did (Setsockopt s0 "IP_HDRINCL") 0; Did (Socket AF_INET SOCK_RAW 255) s; Did (Bind s (SaIn 0 INADDR_ANY)) 0] ++
                 (if connects then [Did (Connect s (SaIn 0 INADDR_ANY)) 0] else []) in
  plays loud (eq UB) (HeaderPrinter.main connects None n) [] ∧
  plays loud (returns (λ b, length b = 50%nat)) (HeaderPrinter.main connects (Some s0) (length words))
    (opening ++ Did Fork pid :: typed_words s (to_cells HeaderPrinter.packet) words) ∧
  plays loud (returns (λ b, length b = 50%nat)) (HeaderPrinter.main connects (Some s0) (length packets))
    (opening ++ Did Fork 0 :: concat (bytes_shown s <$> packets)) ∧
  plays loud (eq UB) (HeaderPrinter.send_round s packet) [Told ScanString (Reply 1 long [] [])].
Proof.
  intros Hs Hp Hw Hpk Hl Hpacket opening.
  assert (∀ (Q : outcome buf → Prop) p k ls, plays loud Q (forever k (if 0 <? p then HeaderPrinter.send_round s else HeaderPrinter.receive_round s) (to_cells HeaderPrinter.packet)) ls →
    plays loud Q (HeaderPrinter.main connects (Some s0) k) (opening ++ Did Fork p :: ls)) as Hopen.
  { intros Q p k ls H. unfold HeaderPrinter.main, opening. play. cbn [app]. do 2 play. no_error. play. no_error.
    destruct connects; cbn [app].
    - inner. play. eapply (plays_skip _ (λ _, True)); [by apply (plays_return)|]. intros _ _. by play.
    - do 2 play. done. }
  split_and!.
  - by apply plays_undef.
  - apply Hopen. rewrite (proj2 (Z.ltb_lt _ _)) by done. by apply header_sends.
  - apply Hopen. change (0 <? 0) with false. cbv iota. by apply header_receives.
  - unfold HeaderPrinter.send_round. do 2 play. change (0 <? 1) with true. cbv iota. cbn [rdata].
    apply plays_undef. unfold strcpy_at, store. rewrite length_lit, decide_False; [done|lia].
Qed.

(** *** Witnesses *)

(** The packet as it was sent; a kernel that fills in a checksum. *)
Definition sent_text (w : string) : string := string_of_list_ascii ((λ z, ascii_of_N (Z.to_N z)) <$> Producer.raw_message w).
Definition checked_text (w : string) : string :=
  string_of_list_ascii ((λ z, ascii_of_N (Z.to_N z)) <$> poke 10 [18; 52] (Producer.raw_message w)).

Lemma raw_text_roundtrip_witness :
  plays loud (returns (λ _, True)) Raw2.client (word_sent 3 "hi") ∧
  plays loud (returns kilobytes) (Raw2.server 2)
    (Did (Socket AF_INET SOCK_RAW 101) 4 :: Did (Setsockopt 4 "IP_HDRINCL") 0 ::
     message_shown 4 (sent_text "hi", "hi") ++ message_shown 4 (checked_text "you", "you")) ∧
  plays loud (eq UB) Raw2.client (take 4 (word_sent 3 (string_of_list_ascii (replicate 128 "x"%char)))).
Proof.
  assert (∀ i z l, filled_in i = false → poke 10 [18; 52] l !! i = Some z → (12 ≤ length l)%nat → l !! i = Some z) as Hpoke.
  { intros i z l Hi Hz Hl. unfold poke in Hz. destruct (decide (i < 10)%nat).
    - by rewrite lookup_app_l, lookup_take in Hz by (try rewrite length_take; lia); destruct (decide _).
    - destruct (decide (i < 12)%nat) as [H|H].
      + exfalso. assert (i = 10 ∨ i = 11)%nat as [-> | ->] by lia; done.
      + rewrite lookup_app_r in Hz by (rewrite length_take; lia). rewrite length_take, Nat.min_l in Hz by lia.
        rewrite lookup_app_r in Hz by (cbn; lia). rewrite lookup_drop in Hz. rewrite <- Hz. f_equal. cbn. lia. }
  assert (bytes (sent_text "hi") = Producer.raw_message "hi") as E1 by by vm_compute.
  assert (bytes (checked_text "you") = poke 10 [18; 52] (Producer.raw_message "you")) as E2 by by vm_compute.
  apply (raw_text_roundtrip 3 "hi" 4 (string_of_list_ascii (replicate 128 "x"%char)) [(sent_text "hi", "hi"); (checked_text "you", "you")]);
    [lia|done|by apply Nat.ltb_lt|by apply Nat.leb_le|].
  repeat (apply List.Forall_cons; [split_and!; [done|by apply Nat.ltb_lt|]|]); [| |by apply List.Forall_nil].
  - unfold carried. cbn [fst snd]. rewrite E1. split; [done|]. by intros.
  - unfold carried. cbn [fst snd]. rewrite E2. split; [by vm_compute|]. intros i z Hi Hz. eapply Hpoke; [done|exact Hz|].
    apply Nat.leb_le. by vm_compute.
Defined.

Lemma headers_mistaken_witness :
  let hdr := String "E" (String NUL "..................") in
  let p := "a message of some bytes" +:+ String NUL "" in
  plays loud (returns (eq tt)) (Raw1.receive_round 4 tt)
    (prints "Waiting to receive message" :: Told (Recvfrom 4 100) (bytes_ (hdr +:+ p)) :: prints "a message of some bytes" ::
     report (bytes p)) ∧
  plays loud (eq UB) (Raw1.receive_round 4 tt)
    [prints "Waiting to receive message"; Told (Recvfrom 4 100) (bytes_ (hdr +:+ "Hello" +:+ String NUL "??")); prints "Hello"] ∧
  plays loud (returns (λ _, True)) TrainRaw.server (train_sends 0 [(1, 5, 77)] ++ train_stops 2) ∧
  plays loud (returns (λ b, length b = 100%nat)) (TrainRaw.client 1)
    (Did (Socket AF_INET SOCK_RAW 100) 4 :: Did (LibCall "malloc" [100] []) 78 :: header_shown 4 "..................Hello wo").
Proof.
  intros hdr p.
  destruct (headers_mistaken 3 4 hdr p "a message of some bytes" (lit "Hello" ++ fresh 94) ("Hello" +:+ String NUL "??") []
    [(1, 5, 77)] 2 78 ["..................Hello wo"]) as (_ & Ha & Hb & Hc & _ & Hd);
    [lia|lia|by apply List.Forall_nil|done|split; by apply Nat.leb_le|done|done| | |done|done| |split_and!; [exact Ha|exact Hb|exact Hc|exact Hd]].
  - split; [done|]. intros i c Hi Hlt. do 6 (destruct i as [|i]; [by injection Hi as <-|]).
    do 2 (destruct i as [|i]; [done|]). lia.
  - apply List.Forall_cons; [cbn; lia|by apply List.Forall_nil].
  - apply List.Forall_cons; [by apply Nat.leb_le|by apply List.Forall_nil].
Defined.

Lemma word_packets_witness :
  let packet := to_cells HeaderPrinter.packet in
  plays loud (eq UB) (HeaderPrinter.main true None 1) [] ∧
  plays loud (returns (λ b, length b = 50%nat)) (HeaderPrinter.main true (Some 9) 1)
    [Did (Setsockopt 9 "IP_HDRINCL") 0; Did (Socket AF_INET SOCK_RAW 255) 3; Did (Bind 3 (SaIn 0 INADDR_ANY)) 0;
     Did (Connect 3 (SaIn 0 INADDR_ANY)) 0; Did Fork 71; Told ScanString (Reply 1 "hi" [] []);
     Did (Sendto 3 (word_over packet "hi") 50 (SaIn 0 INADDR_ANY)) 50] ∧
  plays loud (eq UB) (HeaderPrinter.send_round 3 packet)
    [Told ScanString (Reply 1 (string_of_list_ascii (replicate 30 "x"%char)) [] [])].
Proof.
  intros packet.
  destruct (word_packets true 9 3 71 1 ["hi"] [] (string_of_list_ascii (replicate 30 "x"%char)) packet) as (Ha & Hb & _ & Hc);
    [lia|lia| |by apply List.Forall_nil|by apply Nat.leb_le|done|split_and!; [exact Ha|exact Hb|exact Hc]].
  apply List.Forall_cons; [by apply Nat.ltb_lt|by apply List.Forall_nil].
Defined.
