(* ===== verification/LogServers.v ===== *)
(** * The multiserver and the log server

    [select_servers/multiserver/mainserver.c] (Module [Multi]) hands out two
    kinds of servers until none is left; [select_servers/logserver] (Modules
    [Log] and [LogSessions]) collects what servers log, each through a fifo it
    claims with a counter in shared memory. *)

From stdpp Require Import gmap sets.
From S2P Require Import Prelude CString Posix Session Fifo ChatServers.

#[local] Open Scope Z_scope.

(** ** The server of [select_servers/multiserver] *)
Module Multi.

Definition open_one (i : Z) (s : list (option Z) * list (option Z)) : prog (list (option Z) * list (option Z)) :=
  buf ← need (snprintf (fresh 50) 50 ("mainfifo" +:+ dec i));
  name ← str buf;
  make_fifo name;;
  buf2 ← need (snprintf (fresh 50) 50 ("mainfifowrite" +:+ dec i));
  name2 ← str buf2;
  make_fifo name2;;
  f ← sysv (Open name "O_RDWR");
  logs ← need (iset s.1 i f);
  exit_if (f <? 0);;
  w ← sysv (Open name2 "O_RDWR");
  logwrite ← need (iset s.2 i w);
  exit_if (w <? 0);;
  mret (logs, logwrite).

(** [struct logfds] in the shared memory: [number], then [fd]. *)
Definition share_one (logs : list (option Z)) (i : Z) (_ : unit) : prog unit :=
  f ← need (iget logs i);
  do_ (ShmStore (1 + i) f).

Definition share (logs : list (option Z)) (number : Z) : prog unit :=
  shmid1 ← sysv (Shmget 300 10000 true);
  (if shmid1 =? -1 then do_ (Perror "shmget: shmget failed");; Halt 1
   else puts ("shmget: shmget returned " +:+ dec shmid1 +:+ nl));;
  do_ (Shmat shmid1);;
  do_ (ShmStore 0 number);;
  for_up 0 number (share_one logs) tt.

Definition note_one (logs : list (option Z)) (i : Z) (s : fd_set * Z) : prog (fd_set * Z) :=
  f ← need (iget logs i);
  puts (dec f +:+ ":");;
  mret (FD_SET f s.1, if s.2 <? f then f else s.2).

(** The answer to one message; [n_s1] and [n_s2] are what is left. *)
Definition allocate (logwrite : list (option Z)) (j : Z) (text : string) (n : Z * Z) : prog (Z * Z) :=
  let '(n_s1, n_s2) := n in
  if strcasecmp_eq text ("s1" +:+ nl) && (0 <? n_s1) then
    puts ("S1 allocated" +:+ nl);;
    w ← need (iget logwrite j);
    do_ (Write w (lit "S1fifo") 35);;
    mret (n_s1 - 1, n_s2)
  else if strcasecmp_eq text ("s2" +:+ nl) && (0 <? n_s2) then
    puts ("S2 allocated" +:+ nl);;
    w ← need (iget logwrite j);
    do_ (Write w (lit "S2fifo") 35);;
    mret (n_s1, n_s2 - 1)
  else puts ("No servers avaliable" +:+ nl);; mret (n_s1, n_s2).

Definition serve_one (logs logwrite : list (option Z)) (readset : fd_set) (j : Z) (n : Z * Z) : prog (Z * Z) :=
  f ← need (iget logs j);
  if FD_ISSET f readset then
    puts "Logged: ";;
    '(k, buf) ← read f (fresh 100) 100;
    if 0 <? k then text ← str buf; puts (text +:+ nl);; allocate logwrite j text n else mret n
  else mret n.

Definition round (number : Z) (logs logwrite : list (option Z)) (s : fd_set * Z * (Z * Z)) : prog (fd_set * Z * (Z * Z)) :=
  let '(readset, max, n) := s in
  '(retstatus, readset) ← select max readset;
  n ← (if 0 <? retstatus then puts ("Got message" +:+ nl);; for_up 0 number (serve_one logs logwrite readset) n
       else mret n);
  '(readset, max) ← watch logs number (readset, max);
  mret (readset, max, n).

Definition main (argv1 argv2 argv3 : string) (rounds : nat) : prog (fd_set * Z * (Z * Z)) :=
  puts (nl +:+ "Main Server is starting................");;
  number ← need (atoi argv1);
  n_s1 ← need (atoi argv2);
  n_s2 ← need (atoi argv3);
  puts ("Max clients: " +:+ dec number +:+ ", S1: " +:+ dec n_s1 +:+ ", S2: " +:+ dec n_s2 +:+ nl);;
  '(logs, logwrite) ← for_up 0 number open_one (replicate 10 None, replicate 10 None);
  make_fifo "S1fifo";;
  make_fifo "S2fifo";;
  make_fifo "S1fifowrite";;
  make_fifo "S2fifowrite";;
  share logs number;;
  '(readset, max) ← for_up 0 number (note_one logs) (∅, 0);
  puts (dec max +:+ " is max" +:+ nl);;
  puts (nl +:+ "log fds are created................");;
  puts (nl +:+ "Server started..................");;
  forever rounds (round number logs logwrite) (readset, max, (n_s1, n_s2)).

(** *** The budget *)

(** The texts the server writes to its clients. *)
Definition given (c : call) (r : reply) : option string := match c with Write _ b _ => cstr b | _ => None end.

Definition times (name : string) (l : list string) : Z := Z.of_nat (length (filter (λ s, s = name) l)).

Section budget.
Context (N1 N2 : Z).

Definition within (l : list string) : Prop :=
  times "S1fifo" l ≤ N1 ∧ times "S2fifo" l ≤ N2 ∧ Forall (λ s, s = "S1fifo" ∨ s = "S2fifo")%string l.

(** What is given and what is left add up. *)
Definition balance (n : Z * Z) (l : list string) : Prop :=
  0 ≤ n.1 ∧ 0 ≤ n.2 ∧ times "S1fifo" l + n.1 = N1 ∧ times "S2fifo" l + n.2 = N2 ∧
  Forall (λ s, s = "S1fifo" ∨ s = "S2fifo")%string l.

Lemma balance_within n l : balance n l → within l.
Proof. intros (H1 & H2 & H3 & H4 & H5). split; [lia|]. split; [lia|done]. Qed.

Lemma times_snoc name l s : times name (l ++ [s]) = times name l + (if decide (s = name) then 1 else 0).
Proof. unfold times. rewrite filter_app, length_app, filter_cons. destruct (decide (s = name)); cbn; lia. Qed.

Lemma balance_S1 n1 n2 l : balance (n1, n2) l → 0 < n1 → balance (n1 - 1, n2) (l ++ ["S1fifo"%string]).
Proof.
  intros (H1 & H2 & H3 & H4 & H5) Hn. unfold balance. cbn [fst snd] in *. rewrite !times_snoc, decide_True, decide_False by done.
  repeat (split; [lia|]). apply Forall_app. split; [done|]. apply Forall_singleton. by left.
Qed.

Lemma balance_S2 n1 n2 l : balance (n1, n2) l → 0 < n2 → balance (n1, n2 - 1) (l ++ ["S2fifo"%string]).
Proof.
  intros (H1 & H2 & H3 & H4 & H5) Hn. unfold balance. cbn [fst snd] in *. rewrite !times_snoc, decide_False, decide_True by done.
  repeat (split; [lia|]). apply Forall_app. split; [done|]. apply Forall_singleton. by right.
Qed.

Abbreviation budget := (wp (log_step given) within any_reply True (λ _ _, True)).

(** Parts that write nothing leave the account as it is. *)
Ltac quiet := repeat (first [wp_step | progress unfold make_fifo, exit_if];
  try lazymatch goal with
  | |- within _ => assumption
  | |- balance _ _ => assumption
  | |- _ = _ :> list string => reflexivity
  | |- True => exact I
  end).

Lemma allocate_budget logwrite j text n l :
  balance n l → budget (allocate logwrite j text n) balance l.
Proof.
  intros Hb. pose proof (balance_within _ _ Hb) as Hw. destruct n as [n1 n2]. unfold allocate.
  destruct (strcasecmp_eq text ("s1" +:+ nl) && (0 <? n1)) eqn:E1.
  - apply andb_prop in E1 as [_ E1%Z.ltb_lt]. pose proof (balance_S1 _ _ _ Hb E1) as Hb'.
    pose proof (balance_within _ _ Hb'). quiet.
  - destruct (strcasecmp_eq text ("s2" +:+ nl) && (0 <? n2)) eqn:E2.
    + apply andb_prop in E2 as [_ E2%Z.ltb_lt]. pose proof (balance_S2 _ _ _ Hb E2) as Hb'.
      pose proof (balance_within _ _ Hb'). quiet.
    + quiet.
Qed.

Lemma serve_one_budget logs logwrite readset j n l :
  balance n l → budget (serve_one logs logwrite readset j n) balance l.
Proof.
  intros Hb. pose proof (balance_within _ _ Hb) as Hw. unfold serve_one. quiet. by apply allocate_budget.
Qed.

(** The loops that write nothing. *)
Lemma quiet_for {S} lo hi (body : Z → S → prog S) s l (Q : S → list string → Prop) :
  (∀ i s, budget (body i s) (λ _ l', l' = l) l) → (∀ s, Q s l) → budget (for_up lo hi body s) Q l.
Proof.
  intros Hb HQ. apply wp_for_up with (I := λ _ _ l', l' = l); [|done|by intros s' σ ->].
  intros i t σ _ ->. apply Hb.
Qed.

Lemma watch_budget logs number s l (Q : fd_set * Z → list string → Prop) :
  within l → (∀ s, Q s l) → budget (watch logs number s) Q l.
Proof. intros Hw HQ. apply quiet_for; [|done]. intros i t. unfold watch_one. quiet. Qed.

Lemma round_budget number logs logwrite s l :
  balance s.2 l → budget (round number logs logwrite s) (λ s' l', balance s'.2 l') l.
Proof.
  intros Hb. pose proof (balance_within _ _ Hb) as Hw. destruct s as [[set mx] n]. cbn in Hb. unfold round, select. quiet.
  - eapply wp_mono with (Q := balance).
    + intros n' l' Hb'. apply wp_bind, watch_budget; [by eapply balance_within|]. intros [set' mx']. by quiet.
    + apply wp_for_up with (I := λ _, balance); [|done|by intros]. intros. by apply serve_one_budget.
  - apply watch_budget; [done|]. intros [set' mx']. by quiet.
Qed.

Lemma open_one_silent i s l : within l → budget (open_one i s) (λ _ l', l' = l) l.
Proof. intros Hw. unfold open_one. quiet. Qed.

Lemma main_budget argv1 argv2 argv3 rounds :
  atoi argv2 = Some N1 → atoi argv3 = Some N2 → 0 ≤ N1 → 0 ≤ N2 →
  budget (main argv1 argv2 argv3 rounds) (λ s l, balance s.2 l) [].
Proof.
  intros E1 E2 H1 H2. assert (balance (N1, N2) []) as Hb by (unfold balance; cbn; auto with lia).
  pose proof (balance_within _ _ Hb) as Hw. unfold main. rewrite E1, E2. quiet. simplify_eq.
  apply quiet_for; [intros i s; by apply open_one_silent|]. intros [fd writefd]. unfold share. quiet.
  apply quiet_for; [intros i t; unfold share_one; quiet|]. intros _.
  quiet. apply quiet_for; [intros i t; unfold note_one; quiet|]. intros [set mx]. quiet.
  apply wp_forever with (I := λ s, balance s.2); [|done]. intros. by apply round_budget.
Qed.
End budget.

(** The times the server gave the name to a client. *)
Definition handed_out (name : string) (t : trace) : Z := times name (select_ev given t).
End Multi.

(** C16: the budget of the multiserver.  Started with [N1] servers of the first
    kind and [N2] of the second, the server writes the name of the first at
    most [N1] times and that of the second at most [N2] times, in every
    execution: whatever its clients ask for, in whichever order, and whatever
    the kernel replies.  It never writes anything else to a client. *)
Theorem multiserver_budget argv1 argv2 argv3 N1 N2 rounds rs :
  atoi argv2 = Some N1 → atoi argv3 = Some N2 → 0 ≤ N1 → 0 ≤ N2 →
  let t := trace_of (Multi.main argv1 argv2 argv3 rounds) rs in
  Multi.handed_out "S1fifo" t ≤ N1 ∧ Multi.handed_out "S2fifo" t ≤ N2 ∧
  Forall (λ s, s = "S1fifo" ∨ s = "S2fifo")%string (select_ev Multi.given t).
Proof.
  intros E1 E2 H1 H2 t.
  destruct (wp_sound _ _ _ _ _ _ _ [] rs (Multi.main_budget N1 N2 argv1 argv2 argv3 rounds E1 E2 H1 H2)) as [H _].
  - split; [exact H1|]. split; [exact H2|by apply Forall_nil].
  - apply env_ok_any.
  - rewrite fold_log in H. exact H.
Qed.

(** Two clients, one server of each kind: both ask for the first kind. *)
Definition multi_replies : list reply :=
  [ret_ 0; ret_ 0; ret_ 0; ret_ 0; ret_ 3; ret_ 4; ret_ 0; ret_ 0; ret_ 5; ret_ 6;
   ret_ 0; ret_ 0; ret_ 0; ret_ 0; ret_ 32768; ret_ 0; ret_ 0; ret_ 0; ret_ 0; ret_ 0; ret_ 0; ret_ 0; ret_ 0; ret_ 0; ret_ 0;
   Reply 2 EmptyString [3; 5] []; ret_ 0;
   ret_ 0; bytes_ ("S1" +:+ nl +:+ String NUL ""); ret_ 0; ret_ 0; ret_ 35;
   ret_ 0; bytes_ ("s1" +:+ nl +:+ String NUL ""); ret_ 0; ret_ 0].

Lemma multiserver_budget_witness :
  let t := trace_of (Multi.main "2" "1" "1" 1) multi_replies in
  Multi.handed_out "S1fifo" t = 1 ∧ Multi.handed_out "S1fifo" t ≤ 1 ∧ Multi.handed_out "S2fifo" t ≤ 1.
Proof.
  intros t. destruct (multiserver_budget "2" "1" "1" 1 1 1 multi_replies) as (H1 & H2 & _); [done|done|lia|lia|].
  split; [vm_compute; reflexivity|]. split; [exact H1|exact H2].
Defined.

(** ** The log server of [select_servers/logserver] *)
Module Log.

(** [logserver.c] *)
Definition open_one (i : Z) (logs : list (option Z)) : prog (list (option Z)) :=
  buf ← need (snprintf (fresh 50) 50 ("logfifo" +:+ dec i));
  name ← str buf;
  make_fifo name;;
  f ← sysv (Open name "O_RDWR");
  logs ← need (iset logs i f);
  exit_if (f <? 0);;
  mret logs.

Definition serve_one (logs : list (option Z)) (readset : fd_set) (j : Z) (_ : unit) : prog unit :=
  f ← need (iget logs j);
  if FD_ISSET f readset then
    puts "Logged: ";;
    '(k, buf) ← read f (fresh 100) 100;
    if 0 <? k then s ← str buf; puts (s +:+ nl) else mret tt
  else mret tt.

Definition round (number clients : Z) (logs : list (option Z)) (s : fd_set * Z) : prog (fd_set * Z) :=
  let '(readset, max) := s in
  '(retstatus, readset) ← select max readset;
  (if 0 <? retstatus then for_up 0 number (serve_one logs readset) tt else mret tt);;
  watch logs clients (readset, max).

(** The sets are filled up to [argc-1], not up to [number]. *)
Definition main (argv : list string) (n : nat) : prog (fd_set * Z) :=
  let argc := Z.of_nat (length argv) + 1 in
  puts (nl +:+ "Log Server is starting................");;
  argv1 ← need (aget argv 0);
  number ← need (atoi argv1);
  logs ← for_up 0 number open_one (replicate 10 None);
  Multi.share logs number;;
  s ← watch logs (argc - 1) (∅, 0);
  puts (nl +:+ "log fds are created................");;
  puts (nl +:+ "Server started..................");;
  forever n (round number (argc - 1) logs) s.

(** [server.c]: the number of the log fifo, from the shared memory. *)
Definition claim : prog Z :=
  current ← sysv (ShmLoad 0);
  puts ("Current Log fd number:" +:+ dec current +:+ " " +:+ nl);;
  v ← sysv (ShmLoad 0);
  number ← need (int_add v (-1));
  do_ (ShmStore 0 number);;
  sysv (ShmLoad 0).

Definition server_open (argv : list string) (i : Z) (fd : list (option Z)) : prog (list (option Z)) :=
  name ← need (aget argv (i - 1));
  f ← sysv (Open name "O_RDWR");
  fd ← need (iset fd (i - 1) f);
  exit_if (f <? 0);;
  mret fd.

Definition server_one (fd : list (option Z)) (logfd : Z) (readset : fd_set) (j : Z) (_ : unit) : prog unit :=
  f ← need (iget fd j);
  if FD_ISSET f readset then
    puts ("User " +:+ dec j +:+ ": ");;
    '(k, buf) ← read f (fresh 100) 100;
    (if 0 <? k then s ← str buf; puts (s +:+ nl) else mret tt);;
    do_ (Write logfd buf 100)
  else mret tt.

Definition server_round (clients : Z) (fd : list (option Z)) (logfd : Z) (s : fd_set * Z) : prog (fd_set * Z) :=
  let '(readset, max) := s in
  '(retstatus, readset) ← select max readset;
  (if retstatus <? 0 then do_ (Perror "Error: ") else mret tt);;
  (if 0 <? retstatus then for_up 0 clients (server_one fd logfd readset) tt else mret tt);;
  watch fd clients (readset, max).

Definition server_main (argv : list string) (n : nat) : prog (fd_set * Z) :=
  let argc := Z.of_nat (length argv) + 1 in
  puts (nl +:+ "Server is starting................");;
  fd ← for_up 1 argc (server_open argv) (replicate (length argv) None);
  shmid1 ← sysv (Shmget 300 10000 true);
  (if shmid1 =? -1 then do_ (Perror "shmget: shmget failed");; Halt 1
   else puts ("shmget: shmget returned " +:+ dec shmid1 +:+ nl));;
  do_ (Shmat shmid1);;
  logno ← claim;
  buf ← need (snprintf (fresh 50) 50 ("logfifo" +:+ dec logno));
  name ← str buf;
  logfd ← sysv (Open name "O_RDWR");
  exit_if (logfd <? 0);;
  s ← watch fd (argc - 1) (∅, 0);
  puts (nl +:+ "Poll fds are created................");;
  puts (nl +:+ "Server started..................");;
  forever n (server_round (argc - 1) fd logfd) s.

(** *** Several servers claim at the same time

    Processes that share the first word of the memory: a step is one call of
    one process; loads and stores act on the word, the other calls are
    answered arbitrarily. *)
Definition shares (c : call) : bool := match c with ShmLoad _ | ShmStore _ _ => true | _ => false end.

Inductive shm_step : Z * list (prog Z) → Z * list (prog Z) → Prop :=
| shm_load cell ps i k :
    ps !! i = Some (Call (ShmLoad 0) k) → shm_step (cell, ps) (cell, <[i := k (ret_ cell)]> ps)
| shm_store cell ps i v k :
    ps !! i = Some (Call (ShmStore 0 v) k) → shm_step (cell, ps) (v, <[i := k (ret_ 0)]> ps)
| shm_other cell ps i c k r :
    ps !! i = Some (Call c k) → shares c = false → shm_step (cell, ps) (cell, <[i := k r]> ps).

(** How far a claim has come. *)
Inductive stage := ToPrint | Printing (current : Z) | ToLoad | ToStore (v : Z) | ToRead | Claimed (v : Z).

(** The rest of a claim that has loaded [v]. *)
Definition store_below (v : Z) : prog Z := number ← need (int_add v (-1)); do_ (ShmStore 0 number);; sysv (ShmLoad 0).

Lemma store_below_fits v : fits_int (v - 1) = true → store_below v = (do_ (ShmStore 0 (v - 1));; sysv (ShmLoad 0)).
Proof. intros H. unfold store_below, int_add. by rewrite int_of_Some by done. Qed.

Lemma store_below_cases v : store_below v = (do_ (ShmStore 0 (v - 1));; sysv (ShmLoad 0)) ∨ store_below v = Undef.
Proof.
  destruct (fits_int (v - 1)) eqn:E; [left; by apply store_below_fits|right].
  unfold store_below, int_add, int_of. change (v + -1) with (v - 1). by rewrite E.
Qed.

Definition at_stage (p : stage) : prog Z :=
  match p with
  | ToPrint => claim
  | Printing current =>
      puts ("Current Log fd number:" +:+ dec current +:+ " " +:+ nl);;
      v ← sysv (ShmLoad 0); store_below v
  | ToLoad => v ← sysv (ShmLoad 0); store_below v
  | ToStore v => store_below v
  | ToRead => sysv (ShmLoad 0)
  | Claimed v => Ret v
  end.

Definition stored (p : stage) : Z := match p with ToRead | Claimed _ => 1 | _ => 0 end.
Definition stores (l : list stage) : Z := foldr (λ p n, stored p + n) 0 l.

Lemma stores_cons p l : stores (p :: l) = stored p + stores l.
Proof. done. Qed.

Lemma stores_nonneg l : 0 ≤ stores l.
Proof. induction l as [|p l IH]; [done|]. rewrite stores_cons. destruct p; cbn [stored]; lia. Qed.

Lemma stores_insert l i p q : l !! i = Some p → stores (<[i := q]> l) = stores l - stored p + stored q.
Proof.
  revert i. induction l as [|x l IH]; intros [|i]; cbn -[stored stores]; try done; [intros [= ->]; rewrite !stores_cons; lia|].
  intros H. change (stored x + stores (<[i := q]> l) = stored x + stores l - stored p + stored q). rewrite (IH _ H). lia.
Qed.

Lemma stores_pos l i p : l !! i = Some p → stored p ≤ stores l.
Proof.
  revert i. induction l as [|x l IH]; intros [|i]; cbn -[stored stores]; try done; [intros [= ->]; rewrite stores_cons; pose proof (stores_nonneg l); lia|].
  intros H. apply IH in H. rewrite stores_cons. destruct x; cbn [stored]; lia.
Qed.

Lemma stores_max l : stores l ≤ Z.of_nat (length l).
Proof. induction l as [|p l IH]; [done|]. rewrite stores_cons. cbn [length]. destruct p; cbn [stored]; lia. Qed.

#[local] Arguments stores : simpl never.

Section claims.
Context (number : Z).

Definition stage_ok (n : Z) (p : stage) : Prop :=
  match p with ToStore v => number - n ≤ v ≤ number | Claimed v => number - n ≤ v ≤ number - 1 | _ => True end.

Definition claim_inv (s : Z * list stage) : Prop :=
  number - stores s.2 ≤ s.1 ≤ number ∧ (0 < stores s.2 → s.1 ≤ number - 1) ∧ Forall (stage_ok (stores s.2)) s.2.

Lemma stage_ok_mono n n' p : n ≤ n' → stage_ok n p → stage_ok n' p.
Proof. destruct p; cbn; try done; lia. Qed.

(** A stage that changes without a store, and a store. *)
Lemma inv_move cell l i p q :
  claim_inv (cell, l) → l !! i = Some p → stored p = stored q → stage_ok (stores l) q → claim_inv (cell, <[i := q]> l).
Proof.
  intros (H1 & H2 & H3) Hi Hpq Hq. cbn in *. unfold claim_inv. cbn. rewrite (stores_insert _ _ _ _ Hi).
  replace (stores l - stored p + stored q) with (stores l) by lia. split; [done|]. split; [done|]. by apply Forall_insert.
Qed.

Lemma inv_store cell l i v :
  claim_inv (cell, l) → l !! i = Some (ToStore v) → claim_inv (v - 1, <[i := ToRead]> l).
Proof.
  intros (H1 & H2 & H3) Hi. cbn in *. unfold claim_inv. cbn. rewrite (stores_insert _ _ _ _ Hi). cbn.
  pose proof (Forall_lookup_1 _ _ _ _ H3 Hi) as Hv. cbn in Hv.  split; [lia|]. split; [lia|].
  apply Forall_insert; [|done]. eapply Forall_impl; [exact H3|]. intros p. apply stage_ok_mono. lia.
Qed.

Lemma claim_step cell l s' :
  claim_inv (cell, l) → shm_step (cell, at_stage <$> l) s' →
  ∃ l', s'.2 = at_stage <$> l' ∧ length l' = length l ∧ claim_inv (s'.1, l').
Proof.
  intros Hi Hs. pose proof Hi as (H1 & H2 & H3). cbn in H1, H2, H3.
  inversion Hs as [c ps i k Hp Ec E'|c ps i v k Hp Ec E'|c ps i cl k r Hp Hsh Ec E']; subst c ps s'; clear Hs;
    rewrite list_lookup_fmap in Hp; destruct (l !! i) as [p|] eqn:El; try done; cbn in Hp; injection Hp as Hp;
    destruct p as [|n| |v'| |v']; cbn in Hp; try (destruct (store_below_cases v') as [Es|Es]; rewrite Es in Hp; cbn in Hp);
    try discriminate Hp; injection Hp; try (intros; subst; discriminate).
  - intros <-. exists (<[i := Printing cell]> l). rewrite list_fmap_insert, length_insert. split; [done|]. split; [done|].
    by eapply inv_move.
  - intros <-. exists (<[i := ToStore cell]> l). rewrite list_fmap_insert, length_insert. split; [done|]. split; [done|].
    eapply inv_move; [done..|]. cbn. lia.
  - intros <-. exists (<[i := Claimed cell]> l). rewrite list_fmap_insert, length_insert. split; [done|]. split; [done|].
    pose proof (stores_pos _ _ _ El) as Hst. cbn in Hst. eapply inv_move; [done..|]. cbn. lia.
  - intros <- <-. exists (<[i := ToRead]> l). rewrite list_fmap_insert, length_insert. split; [done|]. split; [done|].
    by eapply inv_store.
  - intros <- <-. exists (<[i := ToLoad]> l). rewrite list_fmap_insert, length_insert. split; [done|]. split; [done|].
    by eapply inv_move.
Qed.

Lemma claim_runs cell l s' :
  claim_inv (cell, l) → rtc shm_step (cell, at_stage <$> l) s' →
  ∃ l', s'.2 = at_stage <$> l' ∧ length l' = length l ∧ claim_inv (s'.1, l').
Proof.
  intros Hi Hr. remember (cell, at_stage <$> l) as s eqn:E. revert cell l Hi E.
  induction Hr as [s|s s1 s' Hs _ IH]; intros cell l Hi ->; [by exists l|].
  destruct (claim_step _ _ _ Hi Hs) as (l1 & E1 & Hl1 & Hi1). destruct s1 as [c1 ps1]. cbn in *. subst ps1.
  destruct (IH _ _ Hi1 eq_refl) as (l' & E' & Hl' & Hi'). exists l'. split; [done|]. split; [congruence|done].
Qed.

Lemma claim_init k : claim_inv (number, replicate k ToPrint).
Proof.
  assert (stores (replicate k ToPrint) = 0) as E by (induction k as [|k IH]; [done|cbn; by rewrite stores_cons, IH]).
  unfold claim_inv. cbn. rewrite E. split; [lia|]. split; [lia|]. by apply Forall_replicate.
Qed.
End claims.

(** One process runs alone. *)
Lemma claim_alone cell ps (i : nat) :
  fits_int (cell - 1) = true → ps !! i = Some claim → rtc shm_step (cell, ps) (cell - 1, <[i := Ret (cell - 1)]> ps).
Proof.
  intros Hc H. pose proof (lookup_lt_Some _ _ _ H) as Hl.
  assert (∀ (p : prog Z), <[i := p]> ps !! i = Some p) as Hi by (intros; by apply list_lookup_insert_eq).
  assert (∀ p q : prog Z, <[i := q]> (<[i := p]> ps) = <[i := q]> ps) as Hii by (intros; apply list_insert_insert_eq).
  eapply rtc_l; [apply (shm_load cell ps i); exact H|].
  eapply rtc_l; [eapply (shm_other _ _ i _ _ (ret_ 0)); [apply Hi|done]|]. rewrite Hii.
  eapply rtc_l; [apply (shm_load _ _ i), Hi|]. rewrite Hii.
  eapply rtc_l; [eapply (shm_store _ _ i (cell - 1)); etrans; [apply Hi|]; exact (f_equal Some (store_below_fits cell Hc))|]. rewrite Hii.
  eapply rtc_l; [apply (shm_load _ _ i), Hi|]. rewrite Hii. done.
Qed.

(** All processes, one after the other. *)
Lemma claims_in_turn k cell pre :
  (∀ i, 1 ≤ i ≤ Z.of_nat k → fits_int (cell - i) = true) →
  rtc shm_step (cell, pre ++ replicate k claim)
    (cell - Z.of_nat k, pre ++ ((λ i, Ret (cell - 1 - Z.of_nat i)) <$> seq 0 k)).
Proof.
  revert cell pre. induction k as [|k IH]; intros cell pre Hf; cbn [replicate seq fmap list_fmap].
  - by rewrite Z.sub_0_r.
  - etrans; [apply (claim_alone _ _ (length pre)); [apply Hf; lia|by apply list_lookup_middle]|].
    rewrite insert_app_r_alt, Nat.sub_diag by lia. cbn [insert list_insert].
    rewrite (cons_middle (Ret (cell - 1))), app_assoc. etrans; [apply IH|].
    { intros j Hj. replace (cell - 1 - j) with (cell - (j + 1)) by lia. apply Hf. lia. }
    rewrite <- app_assoc, <- cons_middle.
    replace (cell - 1 - Z.of_nat k) with (cell - Z.of_nat (S k)) by lia.
    rewrite <- fmap_S_seq, <- list_fmap_compose, Z.sub_0_r.
    replace ((λ i, Ret (cell - 1 - 1 - Z.of_nat i)) <$> seq 0 k)
      with ((λ i, Ret (cell - 1 - Z.of_nat i)) ∘ S <$> seq 0 k : list (prog Z)); [done|].
    apply list_fmap_ext. intros j x _. cbn. f_equal. lia.
Qed.

End Log.

(** C15: the log fifos.  Servers that claim their log fifo through the shared
    counter, in any number and under any interleaving of their loads and
    stores, get a number from [number - k] to [number - 1], so an existing
    fifo as long as there are not more servers than fifos.  Servers that claim
    one after the other get different ones; two that claim at the same time
    can get the same.  (The counter is an [int]: a claim at the least one is
    undefined.) *)
Theorem log_claims number k :
  (∀ s i v, rtc Log.shm_step (number, replicate k Log.claim) s → s.2 !! i = Some (Ret v) →
     number - Z.of_nat k ≤ v < number) ∧
  (fits_int number = true → fits_int (number - Z.of_nat k) = true →
   rtc Log.shm_step (number, replicate k Log.claim)
     (number - Z.of_nat k, (λ i, Ret (number - 1 - Z.of_nat i)) <$> seq 0 k)) ∧
  (fits_int (number - 1) = true →
   rtc Log.shm_step (number, replicate 2 Log.claim) (number - 1, [Ret (number - 1); Ret (number - 1)])) ∧
  rtc Log.shm_step (INT_MIN, [Log.claim]) (INT_MIN, [Undef]).
Proof.
  split; [|split; [|split]].
  - intros [cell ps] i v Hr Hv.
    assert (replicate k Log.claim = Log.at_stage <$> replicate k Log.ToPrint) as E by by rewrite fmap_replicate.
    rewrite E in Hr. destruct (Log.claim_runs number _ _ _ (Log.claim_init number k) Hr) as (l & El & Hl & _ & _ & Hok).
    cbn in El, Hv. subst ps. rewrite list_lookup_fmap in Hv. destruct (l !! i) as [p|] eqn:Ep; [|done].
    injection Hv as Hv. pose proof (Forall_lookup_1 _ _ _ _ Hok Ep) as Hp.
    pose proof (Log.stores_max l) as Hm. rewrite Hl, length_replicate in Hm. cbn [snd] in Hp.
    destruct p as [| | |v'| |]; cbn in Hv, Hp; try discriminate Hv.
    + destruct (Log.store_below_cases v') as [Es|Es]; rewrite Es in Hv; discriminate Hv.
    + injection Hv as ->. lia.
  - intros H1 H2. apply (Log.claims_in_turn k number []). intros i Hi. unfold fits_int in *. bool_hyps.
    apply andb_true_iff. split; apply Z.leb_le; lia.
  - intros Hf. pose proof (f_equal Some (Log.store_below_fits number Hf)) as Hst.
    eapply rtc_l; [eapply Log.shm_load with (i := 0%nat); reflexivity|]. cbn.
    eapply rtc_l; [eapply Log.shm_load with (i := 1%nat); reflexivity|]. cbn.
    eapply rtc_l; [eapply Log.shm_other with (i := 0%nat) (r := ret_ 0); reflexivity|]. cbn.
    eapply rtc_l; [eapply Log.shm_other with (i := 1%nat) (r := ret_ 0); reflexivity|]. cbn.
    eapply rtc_l; [eapply Log.shm_load with (i := 0%nat); reflexivity|]. cbn.
    eapply rtc_l; [eapply Log.shm_load with (i := 1%nat); reflexivity|]. cbn.
    eapply rtc_l; [eapply Log.shm_store with (i := 0%nat); exact Hst|]. cbn.
    eapply rtc_l; [eapply Log.shm_store with (i := 1%nat); exact Hst|]. cbn.
    eapply rtc_l; [eapply Log.shm_load with (i := 0%nat); reflexivity|]. cbn.
    eapply rtc_l; [eapply Log.shm_load with (i := 1%nat); reflexivity|]. done.
  - eapply rtc_l; [eapply Log.shm_load with (i := 0%nat); reflexivity|]. cbn.
    eapply rtc_l; [eapply Log.shm_other with (i := 0%nat) (r := ret_ 0); reflexivity|]. cbn.
    eapply rtc_l; [eapply Log.shm_load with (i := 0%nat); reflexivity|]. done.
Qed.

Module LogSessions.
Import Log.

Definition fifo_session (x : Z * Z) : list label :=
  [Did (Mkfifo ("logfifo" +:+ dec x.1) 511) 0; Did (Open ("logfifo" +:+ dec x.1) "O_RDWR") x.2].

Definition share_session (shmid : Z) (fs : list Z) : list label :=
  [Did (Shmget 300 10000 true) shmid; Did (Shmat shmid) 0; Did (ShmStore 0 (Z.of_nat (length fs))) 0] ++
  ((λ x, Did (ShmStore (1 + x.1) x.2) 0) <$> numbered fs).

(** A round of the log server: a message from the first fifo, or none. *)
Definition log_round (f0 : Z) (said : option string) : list label :=
  Told (Select (greatest [f0] + 1) (elements (watched_set [f0])) false) (ints_ (match said with Some _ => [f0] | None => [] end)) ::
  match said with Some m => [Got f0 100 m] | None => [] end.

Definition server_open_session (u : Chat.user) : list label := [Did (Open (Chat.uname u) "O_RDWR") (Chat.ufd u)].

Definition claim_session (number : Z) : list label :=
  [Did (ShmLoad 0) number; Did (ShmLoad 0) number; Did (ShmStore 0 (number - 1)) 0; Did (ShmLoad 0) (number - 1)].

(** A server sends what its users say to its log fifo. *)
Definition logged (logfd : Z) (x : Z * (Chat.user * option string)) : list label :=
  match x.2.2 with Some m => [Got (Chat.ufd x.2.1) 100 m; Sent logfd 100 m] | None => [] end.

Definition server_round_session (users : list Chat.user) (logfd : Z) (said : list (option string)) : list label :=
  Told (Select (greatest (Chat.fds users) + 1) (elements (watched_set (Chat.fds users))) false)
    (ints_ (Chat.ready users said)) ::
  concat (logged logfd <$> numbered (zip users said)).

(** *** The log server *)

Lemma filled_first f0 fs a : filled (f0 :: fs) a → filled [f0] a.
Proof. unfold filled. destruct a as [|x a]; cbn; [done|]. intros [= -> _]. by rewrite take_0. Qed.

Lemma share_plays logs shmid fs {B} (f : unit → prog B) ls Q :
  0 ≤ shmid → filled fs logs → plays net Q (f tt) ls →
  plays net Q (Multi.share logs (Z.of_nat (length fs)) ≫= f) (share_session shmid fs ++ ls).
Proof.
  intros Hs Hf Hk. apply (plays_bind _ (λ _, True)); [|by intros []]. unfold Multi.share, share_session. cbn [app]. play.
  rewrite (proj2 (Z.eqb_neq _ _)) by lia. play. do 2 play. rewrite <- concat_single, <- (Z.add_0_l (Z.of_nat _)).
  replace (length fs) with (length (numbered fs)) by apply length_imap.
  apply (plays_for_list net (λ _ _, True)); [|done].
  intros d [k x] rest [] E _. destruct (numbered_nth _ _ _ _ E) as [E1 E2]. cbn [fst snd] in *. subst k.
  unfold Multi.share_one. rewrite Z.add_0_l. eapply plays_need; [by eapply filled_get|].
  apply plays_watched; [done|done|]. intros. by apply plays_return.
Qed.

Lemma log_open_one_plays fs d x rest logs :
  Forall (λ f, 0 ≤ f) fs → (length fs ≤ 10)%nat → numbered fs = d ++ x :: rest →
  filled (snd <$> d) logs ∧ length logs = 10%nat →
  plays net (returns (λ a, filled (snd <$> (d ++ [x])) a ∧ length a = 10%nat))
    (open_one (0 + Z.of_nat (length d)) logs) (fifo_session x).
Proof.
  intros Hfs Hl E [Hf Hlen]. destruct x as [k f]. destruct (numbered_nth _ _ _ _ E) as [E1 E2]. cbn [fst snd] in *. subst k.
  pose proof (lookup_lt_Some _ _ _ E2). pose proof (Forall_lookup_1 _ _ _ _ Hfs E2) as Hpos. cbn in Hpos.
  rewrite Z.add_0_l. unfold open_one, fifo_session. cbn [fst snd].
  destruct (snprintf_fits (fresh 50) 50 ("logfifo" +:+ dec (Z.of_nat (length d)))) as (b & Eb & Hc & _).
  { by rewrite nonul_app, dec_nonul. }
  { rewrite string_length_app. pose proof (dec_length (Z.of_nat (length d))). simpl. lia. }
  { by rewrite length_fresh. }
  play. play. apply plays_made. play.
  destruct (filled_snoc (snd <$> d) logs f) as (a & E3 & Hf1 & Hl1); [done|rewrite length_fmap; lia|].
  rewrite length_fmap in E3. play. rewrite (proj2 (Z.ltb_ge _ 0)) by done. apply plays_exit_if. play.
  rewrite fmap_app. split; [done|lia].
Qed.

Lemma log_round_plays f0 fs logs said s :
  NoDup (f0 :: fs) → filled (f0 :: fs) logs → s = (watched_set [f0], greatest [f0]) →
  plays net (returns (eq (watched_set [f0], greatest [f0]))) (round (Z.of_nat (length (f0 :: fs))) 1 logs s) (log_round f0 said).
Proof.
  intros Hn Hf ->. unfold round, select, log_round.
  change ((?p ≫= ?f) ≫= ?g) with (p ≫= λ x, f x ≫= g). play. cbn [rints rv ints_ mret prog_mret mbind prog_mbind prog_bind].
  eapply (plays_last _ (λ _, True)).
  - destruct said as [m|]; [|change (0 <? Z.of_nat (length (@nil Z))) with false; cbv iota; by play]. change (0 <? Z.of_nat (length [f0])) with true. cbv iota.
    rewrite <- (app_nil_r [Got f0 100 m]).
    replace (length (f0 :: fs)) with (1 + length fs)%nat by done.
    unfold for_up. rewrite Z.sub_0_r, Nat2Z.id.
    change [Got f0 100 m] with (concat ((λ _ : unit, [Got f0 100 m]) <$> [tt])).
    apply (plays_for_then net (λ _ _, True) (λ _, [Got f0 100 m]) 0 [tt]); [|done|].
    + intros d [] rest [] E _. destruct d as [|? [|? ?]]; [|done|done]. cbn [length Z.of_nat Z.add]. unfold serve_one.
      eapply plays_need; [apply (filled_get [f0] logs 0 f0); [by eapply filled_first|done]|].
      unfold FD_ISSET. rewrite bool_decide_eq_true_2 by set_solver. play. play. change (0 <? 100) with true. cbv iota.
      play. by play.
    + intros [] _. cbn [length]. change (0 + Z.of_nat 1) with 1.
      pose proof (plays_for_list net (λ (_ : list Z) (_ : unit), True) (λ _, []) 1 fs (serve_one logs (list_to_set [f0])) tt) as P.
      rewrite concat_quiet in P. unfold for_up in P. rewrite Z.add_simpl_l, Nat2Z.id in P. apply P; [|done].
      intros d f rest [] E _. unfold serve_one.
      assert ((f0 :: fs) !! S (length d) = Some f) as Hlk by (change (fs !! length d = Some f); by rewrite E, list_lookup_middle).
      eapply plays_need.
      { replace (1 + Z.of_nat (length d)) with (Z.of_nat (S (length d))) by lia. by eapply filled_get. }
      unfold FD_ISSET. rewrite bool_decide_eq_false_2; [by play|].
      rewrite elem_of_list_to_set, list_elem_of_singleton. intros ->.
      apply NoDup_cons in Hn as [Hn _]. apply Hn. by eapply (list_elem_of_lookup_2 fs (length d)).
  - intros [] _. change 1 with (Z.of_nat (length [f0])). apply rewatch_plays; [by eapply filled_first|].
    destruct said; [done|]. intros x Hx. by apply elem_of_nil in Hx.
Qed.

Lemma snd_numbered (fs : list Z) : snd <$> numbered fs = fs.
Proof.
  unfold numbered. rewrite fmap_imap. apply list_eq. intros i. rewrite list_lookup_imap. by destruct (fs !! i).
Qed.

Lemma log_main_plays f0 fs shmid saids :
  Forall (λ f, 0 ≤ f) (f0 :: fs) → (length (f0 :: fs) ≤ 10)%nat → NoDup (f0 :: fs) → 0 ≤ shmid →
  plays net (returns (eq (watched_set [f0], greatest [f0]))) (main [dec (Z.of_nat (length (f0 :: fs)))] (length saids))
    (concat (fifo_session <$> numbered (f0 :: fs)) ++ share_session shmid (f0 :: fs) ++ concat (log_round f0 <$> saids)).
Proof.
  intros Hf Hl Hn Hs. unfold main. play.
  eapply plays_need; [done|]. eapply plays_need; [apply atoi_dec; unfold fits_int, INT_MIN, INT_MAX; lia|].
  eapply (plays_bind _ (λ a, filled (f0 :: fs) a ∧ length a = 10%nat)).
  { rewrite <- (Z.add_0_l (Z.of_nat (length (f0 :: fs)))).
    replace (length (f0 :: fs)) with (length (numbered (f0 :: fs))) by apply length_imap.
    eapply plays_weaken; [|intros a; rewrite <- (snd_numbered (f0 :: fs)); exact id].
    apply (plays_for_list net (λ d a, filled (snd <$> d) a ∧ length a = 10%nat)); [|by split].
    intros d x rest a E H. by eapply log_open_one_plays. }
  intros logs [Hlogs _]. apply share_plays; [done..|].
  cbn [length Z.of_nat]. change (Z.of_nat 1 + 1 - 1) with (Z.of_nat (length [f0])).
  eapply plays_skip; [apply first_watch_plays; by eapply filled_first|]. intros s <-. do 2 play.
  apply (plays_forever_list net (λ _, eq (watched_set [f0], greatest [f0]))); [|done].
  intros d said rest s _ <-. by apply log_round_plays.
Qed.

(** *** A server *)

Definition sane (u : Chat.user) : Prop := 0 ≤ Chat.ufd u.

Lemma claim_plays number {B} (f : Z → prog B) ls Q :
  fits_int (number - 1) = true → plays net Q (f (number - 1)) ls → plays net Q (claim ≫= f) (claim_session number ++ ls).
Proof.
  intros Hf H. apply (plays_bind _ (eq (number - 1))); [|by intros ? <-]. unfold claim, claim_session, int_add. do 3 play.
  change (number + -1) with (number - 1). eapply plays_need; [by apply int_of_Some|]. play.
  apply plays_watched; [done|done|]. intros r Hr. cbn in Hr. apply plays_return. congruence.
Qed.

Lemma server_one_plays users said fd logfd j u om s :
  NoDup (Chat.fds users) → filled (Chat.fds users) fd → zip users said !! j = Some (u, om) → True →
  plays net (returns (λ _, True)) (server_one fd logfd (list_to_set (Chat.ready users said)) (Z.of_nat j) s)
    (logged logfd (Z.of_nat j, (u, om))).
Proof.
  intros Hn Hf Hj _. unfold server_one, logged. cbn [fst snd].
  pose proof (Chat.ready_iff _ _ _ _ _ Hn Hj) as Hr. pose proof Hj as Hj'. apply lookup_zip_Some in Hj' as [Hu _].
  eapply plays_need; [eapply filled_get; [exact Hf|unfold Chat.fds; by rewrite list_lookup_fmap, Hu]|].
  unfold FD_ISSET. destruct om as [m|].
  - rewrite bool_decide_eq_true_2 by (apply elem_of_list_to_set, Hr; by eexists). play. play.
    change (0 <? 100) with true. cbv iota. eapply (plays_skip _ (λ _, True)); [by repeat play|intros _ _].
    apply plays_watched; [done|eexists; by split; [right|]|]. intros. by apply plays_return.
  - rewrite bool_decide_eq_false_2; [by play|]. intros H%elem_of_list_to_set%Hr. by destruct H.
Qed.

Lemma server_round_plays users said fd logfd s :
  NoDup (Chat.fds users) → filled (Chat.fds users) fd → length said = length users →
  s = (watched_set (Chat.fds users), greatest (Chat.fds users)) →
  plays net (returns (eq (watched_set (Chat.fds users), greatest (Chat.fds users))))
    (server_round (Z.of_nat (length users)) fd logfd s) (server_round_session users logfd said).
Proof.
  intros Hn Hf Hl ->. unfold server_round, server_round_session, select.
  change ((?p ≫= ?f) ≫= ?g) with (p ≫= λ x, f x ≫= g). play. cbn [rints rv ints_ mret prog_mret mbind prog_mbind prog_bind].
  rewrite (proj2 (Z.ltb_ge _ 0)) by lia. play.
  eapply (plays_last _ (λ _, True)).
  - destruct (Z.ltb_spec 0 (Z.of_nat (length (Chat.ready users said)))) as [Hp|Hp].
    + apply (Chat.served_round users said _ (λ _, True)); [done| |done]. intros. by apply server_one_plays.
    + rewrite Chat.silent_round; [by play|done|]. destruct (Chat.ready users said); [done|cbn in Hp; lia].
  - intros [] _. replace (length users) with (length (Chat.fds users)) by apply length_fmap.
    apply rewatch_plays; [done|]. apply Chat.ready_sub.
Qed.

Lemma server_open_plays users d u rest fd :
  Forall sane users → users = d ++ u :: rest → filled (Chat.fds d) fd ∧ length fd = length users →
  plays net (returns (λ a, filled (Chat.fds (d ++ [u])) a ∧ length a = length users))
    (server_open (Chat.uname <$> users) (1 + Z.of_nat (length d)) fd) (server_open_session u).
Proof.
  intros Hs E [Hf Hl]. unfold server_open, server_open_session.
  replace (1 + Z.of_nat (length d) - 1) with (Z.of_nat (length d)) by lia.
  assert (users !! length d = Some u) as Hu by by rewrite E, list_lookup_middle.
  pose proof (Forall_lookup_1 _ _ _ _ Hs Hu) as H1. pose proof (lookup_lt_Some _ _ _ Hu).
  eapply plays_need; [by rewrite aget_nat, list_lookup_fmap, Hu|]. play.
  destruct (filled_snoc (Chat.fds d) fd (Chat.ufd u)) as (a & E1 & Hf1 & Hl1); [done|unfold Chat.fds; rewrite length_fmap; lia|].
  unfold Chat.fds in E1. rewrite length_fmap in E1. play. rewrite (proj2 (Z.ltb_ge _ 0)) by done. apply plays_exit_if. play.
  unfold Chat.fds in *. rewrite fmap_app. split; [done|lia].
Qed.

Lemma server_main_plays users number shmid logfd saids :
  Forall sane users → NoDup (Chat.fds users) → Forall (λ said, length said = length users) saids →
  0 ≤ shmid → 0 ≤ logfd → fits_int (number - 1) = true →
  plays net (returns (eq (watched_set (Chat.fds users), greatest (Chat.fds users))))
    (server_main (Chat.uname <$> users) (length saids))
    (concat (server_open_session <$> users) ++ [Did (Shmget 300 10000 true) shmid; Did (Shmat shmid) 0] ++
     claim_session number ++ Did (Open ("logfifo" +:+ dec (number - 1)) "O_RDWR") logfd ::
     concat (server_round_session users logfd <$> saids)).
Proof.
  intros Hs Hn Hr Hsh Hlog Hfits. unfold server_main. rewrite length_fmap. play.
  eapply (plays_bind _ (λ a, filled (Chat.fds users) a ∧ length a = length users)).
  { rewrite Z.add_comm. apply (plays_for_list net (λ d a, filled (Chat.fds d) a ∧ length a = length users)).
    - intros d u rest a E H. by eapply server_open_plays.
    - split; [done|]. by rewrite length_replicate. }
  intros fd [Hf _]. cbn [app]. play. rewrite (proj2 (Z.eqb_neq shmid (-1))) by lia. do 2 play. apply claim_plays; [done|].
  destruct (snprintf_fits (fresh 50) 50 ("logfifo" +:+ dec (number - 1))) as (b & Eb & Hc & _).
  { by rewrite nonul_app, dec_nonul. }
  { rewrite string_length_app. pose proof (dec_length (number - 1)). simpl. lia. }
  { by rewrite length_fresh. }
  do 3 play. rewrite (proj2 (Z.ltb_ge _ 0)) by done. apply plays_exit_if. rewrite Z.add_simpl_r.
  eapply plays_skip.
  { replace (length users) with (length (Chat.fds users)) by apply length_fmap. by apply first_watch_plays. }
  intros s <-. do 2 play.
  apply (plays_forever_list net (λ _, eq (watched_set (Chat.fds users), greatest (Chat.fds users)))); [|done].
  intros d said rest s -> <-. apply Forall_app in Hr as [_ [Hl _]%Forall_cons]. by apply server_round_plays.
Qed.
End LogSessions.

(** The log server and its first client server.  The log server makes one
    fifo per server it was told to expect, shares their number, and then waits
    for messages on the first fifo only (its loops over the sets are bounded
    by [argc]); what arrives there is read.  The first server to start sends
    everything its users say to the fifo with the greatest number: with two
    fifos or more, to one the log server does not watch. *)
Theorem log_watches_first f0 fs shmid saids users logfd rounds :
  Forall (λ f, 0 ≤ f) (f0 :: fs) → (length (f0 :: fs) ≤ 10)%nat → NoDup (f0 :: fs) → 0 ≤ shmid →
  Forall LogSessions.sane users → NoDup (Chat.fds users) → Forall (λ said, length said = length users) rounds → 0 ≤ logfd →
  let number := Z.of_nat (length (f0 :: fs)) in
  plays net (returns (λ s, s.1 = watched_set [f0])) (Log.main [dec number] (length saids))
    (concat (LogSessions.fifo_session <$> numbered (f0 :: fs)) ++ LogSessions.share_session shmid (f0 :: fs) ++
     concat (LogSessions.log_round f0 <$> saids)) ∧
  plays net (returns (λ s, s.1 = watched_set (Chat.fds users))) (Log.server_main (Chat.uname <$> users) (length rounds))
    (concat (LogSessions.server_open_session <$> users) ++ [Did (Shmget 300 10000 true) shmid; Did (Shmat shmid) 0] ++
     LogSessions.claim_session number ++ Did (Open ("logfifo" +:+ dec (number - 1)) "O_RDWR") logfd ::
     concat (LogSessions.server_round_session users logfd <$> rounds)) ∧
  (2 ≤ number → ∀ f, (f0 :: fs) !! Z.to_nat (number - 1) = Some f → f ∉ watched_set [f0]).
Proof.
  intros Hf Hl Hn Hs Hu Hnu Hr Hlog number. split; [|split].
  - eapply plays_weaken; [by apply LogSessions.log_main_plays|]. by intros s <-.
  - eapply plays_weaken; [apply LogSessions.server_main_plays; try done|by intros s <-].
    unfold fits_int, INT_MIN, INT_MAX, number. apply andb_true_iff. split; apply Z.leb_le; lia.
  - intros H2 f Hlast. unfold watched_set. rewrite elem_of_list_to_set, list_elem_of_singleton. intros ->.
    apply NoDup_lookup with (i := 0%nat) (x := f0) in Hlast; [lia|done|done].
Qed.

Lemma log_claims_witness :
  rtc Log.shm_step (3, replicate 2 Log.claim) (1, [Ret 2; Ret 1]) ∧ 3 - 2 ≤ 2 < 3.
Proof.
  destruct (log_claims 3 2) as (H1 & H2 & _). specialize (H2 eq_refl eq_refl). split; [exact H2|].
  exact (H1 (1, [Ret 2; Ret 1]) 0%nat 2 H2 eq_refl).
Defined.

Lemma log_watches_first_witness :
  plays net (returns (λ s, s.1 = watched_set [3])) (Log.main ["2"] 1)
    ([Did (Mkfifo "logfifo0" 511) 0; Did (Open "logfifo0" "O_RDWR") 3;
      Did (Mkfifo "logfifo1" 511) 0; Did (Open "logfifo1" "O_RDWR") 4;
      Did (Shmget 300 10000 true) 9; Did (Shmat 9) 0; Did (ShmStore 0 2) 0; Did (ShmStore 1 3) 0; Did (ShmStore 2 4) 0;
      Told (Select 4 [3] false) (ints_ [3]); Got 3 100 "hi"]) ∧
  4 ∉ watched_set [3].
Proof.
  assert (Forall (λ f, 0 ≤ f) [3; 4]) as H1 by (repeat (apply Forall_cons; split; [lia|]); by apply Forall_nil).
  assert (NoDup [3; 4]) as H2 by (apply (bool_decide_unpack _); by vm_compute).
  destruct (log_watches_first 3 [4] 9 [Some "hi"%string] [] 5 [] H1 ltac:(cbn; lia) H2 ltac:(lia)
    (Forall_nil_2 _) (NoDup_nil_2) (Forall_nil_2 _) ltac:(lia)) as (Hm & _ & Hw).
  split; [exact Hm|]. exact (Hw ltac:(cbn; lia) 4 eq_refl).
Defined.
