(* ===== verification/Trains.v ===== *)
(** * Trains and platforms of [rawsockets/trainmain]

    The station master [sm.c] accepts trains, gives each the first platform
    that is free, tells the platforms that a train is coming and passes the
    connection of the train on; [plat.c] is a platform, [t.c] a train. *)

From S2P Require Import Prelude CString Posix Session FdPass.

#[local] Open Scope Z_scope.

(** ** The station master *)
Module Sm.

(** The globals [k] is assigned in each round; [newfd] and [plat_available]
    stay. *)
Record globals := Globals { newfd : Z; plat_available : list Z }.

Definition init : globals := Globals 0 [1; 1; 1].

Definition broadcast_one (k i newfd : Z) : prog Z :=
  namebuffer ← need (sprintf (fresh 30) ("plat_socket" +:+ dec (i + 1)));
  sun_path ← str namebuffer;
  bsfd ← sysv (Socket AF_UNIX SOCK_STREAM 0);
  error_note bsfd "socket error";;
  c ← sysv (Connect bsfd (SaUn sun_path));
  error_note c "connect error";;
  do_ (Send bsfd (lit "From sm : train is coming") 30);;
  mret (if i =? k then bsfd else newfd).

Definition broadcast (k newfd : Z) : prog Z := for_up 0 2 (broadcast_one k) newfd.

(** The search for a platform: [inr k] when [plat_available[k]] was taken. *)
Fixpoint find_platform (fuel : nat) (k : Z) (plat_available : list Z) : option (list Z * (Z + Z)) :=
  match fuel with
  | O => None
  | S fuel' =>
      if k <? 3 then
        a ← aget plat_available k;
        if a =? 1 then p ← aset plat_available k 0; Some (p, inr k) else find_platform fuel' (k + 1) plat_available
      else Some (plat_available, inl k)
  end.

Definition round (tsfd : Z) (g : globals) : prog globals :=
  nfd ← sysv (Accept tsfd);
  error_note nfd "accept error";;
  puts ("accepted connection" +:+ nl);;
  '(p, found) ← need (find_platform 4 0 (plat_available g));
  match found with
  | inr k =>
      puts ("platform " +:+ dec k +:+ " is avialble sending fd..." +:+ nl);;
      newfd ← broadcast k (newfd g);
      send_file_descriptor newfd nfd;;
      mret (Globals newfd p)
  | inl _ => mret (Globals (newfd g) p)
  end.

Definition main (n : nat) : prog globals :=
  tsfd ← sysv (Socket AF_INET SOCK_STREAM 0);
  error_note tsfd "socket call error";;
  s ← sysv (Setsockopt tsfd "SO_REUSEADDR");
  error_note s "calling sockpot";;
  b ← sysv (Bind tsfd (SaIn (htons 8000) INADDR_ANY));
  error_note b "bind error";;
  l ← sysv (Listen tsfd 5);
  error_note l "listen error";;
  forever n (round tsfd) init.

End Sm.

(** ** A platform and a train *)
Module Plat.

(** The thread reads what the advertiser broadcasts; [sizeof(msg)] is the size
    of a pointer. *)
Definition func (n : nat) : prog buf :=
  rsfd ← sysv (Socket AF_INET SOCK_RAW 100);
  do_ (Perror "socket:");;
  error_puts rsfd "Failed to create raw socket";;
  forever n (λ msg,
    puts ("Waiting to receive message" +:+ nl);;
    '(s, msg) ← recvfrom rsfd msg 100;
    error_puts s "Failed to receive";;
    text ← str msg;
    puts ("MSG->[" +:+ text +:+ "]" +:+ nl);;
    need (store msg 0 (zeroed 8))) (fresh 100).

Definition round (sfd : Z) : prog unit :=
  nfd ← sysv (Accept sfd);
  error_puts nfd "accept error";;
  '(_, buffer) ← recv nfd (fresh 30) 30;
  s ← str buffer;
  puts (s +:+ nl);;
  tfd ← recv_file_descriptor nfd;
  puts ("The fd is" +:+ dec tfd +:+ nl);;
  '(_, buffer) ← recv tfd buffer 30;
  s ← str buffer;
  puts (s +:+ nl);;
  '(_, buffer) ← recv tfd buffer 30;
  s ← str buffer;
  puts (s +:+ nl);;
  do_ (Send nfd (lit "train is leaving") 30).

Definition main (argv1 : string) (n : nat) : prog unit :=
  namebuf ← need (sprintf (fresh 30) ("plat_socket" +:+ argv1));
  sun_path ← str namebuf;
  sfd ← sysv (Socket AF_UNIX SOCK_STREAM 0);
  error_puts sfd "socket error";;
  do_ (Unlink sun_path);;
  b ← sysv (Bind sfd (SaUn sun_path));
  error_puts b "bind error";;
  l ← sysv (Listen sfd 5);
  error_puts l "listen error";;
  do_ (PthreadCreate "func" "NULL");;
  forever n (λ _, round sfd) tt.

Definition train_main : prog unit :=
  nfd ← sysv (Socket AF_INET SOCK_STREAM 0);
  error_note nfd "socket error";;
  c ← sysv (Connect nfd (SaIn (htons 8000) INADDR_ANY));
  error_note c "connect error";;
  do_ (Send nfd (lit "The train sequence ---1234") 30);;
  do_ (Sleep 2);;
  do_ (Send nfd (lit "I am leaving") 30);;
  do_ (Sleep 2).

End Plat.

(** ** Sessions *)

(** A train: its connection, and the two connections the broadcast opens. *)
Record train := Train { conn : Z; to1 : Z; to2 : Z }.

Definition told (b : Z) (name : string) : list label :=
  [Did (Socket AF_UNIX SOCK_STREAM 0) b; Did (Connect b (SaUn name)) 0; Sent b 30 "From sm : train is coming"].

Section station.
Context (trains : list train).

(** Where the [i]-th train is sent: the third goes where the second went. *)
Definition target (i : nat) (t : train) : Z :=
  match i with 0%nat => to1 t | 1%nat => to2 t | _ => from_option to2 0 (trains !! 1%nat) end.

Definition train_session (tsfd : Z) (i : nat) (t : train) : list label :=
  Did (Accept tsfd) (conn t) ::
  if (i <? 3)%nat then told (to1 t) "plat_socket1" ++ told (to2 t) "plat_socket2" ++ [passes (target i t) (conn t)]
  else [].

(** After [i] trains. *)
Definition station (i : nat) (g : Sm.globals) : Prop :=
  Sm.plat_available g = take 3 (replicate (i `min` 3) 0 ++ [1; 1; 1]) ∧
  ((2 ≤ i)%nat → Sm.newfd g = from_option to2 0 (trains !! 1%nat)).

Definition sane (t : train) : Prop := 0 ≤ conn t ∧ 0 ≤ to1 t ∧ 0 ≤ to2 t.

Lemma station_broadcast k newfd b1 b2 :
  0 ≤ b1 → 0 ≤ b2 →
  plays net (returns (eq (if 1 =? k then b2 else if 0 =? k then b1 else newfd))) (Sm.broadcast k newfd)
    (told b1 "plat_socket1" ++ told b2 "plat_socket2").
Proof.
  intros H1 H2. unfold Sm.broadcast, for_up. change (Z.to_nat (2 - 0)) with 2%nat. cbn [for_n].
  assert (∀ i b old name, 0 ≤ b → cstr (lit ("plat_socket" +:+ dec (i + 1))) = Some name →
    (∃ nb, sprintf (fresh 30) ("plat_socket" +:+ dec (i + 1)) = Some nb ∧ cstr nb = Some name) →
    plays net (returns (eq (if i =? k then b else old))) (Sm.broadcast_one k i old) (told b name)) as Hone.
  { intros i b old name Hb _ (nb & E & Hc). unfold Sm.broadcast_one, told. do 3 play. apply plays_note; [done|].
    play. apply plays_note; [done|]. do 2 play. done. }
  eapply plays_bind; [apply Hone; [done|vm_compute; reflexivity|eexists; split; [vm_compute; reflexivity|by vm_compute]]|].
  intros n1 <-. rewrite <- (app_nil_r (told b2 _)).
  eapply plays_bind; [apply Hone; [done|vm_compute; reflexivity|eexists; split; [vm_compute; reflexivity|by vm_compute]]|].
  intros n2 <-. by play.
Qed.

Lemma station_round_plays tsfd i t g :
  trains !! i = Some t → sane t → station i g →
  plays net (returns (station (S i))) (Sm.round tsfd g) (train_session tsfd i t).
Proof.
  intros Hi (H1 & H2 & H3) [Hp Hn]. unfold Sm.round, train_session. play. apply plays_note; [done|]. play.
  destruct g as [nf p]. cbn [Sm.plat_available Sm.newfd] in *. subst p.
  destruct i as [|[|[|i]]]; cbn [Nat.ltb Nat.leb Nat.min replicate app take];
    (eapply plays_need; [vm_compute; reflexivity|]); cbv iota beta; [| |specialize (Hn ltac:(lia)); subst nf|play; split; [done|intros _; apply Hn; lia]];
    rewrite app_assoc; play; (eapply plays_bind; [by apply station_broadcast|]); intros n <-; step; play;
    unfold station; cbn [Sm.plat_available Sm.newfd target]; (split; [done|]).
  - lia.
  - intros _. by rewrite Hi.
  - done.
Qed.

Definition master_setup (tsfd : Z) : list label :=
  [Did (Socket AF_INET SOCK_STREAM 0) tsfd; Did (Setsockopt tsfd "SO_REUSEADDR") 0;
   Did (Bind tsfd (SaIn 16415 INADDR_ANY)) 0; Did (Listen tsfd 5) 0].

Lemma main_plays_trains tsfd :
  0 ≤ tsfd → Forall sane trains →
  plays net (returns (station (length trains))) (Sm.main (length trains))
    (master_setup tsfd ++ concat (imap (train_session tsfd) trains)).
Proof.
  intros Ht Hs. unfold Sm.main, master_setup. cbn [app]. play. apply plays_note; [done|].
  play. apply plays_note; [done|]. change (htons 8000) with 16415. play. apply plays_note; [done|].
  play. apply plays_note; [done|].
  apply (plays_forever_imap net (λ d, station (length d))); [|split; [done|cbn; lia]].
  intros d t rest g E Hg. rewrite length_app, Nat.add_1_r. apply station_round_plays; [|eapply Forall_lookup_1; [exact Hs|]|done];
    by rewrite E, list_lookup_middle.
Qed.
End station.

(** A platform: one train per connection of the station master. *)
Definition plat_session (sfd : Z) (x : Z * Z * (string * string * string)) : list label :=
  let '(nfd, tfd, (m1, m2, m3)) := x in
  [Did (Accept sfd) nfd; Got nfd 30 m1; installs nfd tfd; Got tfd 30 m2; Got tfd 30 m3; Sent nfd 30 "train is leaving"].

Lemma plat_round_plays sfd x :
  0 ≤ x.1.1 → plays net (returns (λ _, True)) (Plat.round sfd) (plat_session sfd x).
Proof.
  destruct x as [[nfd tfd] [[m1 m2] m3]]. unfold Plat.round, plat_session. cbn [fst]. intros Hn. play. apply plays_error_puts; [done|].
  repeat step. apply plays_watched; [done|eexists; split; [by left|reflexivity]|]. intros r _. by apply plays_return.
Qed.

Definition plat_setup (argv1 : string) (sfd : Z) : list label :=
  [Did (Socket AF_UNIX SOCK_STREAM 0) sfd; Did (Bind sfd (SaUn ("plat_socket" +:+ argv1))) 0; Did (Listen sfd 5) 0;
   Did (PthreadCreate "func" "NULL") 0].

Lemma plat_main_plays argv1 sfd xs :
  nonul argv1 = true → (String.length argv1 ≤ 18)%nat → 0 ≤ sfd → Forall (λ x, 0 ≤ x.1.1) xs →
  plays net (returns (λ _, True)) (Plat.main argv1 (length xs)) (plat_setup argv1 sfd ++ concat (plat_session sfd <$> xs)).
Proof.
  intros Hn Hl Hs Hx. unfold Plat.main, plat_setup. cbn [app].
  destruct (sprintf_fits (fresh 30) ("plat_socket" +:+ argv1)) as (b & E & Hc & _).
  { by rewrite nonul_app, Hn. }
  { rewrite length_fresh, string_length_app. simpl. lia. }
  do 3 play. apply plays_error_puts; [done|]. do 2 play. apply plays_error_puts; [done|]. play. apply plays_error_puts; [done|]. play.
  apply (plays_forever_list net (λ _ _, True)); [|done].
  intros d x rest [] -> _. apply plat_round_plays. by apply Forall_app in Hx as [_ [H _]%Forall_cons].
Qed.

(** Where the platform gives up: the conversations that end with a call that
    failed with [v], after [xs] trains. *)
Definition plat_failures (argv1 : string) (sfd v : Z) (xs : list (Z * Z * (string * string * string))) : list (list label) :=
  [[Did (Socket AF_UNIX SOCK_STREAM 0) v];
   [Did (Socket AF_UNIX SOCK_STREAM 0) sfd; Did (Bind sfd (SaUn ("plat_socket" +:+ argv1))) v];
   [Did (Socket AF_UNIX SOCK_STREAM 0) sfd; Did (Bind sfd (SaUn ("plat_socket" +:+ argv1))) 0; Did (Listen sfd 5) v];
   plat_setup argv1 sfd ++ concat (plat_session sfd <$> xs) ++ [Did (Accept sfd) v]].

Lemma plat_fails argv1 sfd v xs :
  nonul argv1 = true → (String.length argv1 ≤ 18)%nat → 0 ≤ sfd → v < 0 → Forall (λ x, 0 ≤ x.1.1) xs →
  Forall (plays net (eq (Exited 1)) (Plat.main argv1 (S (length xs)))) (plat_failures argv1 sfd v xs).
Proof.
  intros Hn Hl Hs Hv Hx. unfold Plat.main, plat_failures, plat_setup. cbn [app].
  destruct (sprintf_fits (fresh 30) ("plat_socket" +:+ argv1)) as (b & E & Hc & _).
  { by rewrite nonul_app, Hn. }
  { rewrite length_fresh, string_length_app. simpl. lia. }
  repeat (apply List.Forall_cons); [..|apply List.Forall_nil]; do 3 play.
  - by apply plays_failed.
  - apply plays_error_puts; [done|]. do 2 play. by apply plays_failed.
  - apply plays_error_puts; [done|]. do 2 play. apply plays_error_puts; [done|]. play. by apply plays_failed.
  - apply plays_error_puts; [done|]. do 2 play. apply plays_error_puts; [done|]. play. apply plays_error_puts; [done|]. play.
    rewrite <- (Nat.add_1_r (length xs)). replace (plat_session sfd <$> xs) with (imap (λ _, plat_session sfd) xs).
    { apply (plays_forever_then net (λ _ _, True)); [|done|].
      - intros d x rest [] -> _. apply plat_round_plays. by apply Forall_app in Hx as [_ [H _]%Forall_cons].
      - intros [] _. cbn [forever]. unfold Plat.round. cbv beta. inner. play. by apply plays_failed_inner. }
    clear. induction xs as [|x xs IH]; [done|]. rewrite imap_cons. cbn. by f_equal.
Qed.

(** The thread of a platform ends the process likewise. *)
Lemma plat_func_fails v rsfd n :
  v < 0 → 0 ≤ rsfd →
  plays net (eq (Exited 1)) (Plat.func n) [Did (Socket AF_INET SOCK_RAW 100) v] ∧
  plays net (eq (Exited 1)) (Plat.func (S n)) [Did (Socket AF_INET SOCK_RAW 100) rsfd; Told (Recvfrom rsfd 100) (ret_ v)].
Proof.
  intros Hv Hr. unfold Plat.func. split.
  - do 2 play. by apply plays_failed.
  - do 2 play. apply plays_error_puts; [done|]. cbn [forever]. cbv beta. inner. play. apply plays_watched; [done|done|].
    intros r E. cbn in E. subst r. change (received _ (ret_ v)) with (Ret (fresh 100)). cbv iota beta. by apply plays_failed_inner.
Qed.

(** C38: the station master.  The first three trains each take a platform that
    is free, the platforms are told, and the connection of the train is passed
    on; every later train is accepted and left waiting, since no platform
    becomes free again.  Only two platforms are told: the connection of the
    third train goes to the platform of the second, on a connection on which
    that platform has already received its one train.  A platform ends with
    status 1 when one of its calls [socket], [bind], [listen] or [accept], or
    [socket] or [recvfrom] in its thread, fails, whatever trains it has served. *)
Theorem station_master trains tsfd :
  0 ≤ tsfd → Forall sane trains →
  plays net (returns (λ g, Sm.plat_available g = take 3 (replicate (length trains `min` 3) 0 ++ [1; 1; 1])))
    (Sm.main (length trains)) (master_setup tsfd ++ concat (imap (train_session trains tsfd) trains)) ∧
  (∀ t1 t2 t3 rest, trains = t1 :: t2 :: t3 :: rest →
     target trains 0 t1 = to1 t1 ∧ target trains 1 t2 = to2 t2 ∧ target trains 2 t3 = to2 t2) ∧
  (∀ argv1 sfd xs, nonul argv1 = true → (String.length argv1 ≤ 18)%nat → 0 ≤ sfd → Forall (λ x, 0 ≤ x.1.1) xs →
     plays net (returns (λ _, True)) (Plat.main argv1 (length xs)) (plat_setup argv1 sfd ++ concat (plat_session sfd <$> xs)) ∧
     ∀ v, v < 0 → Forall (plays net (eq (Exited 1)) (Plat.main argv1 (S (length xs)))) (plat_failures argv1 sfd v xs)) ∧
  (∀ v rsfd n, v < 0 → 0 ≤ rsfd →
     plays net (eq (Exited 1)) (Plat.func n) [Did (Socket AF_INET SOCK_RAW 100) v] ∧
     plays net (eq (Exited 1)) (Plat.func (S n)) [Did (Socket AF_INET SOCK_RAW 100) rsfd; Told (Recvfrom rsfd 100) (ret_ v)]).
Proof.
  intros Ht Hs. split; [|split; [|split]].
  - eapply plays_weaken; [by apply main_plays_trains|]. by intros g [H _].
  - by intros t1 t2 t3 rest ->.
  - intros. split; [by apply plat_main_plays|]. intros. by apply plat_fails.
  - intros. by apply plat_func_fails.
Qed.

(** Four trains. *)
Lemma station_master_witness :
  plays net (returns (λ g, Sm.plat_available g = [0; 0; 0])) (Sm.main 4)
    (master_setup 3 ++
     Did (Accept 3) 4 :: told 5 "plat_socket1" ++ told 6 "plat_socket2" ++ [passes 5 4] ++
     Did (Accept 3) 7 :: told 8 "plat_socket1" ++ told 9 "plat_socket2" ++ [passes 9 7] ++
     Did (Accept 3) 10 :: told 11 "plat_socket1" ++ told 12 "plat_socket2" ++ [passes 9 10] ++
     [Did (Accept 3) 13]).
Proof.
  refine (proj1 (station_master [Train 4 5 6; Train 7 8 9; Train 10 11 12; Train 13 0 0] 3 _ _)); [lia|].
  repeat (apply Forall_cons; split; [unfold sane; cbn; lia|]). by apply Forall_nil.
Defined.
