(* ===== verification/Station.v ===== *)
(** * The station of [exam/4]: trains, platforms and fifos

    [sm.c] polls a fifo for each of three trains; it announces a train that is
    ready to all platforms, and tells it a platform that is free.  [t.c] is a
    train, [p.c] a platform.  The programs of [rawsockets/trainmain] ([Trains])
    are a later version over sockets. *)

From S2P Require Import Prelude CString Posix Session FdPass.

(** [POLLRDNORM & fdp[i].revents] *)
Definition readable (revents : list Z) (i : Z) : prog bool :=
  r ← need (aget revents i); mret (negb (Z.land POLLRDNORM r =? 0)).

(** A fifo that is made and opened for reading. *)
Definition FIFO_MODE : Z := 438.
Definition in_fifo (name : string) : prog Z :=
  do_ (Mkfifo name FIFO_MODE);;
  sysv (Open name "O_RDONLY|O_NONBLOCK").

(** ** The station master *)
Module Sm.

Definition broadcast_one (i : Z) (_ : unit) : prog unit :=
  tempbuffer ← need (sprintf (fresh 15) ("platbrod" +:+ dec (i + 1)));
  name ← str tempbuffer;
  fd_temp ← sysv (Open name "O_WRONLY");
  do_ (Write fd_temp (lit "train coming") 15);;
  do_ (Close fd_temp);;
  mret tt.

Definition broadcast_plat (message : string) : prog unit :=
  puts (message +:+ nl);;
  for_up 0 3 broadcast_one tt.

(** The handler, while it runs, is not called again. *)
Definition handler_func (sig : Z) : prog unit :=
  do_ (Signal sig "SIG_IGN");;
  puts "got signal";;
  do_ (Signal sig "handler_func").

(** The first platform that is free: [flag] and [j]. *)
Fixpoint find_platform (fuel : nat) (j : Z) (plat_available : list Z) : option (bool * Z) :=
  match fuel with
  | O => None
  | S fuel' =>
      if j <? 3 then
        a ← aget plat_available j;
        if a =? 1 then Some (true, j) else find_platform fuel' (j + 1) plat_available
      else Some (false, j)
  end.

(** What is done for the train [i]. *)
Definition serve (plat_available train_fd revents : list Z) (i : Z) (_ : unit) : prog unit :=
  b ← readable revents i;
  if (b : bool) then
    fd ← need (aget train_fd i);
    read fd (fresh 15) 15;;
    '(flag, j) ← need (find_platform 4 0 plat_available);
    if (flag : bool) then
      trainnamebuffer ← need (sprintf (fresh 15) ("train" +:+ dec (i + 1)));
      name ← str trainnamebuffer;
      broadcast_plat name;;
      platnamebuffer ← need (sprintf (fresh 15) ("plat" +:+ dec (j + 1)));
      train_acceptfd ← sysv (Open name "O_WRONLY");
      do_ (Write train_acceptfd platnamebuffer 15);;
      mret tt
    else mret tt
  else mret tt.

Definition watched (train_fd : list Z) : list pollfd := (λ fd, PollFd fd POLLRDNORM) <$> train_fd.

Definition round (plat_available train_fd : list Z) (_ : unit) : prog unit :=
  r ← sys (Poll (watched train_fd) 100);
  error_note (rv r) ("error while polling" +:+ nl);;
  for_up 0 3 (serve plat_available train_fd (rints r)) tt.

Definition open_one (i : Z) (train_fd : list Z) : prog (list Z) :=
  namebuffer ← need (sprintf (fresh 10) ("platform" +:+ dec (i + 1)));
  name ← str namebuffer;
  fd ← in_fifo name;
  error_note fd "opening the fifo file";;
  need (aset train_fd i fd).

(** [plat_available], and [train_fd], whose entries are all written before they
    are read. *)
Definition start : prog (list Z * list Z) :=
  plat_available ← need (for_up (M := option) 0 3 (λ i p, aset p i 1) (replicate 3 0));
  pid ← sysv Getpid;
  shmid ← sysv (Shmget 5678 8 true);
  do_ (Shmat shmid);;
  do_ (ShmStore 0 pid);;
  do_ (ShmStore 1 (-1));;
  do_ (Signal SIGUSR1 "handler_func");;
  train_fd ← for_up 0 3 open_one (replicate 3 0);
  mret (plat_available, train_fd).

Definition main (n : nat) : prog unit :=
  '(plat_available, train_fd) ← start; forever n (round plat_available train_fd) tt.

End Sm.

(** ** A train *)
Module Train.

Definition start (argv1 : string) : prog Z :=
  trainnamebuffer ← need (sprintf (fresh 15) ("train" +:+ argv1));
  name ← str trainnamebuffer;
  puts (name +:+ " has been created" +:+ nl);;
  train_fd ← in_fifo name;
  scan_int;;
  platbuffer ← need (sprintf (fresh 15) ("platform" +:+ argv1));
  name ← str platbuffer;
  train_fd_write ← sysv (Open name "O_WRONLY");
  error_note train_fd_write "error on opening the train port fifo";;
  do_ (Write train_fd_write (lit "ready") 10);;
  do_ (Close train_fd_write);;
  mret train_fd.

(** The value of a (signed) [char]. *)
Definition char_int (c : ascii) : Z := if char_val c <? 128 then char_val c else char_val c - 256.

Definition round (train_fd : Z) (_ : unit) : prog unit :=
  r ← sys (Poll [PollFd train_fd POLLRDNORM] 100);
  error_note (rv r) "error on polling";;
  b ← readable (rints r) 0;
  if (b : bool) then
    '(_, platform_availablebuffer) ← read train_fd (fresh 15) 15;
    c ← need (aget platform_availablebuffer 4 ≫= id);
    infobuffer ← need (sprintf (fresh 15) ("platinfo" +:+ dec (char_int c - 48)));
    name ← str infobuffer;
    fd_info ← sysv (Open name "O_WRONLY");
    do_ (Write fd_info (lit "sequence") 30);;
    puts ("train is on the platform and sleeping" +:+ nl);;
    do_ (Sleep 5);;
    do_ (Write fd_info (lit "leaving") 30);;
    do_ (Close fd_info);;
    mret tt
  else mret tt.

Definition main (argv1 : string) (n : nat) : prog unit := train_fd ← start argv1; forever n (round train_fd) tt.

End Train.

(** ** A platform *)
Module Platform.

Definition start (argv1 : string) : prog (Z * Z) :=
  broadnamebuffer ← need (sprintf (fresh 15) ("platbrod" +:+ argv1));
  broad ← str broadnamebuffer;
  infonamebuffer ← need (sprintf (fresh 15) ("platinfo" +:+ argv1));
  info ← str infonamebuffer;
  shmid ← sysv (Shmget 5678 8 false);
  do_ (Shmat shmid);;
  pid ← sysv (ShmLoad 0);
  puts ("the pid is " +:+ dec pid +:+ nl);;
  no ← sysv (ShmLoad 1);
  puts ("the no is " +:+ dec no +:+ nl);;
  do_ (Mkfifo broad FIFO_MODE);;
  do_ (Mkfifo info FIFO_MODE);;
  fd_broadcast ← sysv (Open broad "O_RDONLY|O_NONBLOCK");
  train_info ← sysv (Open info "O_RDONLY|O_NONBLOCK");
  mret (fd_broadcast, train_info).

Definition round (s : Z * Z) : prog (Z * Z) :=
  let '(fd_broadcast, train_info) := s in
  r ← sys (Poll [PollFd fd_broadcast POLLRDNORM; PollFd train_info POLLRDNORM] 0);
  error_note (rv r) "error in polling";;
  b ← readable (rints r) 0;
  if (b : bool) then
    '(_, broadbuffer) ← read fd_broadcast (fresh 15) 15;
    t ← str broadbuffer;
    puts (t +:+ nl);;
    mret s
  else
    i ← readable (rints r) 1;
    if (i : bool) then
      v ← need (aget (rints r) 1);
      puts (dec v +:+ nl);;
      '(_, infobuffer) ← read train_info (fresh 30) 30;
      t ← str infobuffer;
      (if strcmp_eq t "sequence" then puts ("got sequence" +:+ nl) else puts ("train is leaving" +:+ nl));;
      mret s
    else mret s.

Definition main (argv1 : string) (n : nat) : prog (Z * Z) := s ← start argv1; forever n round s.

End Platform.

(** ** Sessions *)

(** A train that is ready: the bytes it wrote, the fifos of the three platforms
    as the announcement opens them, and the fifo of the train. *)
Record visit := Visit { wrote : string; to_plat1 : Z; to_plat2 : Z; to_plat3 : Z; to_train : Z }.
Definition fits_in (x : visit) : Prop := (String.length (wrote x) ≤ 15)%nat.

Definition announced (fd : Z) (name : string) : list label :=
  [Did (Open name "O_WRONLY") fd; Sent fd 15 "train coming"; Did (Close fd) 0].

Definition session (train_fd : list Z) (i : nat) (x : option visit) : list label :=
  match x with
  | None => []
  | Some v =>
      Told (Read (nth i train_fd 0) 15) (bytes_ (wrote v)) ::
      announced (to_plat1 v) "platbrod1" ++ announced (to_plat2 v) "platbrod2" ++ announced (to_plat3 v) "platbrod3" ++
      [Did (Open ("train" +:+ dec (Z.of_nat i + 1)) "O_WRONLY") (to_train v); Sent (to_train v) 15 "plat1"]
  end.

(** The reply to [poll] when the descriptors with a visit are readable. *)
Definition arrived {X} (x : option X) : bool := match x with Some _ => true | None => false end.
Definition shows {X} (x : option X) (r : Z) : Prop := negb (Z.land POLLRDNORM r =? 0) = arrived x.
Definition polls (fds : list pollfd) (timeout : Z) (revents : list Z) : label :=
  Told (Poll fds timeout) (Reply (Z.of_nat (length revents)) "" revents []).

Lemma plays_readable {B X} w revents i r (x : option X) (f : bool → prog B) ls Q :
  aget revents i = Some r → shows x r → plays w Q (f (arrived x)) ls → plays w Q (readable revents i ≫= f) ls.
Proof. intros E Hs Hf. unfold readable. rewrite E. cbn. by rewrite Hs. Qed.

(** A name that is printed into a buffer, for a number of one digit. *)
Ltac named := eapply plays_need; [vm_compute; reflexivity|]; cbv beta iota.

Lemma announces i fd name :
  (i = 0 ∧ name = "platbrod1") ∨ (i = 1 ∧ name = "platbrod2") ∨ (i = 2 ∧ name = "platbrod3") →
  plays net (returns (eq tt)) (Sm.broadcast_one i tt) (announced fd name).
Proof. intros [[-> ->]|[[-> ->]|[-> ->]]]; unfold Sm.broadcast_one, announced; do 2 named; by repeat step. Qed.

Lemma broadcasts message v :
  plays net (returns (eq tt)) (Sm.broadcast_plat message)
    (announced (to_plat1 v) "platbrod1" ++ announced (to_plat2 v) "platbrod2" ++ announced (to_plat3 v) "platbrod3").
Proof.
  unfold Sm.broadcast_plat, for_up. change (Z.to_nat (3 - 0)) with 3%nat. cbn [for_n]. step.
  eapply plays_bind; [apply announces; auto|]. intros ? <-. eapply plays_bind; [apply announces; auto|]. intros ? <-.
  rewrite <- (app_nil_r (announced _ _)). eapply plays_bind; [apply announces; auto|]. intros ? <-. by step.
Qed.

Lemma plays_broadcast {B} message v (f : unit → prog B) ls Q :
  plays net Q (f tt) ls →
  plays net Q (Sm.broadcast_plat message ≫= f)
    (announced (to_plat1 v) "platbrod1" ++ announced (to_plat2 v) "platbrod2" ++ announced (to_plat3 v) "platbrod3" ++ ls).
Proof.
  intros H. rewrite (app_assoc _ (announced _ _) ls), (app_assoc _ (_ ++ _) ls). eapply plays_bind; [apply broadcasts|]. by intros ? <-.
Qed.

Definition all_free : list Z := [1; 1; 1].

(** One train: it is sent to the first platform. *)
Lemma serves train_fd revents i r x :
  (i < 3)%nat → length train_fd = 3%nat → revents !! i = Some r → shows x r → (∀ v, x = Some v → fits_in v) →
  plays net (returns (eq tt)) (Sm.serve all_free train_fd revents (Z.of_nat i) tt) (session train_fd i x).
Proof.
  intros Hi Hl Hr Hx Hv. unfold Sm.serve. eapply plays_readable; [by rewrite aget_nat|exact Hx|].
  destruct x as [v|]; cbn [arrived]; cbv beta iota; [|by step]. cbn [session].
  assert (aget train_fd (Z.of_nat i) = Some (nth i train_fd 0)) as Ef.
  { rewrite aget_nat. destruct train_fd as [|a [|b [|c []]]]; try done. destruct i as [|[|[|]]]; done || lia. }
  eapply plays_need; [exact Ef|]. cbv beta.
  eapply plays_read_told; [done|apply store_Some; rewrite cells_length, length_fresh; apply (Hv v eq_refl)|]. cbv beta.
  named. destruct i as [|[|[|]]]; [| | |lia]; do 2 named;
    (apply plays_broadcast; named; step; eapply plays_write; [done|vm_compute; reflexivity|]; by step).
Qed.

(** A poll: what every train has written, and the [revents]. *)
Record turn := Turn { ready : list (option visit); revs : list Z }.
Definition sane (x : turn) : Prop :=
  length (ready x) = 3%nat ∧ Forall2 shows (ready x) (revs x) ∧ Forall (λ o, ∀ v, o = Some v → fits_in v) (ready x).
Definition turn_session (train_fd : list Z) (x : turn) : list label :=
  polls (Sm.watched train_fd) 100 (revs x) :: concat (imap (session train_fd) (ready x)).

Lemma sane_serves train_fd x i o :
  sane x → length train_fd = 3%nat → ready x !! i = Some o →
  plays net (returns (eq tt)) (Sm.serve all_free train_fd (revs x) (Z.of_nat i) tt) (session train_fd i o).
Proof.
  intros (Hl & Hs & Hf) Ht Ho. destruct (Forall2_lookup_l _ _ _ _ _ Hs Ho) as (r & Hr & Hsr).
  rewrite Forall_lookup in Hf. eapply serves; eauto. by rewrite <- Hl; apply lookup_lt_Some in Ho.
Qed.

Lemma station_round train_fd x :
  sane x → length train_fd = 3%nat → plays net (returns (eq tt)) (Sm.round all_free train_fd tt) (turn_session train_fd x).
Proof.
  intros Hx Ht. pose proof (sane_serves train_fd x) as H. pose proof Hx as (Hl & _ & _). unfold Sm.round, turn_session, polls.
  step. cbn [rv rints]. step. destruct (ready x) as [|a [|b [|c []]]]; try done.
  unfold for_up. change (Z.to_nat (3 - 0)) with 3%nat. cbn [for_n]. change (concat _) with
    (session train_fd 0 a ++ session train_fd 1 b ++ session train_fd 2 c ++ []).
  eapply plays_bind; [by apply (H 0%nat a)|]. intros ? <-. eapply plays_bind; [by apply (H 1%nat b)|]. intros ? <-.
  eapply plays_bind; [by apply (H 2%nat c)|]. intros ? <-. by step.
Qed.

Definition opens (name : string) (fd : Z) : list label := [Did (Mkfifo name FIFO_MODE) 0; Did (Open name "O_RDONLY|O_NONBLOCK") fd].
Definition opening (pid shmid : Z) (a b c : Z) : list label :=
  [Did Getpid pid; Did (Shmget 5678 8 true) shmid; Did (Shmat shmid) 0; Did (ShmStore 0 pid) 0; Did (ShmStore 1 (-1)) 0;
   Did (Signal SIGUSR1 "handler_func") 0] ++
  opens "platform1" a ++ opens "platform2" b ++ opens "platform3" c.

Lemma plays_in_fifo {B} name fd (f : Z → prog B) ls Q :
  plays net Q (f fd) ls → plays net Q (in_fifo name ≫= f) (opens name fd ++ ls).
Proof.
  intros H. eapply (plays_bind _ (eq fd)); [|by intros ? <-]. unfold in_fifo, opens. step.
  apply plays_watched; [done|done|]. intros r Hr. by apply plays_return.
Qed.

Lemma open_ones i fd name fds :
  0 ≤ fd → sprintf (fresh 10) ("platform" +:+ dec (i + 1)) = Some (lit name) →
  cstr (lit name) = Some name → 0 ≤ i < Z.of_nat (length fds) →
  plays net (returns (eq (<[Z.to_nat i:=fd]> fds))) (Sm.open_one i fds) (opens name fd).
Proof.
  intros Hfd En Hn Hi. unfold Sm.open_one. eapply plays_need; [exact En|]. cbv beta.
  eapply plays_need; [exact Hn|]. cbv beta. rewrite <- (app_nil_r (opens _ _)). apply plays_in_fifo. step.
  rewrite aset_Some by done. by apply plays_return.
Qed.

Lemma opens_all a b c :
  0 ≤ a → 0 ≤ b → 0 ≤ c →
  plays net (returns (eq [a; b; c])) (for_up 0 3 Sm.open_one (replicate 3 0))
    (opens "platform1" a ++ opens "platform2" b ++ opens "platform3" c).
Proof.
  intros Ha Hb Hc. unfold for_up. change (Z.to_nat (3 - 0)) with 3%nat. cbn [for_n].
  eapply plays_bind; [by eapply (open_ones 0 a "platform1" (replicate 3 0))|]. intros ? <-.
  eapply plays_bind; [by eapply (open_ones 1 b "platform2" [a; 0; 0])|]. intros ? <-.
  eapply plays_last; [by eapply (open_ones 2 c "platform3" [a; b; 0])|]. intros ? <-. by step.
Qed.

Lemma station_starts pid shmid a b c :
  0 ≤ a → 0 ≤ b → 0 ≤ c → plays net (returns (eq (all_free, [a; b; c]))) Sm.start (opening pid shmid a b c).
Proof.
  intros Ha Hb Hc. unfold Sm.start, opening. named. cbn [app]. do 6 step.
  eapply plays_last; [by apply opens_all|]. intros ? <-. by step.
Qed.

(** *** Trains *)

(** What a train does when it is told the platform [d]. *)
Definition visits (train_fd info d : Z) : list label :=
  [Got train_fd 15 ("plat" +:+ dec d); Did (Open ("platinfo" +:+ dec d) "O_WRONLY") info; Sent info 30 "sequence"; Sent info 30 "leaving";
   Did (Close info) 0].

Lemma fifth b s c : cstr b = Some s → list_ascii_of_string s !! 4%nat = Some c → aget b 4 ≫= id = Some c.
Proof.
  intros (_ & rest & ->)%cstr_inv Hc. pose proof (lookup_lt_Some _ _ _ Hc). change 4 with (Z.of_nat 4). rewrite aget_nat.
  unfold lit. rewrite <- app_assoc. by rewrite lookup_app_l, list_lookup_fmap, Hc by (rewrite length_fmap; lia).
Qed.

Lemma train_round train_fd info d r (x : option unit) :
  1 ≤ d ≤ 3 → shows x r →
  plays net (returns (eq tt)) (Train.round train_fd tt)
    (polls [PollFd train_fd POLLRDNORM] 100 [r] :: if (arrived x) then visits train_fd info d else []).
Proof.
  intros Hd Hx. unfold Train.round, polls. do 2 step. eapply plays_readable; [reflexivity|exact Hx|].
  destruct x; cbn [arrived]; cbv beta iota; [|by step]. unfold visits. step.
  assert (d = 1 ∨ d = 2 ∨ d = 3) as [-> |[-> | ->]] by lia;
    (eapply plays_need; [eapply fifth; [eassumption|vm_compute; reflexivity]|]; cbv beta; do 2 named; by repeat step).
Qed.

Definition departs (argv1 : string) (train_fd w typed : Z) : list label :=
  opens ("train" +:+ argv1) train_fd ++
  [Told ScanInt (ints_ [typed]); Did (Open ("platform" +:+ argv1) "O_WRONLY") w; Sent w 10 "ready"; Did (Close w) 0].

(** A formatted name whose length is known. *)
Lemma plays_name {B} w n prefix argv1 (f : string → prog B) ls Q :
  nonul prefix = true → nonul argv1 = true → (String.length prefix + String.length argv1 < n)%nat →
  plays w Q (f (prefix +:+ argv1)) ls →
  plays w Q (need (sprintf (fresh n) (prefix +:+ argv1)) ≫= λ b, str b ≫= f) ls.
Proof.
  intros Hp Ha Hl H. destruct (sprintf_fits (fresh n) (prefix +:+ argv1)) as (b & E & Hc & _).
  - by rewrite nonul_app, Hp, Ha.
  - rewrite length_fresh, string_length_app. lia.
  - eapply plays_need; [exact E|]. by eapply plays_need.
Qed.

Lemma train_starts argv1 train_fd w typed :
  nonul argv1 = true → (String.length argv1 < 7)%nat → 0 ≤ w →
  plays net (returns (eq train_fd)) (Train.start argv1) (departs argv1 train_fd w typed).
Proof.
  intros Ha Hl Hw. unfold Train.start, departs. apply plays_name; [done|done|cbn; lia|]. step.
  apply plays_in_fifo. step. apply plays_name; [done|done|cbn; lia|]. repeat step. done.
Qed.

(** *** Platforms *)

Definition platform_opening (argv1 : string) (pid no shmid fd_broadcast train_info : Z) : list label :=
  [Did (Shmget 5678 8 false) shmid; Did (Shmat shmid) 0; Did (ShmLoad 0) pid; Did (ShmLoad 1) no;
   Did (Mkfifo ("platbrod" +:+ argv1) FIFO_MODE) 0; Did (Mkfifo ("platinfo" +:+ argv1) FIFO_MODE) 0;
   Did (Open ("platbrod" +:+ argv1) "O_RDONLY|O_NONBLOCK") fd_broadcast; Did (Open ("platinfo" +:+ argv1) "O_RDONLY|O_NONBLOCK") train_info].

Lemma platform_starts argv1 pid no shmid fd_broadcast train_info :
  nonul argv1 = true → (String.length argv1 < 7)%nat →
  plays net (returns (eq (fd_broadcast, train_info))) (Platform.start argv1) (platform_opening argv1 pid no shmid fd_broadcast train_info).
Proof.
  intros Ha Hl. unfold Platform.start, platform_opening.
  apply plays_name; [done|done|cbn; lia|]. apply plays_name; [done|done|cbn; lia|]. repeat step. done.
Qed.

(** What has come: an announcement, and what a train says.  An announcement is
    read first. *)
Definition hears (fd_broadcast train_info r : Z) (announcement info : option string) : list label :=
  match announcement, info with
  | Some t, _ => [Got fd_broadcast 15 t; prints t]
  | None, Some t => [prints (dec r); Got train_info 30 t; prints (if String.eqb t "sequence" then "got sequence" else "train is leaving")]
  | None, None => []
  end.

Lemma platform_round fd_broadcast train_info r1 r2 announcement info :
  shows announcement r1 → shows info r2 →
  plays loud (returns (eq (fd_broadcast, train_info))) (Platform.round (fd_broadcast, train_info))
    (polls [PollFd fd_broadcast POLLRDNORM; PollFd train_info POLLRDNORM] 0 [r1; r2] :: hears fd_broadcast train_info r2 announcement info).
Proof.
  intros H1 H2. unfold Platform.round, polls, prints. do 2 step. eapply plays_readable; [reflexivity|exact H1|].
  destruct announcement as [t|]; cbn [arrived hears]; cbv beta iota.
  - step. unfold puts, prints. repeat step. done.
  - eapply plays_readable; [reflexivity|exact H2|]. destruct info as [t|]; cbn [arrived]; cbv beta iota; [|by step].
    unfold puts, prints. do 4 step. unfold strcmp_eq. destruct (String.eqb t "sequence"); repeat step; done.
Qed.

(** ** The theorem *)

(** C36: The station of [exam/4].  Over any number of polls, with any trains ready
    in each, the station master reads what every ready train has written,
    announces it to the three platforms, and tells it platform 1, in the order
    of the trains: no platform is ever marked as taken.  A train that is told a
    platform says to that platform, and to no other, that it has come and that
    it leaves; a platform prints its announcements first, and then what a train
    says. *)
Theorem station_serves pid shmid a b c turns :
  0 ≤ a → 0 ≤ b → 0 ≤ c → Forall sane turns →
  plays net (returns (eq tt)) (Sm.main (length turns)) (opening pid shmid a b c ++ concat (turn_session [a; b; c] <$> turns)) ∧
  (∀ argv1 train_fd w typed info tolds,
   nonul argv1 = true → (String.length argv1 < 7)%nat → 0 ≤ w → Forall (λ x, ∃ r d, x = (r, d) ∧ 1 ≤ d ≤ 3 ∧ shows (Some tt) r) tolds →
   plays net (returns (eq tt)) (Train.main argv1 (length tolds))
     (departs argv1 train_fd w typed ++
      concat ((λ x, polls [PollFd train_fd POLLRDNORM] 100 [x.1] :: visits train_fd info x.2) <$> tolds))) ∧
  (∀ argv1 no fd_broadcast train_info,
   nonul argv1 = true → (String.length argv1 < 7)%nat →
   plays net (returns (eq (fd_broadcast, train_info))) (Platform.start argv1)
     (platform_opening argv1 pid no shmid fd_broadcast train_info) ∧
   ∀ r1 r2 announcement info, shows announcement r1 → shows info r2 →
   plays loud (returns (eq (fd_broadcast, train_info))) (Platform.round (fd_broadcast, train_info))
     (polls [PollFd fd_broadcast POLLRDNORM; PollFd train_info POLLRDNORM] 0 [r1; r2] ::
      hears fd_broadcast train_info r2 announcement info)).
Proof.
  intros Ha Hb Hc Ht. split; [|split].
  - unfold Sm.main. eapply plays_bind; [by apply station_starts|]. intros ? <-.
    apply (plays_forever_list net (λ _ s, tt = s)); [|done]. intros d x rest [] E _. apply station_round; [|done].
    rewrite Forall_forall in Ht. apply Ht. rewrite E. apply elem_of_app. right. by left.
  - intros argv1 train_fd w typed info tolds Hn Hl Hw Htolds. unfold Train.main. eapply plays_bind; [by apply train_starts|]. intros ? <-.
    apply (plays_forever_list net (λ _ s, tt = s)); [|done]. intros d x rest [] E _.
    rewrite Forall_forall in Htolds. destruct (Htolds x) as (r & p & -> & Hp & Hr).
    { rewrite E. apply elem_of_app. right. by left. }
    by apply (train_round train_fd info p r (Some tt)).
  - intros argv1 no fd_broadcast train_info Hn Hl. split; [by apply platform_starts|]. intros. by apply platform_round.
Qed.

(** Trains 1 and 3 are ready at once: both are sent to platform 1. *)
Lemma station_serves_witness :
  plays net (returns (eq tt)) (Sm.main 1)
    (opening 77 0 3 4 5 ++
     polls (Sm.watched [3; 4; 5]) 100 [64; 0; 64] ::
     (Told (Read 3 15) (bytes_ "ready") ::
      announced 6 "platbrod1" ++ announced 6 "platbrod2" ++ announced 6 "platbrod3" ++ [Did (Open "train1" "O_WRONLY") 6; Sent 6 15 "plat1"]) ++
     (Told (Read 5 15) (bytes_ "ready") ::
      announced 7 "platbrod1" ++ announced 7 "platbrod2" ++ announced 7 "platbrod3" ++ [Did (Open "train3" "O_WRONLY") 7; Sent 7 15 "plat1"])).
Proof.
  refine (proj1 (station_serves 77 0 3 4 5 [Turn [Some (Visit "ready" 6 6 6 6); None; Some (Visit "ready" 7 7 7 7)] [64; 0; 64]] _ _ _ _)); try lia.
  apply List.Forall_cons; [|apply List.Forall_nil]. split; [reflexivity|]. split.
  - repeat constructor.
  - repeat (apply List.Forall_cons || apply List.Forall_nil); intros v [= <-]; unfold fits_in; cbn; lia.
Defined.
