(* ===== verification/Registry.v ===== *)
(** * The registry of services of [mid/mss]

    [server.c] waits with [select] for services, which register the port they
    listen on, and for clients, which ask for a service by its number and get
    the port; [client.c] is the client, [server1.c] to [server3.c] register
    themselves and serve. *)

From stdpp Require Import gmap sets.
From S2P Require Import Prelude CString Posix Session FdPass Fifo.

#[local] Open Scope Z_scope.

Definition max_services : nat := 5.

Record service := Service { port : Z; sfd : Z; available : Z }.

(** The global [services] at the start. *)
Definition services_init : list service := replicate max_services (Service 0 0 0).

(** [select(max_fd+1,&readset,NULL,NULL,NULL)] on the set of [rep]. *)
Definition rep (ssfd csfd : Z) : fd_set * Z :=
  (FD_SET csfd (FD_SET ssfd ∅), if csfd <? ssfd then ssfd else csfd).

Definition select_on (max_fd : Z) (readset : fd_set) : prog (Z * fd_set) :=
  r ← sys (Select (max_fd + 1) (elements readset) true);
  mret (rv r, list_to_set (rints r)).

(** The report on the peer's address; the kernel's answer is the port and the
    address as text. *)
Definition print_peer (call : string) (nfd : Z) : prog unit :=
  r ← sys (LibCall call [nfd] []);
  p ← need (head (rints r));
  puts ("The port is" +:+ dec p +:+ nl);;
  puts ("Peer IP address: " +:+ rdata r +:+ nl).

(** A service connects: lines 100-138. *)
Definition register (ssfd : Z) (s : list service * Z) : prog (list service * Z) :=
  let '(services, no_of_services) := s in
  a ← sys (Accept ssfd);
  let nfd := rv a in
  do_ (Perror "accept:");;
  p ← need (head (rints a));
  puts (dec p +:+ nl);;
  print_peer "getpeername" nfd;;
  error_note nfd "accept error";;
  old ← need (aget services no_of_services);
  services ← need (aset services no_of_services (Service (port old) nfd 1));
  '(_, portbuffer) ← recv nfd (fresh 10) 10;
  text ← str portbuffer;
  port ← need (atoi text);
  puts ("connected port :" +:+ dec port +:+ nl);;
  services ← need (aset services no_of_services (Service port nfd 1));
  mret (services, no_of_services + 1).

(** A client asks: lines 142-166. *)
Definition lookup_service (csfd : Z) (services : list service) : prog unit :=
  nfd ← sysv (Accept csfd);
  error_note nfd "accept error";;
  do_ (Perror "accept:");;
  '(_, servbuffer) ← recv nfd (zeroed 10) 10;
  text ← str servbuffer;
  serv_index ← need (atoi text);
  puts ("service requested is" +:+ dec serv_index +:+ nl);;
  s ← need (aget services (serv_index - 1));
  if available s =? 0 then
    puts ("service not available" +:+ nl);;
    do_ (Close nfd)
  else
    puts (dec (port s) +:+ nl);;
    puts ("service is available" +:+ nl);;
    servportbuffer ← need (sprintf (zeroed 10) (dec (port s)));
    t ← str servportbuffer;
    puts (t +:+ nl);;
    do_ (Send nfd servportbuffer 10);;
    do_ (Close nfd).

(** One round of the loop over the descriptors, which does not look at [i]:
    only the set is asked, and only [ssfd] is taken out of it. *)
Definition dispatch (ssfd csfd : Z) (i : Z) (s : fd_set * (list service * Z)) : prog (fd_set * (list service * Z)) :=
  let '(readset, reg) := s in
  if FD_ISSET ssfd readset then
    reg ← register ssfd reg;
    mret (readset ∖ {[ssfd]}, reg)
  else if FD_ISSET csfd readset then
    lookup_service csfd reg.1;;
    mret (readset, reg)
  else mret (readset, reg).

Definition round (ssfd csfd : Z) (reg : list service * Z) : prog (list service * Z) :=
  let '(readset, max_fd) := rep ssfd csfd in
  puts ("max fd: " +:+ dec max_fd +:+ nl);;
  '(v, readset) ← select_on max_fd readset;
  error_note v "select call error";;
  s ← for_up 0 (max_fd + 1) (dispatch ssfd csfd) (readset, reg);
  mret s.2.

Definition main (n : nat) : prog (list service * Z) :=
  ssfd ← sysv (Socket AF_INET SOCK_STREAM 0);
  error_note ssfd "socket call error";;
  csfd ← sysv (Socket AF_INET SOCK_STREAM 0);
  error_note csfd "socket call error";;
  puts (dec ssfd +:+ nl);;
  puts (dec csfd +:+ nl);;
  s ← sysv (Setsockopt ssfd "SO_REUSEADDR");
  error_note s "calling sockpot";;
  s ← sysv (Setsockopt csfd "SO_REUSEADDR");
  error_note s "calling sockpot";;
  b ← sysv (Bind ssfd (SaIn (htons 8000) INADDR_ANY));
  error_note b "bind error";;
  b ← sysv (Bind csfd (SaIn (htons 9000) INADDR_ANY));
  error_note b "bind error1";;
  do_ (Perror "bind :");;
  l ← sysv (Listen ssfd 5);
  error_note l "listen error";;
  l ← sysv (Listen csfd 3);
  error_note l "listen error";;
  forever n (round ssfd csfd) (services_init, 0).

(** ** Sessions *)

(** A service that registers: its connection, the peer's port and address, and
    the port it sends. *)
Record registration := Registration { rfd : Z; peer : Z; address : string; rport : Z }.

Definition register_session (ssfd : Z) (x : registration) : list label :=
  [Told (Accept ssfd) (Reply (rfd x) EmptyString [peer x] []);
   Told (LibCall "getpeername" [rfd x] []) (Reply 0 (address x) [peer x] []);
   Got (rfd x) 10 (dec (rport x))].

(** A client: its connection and the number it asks for. *)
Definition answer (services : list service) (x : Z * Z) : list label :=
  match services !! Z.to_nat (x.2 - 1) with
  | Some s => if available s =? 0 then [] else [Sent x.1 10 (dec (port s))]
  | None => []
  end.

Definition lookup_session (csfd : Z) (services : list service) (x : Z * Z) : list label :=
  [Did (Accept csfd) x.1; Got x.1 10 (dec x.2)] ++ answer services x ++ [Did (Close x.1) 0].

Definition greater (ssfd csfd : Z) : Z := if csfd <? ssfd then ssfd else csfd.

Definition selected (ssfd csfd fd : Z) : label :=
  Told (Select (greater ssfd csfd + 1) (elements (FD_SET csfd (FD_SET ssfd ∅))) true) (ints_ [fd]).

Definition short (p : Z) : Prop := (String.length (dec p) < 10)%nat ∧ fits_int p = true.

(** Every port in the registry can be sent. *)
Definition sendable (services : list service) : Prop :=
  length services = max_services ∧ Forall (λ s, available s = 0 ∨ short (port s)) services.

Definition added (services : list service) (no : nat) (x : registration) : list service :=
  <[no := Service (rport x) (rfd x) 1]> services.

Lemma register_plays ssfd services no x :
  (no < max_services)%nat → length services = max_services → 0 ≤ rfd x → fits_int (rport x) = true →
  plays net (returns (eq (added services no x, Z.of_nat (S no)))) (register ssfd (services, Z.of_nat no))
    (register_session ssfd x).
Proof.
  intros Hn Hl Hf Hp. unfold register, register_session, print_peer. step. cbn [head rints rv]. do 3 step.
  apply (plays_bind _ (λ _, True) _ _ [_]); [step; cbn [head rints rdata]; by repeat step|intros _ _]. step.
  destruct (lookup_lt_is_Some_2 services no) as [old Ho]; [lia|].
  eapply plays_need; [by rewrite aget_nat|].
  eapply plays_need; [apply aset_Some; lia|]. do 2 step. step. step.
  eapply plays_need; [apply aset_Some; rewrite length_insert; lia|]. step.
  unfold added. rewrite Nat2Z.id, list_insert_insert_eq. f_equal. lia.
Qed.

Lemma lookup_plays csfd services x :
  sendable services → 0 ≤ x.1 → fits_int x.2 = true → 1 ≤ x.2 ≤ 5 →
  plays net (returns (λ _, True)) (lookup_service csfd services) (lookup_session csfd services x).
Proof.
  intros [Hl Hs] H1 Hfit H2. unfold lookup_service, lookup_session, answer. cbn [app]. repeat step; [by apply Z.leb_le|].
  destruct (lookup_lt_is_Some_2 services (Z.to_nat (x.2 - 1))) as [s E]; [rewrite Hl; unfold max_services; lia|].
  eapply plays_need; [unfold aget; rewrite decide_True by lia; exact E|]. rewrite E.
  pose proof (Forall_lookup_1 _ _ _ _ Hs E) as Hp. cbn in Hp. destruct (Z.eqb_spec (available s) 0).
  - cbn [app]. step. apply plays_watched; [done|done|]. intros. by apply plays_return.
  - destruct Hp as [Hp|[Hp _]]; [done|]. cbn [app]. do 2 step.
    destruct (sprintf_fits (zeroed 10) (dec (port s))) as (b & Eb & Hc & _); [apply dec_nonul|done|].
    eapply plays_need; [exact Eb|]. repeat step. apply plays_watched; [done|done|]. intros. by apply plays_return.
Qed.

Lemma FD_sets ssfd csfd :
  ssfd ≠ csfd →
  FD_ISSET ssfd (list_to_set [ssfd]) = true ∧ FD_ISSET csfd (list_to_set [csfd]) = true ∧
  FD_ISSET ssfd (list_to_set [csfd]) = false ∧
  FD_ISSET ssfd (list_to_set [ssfd] ∖ {[ssfd]}) = false ∧ FD_ISSET csfd (list_to_set [ssfd] ∖ {[ssfd]}) = false.
Proof.
  intros Hne. unfold FD_ISSET. repeat split; first [apply bool_decide_eq_true_2|apply bool_decide_eq_false_2]; set_solver.
Qed.

(** The round up to the loop. *)
Lemma round_selects ssfd csfd fd reg ls Q :
  plays net Q (for_up 0 (greater ssfd csfd + 1) (dispatch ssfd csfd) (list_to_set [fd], reg) ≫= λ s, mret s.2) ls →
  plays net Q (round ssfd csfd reg) (selected ssfd csfd fd :: ls).
Proof.
  intros H. unfold round, selected, rep, select_on. fold (greater ssfd csfd). step.
  change ((?p ≫= ?f) ≫= ?g) with (p ≫= λ x, f x ≫= g). step. cbn [rints rv ints_ mret prog_mret mbind prog_mbind prog_bind].
  apply plays_note; [done|]. exact H.
Qed.

Lemma round_registers ssfd csfd services no x :
  0 ≤ ssfd → 0 ≤ csfd → ssfd ≠ csfd → (no < max_services)%nat → length services = max_services →
  0 ≤ rfd x → fits_int (rport x) = true →
  plays net (returns (eq (added services no x, Z.of_nat (S no)))) (round ssfd csfd (services, Z.of_nat no))
    (selected ssfd csfd ssfd :: register_session ssfd x).
Proof.
  intros Hs Hc Hne Hn Hl Hf Hp. destruct (FD_sets ssfd csfd Hne) as (E1 & _ & _ & E4 & E5).
  apply round_selects. rewrite <- (app_nil_r (register_session ssfd x)).
  eapply (plays_last _ (eq (list_to_set [ssfd] ∖ {[ssfd]}, (added services no x, Z.of_nat (S no))))); [|intros s <-; by step].
  unfold for_up. replace (Z.to_nat (greater ssfd csfd + 1 - 0)) with (1 + Z.to_nat (greater ssfd csfd))%nat
    by (unfold greater; destruct (csfd <? ssfd); lia).
  cbn [Nat.add for_n].
  eapply (plays_bind _ (eq (list_to_set [ssfd] ∖ {[ssfd]}, (added services no x, Z.of_nat (S no))))).
  - unfold dispatch. rewrite E1. eapply plays_last; [by apply register_plays|]. intros r <-. step. reflexivity.
  - intros s <-. set (reg' := (added _ _ _, _)). clearbody reg'.
    generalize (0 + 1) as lo. induction (Z.to_nat (greater ssfd csfd)) as [|n IH]; intros lo; [by apply plays_return|].
    cbn [for_n]. apply (plays_skip _ (eq (list_to_set [ssfd] ∖ {[ssfd]}, reg'))); [|intros s <-; apply IH].
    unfold dispatch. rewrite E4, E5. by step.
Qed.

Definition asks_well (x : Z * Z) : Prop := 0 ≤ x.1 ∧ fits_int x.2 = true ∧ 1 ≤ x.2 ≤ 5.

Lemma round_looks_up ssfd csfd services no clients :
  ssfd ≠ csfd → sendable services → Forall asks_well clients →
  Z.of_nat (length clients) = greater ssfd csfd + 1 →
  plays net (returns (eq (services, no))) (round ssfd csfd (services, no))
    (selected ssfd csfd csfd :: concat (lookup_session csfd services <$> clients)).
Proof.
  intros Hne Hs Hc Hl. destruct (FD_sets ssfd csfd Hne) as (_ & E2 & E3 & _ & _).
  apply round_selects. rewrite <- Hl, <- (Z.add_0_l (Z.of_nat _)).
  eapply (plays_last _ (eq (list_to_set [csfd], (services, no)))); [|intros s <-; by step].
  apply (plays_for_list net (λ _, eq (list_to_set [csfd], (services, no)))); [|done].
  intros d x rest s E <-. unfold dispatch. rewrite E3, E2.
  assert (asks_well x) as (H1 & H2 & H3).
  { eapply (Forall_lookup_1 _ _ (length d)); [exact Hc|]. by rewrite E, list_lookup_middle. }
  eapply plays_last; [by apply lookup_plays|]. intros [] _. by step.
Qed.

Definition setup (ssfd csfd : Z) : list label :=
  [Did (Socket AF_INET SOCK_STREAM 0) ssfd; Did (Socket AF_INET SOCK_STREAM 0) csfd;
   Did (Setsockopt ssfd "SO_REUSEADDR") 0; Did (Setsockopt csfd "SO_REUSEADDR") 0;
   Did (Bind ssfd (SaIn (htons 8000) INADDR_ANY)) 0; Did (Bind csfd (SaIn (htons 9000) INADDR_ANY)) 0;
   Did (Listen ssfd 5) 0; Did (Listen csfd 3) 0].

(** *** Any sequence of rounds *)

Inductive turn := Registers (x : registration) | Asks (clients : list (Z * Z)).

Section turns.
Context (ssfd csfd : Z).

Fixpoint session (services : list service) (no : nat) (ts : list turn) : list label :=
  match ts with
  | [] => []
  | Registers x :: ts => (selected ssfd csfd ssfd :: register_session ssfd x) ++ session (added services no x) (S no) ts
  | Asks clients :: ts =>
      (selected ssfd csfd csfd :: concat (lookup_session csfd services <$> clients)) ++ session services no ts
  end.

(** The registry: the services in the order they registered. *)
Fixpoint registered (services : list service) (no : nat) (ts : list turn) : list service * nat :=
  match ts with
  | [] => (services, no)
  | Registers x :: ts => registered (added services no x) (S no) ts
  | Asks _ :: ts => registered services no ts
  end.

Definition well_behaved (t : turn) : Prop :=
  match t with
  | Registers x => 0 ≤ rfd x ∧ short (rport x)
  | Asks clients => Forall asks_well clients ∧ Z.of_nat (length clients) = greater ssfd csfd + 1
  end.

Lemma sendable_added services no x : sendable services → short (rport x) → sendable (added services no x).
Proof.
  intros [Hl Hs] Hx. split; [by unfold added; rewrite length_insert|]. apply Forall_insert; [done|]. by right.
Qed.

Lemma sendable_init : sendable services_init.
Proof. split; [done|]. apply Forall_replicate. by left. Qed.

Lemma turns_play services no ts :
  0 ≤ ssfd → 0 ≤ csfd → ssfd ≠ csfd → sendable services → Forall well_behaved ts →
  ((registered services no ts).2 ≤ max_services)%nat →
  plays net (returns (eq ((registered services no ts).1, Z.of_nat (registered services no ts).2)))
    (forever (length ts) (round ssfd csfd) (services, Z.of_nat no)) (session services no ts).
Proof.
  intros H1 H2 H3. revert services no. induction ts as [|[x|clients] ts IH]; intros services no Hs Hts Hno;
    cbn [registered session length forever] in *; [by apply plays_return| |];
    apply Forall_cons in Hts as [Ht Hts]; cbn in Ht.
  - destruct Ht as [Hf Hp]. eapply plays_bind; [apply round_registers; try done; [|apply Hs|apply Hp]|].
    + assert (∀ ts services no, no ≤ (registered services no ts).2)%nat as Hmono.
      { clear. induction ts as [|[x|c] ts IH]; intros services no; cbn; [done| |apply IH].
        specialize (IH (added services no x) (S no)). lia. }
      specialize (Hmono ts (added services no x) (S no)). lia.
    + intros r <-. apply IH; [by apply sendable_added|done..].
  - destruct Ht as [Hc Hl]. eapply plays_bind; [by apply round_looks_up|]. intros r <-. by apply IH.
Qed.
End turns.

(** C39: the registry.  Whatever sequence of rounds, with one of the two sockets
    ready in each, [select] makes of services
    that register (five at most) and clients that ask, the registry holds the
    services in the order of their registration, and every client is sent the
    port of the service it asked for, or nothing when that is not registered.
    A round on the clients' socket ends only after [max_fd + 1] clients, since
    the socket stays in the set.  The sixth registration writes, and a number
    outside of 1 to 5 reads, past the array. *)
Theorem registry_serves ssfd csfd ts :
  0 ≤ ssfd → 0 ≤ csfd → ssfd ≠ csfd → Forall (well_behaved ssfd csfd) ts →
  ((registered services_init 0 ts).2 ≤ max_services)%nat →
  plays net (returns (eq ((registered services_init 0 ts).1, Z.of_nat (registered services_init 0 ts).2)))
    (main (length ts)) (setup ssfd csfd ++ session ssfd csfd services_init 0 ts) ∧
  (∀ services x, length services = max_services → 0 ≤ rfd x →
     plays net (eq UB) (register ssfd (services, Z.of_nat max_services)) (take 2 (register_session ssfd x))) ∧
  (∀ services nfd k, length services = max_services → 0 ≤ nfd → fits_int k = true → ¬ 1 ≤ k ≤ 5 →
     plays net (eq UB) (lookup_service csfd services) [Did (Accept csfd) nfd; Got nfd 10 (dec k)]).
Proof.
  intros H1 H2 H3 Hts Hno. split; [|split].
  - unfold main, setup. cbn [app]. repeat step. apply (turns_play ssfd csfd services_init 0); [done..|apply sendable_init|done|done].
  - intros services x Hl Hf. unfold register, register_session, print_peer. cbn [take]. step. cbn [head rints rv].
    do 3 step. apply (plays_bind _ (λ _, True) _ _ [_]); [step; cbn [head rints rdata]; by repeat step|intros _ _]. step.
    apply plays_undef, aget_None. lia.
  - intros services nfd k Hl Hf Hfit Hk. unfold lookup_service. repeat step; [by apply Z.leb_le|].
    apply plays_undef, aget_None. rewrite Hl. unfold max_services. lia.
Qed.

(** One service, on descriptors that leave room for five clients. *)
Lemma registry_serves_witness :
  plays net (returns (eq (added services_init 0 (Registration 5 40000 "127.0.0.1" 8001), 1))) (main 2)
    (setup 3 4 ++ selected 3 4 3 :: register_session 3 (Registration 5 40000 "127.0.0.1" 8001) ++
     selected 3 4 4 ::
     [Did (Accept 4) 6; Got 6 10 "1"; Sent 6 10 "8001"; Did (Close 6) 0;
      Did (Accept 4) 6; Got 6 10 "2"; Did (Close 6) 0;
      Did (Accept 4) 6; Got 6 10 "1"; Sent 6 10 "8001"; Did (Close 6) 0;
      Did (Accept 4) 6; Got 6 10 "5"; Did (Close 6) 0;
      Did (Accept 4) 6; Got 6 10 "1"; Sent 6 10 "8001"; Did (Close 6) 0]).
Proof.
  refine (proj1 (registry_serves 3 4 [Registers (Registration 5 40000 "127.0.0.1" 8001);
    Asks [(6, 1); (6, 2); (6, 1); (6, 5); (6, 1)]] _ _ _ _ _)); try lia.
  - apply Forall_cons; split; [|apply Forall_cons; split; [|by apply Forall_nil]]; cbn.
    + split; [lia|]. split; [apply Nat.ltb_lt; by vm_compute|done].
    + split; [|done]. repeat (apply Forall_cons; split; [unfold asks_well; cbn; repeat split; lia|]). by apply Forall_nil.
  - cbn. unfold max_services. lia.
Defined.
